(* ===== verification/_CoqProject ===== *)
-Q . S2P
Prelude.v
Proto.v
RaftPb.v
RaftPbTyped.v
RaftPbCodec.v
ProtoChecked.v
Quorum.v
Tracker.v
ConfChanger.v
Storage.v
RaftLog.v
Raft.v
Node.v
GoStd.v
RaftPbEnum.v
Logging.v
GoFloat.v
Membership.v
EtcdPb.v
EtcdPbCodec.v
Requests.v
Stats.v
Lease.v
Backend.v
Fileutil.v
Wal.v
Server.v
Restart.v
Urls.v
Flags.v
Embed.v
EtcdMain.v
Help.v
Stores.v
ApiErrors.v
Listeners.v
Serving.v
Rpc.v
Gateway.v
Metrics.v
