(* ===== verification/Prelude.v ===== *)
(** * etcd-cr: a verification library

    etcd-cr is a reading copy of etcd: a server that replicates a key-value
    store with the Raft protocol.  This library models the protocol core and the
    server around it as executable Rocq definitions and proves them correct
    where they are, and characterises what they do where they are not finished.

    ** The program and its parts

    - src/raft/raftpb: the messages and their wire format;
    - src/raft/quorum, src/raft/tracker, src/raft/confchange: configurations,
      votes and progress, and changes of the configuration;
    - src/raft/storage.go, log.go, log_unstable.go: the log, persistent and not;
    - src/raft/raft.go, rawnode.go, bootstrap.go, node.go: the state machine of
      one node, and the loop that serves its channels;
    - src/etcdserver/api/membership: the members of a cluster;
    - src/pkg/idutil, src/pkg/wait, src/etcdserver/v3_server.go: client requests,
      which wait for the result of their proposal;
    - src/etcdserver/etcdserverpb, src/mvcc/mvccpb: the messages of the service and
      of the log, with their wire format;
    - src/etcdserver: configuration, construction, start and loop of the server,
      which drives a raft node, a backend (src/mvcc/backend), a lessor
      (src/lease), statistics (v2stats) and a transport (rafthttp);
    - src/wal, src/pkg/fileutil: the write-ahead log and the files of a member;
    - src/pkg/types, src/pkg/flags, src/embed, src/etcdmain: URLs, flags, the
      configuration of a member and the start of the process, from its command
      line to a running server;
    - src/pkg/transport, src/embed/serve.go, src/etcdserver/api: listeners, the
      HTTP handlers and muxes for clients and peers, the key-value service over
      gRPC and its errors, and the gateway from HTTP to it;
    - the metrics of the server, the text of [--help], and the parts that are
      only begun: mvcc, v2store, the snapshotter, the contention detector.

    ** Conventions

    A Go function is a Rocq function of the same name, its receiver the last
    argument; a struct is a record in a module of its name.  A function that can
    fail or panic returns an [outcome]; a value of fixed width is a [Z] and the
    wrap-around of its operations is written out ([u64], [i64], [i32]); a slice is a
    list; a map is a [gmap], and the order in which [range] visits it is a
    parameter ([MapOrder], [NameOrder]), so that what is proved holds for every order.  Strings
    are lists of bytes.  Pointers that are shared are addresses in a heap ([wait],
    [LeaseQueue]).  Goroutines are the actions of a transition system
    ([node.node_step], [requests.step], [serverLoop.step]); a step that would
    block is [Ret None].  What the operating system, the network, bolt and the
    random generator answer is an argument.  Names that Rocq reserves end in an
    underscore.

    ** Files

    - [Prelude]: outcomes, machine integers, slices, maps, channels, tactics.
    - [Proto], [RaftPb]: the generated marshallers of raft.pb.go and
      raftpb/confchange.go.  [RaftPbTyped]: decoded values fit their types.
      [RaftPbCodec]: a class [Codec] of messages with its laws; round trips,
      termination, and the panic on a hostile length.
    - [Quorum] (majority.go, joint.go): vote counting; quorums intersect.
    - [Tracker] (tracker package): votes and progress.
    - [ConfChanger] (confchange package): a simple change keeps quorums
      overlapping, branch by branch.
    - [Storage] (storage.go, util.go): the class [Storage] with [StorageLaws], an
      interface to the log; [MemoryStorage] implements it.
    - [RaftLog] (log.go, log_unstable.go): against the interface, the log refines
      one sequence of entries with a compacted prefix.
    - [Raft] (raft.go): the node's invariant under ticks, messages and
      configuration changes; one vote per term; elections at the timeout.
    - [Node] (rawnode.go, bootstrap.go, node.go): [Ready], bootstrapping, the
      loop with its channels.
    - [GoStd]: what the server uses of strconv, path, sort, encoding/binary,
      crypto/sha1 and encoding/json.
    - [RaftPbEnum]: the names of raftpb's enumerations, as text and as JSON.
    - [Membership]: member and cluster ids, the initial cluster, store keys.
    - [ProtoChecked]: the wire format of the newer generator, which checks its
      sums; [EtcdPb]: the messages of etcdserverpb and mvccpb; [EtcdPbCodec]: they
      are instances of [Codec], and decoding never panics.
    - [Requests]: the id generator, the registry of channels ([wait]), the list of
      deadlines ([timeList]) and the request path as a transition system.
    - [Logging]: the loggers of raft behind their interface.  [GoFloat]: binary64.
    - [Stats], [Lease], [Backend]: the ring of statistics, the lease queue, the
      backend's buffers, locks and snapshots.
    - [Fileutil]: a file system (directories, files, locks, refused calls) and
      pkg/fileutil over it; [Wal]: src/wal and pkg/ioutil's page writer;
      [Restart]: the files of a server over several starts.
    - [Server]: config.go, raft.go, server.go, v2_server.go, apply_v2.go,
      quota.go, backend.go and cluster_util.go of etcdserver, and the state of
      rafthttp.Transport.
    - [Urls]: net/url and net.SplitHostPort byte by byte, urls.go and urlsmap.go.
    - [Flags]: the flag values behind the interface [FlagValue], the flag
      package's [FlagSet], and flags from the environment.
    - [Embed]: the configuration (config.go, config_logging.go), the listeners and
      [StartEtcd] (etcd.go), and the TLS settings.
    - [EtcdMain]: the flags of the program (config.go) and the start of the
      process (etcd.go, main.go).  [Help]: the text of help.go, compared with
      those flags.
    - [Stores]: v2store, snap, storage.go, mvcc, contention, pkg/runtime and
      logutil, as far as the source has them, and where [NewServer] uses them.
    - [ApiErrors]: the errors of the API (rpctypes), and the handlers of v3rpc.
    - [Listeners]: pkg/transport and pkg/tlsutil; the limited listener is a
      transition system.
    - [Serving]: net/http's mux, etcdhttp, the raft handler, v2error, interrupts
      (osutil), and what embed starts to serve peers and clients.
    - [Rpc]: client, handlers and descriptor of the key-value service (rpc.pb.go),
      the codec and the server of v3rpc; [Gateway]: rpc.pb.gw.go, and the gateway
      behind the mux for clients; [Metrics]: the metrics of etcdserver and v3rpc
      and what is written to them.

    ** What the theorems show

    Safety of the protocol core: the node's invariant, one vote per term,
    intersecting quorums, safe configuration changes, committed entries that are
    never overwritten, lossless persistence.  Data: the log and the storage refine
    a sequence; messages survive encoding and decoding, which is total and
    type-safe.  Bootstrapping: the initial cluster is accepted exactly when the
    ids are usable, does not depend on map order, and the server that is built
    for it has a raft node with exactly its members as voters, which starts
    without an untimely election.  From the command line: an initial cluster is
    read back from the string that is written for it, flags win over the
    environment, a valid configuration starts a member, and [etcd --name=n] on a
    fresh machine runs a cluster of one.  Requests: in every interleaving no request
    panics, takes another's result or leaks its channel, and ids are unique, also
    across restarts.  The server's loop closes no channel twice and its committed
    index never decreases.  Containers: the ring and the deadline list refine
    their specifications, the lease queue's records know their positions.
    Service: what a client's put proposes is read back from the log unchanged, no
    bytes make the decoder of a request panic, every API error keeps its code, a
    path gets the handler with the longest pattern, and a limited listener never
    exceeds its limit.  A put is followed from the HTTP request of the gateway
    through the codec of gRPC to the handler and back to the status of the
    response; the gauge of pending proposals counts the requests that wait.  Every
    name of an enumeration is read back.  The text of [--help] is compared with the
    flags of the program: which flags it names that do not exist or omits, and whose
    defaults differ.
    Unfinished code: [PreVote] panics, a restart forgets the hard state and
    [NewServer] panics on a nil cluster, a single node wins its election and
    stays a candidate, the node never takes a proposal, listeners leak when a
    later one fails, and the flag for the cluster's state has no effect; the log is
    left in its temporary directory, so that every start is a first start and two
    processes can own it; connections are never encrypted, peers' requests are
    answered 404, [Put] gives clients raw errors and a nil response, and since
    the generated marshaller does not test for nil, a [Range], or a [Put] that
    succeeds, ends the process ([kv_over_grpc]).

    ** Bounds and fuel

    [unmarshal] (of both generators) has one unit of fuel per byte and one more, since every iteration
    consumes a byte; varints have at most 11 groups; [unmarshal_returns] and
    [unmarshal_answers] show that the fuel is never exhausted for buffers below
    2^62 bytes, more than a 64-bit process can address.  The loops over the initial cluster and the
    command line take a byte, resp. an argument, per round ([parseLoop_ok],
    [Parse_returns]).  [publishLoop] succeeds in its first round.  Log
    indexes are assumed below 2^63, where the code's [uint64] arithmetic does
    not wrap.  [requests_safe] covers 2^48 - 2 steps, the period of the id
    generator's counter.

    ** Not modelled

    Calls of the loggers other than those that panic or exit; the getters, the
    descriptors and the reflection support of generated code, which nothing
    calls; the text and JSON forms of values that nothing reads; and the two
    stand-alone experiments src/test_context.go and src/test_grpc.go.  What is not in
    the repository is a parameter, with its documented behaviour as laws of a
    class where a theorem needs it: gRPC, gogo/protobuf, the runtime of
    grpc-gateway and the WebSocket proxy ([Rpc], [Gateway]), the protobuf
    enumerations ([RaftPbEnum]), Prometheus, cmux, TLS, the HTTP round trippers,
    bolt transactions, zap, cryptography, [json.Unmarshal], and
    [time.ParseDuration] ([Durations]). *)

From stdpp Require Export base tactics list numbers option strings gmap sets sorting.
From Stdlib Require Export ZArith Lia.
From coqutil Require Export Datatypes.RecordSettersUsingExistingGetters.

#[global] Arguments RecordSettersUsingExistingGetters.const {E} newValue _ /.

#[global] Open Scope Z_scope.
#[global] Arguments Z.eqb : simpl never.
#[global] Arguments Z.leb : simpl never.
#[global] Arguments Z.ltb : simpl never.
#[global] Arguments Z.gtb : simpl never.
#[global] Arguments Z.geb : simpl never.
#[global] Arguments Z.add : simpl never.
#[global] Arguments Z.sub : simpl never.

(** ** Go's run-time outcomes

    A Go function that is modelled here returns, returns a non-nil [error],
    panics, or, where the model bounds a loop with fuel, runs out of it.
    [OutOfFuel] is an artefact of the model: for every fuelled loop the
    development proves that it is not reached. *)

Inductive panic : Set :=
  | IndexOutOfRange      (** slice or array index or bound *)
  | NilMapWrite          (** assignment to an entry of a nil map *)
  | NilDereference       (** nil pointer or nil function value *)
  | RandArgument         (** math/rand: Intn of a non-positive bound *)
  | PanicString (s : string). (** panic(s), logger.Panicf(s, ...) *)

(** The [error] values the modelled packages return: the package-level
    variables by name, and [Errorf] for an error made on the spot. *)
Inductive error : Set :=
  | ErrCompacted | ErrSnapOutOfDate | ErrUnavailable
  | ErrSnapshotTemporarilyUnavailable
  | ErrStopped | ErrContextDone
  | ErrIntOverflowRaft | ErrInvalidLengthRaft | ErrUnexpectedEOF
  | ErrTooManyRequests | ErrRequestTooLarge | ErrUnknownMethod
  | ErrCanceled | ErrTimeout | ErrTimeoutDueToLeaderFail
  | ContextCanceled | ContextDeadlineExceeded
  | Errorf (s : string).

#[global] Instance panic_eq_dec : EqDecision panic.
Proof. solve_decision. Defined.
#[global] Instance error_eq_dec : EqDecision error.
Proof. solve_decision. Defined.

Inductive outcome (A : Type) : Type :=
  | Ret (a : A)
  | Err (e : error)
  | Panic (p : panic)
  | OutOfFuel.
Arguments Ret {A} a.
Arguments Err {A} e.
Arguments Panic {A} p.
Arguments OutOfFuel {A}.

#[global] Instance outcome_ret : MRet outcome := @Ret.
#[global] Instance outcome_bind : MBind outcome := λ A B f m,
  match m with
  | Ret a => f a
  | Err e => Err e
  | Panic p => Panic p
  | OutOfFuel => OutOfFuel
  end.

#[global] Instance outcome_eq_dec {A} `{EqDecision A} : EqDecision (outcome A).
Proof. solve_decision. Defined.

Lemma bind_Ret {A B} (a : A) (f : A → outcome B) : Ret a ≫= f = f a.
Proof. done. Qed.

Lemma outcome_bind_Ret {A B} (m : outcome A) (f : A → outcome B) b :
  m ≫= f = Ret b ↔ ∃ a, m = Ret a ∧ f a = Ret b.
Proof. destruct m; naive_solver. Qed.

Lemma outcome_bind_OutOfFuel {A B} (m : outcome A) (f : A → outcome B) :
  m ≫= f = OutOfFuel ↔ m = OutOfFuel ∨ ∃ a, m = Ret a ∧ f a = OutOfFuel.
Proof. destruct m; naive_solver. Qed.

(** ** Machine integers

    A [uint64], [int] or [int32] value is its mathematical value in [Z];
    arithmetic that the code does at a fixed width is followed by the
    wrap-around of that width. *)

Definition u64 (z : Z) : Z := z mod 2 ^ 64.
Definition i64 (z : Z) : Z := (z + 2 ^ 63) mod 2 ^ 64 - 2 ^ 63.
Definition i32 (z : Z) : Z := (z + 2 ^ 31) mod 2 ^ 32 - 2 ^ 31.

Definition is_u64 (z : Z) : Prop := 0 ≤ z < 2 ^ 64.
Definition is_i64 (z : Z) : Prop := - 2 ^ 63 ≤ z < 2 ^ 63.
Definition is_i32 (z : Z) : Prop := - 2 ^ 31 ≤ z < 2 ^ 31.

Declare Scope go_scope.
Delimit Scope go_scope with go.
#[global] Open Scope go_scope.

(** uint64 addition and subtraction. *)
Notation "x ⊕ y" := (u64 (x + y)) (at level 50, left associativity) : go_scope.
Notation "x ⊖ y" := (u64 (x - y)) (at level 50, left associativity) : go_scope.

Create HintDb go.
Create Rewrite HintDb go_len.

Lemma u64_range z : is_u64 (u64 z).
Proof. unfold is_u64, u64. apply Z.mod_pos_bound. lia. Qed.
Lemma u64_id z : is_u64 z → u64 z = z.
Proof. unfold is_u64, u64. intros. by apply Z.mod_small. Qed.
Lemma i64_range z : is_i64 (i64 z).
Proof.
  unfold is_i64, i64. pose proof (Z.mod_pos_bound (z + 2 ^ 63) (2 ^ 64)). lia.
Qed.
Lemma i64_id z : is_i64 z → i64 z = z.
Proof. unfold is_i64, i64. intros. rewrite Z.mod_small; lia. Qed.
Lemma i32_id z : is_i32 z → i32 z = z.
Proof. unfold is_i32, i32. intros. rewrite Z.mod_small; lia. Qed.

#[export] Hint Resolve u64_range i64_range : go.

(** [unwrap] removes every wrap-around whose argument is in range. *)
Ltac unwrap :=
  repeat match goal with
  | |- context [u64 ?z] => rewrite (u64_id z) by (unfold is_u64; lia)
  | H : context [u64 ?z] |- _ => rewrite (u64_id z) in H by (unfold is_u64; lia)
  | |- context [i64 ?z] => rewrite (i64_id z) by (unfold is_i64; lia)
  | H : context [i64 ?z] |- _ => rewrite (i64_id z) in H by (unfold is_i64; lia)
  end.

(** [bool_solve] turns the code's boolean comparisons into propositions. *)
Ltac zify_bool :=
  repeat match goal with
  | H : (_ && _) = true |- _ => apply andb_true_iff in H; destruct H
  | H : (_ || _) = false |- _ => apply orb_false_iff in H; destruct H
  | H : (_ && _) = false |- _ => apply andb_false_iff in H
  | H : (_ || _) = true |- _ => apply orb_true_iff in H
  | H : negb _ = true |- _ => apply negb_true_iff in H
  | H : negb _ = false |- _ => apply negb_false_iff in H
  | H : (_ <? _) = true |- _ => apply Z.ltb_lt in H
  | H : (_ <? _) = false |- _ => apply Z.ltb_ge in H
  | H : (_ <=? _) = true |- _ => apply Z.leb_le in H
  | H : (_ <=? _) = false |- _ => apply Z.leb_gt in H
  | H : (_ >? _) = true |- _ => rewrite Z.gtb_ltb in H
  | H : (_ >? _) = false |- _ => rewrite Z.gtb_ltb in H
  | H : (_ >=? _) = true |- _ => rewrite Z.geb_leb in H
  | H : (_ >=? _) = false |- _ => rewrite Z.geb_leb in H
  | H : (_ =? _) = true |- _ => apply Z.eqb_eq in H
  | H : (_ =? _) = false |- _ => apply Z.eqb_neq in H
  end.

(** Case analysis on the comparison that the goal branches on. *)
Ltac case_bool :=
  match goal with
  | |- context [if ?b then _ else _] => destruct b eqn:?
  end; zify_bool; try lia.

(** ** Slices

    A Go slice is the list of its elements.  [len] is the built-in [len];
    [go_slice l lo hi] is [l[lo:hi]] and [go_index l i] is [l[i]], which panic
    when out of range.  (Go bounds the upper index of [l[lo:hi]] by the
    capacity; every slice expression of the modelled code is guarded by, or
    computed from, the length.) *)

Definition len {A} (l : list A) : Z := Z.of_nat (length l).
#[global] Arguments len {A} l : simpl never.

Definition go_index {A} (l : list A) (i : Z) : outcome A :=
  if (0 <=? i) && (i <? len l)
  then match l !! Z.to_nat i with Some x => Ret x | None => Panic IndexOutOfRange end
  else Panic IndexOutOfRange.

Definition go_slice {A} (l : list A) (lo hi : Z) : outcome (list A) :=
  if (0 <=? lo) && (lo <=? hi) && (hi <=? len l)
  then Ret (take (Z.to_nat (hi - lo)) (drop (Z.to_nat lo) l))
  else Panic IndexOutOfRange.

Lemma len_nonneg {A} (l : list A) : 0 ≤ len l.
Proof. unfold len. lia. Qed.
Lemma len_app {A} (l k : list A) : len (l ++ k) = len l + len k.
Proof. unfold len. rewrite length_app. lia. Qed.
Lemma len_nil {A} : len (@nil A) = 0.
Proof. done. Qed.
Lemma len_cons {A} (x : A) l : len (x :: l) = 1 + len l.
Proof. unfold len. simpl. lia. Qed.
Lemma len_0 {A} (l : list A) : len l = 0 ↔ l = [].
Proof. unfold len. destruct l; simpl; split; (done || lia). Qed.
Lemma len_take {A} n (l : list A) : len (take n l) = Z.min (Z.of_nat n) (len l).
Proof. unfold len. rewrite length_take. lia. Qed.
Lemma len_drop {A} n (l : list A) : len (drop n l) = Z.max 0 (len l - Z.of_nat n).
Proof. unfold len. rewrite length_drop. lia. Qed.
#[export] Hint Resolve len_nonneg : go.
#[export] Hint Rewrite @len_app @len_nil @len_cons @len_take @len_drop : go_len.

Lemma go_index_Ret {A} (l : list A) i x :
  go_index l i = Ret x ↔ 0 ≤ i ∧ l !! Z.to_nat i = Some x.
Proof.
  unfold go_index, len. split.
  - destruct (_ && _) eqn:E; [|done]. zify_bool.
    destruct (l !! Z.to_nat i) eqn:E'; naive_solver.
  - intros [Hi Hx]. pose proof (lookup_lt_Some _ _ _ Hx).
    rewrite Hx. by case_bool.
Qed.

Lemma go_index_in_range {A} (l : list A) i :
  0 ≤ i < len l → ∃ x, go_index l i = Ret x ∧ l !! Z.to_nat i = Some x.
Proof.
  unfold len. intros Hi.
  destruct (lookup_lt_is_Some_2 l (Z.to_nat i)) as [x Hx]; [lia|].
  exists x. split; [|done]. apply go_index_Ret. split; [lia|done].
Qed.

Lemma go_index_0 {A} (x : A) l : go_index (x :: l) 0 = Ret x.
Proof. apply go_index_Ret. done. Qed.

Lemma go_slice_in_range {A} (l : list A) lo hi :
  0 ≤ lo → lo ≤ hi → hi ≤ len l →
  go_slice l lo hi = Ret (take (Z.to_nat (hi - lo)) (drop (Z.to_nat lo) l)).
Proof. intros. unfold go_slice. by case_bool. Qed.

Lemma go_slice_suffix {A} (l : list A) lo :
  0 ≤ lo ≤ len l → go_slice l lo (len l) = Ret (drop (Z.to_nat lo) l).
Proof.
  intros. rewrite go_slice_in_range by lia. f_equal.
  apply take_ge. rewrite length_drop. unfold len in *. lia.
Qed.

Lemma go_slice_prefix {A} (l : list A) hi :
  0 ≤ hi ≤ len l → go_slice l 0 hi = Ret (take (Z.to_nat hi) l).
Proof. intros. rewrite go_slice_in_range by lia. by rewrite Z.sub_0_r, drop_0. Qed.

(** ** Maps

    A map used as a set of ids.  [None] is the nil map, which reads as the
    empty one; [range_order] is the order in which a [for id := range m]
    loop visits the keys.  Go leaves that order unspecified, so the order is a
    parameter: everything proved holds for every one. *)

Abbreviation idset := (option (gset Z)).

Definition keys (m : idset) : gset Z := default ∅ m.
Definition mlen (m : idset) : Z := Z.of_nat (size (keys m)).

Class MapOrder := {
  range_order : gset Z → list Z;
  range_order_perm s : range_order s ≡ₚ elements s;
}.

(** A concrete order, for evaluation. *)
Definition elements_order : MapOrder :=
  {| range_order := elements; range_order_perm := λ s, reflexivity _ |}.

Lemma elem_of_range_order `{!MapOrder} s x : x ∈ range_order s ↔ x ∈ s.
Proof. by rewrite range_order_perm, elem_of_elements. Qed.

(** ** Channels that only signal *)

(** A channel of signals: nil, open, or closed. *)
Inductive signal := sig_nil | sig_open | sig_closed.
#[global] Instance signal_eq_dec : EqDecision signal.
Proof. solve_decision. Defined.

(** [close(ch)] *)
Definition closeSignal (c : signal) : outcome signal :=
  match c with
  | sig_open => Ret sig_closed
  | sig_closed => Panic (PanicString "close of closed channel")
  | sig_nil => Panic (PanicString "close of nil channel")
  end.
