(* ===== verification/Proto.v ===== *)
(** * The protocol-buffer wire format of raft.pb.go

    The buffer writer behind the generated [MarshalTo] methods, the varint
    codec ([encodeVarintRaft], [sovRaft] and the decoding loop that the
    generated [Unmarshal] methods repeat), [skipRaft], and the field loop that
    every [Unmarshal] method is an instance of.  A byte is a [Z] in [0..255]. *)

From S2P Require Import Prelude.
From Stdlib Require Import Btauto.

(** ** Writing

    [MarshalTo] fills a buffer [dAtA] of [n] bytes from index 0 upwards; the
    model threads the bytes written so far, whose number is the code's [i].
    [dAtA[i] = b] panics when the buffer is full, [copy(dAtA[i:], p)] writes
    as much of [p] as fits. *)

Definition putByte (n : Z) (b : Z) (w : list Z) : outcome (list Z) :=
  if len w <? n then Ret (w ++ [b]) else Panic IndexOutOfRange.

Definition copyBytes (n : Z) (p : list Z) (w : list Z) : outcome (list Z) :=
  Ret (w ++ take (Z.to_nat (n - len w)) p).

(** [k, err := x.MarshalTo(dAtA[i:]); i += k] *)
Definition putMessage (n : Z) (marshalTo : Z → outcome (list Z)) (w : list Z)
    : outcome (list Z) :=
  r ← marshalTo (n - len w); Ret (w ++ r).

(** The bound of the varint loops: a uint64 has at most ten 7-bit groups. *)
Definition varint_fuel : nat := 11.

Fixpoint encode_loop (fuel : nat) (n v : Z) (w : list Z) : outcome (list Z) :=
  match fuel with
  | O => OutOfFuel
  | S fuel =>
      if v >=? Z.shiftl 1 7 then
        w ← putByte n (Z.lor (Z.land v 0x7f) 0x80) w;
        encode_loop fuel n (Z.shiftr v 7) w
      else putByte n v w
  end.

Definition encodeVarintRaft (n v : Z) (w : list Z) : outcome (list Z) :=
  encode_loop varint_fuel n v w.

Fixpoint sov_loop (fuel : nat) (n x : Z) : Z :=
  match fuel with
  | O => n
  | S fuel =>
      let n := n + 1 in
      let x := Z.shiftr x 7 in
      if x =? 0 then n else sov_loop fuel n x
  end.

Definition sovRaft (x : Z) : Z := sov_loop varint_fuel 0 x.

Definition sozRaft (x : Z) : Z :=
  sovRaft (Z.lxor (u64 (Z.shiftl x 1)) (u64 (Z.shiftr (i64 x) 63))).

(** ** Reading *)

(** The decoding loop.  The accumulator has the type of the variable it is
    [|=]-ed into, whose width is the wrap [W]. *)
Fixpoint varint_loop (W : Z → Z) (fuel : nat) (d : list Z) (iNdEx shift acc : Z)
    : outcome (Z * Z) :=
  match fuel with
  | O => OutOfFuel
  | S fuel =>
      if shift >=? 64 then Err ErrIntOverflowRaft else
      if iNdEx >=? len d then Err ErrUnexpectedEOF else
      b ← go_index d iNdEx;
      let iNdEx := iNdEx + 1 in
      let acc := Z.lor acc (W (Z.shiftl (Z.land b 0x7F) shift)) in
      if b <? 0x80 then Ret (acc, iNdEx)
      else varint_loop W fuel d iNdEx (shift + 7) acc
  end.

Definition decodeVarint (W : Z → Z) (d : list Z) (iNdEx : Z) : outcome (Z * Z) :=
  varint_loop W varint_fuel d iNdEx 0 0.

(** The loop of [skipRaft] that passes over a varint. *)
Fixpoint skip_varint (fuel : nat) (d : list Z) (iNdEx shift : Z) : outcome Z :=
  match fuel with
  | O => OutOfFuel
  | S fuel =>
      if shift >=? 64 then Err ErrIntOverflowRaft else
      if iNdEx >=? len d then Err ErrUnexpectedEOF else
      b ← go_index d iNdEx;
      let iNdEx := iNdEx + 1 in
      if b <? 0x80 then Ret iNdEx else skip_varint fuel d iNdEx (shift + 7)
  end.

(** The inner loop of a group: fields until the end-group tag.  [skip] is
    the recursive call of [skipRaft]. *)
Fixpoint skip_group (skip : list Z → outcome Z) (fuel : nat) (d : list Z) (iNdEx : Z)
    : outcome Z :=
  match fuel with
  | O => OutOfFuel
  | S fuel =>
      let start := iNdEx in
      '(innerWire, iNdEx) ← decodeVarint u64 d iNdEx;
      let innerWireType := Z.land innerWire 0x7 in
      if innerWireType =? 4 then Ret iNdEx else
      rest ← go_slice d start (len d);
      next ← skip rest;
      skip_group skip fuel d (i64 (start + next))
  end.

(** [skipRaft]: the number of bytes of the field at the head of [d].  The
    recursive call is on a proper suffix, so the length of [d] bounds it. *)
Fixpoint skip_loop (fuel : nat) (d : list Z) : outcome Z :=
  match fuel with
  | O => OutOfFuel
  | S fuel =>
      if 0 <? len d then
        '(wire, iNdEx) ← decodeVarint u64 d 0;
        let wireType := Z.land wire 0x7 in
        if wireType =? 0 then skip_varint varint_fuel d iNdEx 0
        else if wireType =? 1 then Ret (iNdEx + 8)
        else if wireType =? 2 then
          '(length, iNdEx) ← decodeVarint i64 d iNdEx;
          let iNdEx := i64 (iNdEx + length) in
          if length <? 0 then Err ErrInvalidLengthRaft else Ret iNdEx
        else if wireType =? 3 then
          skip_group (skip_loop fuel) (S (List.length d)) d iNdEx
        else if wireType =? 4 then Ret iNdEx
        else if wireType =? 5 then Ret (iNdEx + 4)
        else Err (Errorf "proto: illegal wireType")
      else Panic (PanicString "unreachable")
  end.

Definition skipRaft (d : list Z) : outcome Z := skip_loop (S (length d)) d.

(** Length-delimited fields: the length prefix and the end of the payload. *)
Definition lengthPrefix (d : list Z) (iNdEx : Z) : outcome (Z * Z) :=
  '(byteLen, iNdEx) ← decodeVarint i64 d iNdEx;
  if byteLen <? 0 then Err ErrInvalidLengthRaft else
  let postIndex := i64 (iNdEx + byteLen) in
  if postIndex >? len d then Err ErrUnexpectedEOF else
  Ret (iNdEx, postIndex).

(** [x = append(x[:0], dAtA[iNdEx:postIndex]...)] *)
Definition bytesField (d : list Z) (iNdEx : Z) : outcome (list Z * Z) :=
  '(iNdEx, postIndex) ← lengthPrefix d iNdEx;
  p ← go_slice d iNdEx postIndex;
  Ret (p, postIndex).

(** [x.Unmarshal(dAtA[iNdEx:postIndex])] *)
Definition messageField {M} (unmarshal : list Z → outcome M) (d : list Z) (iNdEx : Z)
    : outcome (M * Z) :=
  '(p, postIndex) ← bytesField d iNdEx;
  m ← unmarshal p;
  Ret (m, postIndex).

Definition wrongWireType {A} : outcome A := Err (Errorf "proto: wrong wireType").

(** The field loop of the [Unmarshal] methods.  [field fieldNum wireType d i m]
    is the [switch fieldNum]: [None] is its default case, in which the field
    is skipped and kept by [unrecognized]. *)
Section Unmarshal.
Context {M : Type}.
Context (field : Z → Z → list Z → Z → M → outcome (option (M * Z))).
Context (unrecognized : list Z → M → M).

Fixpoint unmarshal_loop (fuel : nat) (d : list Z) (m : M) (iNdEx : Z) : outcome M :=
  match fuel with
  | O => OutOfFuel
  | S fuel =>
      if iNdEx <? len d then
        let preIndex := iNdEx in
        '(wire, iNdEx) ← decodeVarint u64 d iNdEx;
        let fieldNum := i32 (Z.shiftr wire 3) in
        let wireType := Z.land wire 0x7 in
        if wireType =? 4
        then Err (Errorf "proto: wiretype end group for non-group") else
        if fieldNum <=? 0 then Err (Errorf "proto: illegal tag") else
        r ← field fieldNum wireType d iNdEx m;
        match r with
        | Some (m, iNdEx) => unmarshal_loop fuel d m iNdEx
        | None =>
            let iNdEx := preIndex in
            rest ← go_slice d iNdEx (len d);
            skippy ← skipRaft rest;
            if skippy <? 0 then Err ErrInvalidLengthRaft else
            if i64 (iNdEx + skippy) >? len d then Err ErrUnexpectedEOF else
            u ← go_slice d iNdEx (i64 (iNdEx + skippy));
            unmarshal_loop fuel d (unrecognized u m) (i64 (iNdEx + skippy))
        end
      else if iNdEx >? len d then Err ErrUnexpectedEOF else Ret m
  end.

(** Every iteration consumes at least the tag byte. *)
Definition unmarshal (m : M) (d : list Z) : outcome M :=
  unmarshal_loop (S (length d)) d m 0.
End Unmarshal.

(** The [XXX_unrecognized] fields. *)
Definition appendUnrecognized (u : list Z) (x : option (list Z)) : option (list Z) :=
  Some (default [] x ++ u).

(** ** Fields

    The groups of statements the generated methods are made of: a writer for
    each kind of field, the bytes it writes, and the decoding of those bytes. *)

Abbreviation writer := (list Z → outcome (list Z)).

(** [dAtA[i] = tag; i++; i = encodeVarintRaft(dAtA, i, v)] *)
Definition putVarintField (n tag v : Z) : writer := λ w,
  w ← putByte n tag w; encodeVarintRaft n v w.

(** [if p != nil { tag; length; i += copy(dAtA[i:], p) }] *)
Definition putBytesField (n tag : Z) (p : option (list Z)) : writer := λ w,
  match p with
  | Some p =>
      w ← putByte n tag w;
      w ← encodeVarintRaft n (len p) w;
      copyBytes n p w
  | None => Ret w
  end.

(** [tag; length = x.Size(); x.MarshalTo(dAtA[i:])] *)
Definition putMessageField (n tag size : Z) (marshalTo : Z → outcome (list Z)) : writer := λ w,
  w ← putByte n tag w;
  w ← encodeVarintRaft n size w;
  putMessage n marshalTo w.

(** [tag; if b { 1 } else { 0 }] *)
Definition putBoolField (n tag : Z) (b : bool) : writer := λ w,
  w ← putByte n tag w; putByte n (if b then 1 else 0) w.

(** [if XXX_unrecognized != nil { i += copy(dAtA[i:], XXX_unrecognized) }] *)
Definition putUnrecognized (n : Z) (p : option (list Z)) : writer := λ w,
  match p with Some p => copyBytes n p w | None => Ret w end.

Fixpoint writeAll (ops : list writer) (w : list Z) : outcome (list Z) :=
  match ops with
  | [] => Ret w
  | op :: ops => w ← op w; writeAll ops w
  end.

(** [if x != nil { n += 1 + len(x) + sov(len(x)) }] *)
Definition bytesFieldSize (p : option (list Z)) : Z :=
  match p with Some p => 1 + len p + sovRaft (len p) | None => 0 end.
Definition unrecognizedSize (p : option (list Z)) : Z :=
  match p with Some p => len p | None => 0 end.

(** ** The varint codec is correct *)

(** The reference encoding: 7-bit groups, least significant first, the high
    bit set on all but the last. *)
Fixpoint varint_groups (fuel : nat) (v : Z) : list Z :=
  match fuel with
  | O => []
  | S fuel =>
      if v <? 128 then [v]
      else Z.lor (Z.land v 127) 128 :: varint_groups fuel (Z.shiftr v 7)
  end.
Definition varint_bytes (v : Z) : list Z := varint_groups varint_fuel v.

(** A wrap that distributes over bitwise or: the three widths used. *)
Class OrWrap (W : Z → Z) := {
  or_wrap a b : W (Z.lor a b) = Z.lor (W a) (W b);
  or_wrap_0 : W 0 = 0;
  or_wrap_idemp a : W (W a) = W a;
}.

Lemma u64_land z : u64 z = Z.land z (Z.ones 64).
Proof. unfold u64. by rewrite Z.land_ones. Qed.

#[global] Instance u64_OrWrap : OrWrap u64.
Proof.
  split; [|done|].
  - intros. by rewrite !u64_land, Z.land_lor_distr_l.
  - intros. apply u64_id, u64_range.
Qed.

Lemma signed_wrap_bits (w z i : Z) :
  0 < w → 0 ≤ i →
  Z.testbit ((z + 2 ^ (w - 1)) mod 2 ^ w - 2 ^ (w - 1)) i = Z.testbit z (Z.min i (w - 1)).
Proof.
  intros Hw Hi.
  assert (Hp : 2 ^ w = 2 * 2 ^ (w - 1)).
  { replace w with (Z.succ (w - 1)) at 1 by lia. apply Z.pow_succ_r. lia. }
  set (h := 2 ^ (w - 1)) in *.
  assert (0 < h) by (apply Z.pow_pos_nonneg; lia).
  (* z = 2h*q + r with -h <= r < h, and r is the wrapped value *)
  set (r := (z + h) mod 2 ^ w - h).
  assert (Hr : -h ≤ r < h).
  { unfold r. pose proof (Z.mod_pos_bound (z + h) (2 ^ w)). lia. }
  assert (Hz : z = r + 2 ^ w * ((z + h) / 2 ^ w)).
  { unfold r. pose proof (Z.div_mod (z + h) (2 ^ w)). lia. }
  set (q := (z + h) / 2 ^ w) in *. clearbody r q.
  assert (Hlow : ∀ j, 0 ≤ j < w → Z.testbit z j = Z.testbit r j).
  { intros j Hj. rewrite <- (Z.mod_pow2_bits_low z w j), <- (Z.mod_pow2_bits_low r w j) by lia.
    f_equal. rewrite Hz, (Z.mul_comm (2 ^ w)). apply Z_mod_plus_full. }
  rewrite Hlow by lia.
  destruct (Z.min_spec i (w - 1)) as [[? ->]|[Hge ->]]; [done|].
  assert (Hdiv : ∀ j, w - 1 ≤ j → Z.testbit r j = (r <? 0)).
  { intros j Hj.
    assert (Hhj : h ≤ 2 ^ j) by (apply Z.pow_le_mono_r; lia).
    destruct (Z.ltb_spec r 0).
    - rewrite <- (Z.lnot_involutive r), Z.lnot_spec by lia.
      rewrite (Z.testbit_eqb (Z.lnot r)), Z.div_small by (unfold Z.lnot; lia). done.
    - rewrite Z.testbit_eqb, Z.div_small by lia. done. }
  rewrite !Hdiv by lia. done.
Qed.

Lemma signed_OrWrap (w : Z) :
  0 < w → OrWrap (λ z, (z + 2 ^ (w - 1)) mod 2 ^ w - 2 ^ (w - 1)).
Proof.
  intros Hw. split.
  - intros a b. apply Z.bits_inj'. intros i Hi.
    rewrite Z.lor_spec, !signed_wrap_bits, Z.lor_spec by lia. done.
  - assert (2 ^ w = 2 * 2 ^ (w - 1)).
    { replace w with (Z.succ (w - 1)) at 1 by lia. apply Z.pow_succ_r. lia. }
    assert (0 < 2 ^ (w - 1)) by (apply Z.pow_pos_nonneg; lia).
    rewrite Z.mod_small; lia.
  - intros a. apply Z.bits_inj'. intros i Hi.
    rewrite !signed_wrap_bits by lia. f_equal. lia.
Qed.

#[global] Instance i64_OrWrap : OrWrap i64 := signed_OrWrap 64 eq_refl.
#[global] Instance i32_OrWrap : OrWrap i32 := signed_OrWrap 32 eq_refl.

Lemma putByte_ok n b w : len w < n → putByte n b w = Ret (w ++ [b]).
Proof. unfold putByte. intros. by case_bool. Qed.

Lemma copyBytes_ok n p w : len w + len p ≤ n → copyBytes n p w = Ret (w ++ p).
Proof.
  unfold copyBytes, len. intros. rewrite take_ge; [done|lia].
Qed.

Lemma putMessage_ok n f w r :
  f (n - len w) = Ret r → putMessage n f w = Ret (w ++ r).
Proof. unfold putMessage. by intros ->. Qed.

Lemma varint_groups_S fuel v :
  varint_groups (S fuel) v =
  if v <? 128 then [v]
  else Z.lor (Z.land v 127) 128 :: varint_groups fuel (Z.shiftr v 7).
Proof. done. Qed.

Lemma shiftr7_bound v k : 0 ≤ v < 2 ^ (7 * Z.of_nat (S k)) →
  0 ≤ Z.shiftr v 7 < 2 ^ (7 * Z.of_nat k).
Proof.
  intros. rewrite Z.shiftr_div_pow2 by lia. split; [apply Z.div_pos; lia|].
  apply Z.div_lt_upper_bound; [lia|]. rewrite <- Z.pow_add_r by lia.
  replace (7 + 7 * Z.of_nat k) with (7 * Z.of_nat (S k)) by lia. lia.
Qed.

Lemma shiftr7_ge v : 128 ≤ v → 1 ≤ Z.shiftr v 7.
Proof.
  intros. rewrite Z.shiftr_div_pow2 by lia. apply Z.div_le_lower_bound; lia.
Qed.

Lemma encode_loop_ok fuel n v w :
  0 ≤ v < 2 ^ (7 * Z.of_nat fuel) → (0 < fuel)%nat →
  len w + len (varint_groups fuel v) ≤ n →
  encode_loop fuel n v w = Ret (w ++ varint_groups fuel v).
Proof.
  revert v w. induction fuel as [|fuel IH]; [lia|]. intros v w Hv _ Hn.
  rewrite varint_groups_S in *. simpl encode_loop. change (Z.shiftl 1 7) with 128.
  destruct (v <? 128) eqn:E; zify_bool; autorewrite with go_len in Hn.
  - case_bool. apply putByte_ok. lia.
  - case_bool. pose proof (shiftr7_ge _ E). pose proof (shiftr7_bound _ _ Hv).
    rewrite putByte_ok by (pose proof (len_nonneg (varint_groups fuel (Z.shiftr v 7))); lia).
    simpl. rewrite IH; [by rewrite <- app_assoc|lia| |].
    + destruct fuel; [simpl in *; lia|lia].
    + autorewrite with go_len. lia.
Qed.

Lemma varint_fuel_enough v : is_u64 v → 0 ≤ v < 2 ^ (7 * Z.of_nat varint_fuel).
Proof. unfold is_u64, varint_fuel. change (7 * Z.of_nat 11) with 77. lia. Qed.

Lemma encodeVarintRaft_ok n v w :
  is_u64 v → len w + len (varint_bytes v) ≤ n →
  encodeVarintRaft n v w = Ret (w ++ varint_bytes v).
Proof.
  intros Hv Hn. apply encode_loop_ok; [by apply varint_fuel_enough|unfold varint_fuel; lia|done].
Qed.

Lemma sov_loop_ok fuel n v :
  0 ≤ v < 2 ^ (7 * Z.of_nat fuel) → (0 < fuel)%nat →
  sov_loop fuel n v = n + len (varint_groups fuel v).
Proof.
  revert n v. induction fuel as [|fuel IH]; [lia|]. intros n v Hv _.
  rewrite varint_groups_S. simpl sov_loop. pose proof (shiftr7_bound _ _ Hv).
  destruct (v <? 128) eqn:E; zify_bool.
  - rewrite Z.shiftr_div_pow2, Z.div_small by lia. autorewrite with go_len. simpl. lia.
  - pose proof (shiftr7_ge _ E). case_bool.
    rewrite IH; [autorewrite with go_len; lia|lia|].
    destruct fuel; [simpl in *; lia|lia].
Qed.

Lemma sovRaft_ok v : is_u64 v → sovRaft v = len (varint_bytes v).
Proof.
  intros. unfold sovRaft, varint_bytes.
  rewrite sov_loop_ok; [lia|by apply varint_fuel_enough|unfold varint_fuel; lia].
Qed.

Lemma land_127 v : Z.land v 127 = v mod 128.
Proof. change 127 with (Z.ones 7). by rewrite Z.land_ones. Qed.

Lemma group_or_128 v : 128 ≤ Z.lor (Z.land v 127) 128 ∧
  Z.land (Z.lor (Z.land v 127) 128) 127 = Z.land v 127.
Proof.
  split.
  - pose proof (Z.lor_comm (Z.land v 127) 128) as ->.
    assert (0 ≤ Z.land v 127) by (rewrite land_127; apply Z.mod_pos_bound; lia).
    assert (Z.land 128 (Z.land v 127) = 0) as H0.
    { rewrite (Z.land_comm v), Z.land_assoc. done. }
    rewrite <- (Z.lxor_lor _ _ H0), <- (Z.add_nocarry_lxor _ _ H0). lia.
  - rewrite Z.land_lor_distr_l, <- Z.land_assoc. simpl (Z.land 128 127).
    by rewrite Z.lor_0_r.
Qed.

Lemma groups_join v : Z.lor (Z.land v 127) (Z.shiftl (Z.shiftr v 7) 7) = v.
Proof.
  apply Z.bits_inj'. intros i Hi. change 127 with (Z.ones 7).
  rewrite Z.lor_spec, Z.land_spec, Z.shiftl_spec by lia.
  destruct (Z.ltb_spec i 7).
  - rewrite Z.ones_spec_low, (Z.testbit_neg_r _ (i - 7)) by lia. btauto.
  - rewrite Z.ones_spec_high, Z.shiftr_spec by lia.
    replace (i - 7 + 7) with i by lia. btauto.
Qed.

Lemma go_index_middle {A} (pre : list A) x post :
  go_index (pre ++ x :: post) (len pre) = Ret x.
Proof.
  apply go_index_Ret. unfold len. split; [lia|]. rewrite Nat2Z.id.
  by rewrite lookup_app_r, Nat.sub_diag.
Qed.

(** Decoding an encoded value in place: the loop reads back the value, at the
    width of the variable it goes to, and stops right after its bytes. *)
Lemma varint_loop_ok W `{!OrWrap W} fuel pre v post shift acc :
  0 ≤ v < 2 ^ (7 * Z.of_nat fuel) → (0 < fuel)%nat →
  0 ≤ shift < 64 → v < 2 ^ (64 - shift) →
  varint_loop W fuel (pre ++ varint_groups fuel v ++ post) (len pre) shift (W acc) =
  Ret (W (Z.lor acc (Z.shiftl v shift)), len pre + len (varint_groups fuel v)).
Proof.
  revert pre v shift acc. induction fuel as [|fuel IH]; [lia|].
  intros pre v shift acc Hv _ Hs Hv'.
  rewrite varint_groups_S. simpl varint_loop.
  case_bool. destruct (v <? 128) eqn:E; zify_bool.
  - simpl. case_bool.
    { autorewrite with go_len in *. pose proof (len_nonneg post). lia. }
    rewrite go_index_middle. simpl. case_bool.
    rewrite land_127, Z.mod_small by lia. by rewrite or_wrap.
  - destruct (group_or_128 v) as [Hge Hland].
    rewrite <- app_comm_cons.
    destruct (len pre >=? _) eqn:E2; zify_bool.
    { autorewrite with go_len in E2.
      pose proof (len_nonneg (varint_groups fuel (Z.shiftr v 7))).
      pose proof (len_nonneg post). lia. }
    rewrite go_index_middle. simpl. case_bool.
    assert (7 < 64 - shift).
    { apply (Z.pow_lt_mono_r_iff 2); lia. }
    rewrite Hland, <- or_wrap.
    pose proof (shiftr7_ge _ E). pose proof (shiftr7_bound _ _ Hv) as Hb.
    replace (len pre + 1) with (len (pre ++ [Z.lor (Z.land v 127) 128]))
      by (by autorewrite with go_len).
    replace (pre ++ _ :: _)
      with ((pre ++ [Z.lor (Z.land v 127) 128]) ++ varint_groups fuel (Z.shiftr v 7) ++ post)
      by (by rewrite <- app_assoc).
    rewrite IH; [|done| |lia|].
    + f_equal. f_equal; [|autorewrite with go_len; lia]. f_equal.
      rewrite <- Z.lor_assoc. f_equal.
      rewrite <- (groups_join v) at 3. rewrite Z.shiftl_lor, Z.shiftl_shiftl by lia.
      f_equal. f_equal. lia.
    + destruct fuel; [simpl in *; lia|lia].
    + rewrite Z.shiftr_div_pow2 by lia. apply Z.div_lt_upper_bound; [lia|].
      rewrite <- Z.pow_add_r by lia. replace (7 + (64 - (shift + 7))) with (64 - shift) by lia.
      done.
Qed.

Lemma decodeVarint_ok W `{!OrWrap W} pre v post :
  is_u64 v →
  decodeVarint W (pre ++ varint_bytes v ++ post) (len pre) =
  Ret (W v, len (pre ++ varint_bytes v)).
Proof.
  intros Hv. unfold decodeVarint.
  pose proof (varint_loop_ok W varint_fuel pre v post 0 0) as H.
  rewrite (or_wrap_0 (W := W)), Z.lor_0_l, Z.shiftl_0_r in H. autorewrite with go_len.
  apply H; [by apply varint_fuel_enough|unfold varint_fuel; lia|lia|unfold is_u64 in *; lia].
Qed.

(** A tag is below 128 for the field numbers of raft.proto: it is its own varint. *)
Lemma decodeVarint_tag pre tag post :
  0 ≤ tag < 128 →
  decodeVarint u64 (pre ++ tag :: post) (len pre) = Ret (tag, len (pre ++ [tag])).
Proof.
  intros Ht. pose proof (decodeVarint_ok u64 pre tag post) as H.
  assert (varint_bytes tag = [tag]) as E.
  { unfold varint_bytes, varint_fuel. rewrite varint_groups_S. by case_bool. }
  rewrite E in H. simpl in H. rewrite H by (unfold is_u64; lia).
  f_equal. f_equal. apply u64_id. unfold is_u64. lia.
Qed.

Lemma lengthPrefix_ok pre p post :
  len (pre ++ varint_bytes (len p) ++ p ++ post) < 2 ^ 63 →
  lengthPrefix (pre ++ varint_bytes (len p) ++ p ++ post) (len pre) =
  Ret (len (pre ++ varint_bytes (len p)), len (pre ++ varint_bytes (len p) ++ p)).
Proof.
  intros Hl. autorewrite with go_len in Hl.
  pose proof (len_nonneg pre). pose proof (len_nonneg post). pose proof (len_nonneg p).
  pose proof (len_nonneg (varint_bytes (len p))).
  unfold lengthPrefix.
  rewrite (decodeVarint_ok i64) by (unfold is_u64; lia). simpl.
  rewrite (i64_id (len p)) by (unfold is_i64; lia).
  case_bool. autorewrite with go_len. unwrap. case_bool. do 2 f_equal. lia.
Qed.

Lemma go_slice_middle {A} (pre p post : list A) :
  go_slice (pre ++ p ++ post) (len pre) (len (pre ++ p)) = Ret p.
Proof.
  pose proof (len_nonneg pre). pose proof (len_nonneg p). pose proof (len_nonneg post).
  rewrite go_slice_in_range; autorewrite with go_len; [|lia..].
  f_equal. replace (Z.to_nat (len pre)) with (length pre) by (unfold len; lia).
  rewrite drop_app_length.
  replace (Z.to_nat _) with (length p) by (unfold len; lia).
  by rewrite take_app_length.
Qed.

Lemma bytesField_ok pre p post :
  len (pre ++ varint_bytes (len p) ++ p ++ post) < 2 ^ 63 →
  bytesField (pre ++ varint_bytes (len p) ++ p ++ post) (len pre) =
  Ret (p, len (pre ++ varint_bytes (len p) ++ p)).
Proof.
  intros. unfold bytesField. rewrite lengthPrefix_ok by done. simpl.
  rewrite (app_assoc pre _ (p ++ post)), (app_assoc pre _ p).
  by rewrite go_slice_middle.
Qed.

Lemma messageField_ok {M} (unmarshal : list Z → outcome M) pre p m post :
  len (pre ++ varint_bytes (len p) ++ p ++ post) < 2 ^ 63 →
  unmarshal p = Ret m →
  messageField unmarshal (pre ++ varint_bytes (len p) ++ p ++ post) (len pre) =
  Ret (m, len (pre ++ varint_bytes (len p) ++ p)).
Proof. intros ? Hu. unfold messageField. rewrite bytesField_ok by done. simpl. by rewrite Hu. Qed.

(** ** Decoding field by field

    [Decodes k m bs m']: from message [m], the field loop reads the [k] fields
    encoded by [bs], wherever they are in the buffer, and continues with [m']
    right after them. *)
Section Decodes.
Context {M : Type}.
Context (field : Z → Z → list Z → Z → M → outcome (option (M * Z))).
Context (unrecognized : list Z → M → M).

Definition Decodes (k : nat) (m : M) (bs : list Z) (m' : M) : Prop :=
  ∀ pre post fuel,
    len (pre ++ bs ++ post) < 2 ^ 63 →
    unmarshal_loop field unrecognized (k + fuel) (pre ++ bs ++ post) m (len pre) =
    unmarshal_loop field unrecognized fuel (pre ++ bs ++ post) m' (len (pre ++ bs)).

Lemma Decodes_nil m : Decodes 0 m [] m.
Proof. intros pre post fuel _. by rewrite app_nil_r. Qed.

Lemma Decodes_app k1 k2 m1 bs1 m2 bs2 m3 :
  Decodes k1 m1 bs1 m2 → Decodes k2 m2 bs2 m3 →
  Decodes (k1 + k2) m1 (bs1 ++ bs2) m3.
Proof.
  intros H1 H2 pre post fuel Hl.
  rewrite <- Nat.add_assoc, <- (app_assoc bs1). rewrite <- (app_assoc bs1) in Hl.
  rewrite H1 by done. rewrite (app_assoc pre) in Hl |- *.
  rewrite H2 by done. by rewrite <- (app_assoc pre bs1 bs2).
Qed.

(** One field: its tag, then a payload that the [switch] consumes. *)
Lemma Decodes_field tag m bs m' :
  0 ≤ tag < 128 → Z.land tag 0x7 ≠ 4 → 0 < i32 (Z.shiftr tag 3) →
  (∀ pre post, len (pre ++ bs ++ post) < 2 ^ 63 →
    field (i32 (Z.shiftr tag 3)) (Z.land tag 0x7) (pre ++ bs ++ post) (len pre) m =
    Ret (Some (m', len (pre ++ bs)))) →
  Decodes 1 m (tag :: bs) m'.
Proof.
  intros Ht Hw Hf Hfield pre post fuel Hl. simpl. simpl in Hl.
  case_bool.
  2: { autorewrite with go_len in *. pose proof (len_nonneg bs).
       pose proof (len_nonneg post). lia. }
  rewrite decodeVarint_tag by done. simpl. case_bool. case_bool.
  replace (pre ++ tag :: bs ++ post) with ((pre ++ [tag]) ++ bs ++ post)
    in * by (by rewrite <- app_assoc).
  rewrite Hfield by done. simpl.
  by replace (pre ++ tag :: bs) with ((pre ++ [tag]) ++ bs) by (by rewrite <- app_assoc).
Qed.

Lemma Decodes_fold {A} (enc : A → list Z) (upd : A → M → M) (xs : list A) m :
  (∀ x m, x ∈ xs → Decodes 1 m (enc x) (upd x m)) →
  Decodes (length xs) m (xs ≫= enc) (foldl (flip upd) m xs).
Proof.
  revert m. induction xs as [|x xs IH]; intros m H; [apply Decodes_nil|].
  simpl. apply (Decodes_app 1 (length xs) m (enc x) (upd x m)).
  - apply H. set_solver.
  - apply IH. set_solver.
Qed.

Lemma unmarshal_ok k m bs m' :
  Decodes k m bs m' → len bs < 2 ^ 63 → (k ≤ length bs)%nat →
  unmarshal field unrecognized m bs = Ret m'.
Proof.
  intros H Hl Hk. unfold unmarshal.
  replace (S (length bs)) with (k + S (length bs - k))%nat by lia.
  specialize (H [] [] (S (length bs - k))). simpl app in H.
  rewrite app_nil_r, len_nil in H. rewrite H by done.
  simpl. case_bool. by case_bool.
Qed.
End Decodes.

(** ** The loops terminate

    No input exhausts the fuel: the field loop reads at least the tag at each
    iteration, and a nested group is a proper suffix. *)

Lemma go_index_fuel {A} (l : list A) i : go_index l i ≠ OutOfFuel.
Proof. unfold go_index. repeat case_match; done. Qed.

Lemma varint_loop_progress W fuel d i shift acc :
  0 ≤ shift → (0 < fuel)%nat → 71 ≤ shift + 7 * Z.of_nat fuel →
  varint_loop W fuel d i shift acc ≠ OutOfFuel ∧
  ∀ v j, varint_loop W fuel d i shift acc = Ret (v, j) → 0 ≤ i ∧ i < j ≤ len d.
Proof.
  revert i shift acc. induction fuel as [|fuel IH]; intros i shift acc Hs H0 Hf; [lia|].
  cbn [varint_loop]. case_bool; [done|]. case_bool; [done|].
  destruct (go_index d i) as [b|e|p|] eqn:E; simpl; try done;
    [|by destruct (go_index_fuel d i)].
  apply go_index_Ret in E as [Hi _].
  destruct (b <? 0x80).
  - split; [done|]. intros v j [= <- <-]. lia.
  - destruct (IH (i + 1) (shift + 7) (Z.lor acc (W (Z.shiftl (Z.land b 127) shift))))
      as [H1 H2]; [lia..|].
    split; [done|]. intros v j H. apply H2 in H. lia.
Qed.

Lemma decodeVarint_fuel W d i : decodeVarint W d i ≠ OutOfFuel.
Proof.
  apply varint_loop_progress; unfold varint_fuel; lia.
Qed.

Lemma decodeVarint_advances W d i v j :
  decodeVarint W d i = Ret (v, j) → 0 ≤ i ∧ i < j ≤ len d.
Proof.
  apply varint_loop_progress; unfold varint_fuel; lia.
Qed.

Lemma skip_varint_progress fuel d i shift :
  0 ≤ shift → (0 < fuel)%nat → 71 ≤ shift + 7 * Z.of_nat fuel →
  skip_varint fuel d i shift ≠ OutOfFuel ∧
  ∀ j, skip_varint fuel d i shift = Ret j → 0 ≤ i ∧ i < j.
Proof.
  revert i shift. induction fuel as [|fuel IH]; intros i shift Hs H0 Hf; [lia|].
  cbn [skip_varint]. case_bool; [done|]. case_bool; [done|].
  destruct (go_index d i) as [b|e|p|] eqn:E; simpl; try done;
    [|by destruct (go_index_fuel d i)].
  apply go_index_Ret in E as [Hi _].
  destruct (b <? 0x80).
  - split; [done|]. intros j [= <-]. lia.
  - destruct (IH (i + 1) (shift + 7)) as [H1 H2]; [lia..|].
    split; [done|]. intros j H. apply H2 in H. lia.
Qed.

(** A decoded value has the width of its variable. *)
Lemma varint_loop_width W `{!OrWrap W} fuel d i shift acc v j :
  W acc = acc → varint_loop W fuel d i shift acc = Ret (v, j) → W v = v.
Proof.
  revert i shift acc. induction fuel as [|fuel IH]; intros i shift acc Hacc; [done|].
  cbn [varint_loop]. case_bool; [done|]. case_bool; [done|].
  destruct (go_index d i) as [b|e|p|]; simpl; try done.
  case_bool; [intros [= <- _]|intros H; eapply IH, H];
    by rewrite or_wrap, or_wrap_idemp, Hacc.
Qed.

Lemma decodeVarint_width W `{!OrWrap W} d i v j :
  decodeVarint W d i = Ret (v, j) → W v = v.
Proof. apply (varint_loop_width W). apply or_wrap_0. Qed.

Lemma skip_varint_bound fuel d i shift j :
  skip_varint fuel d i shift = Ret j → j ≤ len d.
Proof.
  revert i shift. induction fuel as [|fuel IH]; intros i shift; [done|].
  cbn [skip_varint]. case_bool; [done|]. case_bool; [done|].
  destruct (go_index d i) as [b|e|p|]; simpl; try done.
  case_bool; [intros [= <-]; lia|apply IH].
Qed.

(** What [skipRaft] may return: a positive count, or, when a length prefix
    overflows [int], a value far below zero. *)
Definition skip_result (n : Z) : Prop := is_i64 n ∧ (0 < n ∨ n < - 2 ^ 62).

(** [m] does not exhaust its fuel, and its results satisfy [P]. *)
Definition terminates {A} (m : outcome A) (P : A → Prop) : Prop :=
  m ≠ OutOfFuel ∧ ∀ a, m = Ret a → P a.

Lemma terminates_Ret {A} (a : A) (P : A → Prop) : P a → terminates (Ret a) P.
Proof. split; [done|]. by intros ? [= <-]. Qed.
Lemma terminates_Err {A} e (P : A → Prop) : terminates (Err e) P.
Proof. done. Qed.
Lemma terminates_Panic {A} p (P : A → Prop) : terminates (Panic p) P.
Proof. done. Qed.
Lemma terminates_bind {A B} (m : outcome A) (f : A → outcome B) P Q :
  terminates m P → (∀ a, P a → terminates (f a) Q) → terminates (m ≫= f) Q.
Proof. intros [H1 H2] H. destruct m; simpl; try done. by apply H, H2. Qed.
Lemma terminates_mono {A} (m : outcome A) (P Q : A → Prop) :
  terminates m P → (∀ a, P a → Q a) → terminates m Q.
Proof. intros [H1 H2] H. split; eauto. Qed.

Lemma decodeVarint_terminates W d i :
  terminates (decodeVarint W d i) (λ '(_, j), 0 ≤ i ∧ i < j ≤ len d).
Proof.
  split; [apply decodeVarint_fuel|]. intros [v j]. apply decodeVarint_advances.
Qed.

Lemma decodeVarint_int_terminates d i :
  terminates (decodeVarint i64 d i) (λ '(v, j), 0 ≤ i ∧ i < j ≤ len d ∧ is_i64 v).
Proof.
  split; [apply decodeVarint_fuel|]. intros [v j] H.
  pose proof (decodeVarint_width _ _ _ _ _ H) as <-.
  apply decodeVarint_advances in H. split_and!; try apply H. apply i64_range.
Qed.

(** int addition of two non-negative values: exact, or a wrap below zero. *)
Lemma i64_add_nonneg a b :
  0 ≤ a < 2 ^ 62 → is_i64 b → 0 ≤ b →
  i64 (a + b) = a + b ∨ i64 (a + b) < - 2 ^ 62.
Proof.
  unfold is_i64. intros. destruct (decide (a + b < 2 ^ 63)).
  - left. apply i64_id. unfold is_i64. lia.
  - right. unfold i64.
    rewrite <- (Z.mod_unique_pos (a + b + 2 ^ 63) (2 ^ 64) 1 (a + b - 2 ^ 63)); lia.
Qed.

Lemma go_slice_terminates {A} (l : list A) lo hi :
  terminates (go_slice l lo hi)
    (λ r, 0 ≤ lo ≤ hi ∧ hi ≤ len l ∧ r = take (Z.to_nat (hi - lo)) (drop (Z.to_nat lo) l)).
Proof. unfold go_slice. case_bool; [|done]. apply terminates_Ret. split_and!; (done || lia). Qed.

#[export] Hint Resolve terminates_Ret terminates_Err terminates_Panic : go.

Lemma skip_group_terminates skip fuel d start :
  len d < 2 ^ 62 → 1 ≤ start → (0 < fuel)%nat → len d - start < Z.of_nat fuel →
  (∀ d', (length d' < length d)%nat → terminates (skip d') skip_result) →
  terminates (skip_group skip fuel d start) (λ j, 0 < j ≤ len d).
Proof.
  intros Hd Hs H0 Hf Hskip. revert start Hs H0 Hf.
  induction fuel as [|fuel IH]; intros start Hs H0 Hf; [lia|]. cbn [skip_group].
  eapply terminates_bind; [apply decodeVarint_terminates|]. intros [wire j] Hj.
  case_bool; [apply terminates_Ret; lia|].
  eapply terminates_bind; [apply go_slice_terminates|]. intros rest (_ & _ & ->).
  eapply terminates_bind; [apply Hskip|].
  { rewrite length_take, length_drop. unfold len in *. lia. }
  intros next [Hn1 Hn2]. unfold is_i64 in Hn1.
  assert (start + 1 ≤ i64 (start + next) ∨ i64 (start + next) < 0) as [?|?].
  { destruct Hn2 as [Hn|Hn].
    - destruct (i64_add_nonneg start next); [lia|done|lia|lia|lia].
    - rewrite i64_id; unfold is_i64; lia. }
  - apply IH; lia.
  - destruct fuel as [|fuel]; [lia|]. cbn [skip_group].
    eapply terminates_bind; [apply decodeVarint_terminates|]. intros [] ?. lia.
Qed.

Lemma skip_loop_terminates fuel d :
  len d < 2 ^ 62 → (length d < fuel)%nat → terminates (skip_loop fuel d) skip_result.
Proof.
  revert d. induction fuel as [|fuel IH]; intros d Hd Hf; [lia|]. cbn [skip_loop].
  case_bool; [|done].
  eapply terminates_bind; [apply decodeVarint_terminates|]. intros [wire j] Hj.
  unfold skip_result, is_i64. case_bool.
  { destruct (skip_varint_progress varint_fuel d j 0) as [H1 H2];
      [unfold varint_fuel; lia..|]. split; [done|]. intros n Hn.
    assert (n ≤ len d) by (revert Hn; apply skip_varint_bound). apply H2 in Hn. lia. }
  case_bool; [apply terminates_Ret; lia|].
  case_bool.
  { eapply terminates_bind; [apply decodeVarint_int_terminates|]. intros [n k] (_&Hk&Hn).
    case_bool; [done|]. apply terminates_Ret. split; [apply i64_range|].
    destruct (i64_add_nonneg k n) as [->|?]; [lia|done|lia|lia|by right]. }
  case_bool.
  { eapply terminates_mono; [apply skip_group_terminates; try lia|].
    - unfold len in *. lia.
    - intros d' Hd'. apply IH; unfold len in *; lia.
    - simpl. lia. }
  case_bool; [apply terminates_Ret; lia|].
  case_bool; [apply terminates_Ret; lia|]. done.
Qed.

Lemma bytesField_terminates d i :
  len d < 2 ^ 62 →
  terminates (bytesField d i)
    (λ '(p, j), i ≤ j ≤ len d ∧ (length p ≤ length d)%nat).
Proof.
  intros Hd. unfold bytesField, lengthPrefix.
  eapply terminates_bind with (P := λ '(k, _), i ≤ k).
  { eapply terminates_bind; [apply decodeVarint_int_terminates|]. intros [n k] (_&Hk&Hn).
    case_bool; [done|]. case_bool; [done|]. apply terminates_Ret. lia. }
  intros [k post] Hk.
  eapply terminates_bind; [apply go_slice_terminates|]. intros p (H1 & H2 & ->).
  apply terminates_Ret. rewrite length_take, length_drop. unfold len in *. lia.
Qed.

Lemma messageField_terminates {M} (unmarshal : list Z → outcome M) d i :
  len d < 2 ^ 62 →
  (∀ p, len p < 2 ^ 62 → terminates (unmarshal p) (λ _, True)) →
  terminates (messageField unmarshal d i) (λ '(_, j), i ≤ j ≤ len d).
Proof.
  intros Hd Hu. unfold messageField.
  eapply terminates_bind; [by apply bytesField_terminates|]. intros [p j] [Hj Hp].
  eapply terminates_bind; [apply Hu; unfold len in *; lia|]. intros m _.
  by apply terminates_Ret.
Qed.

(** The [switch] of an [Unmarshal] method always comes back, at or after the
    position it was given. *)
Definition FieldTerminates {M}
    (field : Z → Z → list Z → Z → M → outcome (option (M * Z))) : Prop :=
  ∀ fn wt d i m, len d < 2 ^ 62 → 0 ≤ i →
    terminates (field fn wt d i m)
      (λ r, match r with Some (_, j) => i ≤ j | None => True end).

Lemma unmarshal_loop_terminates {M} field unrecognized fuel d (m : M) i :
  FieldTerminates field → len d < 2 ^ 62 → 0 ≤ i → (0 < fuel)%nat →
  len d - i < Z.of_nat fuel →
  terminates (unmarshal_loop field unrecognized fuel d m i) (λ _, True).
Proof.
  intros Hfield Hd. revert m i. induction fuel as [|fuel IH]; intros m i Hi H0 Hf; [lia|].
  cbn [unmarshal_loop]. case_bool; [|case_bool; by auto with go].
  eapply terminates_bind; [apply decodeVarint_terminates|]. intros [wire k] Hk.
  case_bool; [done|]. case_bool; [done|].
  eapply terminates_bind; [apply Hfield; [done|lia]|].
  intros [[m' j]|] Hj; [apply IH; lia|].
  eapply terminates_bind; [apply go_slice_terminates|]. intros rest (_ & _ & ->).
  eapply terminates_bind.
  { apply skip_loop_terminates; rewrite ?length_take, ?length_drop; [|lia].
    autorewrite with go_len. lia. }
  intros n [Hn [Hn'|?]]; case_bool; try done. case_bool; [done|].
  eapply terminates_bind; [apply go_slice_terminates|]. intros u (H1 & H2 & _).
  destruct (i64_add_nonneg i n) as [->|?]; [lia|done|lia| |lia].
  apply IH; lia.
Qed.

(** Every [Unmarshal] method built from such a [switch] terminates, on every
    input (shorter than [2^62] bytes, which every Go slice is). *)
Lemma unmarshal_terminates {M} field unrecognized (m : M) d :
  FieldTerminates field → len d < 2 ^ 62 →
  terminates (unmarshal field unrecognized m d) (λ _, True).
Proof.
  intros. apply unmarshal_loop_terminates; try done; unfold len; lia.
Qed.

(** ** The field writers are correct *)

Definition varintFieldBytes (tag v : Z) : list Z := tag :: varint_bytes v.
Definition delimitedBytes (tag : Z) (p : list Z) : list Z := tag :: varint_bytes (len p) ++ p.
Definition bytesFieldBytes (tag : Z) (p : option (list Z)) : list Z :=
  match p with Some p => delimitedBytes tag p | None => [] end.
Definition boolFieldBytes (tag : Z) (b : bool) : list Z := [tag; if b then 1 else 0].

(** [op] appends [bs] when the buffer has room for them. *)
Definition Writes (n : Z) (op : writer) (bs : list Z) : Prop :=
  ∀ w, len w + len bs ≤ n → op w = Ret (w ++ bs).

Create HintDb writes.

Lemma putVarintField_ok n tag v :
  is_u64 v → Writes n (putVarintField n tag v) (varintFieldBytes tag v).
Proof.
  intros Hv w Hw. unfold putVarintField, varintFieldBytes in *. autorewrite with go_len in Hw.
  pose proof (len_nonneg (varint_bytes v)).
  rewrite putByte_ok by lia. simpl.
  rewrite encodeVarintRaft_ok by (done || (autorewrite with go_len; lia)).
  by rewrite <- app_assoc.
Qed.

Lemma putDelimited_ok n tag p (k : writer) w :
  is_u64 (len p) → len w + len (delimitedBytes tag p) ≤ n →
  (∀ w', len w' + len p ≤ n → k w' = Ret (w' ++ p)) →
  (w ← putByte n tag w; w ← encodeVarintRaft n (len p) w; k w) =
  Ret (w ++ delimitedBytes tag p).
Proof.
  intros Hp Hw Hk. unfold delimitedBytes in *. autorewrite with go_len in Hw.
  pose proof (len_nonneg (varint_bytes (len p))). pose proof (len_nonneg p).
  rewrite putByte_ok by lia. simpl.
  rewrite encodeVarintRaft_ok by (done || (autorewrite with go_len; lia)). simpl.
  rewrite Hk by (autorewrite with go_len; lia). by rewrite <- !app_assoc.
Qed.

Lemma putBytesField_ok n tag p :
  is_u64 (len (default [] p)) → Writes n (putBytesField n tag p) (bytesFieldBytes tag p).
Proof.
  intros Hp w Hw. destruct p as [p|]; simpl in *; [|by rewrite app_nil_r].
  apply putDelimited_ok; [done..|]. intros. by apply copyBytes_ok.
Qed.

Lemma putMessageField_ok n tag p f :
  is_u64 (len p) → (∀ n', len p ≤ n' → f n' = Ret p) →
  Writes n (putMessageField n tag (len p) f) (delimitedBytes tag p).
Proof.
  intros Hp Hf w Hw. unfold putMessageField.
  apply putDelimited_ok; [done..|]. intros w' Hw'. apply putMessage_ok, Hf. lia.
Qed.

Lemma putBoolField_ok n tag b : Writes n (putBoolField n tag b) (boolFieldBytes tag b).
Proof.
  intros w Hw. unfold putBoolField, boolFieldBytes in *. autorewrite with go_len in Hw.
  rewrite putByte_ok by lia. simpl. rewrite putByte_ok by (autorewrite with go_len; lia).
  by rewrite <- app_assoc.
Qed.

Lemma putUnrecognized_ok n p : Writes n (putUnrecognized n p) (default [] p).
Proof.
  intros w Hw. destruct p as [p|]; simpl in *; [by apply copyBytes_ok|by rewrite app_nil_r].
Qed.

Lemma writeAll_nil n : Writes n (writeAll []) [].
Proof. intros w _. simpl. by rewrite app_nil_r. Qed.

Lemma writeAll_cons n op ops bs bss :
  Writes n op bs → Writes n (writeAll ops) bss → Writes n (writeAll (op :: ops)) (bs ++ bss).
Proof.
  intros H1 H2 w Hw. autorewrite with go_len in Hw. pose proof (len_nonneg bss).
  simpl. rewrite H1 by lia. simpl. rewrite H2 by (autorewrite with go_len; lia).
  by rewrite <- app_assoc.
Qed.

Lemma writeAll_map n {A} (op : A → writer) (enc : A → list Z) (xs : list A) :
  (∀ x, x ∈ xs → Writes n (op x) (enc x)) →
  Writes n (writeAll (op <$> xs)) (xs ≫= enc).
Proof.
  induction xs as [|x xs IH]; intros H; [apply writeAll_nil|].
  apply writeAll_cons; [apply H|apply IH]; set_solver.
Qed.

#[export] Hint Resolve putVarintField_ok putBytesField_ok putBoolField_ok putUnrecognized_ok
  writeAll_nil writeAll_cons : writes.

Lemma len_varintFieldBytes tag v : is_u64 v → len (varintFieldBytes tag v) = 1 + sovRaft v.
Proof. intros. unfold varintFieldBytes. autorewrite with go_len. by rewrite sovRaft_ok. Qed.
Lemma len_delimitedBytes tag p :
  is_u64 (len p) → len (delimitedBytes tag p) = 1 + len p + sovRaft (len p).
Proof.
  intros. unfold delimitedBytes. autorewrite with go_len. rewrite sovRaft_ok by done. lia.
Qed.
Lemma len_bytesFieldBytes tag p :
  is_u64 (len (default [] p)) → len (bytesFieldBytes tag p) = bytesFieldSize p.
Proof. intros. destruct p; [by apply len_delimitedBytes|done]. Qed.
Lemma len_boolFieldBytes tag b : len (boolFieldBytes tag b) = 2.
Proof. done. Qed.
Lemma len_default p : len (default [] p) = unrecognizedSize p.
Proof. by destruct p. Qed.
