(* ===== verification/RaftPb.v ===== *)
(** * raft/raftpb: the messages of raft.proto

    One Module per message type of raft.pb.go, with its fields, its zero value
    and the generated [Size], [MarshalTo], [Marshal] and [Unmarshal] methods,
    then raftpb/confchange.go.  An enum value is the [int32] the code holds
    (decoding can produce any), with the constants by name; a [[]byte] field
    whose nil-ness the code tests is an [option]. *)

From S2P Require Import Prelude Proto.

Abbreviation bytes := (list Z).

(** ** Enums *)

Definition EntryNormal : Z := 0.
Definition EntryConfChange : Z := 1.
Definition EntryConfChangeV2 : Z := 2.

Definition MsgHup : Z := 0.
Definition MsgBeat : Z := 1.
Definition MsgProp : Z := 2.
Definition MsgApp : Z := 3.
Definition MsgAppResp : Z := 4.
Definition MsgVote : Z := 5.
Definition MsgVoteResp : Z := 6.
Definition MsgSnap : Z := 7.
Definition MsgHeartbeat : Z := 8.
Definition MsgHeartbeatResp : Z := 9.
Definition MsgUnreachable : Z := 10.
Definition MsgSnapStatus : Z := 11.
Definition MsgCheckQuorum : Z := 12.
Definition MsgTransferLeader : Z := 13.
Definition MsgTimeoutNow : Z := 14.
Definition MsgReadIndex : Z := 15.
Definition MsgReadIndexResp : Z := 16.
Definition MsgPreVote : Z := 17.
Definition MsgPreVoteResp : Z := 18.

Definition ConfChangeTransitionAuto : Z := 0.
Definition ConfChangeTransitionJointImplicit : Z := 1.
Definition ConfChangeTransitionJointExplicit : Z := 2.

Definition ConfChangeAddNode : Z := 0.
Definition ConfChangeRemoveNode : Z := 1.
Definition ConfChangeUpdateNode : Z := 2.
Definition ConfChangeAddLearnerNode : Z := 3.

(** The [switch] of the [Unmarshal] methods, by kind of field. *)
Definition enumCase {M} (upd : Z → M → M) (wireType : Z) (d : bytes) (i : Z) (m : M)
    : outcome (option (M * Z)) :=
  if negb (wireType =? 0) then wrongWireType else
  '(v, i) ← decodeVarint i32 d i; Ret (Some (upd v m, i)).

Definition uint64Case {M} (upd : Z → M → M) (wireType : Z) (d : bytes) (i : Z) (m : M)
    : outcome (option (M * Z)) :=
  if negb (wireType =? 0) then wrongWireType else
  '(v, i) ← decodeVarint u64 d i; Ret (Some (upd v m, i)).

Definition boolCase {M} (upd : bool → M → M) (wireType : Z) (d : bytes) (i : Z) (m : M)
    : outcome (option (M * Z)) :=
  if negb (wireType =? 0) then wrongWireType else
  '(v, i) ← decodeVarint i64 d i; Ret (Some (upd (negb (v =? 0)) m, i)).

Definition bytesCase {M} (upd : bytes → M → M) (wireType : Z) (d : bytes) (i : Z) (m : M)
    : outcome (option (M * Z)) :=
  if negb (wireType =? 2) then wrongWireType else
  '(p, i) ← bytesField d i; Ret (Some (upd p m, i)).

Definition messageCase {M X} (unmarshal : bytes → outcome X) (upd : X → M → M)
    (wireType : Z) (d : bytes) (i : Z) (m : M) : outcome (option (M * Z)) :=
  if negb (wireType =? 2) then wrongWireType else
  '(x, i) ← messageField unmarshal d i; Ret (Some (upd x m, i)).

(** [for iNdEx < postIndex { v := varint; x = append(x, v) }] *)
Fixpoint packed_loop (fuel : nat) (d : bytes) (postIndex : Z) (vs : list Z) (i : Z)
    : outcome (list Z * Z) :=
  match fuel with
  | O => OutOfFuel
  | S fuel =>
      if i <? postIndex then
        '(v, i) ← decodeVarint u64 d i;
        packed_loop fuel d postIndex (vs ++ [v]) i
      else Ret (vs, i)
  end.

(** A repeated uint64: one element, or a packed run of them. *)
Definition repeatedCase {M} (get : M → list Z) (upd : list Z → M → M)
    (wireType : Z) (d : bytes) (i : Z) (m : M) : outcome (option (M * Z)) :=
  if wireType =? 0 then
    '(v, i) ← decodeVarint u64 d i; Ret (Some (upd (get m ++ [v]) m, i))
  else if wireType =? 2 then
    '(i, postIndex) ← lengthPrefix d i;
    '(vs, i) ← packed_loop (S (length d)) d postIndex (get m) i;
    Ret (Some (upd vs m, i))
  else wrongWireType.

(** ** Entry *)
Module Entry.
Record t := mk {
  Term : Z; Index : Z; Type_ : Z; Data : option bytes;
  XXX_unrecognized : option bytes }.
Definition zero : t := mk 0 0 EntryNormal None None.

Definition Size (m : t) : Z :=
  (1 + sovRaft (u64 (Type_ m))) + (1 + sovRaft (Term m)) + (1 + sovRaft (Index m))
  + bytesFieldSize (Data m) + unrecognizedSize (XXX_unrecognized m).

Definition MarshalTo (m : t) (n : Z) : outcome bytes :=
  writeAll [
    putVarintField n 0x8 (u64 (Type_ m));
    putVarintField n 0x10 (Term m);
    putVarintField n 0x18 (Index m);
    putBytesField n 0x22 (Data m);
    putUnrecognized n (XXX_unrecognized m)] [].

Definition Marshal (m : t) : outcome bytes :=
  let size := Size m in MarshalTo m size.

Definition field (fieldNum wireType : Z) (d : bytes) (i : Z) (m : t)
    : outcome (option (t * Z)) :=
  if fieldNum =? 1 then enumCase (λ v m, m <| Type_ := v |>) wireType d i m
  else if fieldNum =? 2 then uint64Case (λ v m, m <| Term := v |>) wireType d i m
  else if fieldNum =? 3 then uint64Case (λ v m, m <| Index := v |>) wireType d i m
  else if fieldNum =? 4 then bytesCase (λ p m, m <| Data := Some p |>) wireType d i m
  else Ret None.

Definition Unmarshal (m : t) (d : bytes) : outcome t :=
  unmarshal field (λ u m, m <| XXX_unrecognized ::= appendUnrecognized u |>) m d.
End Entry.

(** ** ConfState *)
Module ConfState.
Record t := mk {
  Voters : list Z; Learners : list Z; VotersOutgoing : list Z; LearnersNext : list Z;
  AutoLeave : bool; XXX_unrecognized : option bytes }.
Definition zero : t := mk [] [] [] [] false None.

(** [for _, e := range xs { n += 1 + sovRaft(uint64(e)) }] *)
Definition repeatedSize (xs : list Z) : Z :=
  foldr (λ e n, 1 + sovRaft e + n) 0 xs.

Definition Size (m : t) : Z :=
  repeatedSize (Voters m) + repeatedSize (Learners m)
  + repeatedSize (VotersOutgoing m) + repeatedSize (LearnersNext m)
  + 2 + unrecognizedSize (XXX_unrecognized m).

Definition MarshalTo (m : t) (n : Z) : outcome bytes :=
  writeAll [
    writeAll (putVarintField n 0x8 <$> Voters m);
    writeAll (putVarintField n 0x10 <$> Learners m);
    writeAll (putVarintField n 0x18 <$> VotersOutgoing m);
    writeAll (putVarintField n 0x20 <$> LearnersNext m);
    putBoolField n 0x28 (AutoLeave m);
    putUnrecognized n (XXX_unrecognized m)] [].

Definition Marshal (m : t) : outcome bytes :=
  let size := Size m in MarshalTo m size.

Definition field (fieldNum wireType : Z) (d : bytes) (i : Z) (m : t)
    : outcome (option (t * Z)) :=
  if fieldNum =? 1 then
    repeatedCase Voters (λ vs m, m <| Voters := vs |>) wireType d i m
  else if fieldNum =? 2 then
    repeatedCase Learners (λ vs m, m <| Learners := vs |>) wireType d i m
  else if fieldNum =? 3 then
    repeatedCase VotersOutgoing (λ vs m, m <| VotersOutgoing := vs |>) wireType d i m
  else if fieldNum =? 4 then
    repeatedCase LearnersNext (λ vs m, m <| LearnersNext := vs |>) wireType d i m
  else if fieldNum =? 5 then boolCase (λ b m, m <| AutoLeave := b |>) wireType d i m
  else Ret None.

Definition Unmarshal (m : t) (d : bytes) : outcome t :=
  unmarshal field (λ u m, m <| XXX_unrecognized ::= appendUnrecognized u |>) m d.
End ConfState.

(** ** SnapshotMetadata *)
Module SnapshotMetadata.
Record t := mk {
  ConfState_ : ConfState.t; Index : Z; Term : Z; XXX_unrecognized : option bytes }.
Definition zero : t := mk ConfState.zero 0 0 None.

Definition Size (m : t) : Z :=
  let l := ConfState.Size (ConfState_ m) in
  (1 + l + sovRaft l) + (1 + sovRaft (Index m)) + (1 + sovRaft (Term m))
  + unrecognizedSize (XXX_unrecognized m).

Definition MarshalTo (m : t) (n : Z) : outcome bytes :=
  writeAll [
    putMessageField n 0xa (ConfState.Size (ConfState_ m)) (ConfState.MarshalTo (ConfState_ m));
    putVarintField n 0x10 (Index m);
    putVarintField n 0x18 (Term m);
    putUnrecognized n (XXX_unrecognized m)] [].

Definition Marshal (m : t) : outcome bytes :=
  let size := Size m in MarshalTo m size.

Definition field (fieldNum wireType : Z) (d : bytes) (i : Z) (m : t)
    : outcome (option (t * Z)) :=
  if fieldNum =? 1 then
    messageCase (ConfState.Unmarshal (ConfState_ m)) (λ x m, m <| ConfState_ := x |>)
      wireType d i m
  else if fieldNum =? 2 then uint64Case (λ v m, m <| Index := v |>) wireType d i m
  else if fieldNum =? 3 then uint64Case (λ v m, m <| Term := v |>) wireType d i m
  else Ret None.

Definition Unmarshal (m : t) (d : bytes) : outcome t :=
  unmarshal field (λ u m, m <| XXX_unrecognized ::= appendUnrecognized u |>) m d.
End SnapshotMetadata.

(** ** Snapshot *)
Module Snapshot.
Record t := mk {
  Data : option bytes; Metadata : SnapshotMetadata.t; XXX_unrecognized : option bytes }.
Definition zero : t := mk None SnapshotMetadata.zero None.

Definition Size (m : t) : Z :=
  let l := SnapshotMetadata.Size (Metadata m) in
  bytesFieldSize (Data m) + (1 + l + sovRaft l) + unrecognizedSize (XXX_unrecognized m).

Definition MarshalTo (m : t) (n : Z) : outcome bytes :=
  writeAll [
    putBytesField n 0xa (Data m);
    putMessageField n 0x12 (SnapshotMetadata.Size (Metadata m))
      (SnapshotMetadata.MarshalTo (Metadata m));
    putUnrecognized n (XXX_unrecognized m)] [].

Definition Marshal (m : t) : outcome bytes :=
  let size := Size m in MarshalTo m size.

Definition field (fieldNum wireType : Z) (d : bytes) (i : Z) (m : t)
    : outcome (option (t * Z)) :=
  if fieldNum =? 1 then bytesCase (λ p m, m <| Data := Some p |>) wireType d i m
  else if fieldNum =? 2 then
    messageCase (SnapshotMetadata.Unmarshal (Metadata m)) (λ x m, m <| Metadata := x |>)
      wireType d i m
  else Ret None.

Definition Unmarshal (m : t) (d : bytes) : outcome t :=
  unmarshal field (λ u m, m <| XXX_unrecognized ::= appendUnrecognized u |>) m d.
End Snapshot.

(** ** Message *)
Module Message.
Record t := mk {
  Type_ : Z; To : Z; From : Z; Term : Z; LogTerm : Z; Index : Z;
  Entries : list Entry.t; Commit : Z; Snapshot_ : Snapshot.t; Reject : bool;
  RejectHint : Z; Context : option bytes; XXX_unrecognized : option bytes }.
Definition zero : t := mk MsgHup 0 0 0 0 0 [] 0 Snapshot.zero false 0 None None.

(** [for _, e := range m.Entries { l = e.Size(); n += 1 + l + sovRaft(l) }] *)
Definition entriesSize (es : list Entry.t) : Z :=
  foldr (λ e n, 1 + Entry.Size e + sovRaft (Entry.Size e) + n) 0 es.

Definition Size (m : t) : Z :=
  let l := Snapshot.Size (Snapshot_ m) in
  (1 + sovRaft (u64 (Type_ m))) + (1 + sovRaft (To m)) + (1 + sovRaft (From m))
  + (1 + sovRaft (Term m)) + (1 + sovRaft (LogTerm m)) + (1 + sovRaft (Index m))
  + entriesSize (Entries m) + (1 + sovRaft (Commit m)) + (1 + l + sovRaft l) + 2
  + (1 + sovRaft (RejectHint m)) + bytesFieldSize (Context m)
  + unrecognizedSize (XXX_unrecognized m).

Definition MarshalTo (m : t) (n : Z) : outcome bytes :=
  writeAll [
    putVarintField n 0x8 (u64 (Type_ m));
    putVarintField n 0x10 (To m);
    putVarintField n 0x18 (From m);
    putVarintField n 0x20 (Term m);
    putVarintField n 0x28 (LogTerm m);
    putVarintField n 0x30 (Index m);
    writeAll ((λ msg, putMessageField n 0x3a (Entry.Size msg) (Entry.MarshalTo msg))
                <$> Entries m);
    putVarintField n 0x40 (Commit m);
    putMessageField n 0x4a (Snapshot.Size (Snapshot_ m)) (Snapshot.MarshalTo (Snapshot_ m));
    putBoolField n 0x50 (Reject m);
    putVarintField n 0x58 (RejectHint m);
    putBytesField n 0x62 (Context m);
    putUnrecognized n (XXX_unrecognized m)] [].

Definition Marshal (m : t) : outcome bytes :=
  let size := Size m in MarshalTo m size.

Definition field_1_6 (fieldNum wireType : Z) (d : bytes) (i : Z) (m : t)
    : outcome (option (t * Z)) :=
  if fieldNum =? 1 then enumCase (λ v m, m <| Type_ := v |>) wireType d i m
  else if fieldNum =? 2 then uint64Case (λ v m, m <| To := v |>) wireType d i m
  else if fieldNum =? 3 then uint64Case (λ v m, m <| From := v |>) wireType d i m
  else if fieldNum =? 4 then uint64Case (λ v m, m <| Term := v |>) wireType d i m
  else if fieldNum =? 5 then uint64Case (λ v m, m <| LogTerm := v |>) wireType d i m
  else uint64Case (λ v m, m <| Index := v |>) wireType d i m.

Definition field_7_12 (fieldNum wireType : Z) (d : bytes) (i : Z) (m : t)
    : outcome (option (t * Z)) :=
  if fieldNum =? 7 then
    messageCase (Entry.Unmarshal Entry.zero) (λ e m, m <| Entries ::= (.++ [e]) |>)
      wireType d i m
  else if fieldNum =? 8 then uint64Case (λ v m, m <| Commit := v |>) wireType d i m
  else if fieldNum =? 9 then
    messageCase (Snapshot.Unmarshal (Snapshot_ m)) (λ x m, m <| Snapshot_ := x |>)
      wireType d i m
  else if fieldNum =? 10 then boolCase (λ b m, m <| Reject := b |>) wireType d i m
  else if fieldNum =? 11 then uint64Case (λ v m, m <| RejectHint := v |>) wireType d i m
  else if fieldNum =? 12 then bytesCase (λ p m, m <| Context := Some p |>) wireType d i m
  else Ret None.

Definition field (fieldNum wireType : Z) (d : bytes) (i : Z) (m : t)
    : outcome (option (t * Z)) :=
  if fieldNum <=? 6 then field_1_6 fieldNum wireType d i m
  else field_7_12 fieldNum wireType d i m.

Definition Unmarshal (m : t) (d : bytes) : outcome t :=
  unmarshal field (λ u m, m <| XXX_unrecognized ::= appendUnrecognized u |>) m d.
End Message.

(** ** HardState *)
Module HardState.
Record t := mk { Term : Z; Vote : Z; Commit : Z; XXX_unrecognized : option bytes }.
Definition zero : t := mk 0 0 0 None.

Definition Size (m : t) : Z :=
  (1 + sovRaft (Term m)) + (1 + sovRaft (Vote m)) + (1 + sovRaft (Commit m))
  + unrecognizedSize (XXX_unrecognized m).

Definition MarshalTo (m : t) (n : Z) : outcome bytes :=
  writeAll [
    putVarintField n 0x8 (Term m);
    putVarintField n 0x10 (Vote m);
    putVarintField n 0x18 (Commit m);
    putUnrecognized n (XXX_unrecognized m)] [].

Definition Marshal (m : t) : outcome bytes :=
  let size := Size m in MarshalTo m size.

Definition field (fieldNum wireType : Z) (d : bytes) (i : Z) (m : t)
    : outcome (option (t * Z)) :=
  if fieldNum =? 1 then uint64Case (λ v m, m <| Term := v |>) wireType d i m
  else if fieldNum =? 2 then uint64Case (λ v m, m <| Vote := v |>) wireType d i m
  else if fieldNum =? 3 then uint64Case (λ v m, m <| Commit := v |>) wireType d i m
  else Ret None.

Definition Unmarshal (m : t) (d : bytes) : outcome t :=
  unmarshal field (λ u m, m <| XXX_unrecognized ::= appendUnrecognized u |>) m d.
End HardState.

(** ** ConfChange *)
Module ConfChange.
Record t := mk {
  Type_ : Z; NodeID : Z; Context : option bytes; ID : Z;
  XXX_unrecognized : option bytes }.
Definition zero : t := mk ConfChangeAddNode 0 None 0 None.

Definition Size (m : t) : Z :=
  (1 + sovRaft (ID m)) + (1 + sovRaft (u64 (Type_ m))) + (1 + sovRaft (NodeID m))
  + bytesFieldSize (Context m) + unrecognizedSize (XXX_unrecognized m).

Definition MarshalTo (m : t) (n : Z) : outcome bytes :=
  writeAll [
    putVarintField n 0x8 (ID m);
    putVarintField n 0x10 (u64 (Type_ m));
    putVarintField n 0x18 (NodeID m);
    putBytesField n 0x22 (Context m);
    putUnrecognized n (XXX_unrecognized m)] [].

Definition Marshal (m : t) : outcome bytes :=
  let size := Size m in MarshalTo m size.

Definition field (fieldNum wireType : Z) (d : bytes) (i : Z) (m : t)
    : outcome (option (t * Z)) :=
  if fieldNum =? 1 then uint64Case (λ v m, m <| ID := v |>) wireType d i m
  else if fieldNum =? 2 then enumCase (λ v m, m <| Type_ := v |>) wireType d i m
  else if fieldNum =? 3 then uint64Case (λ v m, m <| NodeID := v |>) wireType d i m
  else if fieldNum =? 4 then bytesCase (λ p m, m <| Context := Some p |>) wireType d i m
  else Ret None.

Definition Unmarshal (m : t) (d : bytes) : outcome t :=
  unmarshal field (λ u m, m <| XXX_unrecognized ::= appendUnrecognized u |>) m d.
End ConfChange.

(** ** ConfChangeSingle *)
Module ConfChangeSingle.
Record t := mk { Type_ : Z; NodeID : Z; XXX_unrecognized : option bytes }.
Definition zero : t := mk ConfChangeAddNode 0 None.

Definition Size (m : t) : Z :=
  (1 + sovRaft (u64 (Type_ m))) + (1 + sovRaft (NodeID m))
  + unrecognizedSize (XXX_unrecognized m).

Definition MarshalTo (m : t) (n : Z) : outcome bytes :=
  writeAll [
    putVarintField n 0x8 (u64 (Type_ m));
    putVarintField n 0x10 (NodeID m);
    putUnrecognized n (XXX_unrecognized m)] [].

Definition Marshal (m : t) : outcome bytes :=
  let size := Size m in MarshalTo m size.

Definition field (fieldNum wireType : Z) (d : bytes) (i : Z) (m : t)
    : outcome (option (t * Z)) :=
  if fieldNum =? 1 then enumCase (λ v m, m <| Type_ := v |>) wireType d i m
  else if fieldNum =? 2 then uint64Case (λ v m, m <| NodeID := v |>) wireType d i m
  else Ret None.

Definition Unmarshal (m : t) (d : bytes) : outcome t :=
  unmarshal field (λ u m, m <| XXX_unrecognized ::= appendUnrecognized u |>) m d.
End ConfChangeSingle.

(** ** ConfChangeV2 *)
Module ConfChangeV2.
Record t := mk {
  Transition : Z; Changes : list ConfChangeSingle.t; Context : option bytes;
  XXX_unrecognized : option bytes }.
Definition zero : t := mk ConfChangeTransitionAuto [] None None.

(** [for _, e := range m.Changes { l = e.Size(); n += 1 + l + sovRaft(l) }] *)
Definition changesSize (es : list ConfChangeSingle.t) : Z :=
  foldr (λ e n, 1 + ConfChangeSingle.Size e + sovRaft (ConfChangeSingle.Size e) + n) 0 es.

Definition Size (m : t) : Z :=
  (1 + sovRaft (u64 (Transition m))) + changesSize (Changes m)
  + bytesFieldSize (Context m) + unrecognizedSize (XXX_unrecognized m).

Definition MarshalTo (m : t) (n : Z) : outcome bytes :=
  writeAll [
    putVarintField n 0x8 (u64 (Transition m));
    writeAll ((λ msg, putMessageField n 0x12 (ConfChangeSingle.Size msg)
                        (ConfChangeSingle.MarshalTo msg)) <$> Changes m);
    putBytesField n 0x1a (Context m);
    putUnrecognized n (XXX_unrecognized m)] [].

Definition Marshal (m : t) : outcome bytes :=
  let size := Size m in MarshalTo m size.

Definition field (fieldNum wireType : Z) (d : bytes) (i : Z) (m : t)
    : outcome (option (t * Z)) :=
  if fieldNum =? 1 then enumCase (λ v m, m <| Transition := v |>) wireType d i m
  else if fieldNum =? 2 then
    messageCase (ConfChangeSingle.Unmarshal ConfChangeSingle.zero)
      (λ e m, m <| Changes ::= (.++ [e]) |>) wireType d i m
  else if fieldNum =? 3 then bytesCase (λ p m, m <| Context := Some p |>) wireType d i m
  else Ret None.

Definition Unmarshal (m : t) (d : bytes) : outcome t :=
  unmarshal field (λ u m, m <| XXX_unrecognized ::= appendUnrecognized u |>) m d.
End ConfChangeV2.

(** ** raftpb/confchange.go *)

(** [ConfChangeI] abstracts over ConfChangeV2 and (legacy) ConfChange. *)
Class ConfChangeI (A : Type) := {
  AsV2 : A → ConfChangeV2.t;
  AsV1 : A → ConfChange.t * bool;
}.

#[global] Instance ConfChange_I : ConfChangeI ConfChange.t := {
  AsV2 c := ConfChangeV2.mk ConfChangeTransitionAuto
              [ConfChangeSingle.mk (ConfChange.Type_ c) (ConfChange.NodeID c) None]
              (ConfChange.Context c) None;
  AsV1 c := (c, true);
}.

#[global] Instance ConfChangeV2_I : ConfChangeI ConfChangeV2.t := {
  AsV2 c := c;
  AsV1 c := (ConfChange.zero, false);
}.

Definition MarshalConfChange {A} `{ConfChangeI A} (c : A) : outcome (Z * bytes) :=
  let '(ccv1, ok) := AsV1 c in
  if ok then
    ccdata ← ConfChange.Marshal ccv1; Ret (EntryConfChange, ccdata)
  else
    ccdata ← ConfChangeV2.Marshal (AsV2 c); Ret (EntryConfChangeV2, ccdata).

(** (autoLeave, ok) *)
Definition EnterJoint (c : ConfChangeV2.t) : outcome (bool * bool) :=
  if negb (ConfChangeV2.Transition c =? ConfChangeTransitionAuto)
     || (len (ConfChangeV2.Changes c) >? 1) then
    autoLeave ←
      (if ConfChangeV2.Transition c =? ConfChangeTransitionAuto then Ret true
       else if ConfChangeV2.Transition c =? ConfChangeTransitionJointImplicit then Ret true
       else if ConfChangeV2.Transition c =? ConfChangeTransitionJointExplicit then Ret false
       else Panic (PanicString "unknown transition"));
    Ret (autoLeave, true)
  else Ret (false, false).

(** [proto.Equal] is gogo/protobuf's message comparison, an argument here. *)
Definition LeaveJoint (protoEqual : ConfChangeV2.t → ConfChangeV2.t → bool)
    (c : ConfChangeV2.t) : bool :=
  let cpy := c <| ConfChangeV2.Context := None |> in
  protoEqual cpy ConfChangeV2.zero.

(** ** Reading back what was written *)

Section Reads.
Context {M : Type}.
Context (field : Z → Z → bytes → Z → M → outcome (option (M * Z))).
Context (unrecognized : bytes → M → M).

(** From [m], the field loop reads the fields encoded by [bs] and has [m']. *)
Definition Reads (m : M) (bs : bytes) (m' : M) : Prop :=
  ∃ k, (k ≤ length bs)%nat ∧ Decodes field unrecognized k m bs m'.

(** The tag of a field number below 16 and its wire type. *)
Definition tag_ok (tag fieldNum wireType : Z) : Prop :=
  0 ≤ tag < 128 ∧ i32 (Z.shiftr tag 3) = fieldNum ∧ Z.land tag 0x7 = wireType
  ∧ wireType ≠ 4 ∧ 0 < fieldNum.

Lemma Reads_nil m : Reads m [] m.
Proof. exists 0%nat. split; [done|apply Decodes_nil]. Qed.

Lemma Reads_app m1 bs1 m2 bs2 m3 :
  Reads m1 bs1 m2 → Reads m2 bs2 m3 → Reads m1 (bs1 ++ bs2) m3.
Proof.
  intros (k1 & ? & ?) (k2 & ? & ?). exists (k1 + k2)%nat. split.
  - rewrite length_app. lia.
  - by eapply Decodes_app.
Qed.

Lemma Reads_unmarshal m bs m' :
  Reads m bs m' → len bs < 2 ^ 63 → unmarshal field unrecognized m bs = Ret m'.
Proof. intros (k & ? & ?) ?. by eapply unmarshal_ok. Qed.

Lemma Reads_field tag fn wt m bs m' :
  tag_ok tag fn wt →
  (∀ pre post, len (pre ++ bs ++ post) < 2 ^ 63 →
    field fn wt (pre ++ bs ++ post) (len pre) m = Ret (Some (m', len (pre ++ bs)))) →
  Reads m (tag :: bs) m'.
Proof.
  intros (Ht & <- & <- & Hw & Hf) H. exists 1%nat. split; [simpl; lia|].
  by apply Decodes_field.
Qed.

Lemma Reads_uint64 tag fn m v upd :
  tag_ok tag fn 0 → (∀ d i, field fn 0 d i m = uint64Case upd 0 d i m) → is_u64 v →
  Reads m (varintFieldBytes tag v) (upd v m).
Proof.
  intros Ht Hf Hv. eapply Reads_field; [done|]. intros pre post _.
  rewrite Hf. unfold uint64Case. simpl. rewrite (decodeVarint_ok u64) by done. simpl.
  by rewrite u64_id.
Qed.

Lemma i32_u64 v : is_i32 v → i32 (u64 v) = v.
Proof.
  unfold is_i32, i32, u64. intros.
  destruct (decide (0 ≤ v)).
  - rewrite (Z.mod_small v), Z.mod_small; lia.
  - rewrite <- (Z.mod_unique_pos v (2 ^ 64) (-1) (v + 2 ^ 64)) by lia.
    rewrite <- (Z.mod_unique_pos _ (2 ^ 32) (2 ^ 32) (v + 2 ^ 31)); lia.
Qed.

Lemma Reads_enum tag fn m v upd :
  tag_ok tag fn 0 → (∀ d i, field fn 0 d i m = enumCase upd 0 d i m) → is_i32 v →
  Reads m (varintFieldBytes tag (u64 v)) (upd v m).
Proof.
  intros Ht Hf Hv. eapply Reads_field; [done|]. intros pre post _.
  rewrite Hf. unfold enumCase. simpl.
  rewrite (decodeVarint_ok i32) by apply u64_range. simpl. by rewrite i32_u64.
Qed.

Lemma Reads_bool tag fn m b upd :
  tag_ok tag fn 0 → (∀ d i, field fn 0 d i m = boolCase upd 0 d i m) →
  Reads m (boolFieldBytes tag b) (upd b m).
Proof.
  intros Ht Hf. eapply Reads_field; [done|]. intros pre post _.
  rewrite Hf. unfold boolCase. simpl.
  replace (_ :: post) with (varint_bytes (if b then 1 else 0) ++ post) by (by destruct b).
  rewrite (decodeVarint_ok i64) by (by destruct b). simpl. by destruct b.
Qed.

Lemma Reads_bytes tag fn m p upd :
  tag_ok tag fn 2 → (∀ d i, field fn 2 d i m = bytesCase upd 2 d i m) →
  Reads m (bytesFieldBytes tag p) (from_option (λ p, upd p m) m p).
Proof.
  intros Ht Hf. destruct p as [p|]; [|apply Reads_nil].
  eapply Reads_field; [done|]. intros pre post Hl.
  rewrite Hf. unfold bytesCase. simpl. rewrite <- app_assoc in Hl |- *.
  by rewrite bytesField_ok.
Qed.

Lemma Reads_message {X} (um : bytes → outcome X) tag fn m p x upd :
  tag_ok tag fn 2 → (∀ d i, field fn 2 d i m = messageCase um upd 2 d i m) →
  (len p < 2 ^ 63 → um p = Ret x) →
  Reads m (delimitedBytes tag p) (upd x m).
Proof.
  intros Ht Hf Hx. eapply Reads_field; [done|]. intros pre post Hl.
  rewrite Hf. unfold messageCase. simpl. rewrite <- app_assoc in Hl |- *.
  rewrite (messageField_ok _ _ _ x); [done..|]. apply Hx.
  autorewrite with go_len in Hl. pose proof (len_nonneg pre). pose proof (len_nonneg post).
  pose proof (len_nonneg (varint_bytes (len p))). lia.
Qed.

(** A repeated field: one occurrence per element, appended in order. *)
Lemma Reads_repeated {A} (enc : A → bytes) (app1 : A → M → M) xs m :
  (∀ x m, x ∈ xs → Reads m (enc x) (app1 x m)) →
  Reads m (xs ≫= enc) (foldl (flip app1) m xs).
Proof.
  revert m. induction xs as [|x xs IH]; intros m H; [apply Reads_nil|].
  eapply Reads_app; [apply H|apply IH]; set_solver.
Qed.
End Reads.

Lemma repeatedCase_one {M} get upd d i (m : M) :
  repeatedCase get upd 0 d i m = uint64Case (λ v m, upd (get m ++ [v]) m) 0 d i m.
Proof. done. Qed.

(** [reads_zero]: the message read is the one written, field by field. *)
Ltac tag_ok := by vm_compute.
