(* ===== verification/RaftPbTyped.v ===== *)
(** * raft/raftpb: decoded messages are well-typed

    In Go the types guarantee that a field of type [uint64] holds 64 bits and
    an enumeration 32.  In the model a field is a [Z]: this file proves that
    what [Unmarshal] assembles, with its shifts and conversions, always fits. *)

From S2P Require Import Prelude Proto RaftPb.

(** Values that fit the Go type of their fields. *)
Class Typed (M : Type) := typed : M → Prop.

#[export] Instance Entry_typed : Typed Entry.t := λ m,
  is_u64 (Entry.Term m) ∧ is_u64 (Entry.Index m) ∧ is_i32 (Entry.Type_ m).
#[export] Instance ConfState_typed : Typed ConfState.t := λ m,
  Forall is_u64 (ConfState.Voters m) ∧ Forall is_u64 (ConfState.Learners m) ∧
  Forall is_u64 (ConfState.VotersOutgoing m) ∧ Forall is_u64 (ConfState.LearnersNext m).
#[export] Instance SnapshotMetadata_typed : Typed SnapshotMetadata.t := λ m,
  typed (SnapshotMetadata.ConfState_ m) ∧ is_u64 (SnapshotMetadata.Index m) ∧
  is_u64 (SnapshotMetadata.Term m).
#[export] Instance Snapshot_typed : Typed Snapshot.t := λ m, typed (Snapshot.Metadata m).
#[export] Instance Message_typed : Typed Message.t := λ m,
  is_i32 (Message.Type_ m) ∧ is_u64 (Message.To m) ∧ is_u64 (Message.From m) ∧
  is_u64 (Message.Term m) ∧ is_u64 (Message.LogTerm m) ∧ is_u64 (Message.Index m) ∧
  Forall typed (Message.Entries m) ∧ is_u64 (Message.Commit m) ∧ typed (Message.Snapshot_ m) ∧
  is_u64 (Message.RejectHint m).
#[export] Instance HardState_typed : Typed HardState.t := λ m,
  is_u64 (HardState.Term m) ∧ is_u64 (HardState.Vote m) ∧ is_u64 (HardState.Commit m).
#[export] Instance ConfChange_typed : Typed ConfChange.t := λ m,
  is_u64 (ConfChange.ID m) ∧ is_i32 (ConfChange.Type_ m) ∧ is_u64 (ConfChange.NodeID m).
#[export] Instance ConfChangeSingle_typed : Typed ConfChangeSingle.t := λ m,
  is_i32 (ConfChangeSingle.Type_ m) ∧ is_u64 (ConfChangeSingle.NodeID m).
#[export] Instance ConfChangeV2_typed : Typed ConfChangeV2.t := λ m,
  is_i32 (ConfChangeV2.Transition m) ∧ Forall typed (ConfChangeV2.Changes m).

Lemma i32_range z : is_i32 (i32 z).
Proof. unfold is_i32, i32. pose proof (Z.mod_pos_bound (z + 2 ^ 31) (2 ^ 32)). lia. Qed.

Lemma decoded_u64 d i v j : decodeVarint u64 d i = Ret (v, j) → is_u64 v.
Proof. intros H. rewrite <- (decodeVarint_width u64 d i v j H). apply u64_range. Qed.

Lemma decoded_i32 d i v j : decodeVarint i32 d i = Ret (v, j) → is_i32 v.
Proof. intros H. rewrite <- (decodeVarint_width i32 d i v j H). apply i32_range. Qed.

(** What every step of the field loop preserves holds of the result. *)
Section Invariant.
Context {M : Type} (P : M → Prop).
Context (field : Z → Z → list Z → Z → M → outcome (option (M * Z))) (unrecognized : list Z → M → M).

Lemma unmarshal_preserves m d m' :
  (∀ f w d i m m' j, P m → field f w d i m = Ret (Some (m', j)) → P m') →
  (∀ u m, P m → P (unrecognized u m)) →
  P m → unmarshal field unrecognized m d = Ret m' → P m'.
Proof.
  intros Hf Hu. unfold unmarshal. generalize (S (length d)) as fuel, 0 as i. intros fuel.
  revert m. induction fuel as [|fuel IH]; intros m i HP; cbn [unmarshal_loop]; [done|].
  destruct (i <? len d); [|by destruct (i >? len d); [|intros [= <-]]].
  intros H. apply outcome_bind_Ret in H as ([wire j] & _ & H).
  destruct (_ =? 4); [done|]. destruct (_ <=? 0); [done|].
  apply outcome_bind_Ret in H as ([[m1 j1]|] & Hm & H); [by eapply IH, H; eapply Hf|].
  apply outcome_bind_Ret in H as (rest & _ & H). apply outcome_bind_Ret in H as (skippy & _ & H).
  destruct (_ <? 0); [done|]. destruct (_ >? _); [done|].
  apply outcome_bind_Ret in H as (u & _ & H). eapply IH, H. by apply Hu.
Qed.

Lemma uint64Case_inv upd w d i (m m' : M) j :
  (∀ v, is_u64 v → P (upd v m)) → uint64Case upd w d i m = Ret (Some (m', j)) → P m'.
Proof.
  intros HP. unfold uint64Case. destruct (negb _); [done|]. intros H.
  apply outcome_bind_Ret in H as ([v k] & Hv & [= <- _]). by eapply HP, decoded_u64.
Qed.
Lemma enumCase_inv upd w d i (m m' : M) j :
  (∀ v, is_i32 v → P (upd v m)) → enumCase upd w d i m = Ret (Some (m', j)) → P m'.
Proof.
  intros HP. unfold enumCase. destruct (negb _); [done|]. intros H.
  apply outcome_bind_Ret in H as ([v k] & Hv & [= <- _]). by eapply HP, decoded_i32.
Qed.
Lemma boolCase_inv upd w d i (m m' : M) j :
  (∀ b, P (upd b m)) → boolCase upd w d i m = Ret (Some (m', j)) → P m'.
Proof.
  intros HP. unfold boolCase. destruct (negb _); [done|]. intros H.
  apply outcome_bind_Ret in H as ([v k] & Hv & [= <- _]). apply HP.
Qed.
Lemma bytesCase_inv upd w d i (m m' : M) j :
  (∀ p, P (upd p m)) → bytesCase upd w d i m = Ret (Some (m', j)) → P m'.
Proof.
  intros HP. unfold bytesCase. destruct (negb _); [done|]. intros H.
  apply outcome_bind_Ret in H as ([v k] & Hv & [= <- _]). apply HP.
Qed.
Lemma messageCase_inv {X} (Q : X → Prop) dec upd w d i (m m' : M) j :
  (∀ d x, dec d = Ret x → Q x) → (∀ x, Q x → P (upd x m)) →
  messageCase dec upd w d i m = Ret (Some (m', j)) → P m'.
Proof.
  intros HQ HP. unfold messageCase, messageField. destruct (negb _); [done|]. intros H.
  apply outcome_bind_Ret in H as ([x k] & Hx & [= <- _]).
  apply outcome_bind_Ret in Hx as ([p k'] & _ & Hx). apply outcome_bind_Ret in Hx as (x' & Hx & [= <- _]).
  by eapply HP, HQ.
Qed.

Lemma packed_loop_typed fuel d post vs i vs' j :
  Forall is_u64 vs → packed_loop fuel d post vs i = Ret (vs', j) → Forall is_u64 vs'.
Proof.
  revert vs i. induction fuel as [|fuel IH]; intros vs i Hvs; cbn [packed_loop]; [done|].
  destruct (i <? post); [|by intros [= <- _]].
  intros H. apply outcome_bind_Ret in H as ([v k] & Hv & H). eapply IH, H.
  apply Forall_app. split; [done|]. apply Forall_singleton. by eapply decoded_u64.
Qed.
Lemma repeatedCase_inv get upd w d i (m m' : M) j :
  Forall is_u64 (get m) → (∀ vs, Forall is_u64 vs → P (upd vs m)) →
  repeatedCase get upd w d i m = Ret (Some (m', j)) → P m'.
Proof.
  intros Hg HP. unfold repeatedCase. destruct (w =? 0).
  - intros H. apply outcome_bind_Ret in H as ([v k] & Hv & [= <- _]). apply HP, Forall_app.
    split; [done|]. apply Forall_singleton. by eapply decoded_u64.
  - destruct (w =? 2); [|done]. intros H. apply outcome_bind_Ret in H as ([k post] & _ & H).
    apply outcome_bind_Ret in H as ([vs k'] & Hv & [= <- _]). by eapply HP, packed_loop_typed.
Qed.
End Invariant.

(** One field of a message: the case that applies, and the fields it leaves. *)
Ltac typed_field :=
  repeat match goal with
  | |- (if ?b then _ else _) = _ → _ => destruct b
  end;
  match goal with
  | |- Ret None = _ → _ => discriminate
  | |- uint64Case _ _ _ _ _ = _ → _ => apply uint64Case_inv; intros ? ?
  | |- enumCase _ _ _ _ _ = _ → _ => apply enumCase_inv; intros ? ?
  | |- boolCase _ _ _ _ _ = _ → _ => apply boolCase_inv; intros ?
  | |- bytesCase _ _ _ _ _ = _ → _ => apply bytesCase_inv; intros ?
  | |- repeatedCase _ _ _ _ _ _ = _ → _ => apply repeatedCase_inv; [assumption|intros ? ?]
  | |- messageCase _ _ _ _ _ _ = _ → _ =>
      apply (messageCase_inv typed typed); [intros ? ?; solve [eauto with typed]|intros ? ?]
  end;
  red; red; repeat match goal with |- _ ∧ _ => split end;
  first [assumption|apply Forall_app; split; [assumption|apply Forall_singleton; assumption]].

(** The message with an unknown field kept is typed as it was. *)
Ltac typed_message := apply unmarshal_preserves; [|intros ? ? H; exact H].

Create HintDb typed.

Lemma Entry_Unmarshal_typed m d m' : typed m → Entry.Unmarshal m d = Ret m' → typed m'.
Proof. typed_message. intros f w d0 i m0 m1 j (?&?&?). unfold Entry.field. typed_field. Qed.
Lemma HardState_Unmarshal_typed m d m' : typed m → HardState.Unmarshal m d = Ret m' → typed m'.
Proof. typed_message. intros f w d0 i m0 m1 j (?&?&?). unfold HardState.field. typed_field. Qed.
Lemma ConfState_Unmarshal_typed m d m' : typed m → ConfState.Unmarshal m d = Ret m' → typed m'.
Proof. typed_message. intros f w d0 i m0 m1 j (?&?&?&?). unfold ConfState.field. typed_field. Qed.
Lemma ConfChange_Unmarshal_typed m d m' : typed m → ConfChange.Unmarshal m d = Ret m' → typed m'.
Proof. typed_message. intros f w d0 i m0 m1 j (?&?&?). unfold ConfChange.field. typed_field. Qed.
Lemma ConfChangeSingle_Unmarshal_typed m d m' :
  typed m → ConfChangeSingle.Unmarshal m d = Ret m' → typed m'.
Proof. typed_message. intros f w d0 i m0 m1 j (?&?). unfold ConfChangeSingle.field. typed_field. Qed.
Lemma Entry_zero_typed : typed Entry.zero.
Proof. done. Qed.
Lemma ConfChangeSingle_zero_typed : typed ConfChangeSingle.zero.
Proof. done. Qed.
#[export] Hint Resolve Entry_Unmarshal_typed ConfState_Unmarshal_typed
  ConfChangeSingle_Unmarshal_typed Entry_zero_typed ConfChangeSingle_zero_typed : typed.

Lemma ConfChangeV2_Unmarshal_typed m d m' : typed m → ConfChangeV2.Unmarshal m d = Ret m' → typed m'.
Proof. typed_message. intros f w d0 i m0 m1 j (?&?). unfold ConfChangeV2.field. typed_field. Qed.
Lemma SnapshotMetadata_Unmarshal_typed m d m' :
  typed m → SnapshotMetadata.Unmarshal m d = Ret m' → typed m'.
Proof. typed_message. intros f w d0 i m0 m1 j (?&?&?). unfold SnapshotMetadata.field. typed_field. Qed.
#[export] Hint Resolve SnapshotMetadata_Unmarshal_typed : typed.
Lemma Snapshot_Unmarshal_typed m d m' : typed m → Snapshot.Unmarshal m d = Ret m' → typed m'.
Proof.
  typed_message. intros f w d0 i m0 m1 j H. red in H. red in H. unfold Snapshot.field. typed_field.
Qed.
#[export] Hint Resolve Snapshot_Unmarshal_typed : typed.
Lemma Message_Unmarshal_typed m d m' : typed m → Message.Unmarshal m d = Ret m' → typed m'.
Proof.
  typed_message. intros f w d0 i m0 m1 j (?&?&?&?&?&?&?&?&?&?).
  unfold Message.field, Message.field_1_6, Message.field_7_12. typed_field.
Qed.

(** Decoding [d] into a value whose fields fit their types gives such a value. *)
Definition decodes_typed {A} `{!Typed A} (unmarshal : A → list Z → outcome A) (d : list Z) : Prop :=
  ∀ m m', typed m → unmarshal m d = Ret m' → typed m'.


