(* ===== verification/RaftPbCodec.v ===== *)
(** * raft/raftpb: the codec of raft.proto is correct

    For each of the nine messages of raft.pb.go: the bytes the protocol-buffer
    encoding prescribes ([encode]), that [Size] is their number, that [Marshal]
    produces them, that [Unmarshal] reads the message back, and that
    [Unmarshal] returns on every input.  [Codec] is what a message type
    promises to the messages that embed it and to the clients of the codec. *)

From S2P Require Import Prelude Proto RaftPb.

(** ** The interface *)

Class Codec {M : Type} (zero : M) (Size : M → Z) (MarshalTo : M → Z → outcome bytes)
    (Unmarshal : M → bytes → outcome M) := {
  encode : M → bytes;
  (** The fields have their types' widths and there are no unrecognized bytes. *)
  codec_wf : M → Prop;
  codec_Size m : codec_wf m → len (encode m) < 2 ^ 63 → Size m = len (encode m);
  codec_MarshalTo m n :
    codec_wf m → len (encode m) < 2 ^ 63 → len (encode m) ≤ n →
    MarshalTo m n = Ret (encode m);
  codec_Unmarshal m :
    codec_wf m → len (encode m) < 2 ^ 63 → Unmarshal zero (encode m) = Ret m;
  codec_terminates m d : len d < 2 ^ 62 → terminates (Unmarshal m d) (λ _, True);
}.
Arguments encode {_ _ _ _} _ {_} m.
Arguments codec_wf {_ _ _ _} _ {_} m.

(** Message fields, against the interface. *)
Section Nested.
Context {X : Type} {zero : X} {Size : X → Z} {MarshalTo : X → Z → outcome bytes}.
Context (Unmarshal : X → bytes → outcome X).
Context `{!Codec zero Size MarshalTo Unmarshal}.

Definition messageFieldBytes (tag : Z) (x : X) : bytes :=
  delimitedBytes tag (encode Unmarshal x).

Lemma len_messageFieldBytes_ge tag x : len (encode Unmarshal x) ≤ len (messageFieldBytes tag x).
Proof.
  unfold messageFieldBytes, delimitedBytes. autorewrite with go_len.
  pose proof (len_nonneg (varint_bytes (len (encode Unmarshal x)))). lia.
Qed.

Lemma messageFieldSize tag x :
  codec_wf Unmarshal x → len (messageFieldBytes tag x) < 2 ^ 63 →
  1 + Size x + sovRaft (Size x) = len (messageFieldBytes tag x).
Proof.
  intros Hwf Hl. pose proof (len_messageFieldBytes_ge tag x).
  pose proof (len_nonneg (encode Unmarshal x)).
  unfold messageFieldBytes. rewrite len_delimitedBytes by (unfold is_u64; lia).
  rewrite (codec_Size (Size := Size) x) by (done || lia). done.
Qed.

Lemma putMessageField_codec n tag x :
  codec_wf Unmarshal x → len (messageFieldBytes tag x) < 2 ^ 63 →
  Writes n (putMessageField n tag (Size x) (MarshalTo x)) (messageFieldBytes tag x).
Proof.
  intros Hwf Hl. pose proof (len_messageFieldBytes_ge tag x).
  pose proof (len_nonneg (encode Unmarshal x)).
  rewrite (codec_Size (Size := Size) x) by (done || lia).
  apply putMessageField_ok; [unfold is_u64; lia|]. intros n' Hn'.
  apply codec_MarshalTo; (done || lia).
Qed.

Lemma Reads_codec {M} field unrecognized tag fn (m : M) x upd :
  tag_ok tag fn 2 →
  (∀ d i, field fn 2 d i m = messageCase (Unmarshal zero) upd 2 d i m) →
  codec_wf Unmarshal x →
  Reads field unrecognized m (messageFieldBytes tag x) (upd x m).
Proof.
  intros Ht Hf Hwf. eapply Reads_message; [done..|]. intros Hl.
  by apply codec_Unmarshal.
Qed.
End Nested.

(** A repeated field is read back by appending, whatever its elements. *)
Lemma Reads_append {M A} field unrecognized (enc : A → bytes)
    (get : M → list A) (set : list A → M → M) (xs : list A) m :
  (∀ v m, get (set v m) = v) → (∀ v w m, set v (set w m) = set v m) →
  (∀ m, set (get m) m = m) →
  (∀ x m, x ∈ xs → Reads field unrecognized m (enc x) (set (get m ++ [x]) m)) →
  Reads field unrecognized m (xs ≫= enc) (set (get m ++ xs) m).
Proof.
  intros Hgs Hss Hsg. revert m. induction xs as [|x xs IH]; intros m H.
  - simpl. rewrite app_nil_r, Hsg. apply Reads_nil.
  - simpl. eapply Reads_app; [apply H; set_solver|].
    specialize (IH (set (get m ++ [x]) m)). rewrite Hgs, Hss, <- app_assoc in IH.
    apply IH. set_solver.
Qed.

(** Sizes of repeated fields: the sum over the elements. *)
Lemma foldr_len {A} (enc : A → bytes) (size : A → Z) (xs : list A) :
  (∀ x, x ∈ xs → size x = len (enc x)) →
  foldr (λ x n, size x + n) 0 xs = len (xs ≫= enc).
Proof.
  induction xs as [|x xs IH]; intros H; [done|]. simpl.
  rewrite IH, H by set_solver. by autorewrite with go_len.
Qed.

Lemma len_bind_elem {A} (enc : A → bytes) (xs : list A) x :
  x ∈ xs → len (enc x) ≤ len (xs ≫= enc).
Proof.
  induction xs as [|y xs IH]; [by rewrite elem_of_nil|]. intros [->|H]%elem_of_cons;
    rewrite bind_cons, len_app.
  - pose proof (len_nonneg (xs ≫= enc)). lia.
  - apply IH in H. pose proof (len_nonneg (enc y)). lia.
Qed.

(** ** Automation *)

(** Bounds of the parts of a concatenation from the bound of the whole. *)
Ltac part_bounds :=
  repeat match goal with
  | H : context [len (_ ++ _)] |- _ => rewrite len_app in H
  end;
  repeat match goal with
  | H : _ + _ < 2 ^ 63 |- _ =>
      match type of H with context [len ?l] =>
        lazymatch goal with
        | _ : 0 ≤ len l |- _ => fail
        | _ => pose proof (len_nonneg l)
        end
      end
  end.

Lemma len_payload tag p : len (default [] p) ≤ len (bytesFieldBytes tag p).
Proof.
  destruct p as [p|]; [|done]. simpl. unfold delimitedBytes. autorewrite with go_len.
  pose proof (len_nonneg (varint_bytes (len p))). lia.
Qed.

Lemma is_u64_payload tag p : len (bytesFieldBytes tag p) < 2 ^ 63 → is_u64 (len (default [] p)).
Proof.
  intros. pose proof (len_payload tag p). pose proof (len_nonneg (default [] p)).
  unfold is_u64. lia.
Qed.

(** ** Termination of the cases of [Unmarshal] *)

Abbreviation returns_at_or_after i :=
  (λ r, match r with Some (_, j) => i ≤ j | None => True end).

Section Cases.
Context {M : Type}.

Lemma varintCase_terminates {V} W (f : Z → V) d i (upd : V → M → M) m :
  terminates ('(v, i) ← decodeVarint W d i; Ret (Some (upd (f v) m, i)))
    (returns_at_or_after i).
Proof.
  eapply terminates_bind; [apply decodeVarint_terminates|]. intros [v j] Hj.
  apply terminates_Ret. lia.
Qed.

Lemma enumCase_terminates upd wt d i (m : M) :
  terminates (enumCase upd wt d i m) (returns_at_or_after i).
Proof. unfold enumCase. case_bool; [done|]. by apply varintCase_terminates with (f := id). Qed.
Lemma uint64Case_terminates upd wt d i (m : M) :
  terminates (uint64Case upd wt d i m) (returns_at_or_after i).
Proof. unfold uint64Case. case_bool; [done|]. by apply varintCase_terminates with (f := id). Qed.
Lemma boolCase_terminates upd wt d i (m : M) :
  terminates (boolCase upd wt d i m) (returns_at_or_after i).
Proof.
  unfold boolCase. case_bool; [done|].
  by apply varintCase_terminates with (f := λ v, negb (v =? 0)).
Qed.

Lemma bytesCase_terminates upd wt d i (m : M) :
  len d < 2 ^ 62 → terminates (bytesCase upd wt d i m) (returns_at_or_after i).
Proof.
  intros Hd. unfold bytesCase. case_bool; [done|].
  eapply terminates_bind; [by apply bytesField_terminates|]. intros [p j] [Hj _].
  apply terminates_Ret. lia.
Qed.

Lemma messageCase_terminates {X} (um : bytes → outcome X) upd wt d i (m : M) :
  len d < 2 ^ 62 → (∀ p, len p < 2 ^ 62 → terminates (um p) (λ _, True)) →
  terminates (messageCase um upd wt d i m) (returns_at_or_after i).
Proof.
  intros Hd Hu. unfold messageCase. case_bool; [done|].
  eapply terminates_bind; [by apply messageField_terminates|]. intros [p j] Hj.
  apply terminates_Ret. lia.
Qed.

Lemma packed_loop_terminates fuel d post vs i :
  0 ≤ i → (0 < fuel)%nat → len d - i < Z.of_nat fuel →
  terminates (packed_loop fuel d post vs i) (λ '(_, j), i ≤ j).
Proof.
  revert vs i. induction fuel as [|fuel IH]; intros vs i Hi H0 Hf; [lia|].
  cbn [packed_loop]. case_bool; [|apply terminates_Ret; lia].
  eapply terminates_bind; [apply decodeVarint_terminates|]. intros [v j] Hj.
  eapply terminates_mono; [apply IH; lia|]. intros [? k] ?. lia.
Qed.

Lemma repeatedCase_terminates get upd wt d i (m : M) :
  len d < 2 ^ 62 → 0 ≤ i →
  terminates (repeatedCase get upd wt d i m) (returns_at_or_after i).
Proof.
  intros Hd Hi. unfold repeatedCase. case_bool.
  { by apply varintCase_terminates with (f := λ v, get m ++ [v]). }
  case_bool; [|done]. unfold lengthPrefix.
  eapply terminates_bind with (P := λ '(k, _), i ≤ k).
  { eapply terminates_bind; [apply decodeVarint_terminates|]. intros [n k] Hk.
    case_bool; [done|]. case_bool; [done|]. apply terminates_Ret. lia. }
  intros [k post] Hk.
  eapply terminates_bind; [apply packed_loop_terminates; unfold len in *; lia|].
  intros [vs j] Hj. apply terminates_Ret. lia.
Qed.
End Cases.

Ltac case_terminates :=
  lazymatch goal with
  | |- terminates (enumCase _ _ _ _ _) _ => apply enumCase_terminates
  | |- terminates (uint64Case _ _ _ _ _) _ => apply uint64Case_terminates
  | |- terminates (boolCase _ _ _ _ _) _ => apply boolCase_terminates
  | |- terminates (bytesCase _ _ _ _ _) _ => by apply bytesCase_terminates
  | |- terminates (messageCase _ _ _ _ _ _) _ =>
      apply messageCase_terminates; [done|]; intros; by apply codec_terminates
  | |- terminates (repeatedCase _ _ _ _ _ _) _ => by apply repeatedCase_terminates
  | |- terminates (Ret None) _ => by apply terminates_Ret
  end.

(** [unmarshal_terminates] for a [switch] made of the cases above. *)
Ltac codec_terminates :=
  intros; apply unmarshal_terminates; [|done];
  intros fn wt d' i m' Hd' Hi; cbv beta delta [Entry.field ConfState.field
    SnapshotMetadata.field Snapshot.field Message.field Message.field_1_6 Message.field_7_12
    HardState.field ConfChange.field ConfChangeSingle.field ConfChangeV2.field];
  repeat case_match; case_terminates.

Lemma writes_unrecognized n p : Writes n (writeAll [putUnrecognized n p]) (default [] p).
Proof.
  intros w Hw. cbn [writeAll]. rewrite (putUnrecognized_ok n p) by done. done.
Qed.

Lemma writes_start n op bs : Writes n op bs → len bs ≤ n → op [] = Ret bs.
Proof. intros H Hn. by rewrite (H []). Qed.

(** The side conditions: field widths, and lengths of payloads. *)
Ltac codec_side :=
  lazymatch goal with
  | |- is_u64 (len (default [] ?p)) =>
      match goal with
      | H : context [bytesFieldBytes ?tag p] |- _ => apply (is_u64_payload tag); lia
      end
  | |- _ => first [by auto with go | lia]
  end.

(** [Size] is the length of the encoding. *)
Ltac codec_size :=
  rewrite !len_app, ?len_varintFieldBytes, ?len_bytesFieldBytes, ?len_boolFieldBytes,
    ?len_default by codec_side.

(** [MarshalTo] writes the concatenation of the fields. *)
Ltac codec_writes n :=
  apply (writes_start n); [|rewrite ?len_app; lia];
  repeat (apply writeAll_cons);
  first [apply writes_unrecognized | apply putVarintField_ok; codec_side
        | apply putBytesField_ok; codec_side | apply putBoolField_ok | idtac].

(** [Unmarshal] reads the fields one after the other. *)
Ltac reads lem := eapply Reads_app; [eapply lem; [tag_ok|done|..]; try done|].

(** ** Entry *)
Module EntryCodec.
Import Entry.

Definition wf (m : t) : Prop :=
  is_i32 (Type_ m) ∧ is_u64 (Term m) ∧ is_u64 (Index m) ∧ XXX_unrecognized m = None.

Definition enc (m : t) : bytes :=
  varintFieldBytes 0x8 (u64 (Type_ m)) ++ varintFieldBytes 0x10 (Term m) ++
  varintFieldBytes 0x18 (Index m) ++ bytesFieldBytes 0x22 (Data m) ++
  default [] (XXX_unrecognized m).

#[global, program] Instance codec : Codec zero Size MarshalTo Unmarshal :=
  {| encode := enc; codec_wf := wf |}.
Next Obligation.
  intros m (?&?&?&Hx) Hl. unfold enc, Size in *. part_bounds. codec_size. lia.
Qed.
Next Obligation.
  intros m n (?&?&?&Hx) Hl Hn. unfold MarshalTo, enc in *. part_bounds. codec_writes n.
Qed.
Next Obligation.
  intros [] (?&?&?&Hx) Hl. simpl in *. subst. apply Reads_unmarshal; [|done].
  reads @Reads_enum. reads @Reads_uint64. reads @Reads_uint64.
  eapply Reads_app; [eapply Reads_bytes; [tag_ok|done]|]. 
  destruct Data0; apply Reads_nil.
Qed.
Next Obligation. codec_terminates. Qed.
End EntryCodec.

(** ** ConfState *)
Module ConfStateCodec.
Import ConfState.

Definition wf (m : t) : Prop :=
  Forall is_u64 (Voters m) ∧ Forall is_u64 (Learners m) ∧
  Forall is_u64 (VotersOutgoing m) ∧ Forall is_u64 (LearnersNext m) ∧
  XXX_unrecognized m = None.

Definition enc (m : t) : bytes :=
  (Voters m ≫= varintFieldBytes 0x8) ++ (Learners m ≫= varintFieldBytes 0x10) ++
  (VotersOutgoing m ≫= varintFieldBytes 0x18) ++ (LearnersNext m ≫= varintFieldBytes 0x20) ++
  boolFieldBytes 0x28 (AutoLeave m) ++ default [] (XXX_unrecognized m).

Lemma repeatedSize_ok tag xs :
  Forall is_u64 xs → repeatedSize xs = len (xs ≫= varintFieldBytes tag).
Proof.
  intros H. apply (foldr_len (varintFieldBytes tag) (λ e, 1 + sovRaft e)). intros x Hx.
  rewrite len_varintFieldBytes; [done|]. rewrite Forall_forall in H. auto.
Qed.

Lemma putRepeated_ok n tag xs :
  Forall is_u64 xs →
  Writes n (writeAll (putVarintField n tag <$> xs)) (xs ≫= varintFieldBytes tag).
Proof.
  intros H. apply writeAll_map. intros x Hx. apply putVarintField_ok.
  rewrite Forall_forall in H. auto.
Qed.

Lemma reads_repeated {M} field unrecognized get set tag fn (m : M) xs :
  tag_ok tag fn 0 → Forall is_u64 xs →
  (∀ d i m, field fn 0 d i m = repeatedCase get set 0 d i m) →
  (∀ v m, get (set v m) = v) → (∀ v w m, set v (set w m) = set v m) →
  (∀ m, set (get m) m = m) →
  Reads field unrecognized m (xs ≫= varintFieldBytes tag) (set (get m ++ xs) m).
Proof.
  intros Ht Hxs Hf ???. apply Reads_append; [done..|]. intros x m' Hx.
  apply (Reads_uint64 _ _ tag fn m' x (λ v m, set (get m ++ [v]) m)); [done| |].
  - intros. by rewrite Hf, repeatedCase_one.
  - rewrite Forall_forall in Hxs. auto.
Qed.

#[global, program] Instance codec : Codec zero Size MarshalTo Unmarshal :=
  {| encode := enc; codec_wf := wf |}.
Next Obligation.
  intros m (?&?&?&?&Hx) Hl. unfold enc, Size in *. codec_size.
  rewrite (repeatedSize_ok 0x8 (Voters m)), (repeatedSize_ok 0x10 (Learners m)),
    (repeatedSize_ok 0x18 (VotersOutgoing m)), (repeatedSize_ok 0x20 (LearnersNext m))
    by done. lia.
Qed.
Next Obligation.
  intros m n (?&?&?&?&Hx) Hl Hn. unfold MarshalTo, enc in *. part_bounds. codec_writes n;
    by apply putRepeated_ok.
Qed.
Next Obligation.
  intros [] (?&?&?&?&Hx) Hl. simpl in *. subst. apply Reads_unmarshal; [|done].
  do 4 (eapply Reads_app; [eapply reads_repeated; [tag_ok|done|done|done|done|by intros []]|]).
  reads @Reads_bool. apply Reads_nil.
Qed.
Next Obligation. codec_terminates. Qed.
End ConfStateCodec.

(** ** SnapshotMetadata *)
Module SnapshotMetadataCodec.
Import SnapshotMetadata.

Definition wf (m : t) : Prop :=
  codec_wf ConfState.Unmarshal (ConfState_ m) ∧ is_u64 (Index m) ∧ is_u64 (Term m) ∧
  XXX_unrecognized m = None.

Definition enc (m : t) : bytes :=
  messageFieldBytes ConfState.Unmarshal 0xa (ConfState_ m) ++
  varintFieldBytes 0x10 (Index m) ++ varintFieldBytes 0x18 (Term m) ++
  default [] (XXX_unrecognized m).

#[global, program] Instance codec : Codec zero Size MarshalTo Unmarshal :=
  {| encode := enc; codec_wf := wf |}.
Next Obligation.
  intros m (?&?&?&Hx) Hl. unfold enc, Size in *. part_bounds. codec_size.
  rewrite (messageFieldSize ConfState.Unmarshal 0xa) by (done || lia). lia.
Qed.
Next Obligation.
  intros m n (?&?&?&Hx) Hl Hn. unfold MarshalTo, enc in *. part_bounds. codec_writes n.
  apply putMessageField_codec; (done || lia).
Qed.
Next Obligation.
  intros [] (?&?&?&Hx) Hl. simpl in *. subst. apply Reads_unmarshal; [|done].
  reads @Reads_codec. reads @Reads_uint64. reads @Reads_uint64. apply Reads_nil.
Qed.
Next Obligation. codec_terminates. Qed.
End SnapshotMetadataCodec.

(** ** Snapshot *)
Module SnapshotCodec.
Import Snapshot.

Definition wf (m : t) : Prop :=
  codec_wf SnapshotMetadata.Unmarshal (Metadata m) ∧ XXX_unrecognized m = None.

Definition enc (m : t) : bytes :=
  bytesFieldBytes 0xa (Data m) ++
  messageFieldBytes SnapshotMetadata.Unmarshal 0x12 (Metadata m) ++
  default [] (XXX_unrecognized m).

#[global, program] Instance codec : Codec zero Size MarshalTo Unmarshal :=
  {| encode := enc; codec_wf := wf |}.
Next Obligation.
  intros m (?&Hx) Hl. unfold enc, Size in *. part_bounds. codec_size.
  rewrite (messageFieldSize SnapshotMetadata.Unmarshal 0x12) by (done || lia). lia.
Qed.
Next Obligation.
  intros m n (?&Hx) Hl Hn. unfold MarshalTo, enc in *. part_bounds. codec_writes n.
  apply putMessageField_codec; (done || lia).
Qed.
Next Obligation.
  intros [[p|]] (?&Hx) Hl; simpl in *; subst; (apply Reads_unmarshal; [|done]);
    (eapply Reads_app; [eapply Reads_bytes; [tag_ok|done]|]);
    reads @Reads_codec; apply Reads_nil.
Qed.
Next Obligation. codec_terminates. Qed.
End SnapshotCodec.

(** Repeated message fields. *)
Section RepeatedMessage.
Context {X : Type} {zero : X} {Size : X → Z} {MarshalTo : X → Z → outcome bytes}.
Context (Unmarshal : X → bytes → outcome X).
Context `{!Codec zero Size MarshalTo Unmarshal}.

Lemma repeatedMessageSize tag xs :
  Forall (codec_wf Unmarshal) xs → len (xs ≫= messageFieldBytes Unmarshal tag) < 2 ^ 63 →
  foldr (λ e n, 1 + Size e + sovRaft (Size e) + n) 0 xs =
  len (xs ≫= messageFieldBytes Unmarshal tag).
Proof.
  intros Hwf Hl.
  apply (foldr_len (messageFieldBytes Unmarshal tag) (λ e, 1 + Size e + sovRaft (Size e))).
  intros x Hx. pose proof (len_bind_elem (messageFieldBytes Unmarshal tag) _ _ Hx).
  rewrite Forall_forall in Hwf. apply (messageFieldSize Unmarshal); [auto|lia].
Qed.

Lemma putRepeatedMessage n tag xs :
  Forall (codec_wf Unmarshal) xs → len (xs ≫= messageFieldBytes Unmarshal tag) < 2 ^ 63 →
  Writes n (writeAll ((λ x, putMessageField n tag (Size x) (MarshalTo x)) <$> xs))
    (xs ≫= messageFieldBytes Unmarshal tag).
Proof.
  intros Hwf Hl. apply writeAll_map. intros x Hx.
  pose proof (len_bind_elem (messageFieldBytes Unmarshal tag) _ _ Hx).
  rewrite Forall_forall in Hwf. apply putMessageField_codec; [auto|lia].
Qed.

Lemma Reads_repeatedMessage {M} field unrecognized get set tag fn (m : M) xs :
  tag_ok tag fn 2 → Forall (codec_wf Unmarshal) xs →
  (∀ d i m, field fn 2 d i m =
     messageCase (Unmarshal zero) (λ e m, set (get m ++ [e]) m) 2 d i m) →
  (∀ v m, get (set v m) = v) → (∀ v w m, set v (set w m) = set v m) →
  (∀ m, set (get m) m = m) →
  Reads field unrecognized m (xs ≫= messageFieldBytes Unmarshal tag) (set (get m ++ xs) m).
Proof.
  intros Ht Hxs Hf ???. apply Reads_append; [done..|]. intros x m' Hx.
  apply (Reads_codec Unmarshal _ _ tag fn m' x (λ e m, set (get m ++ [e]) m)); [done|done|].
  rewrite Forall_forall in Hxs. auto.
Qed.
End RepeatedMessage.

(** ** Message *)
Module MessageCodec.
Import Message.

Definition wf (m : t) : Prop :=
  is_i32 (Type_ m) ∧ is_u64 (To m) ∧ is_u64 (From m) ∧ is_u64 (Term m) ∧
  is_u64 (LogTerm m) ∧ is_u64 (Index m) ∧ Forall (codec_wf Entry.Unmarshal) (Entries m) ∧
  is_u64 (Commit m) ∧ codec_wf Snapshot.Unmarshal (Snapshot_ m) ∧ is_u64 (RejectHint m) ∧
  XXX_unrecognized m = None.

Definition enc (m : t) : bytes :=
  varintFieldBytes 0x8 (u64 (Type_ m)) ++ varintFieldBytes 0x10 (To m) ++
  varintFieldBytes 0x18 (From m) ++ varintFieldBytes 0x20 (Term m) ++
  varintFieldBytes 0x28 (LogTerm m) ++ varintFieldBytes 0x30 (Index m) ++
  (Entries m ≫= messageFieldBytes Entry.Unmarshal 0x3a) ++
  varintFieldBytes 0x40 (Commit m) ++
  messageFieldBytes Snapshot.Unmarshal 0x4a (Snapshot_ m) ++
  boolFieldBytes 0x50 (Reject m) ++ varintFieldBytes 0x58 (RejectHint m) ++
  bytesFieldBytes 0x62 (Context m) ++ default [] (XXX_unrecognized m).

#[global, program] Instance codec : Codec zero Size MarshalTo Unmarshal :=
  {| encode := enc; codec_wf := wf |}.
Next Obligation.
  intros m (?&?&?&?&?&?&?&?&?&?&Hx) Hl. unfold enc, Size, entriesSize in *.
  part_bounds. codec_size.
  rewrite (messageFieldSize Snapshot.Unmarshal 0x4a) by (done || lia).
  rewrite (repeatedMessageSize Entry.Unmarshal 0x3a) by (done || lia). lia.
Qed.
Next Obligation.
  intros m n (?&?&?&?&?&?&?&?&?&?&Hx) Hl Hn. unfold MarshalTo, enc in *.
  part_bounds. codec_writes n.
  - apply putRepeatedMessage; (done || lia).
  - apply putMessageField_codec; (done || lia).
Qed.
Next Obligation.
  intros [] (?&?&?&?&?&?&?&?&?&?&Hx) Hl. simpl in *. subst. apply Reads_unmarshal; [|done].
  reads @Reads_enum. do 5 reads @Reads_uint64.
  eapply Reads_app.
  { apply (Reads_repeatedMessage Entry.Unmarshal _ _ Entries (λ es m, m <| Entries := es |>)
             0x3a 7); [tag_ok|done|done|done|done|by intros []]. }
  reads @Reads_uint64. reads @Reads_codec. reads @Reads_bool. reads @Reads_uint64.
  eapply Reads_app; [eapply Reads_bytes; [tag_ok|done]|]. destruct Context0; apply Reads_nil.
Qed.
Next Obligation. codec_terminates. Qed.
End MessageCodec.

(** ** HardState *)
Module HardStateCodec.
Import HardState.

Definition wf (m : t) : Prop :=
  is_u64 (Term m) ∧ is_u64 (Vote m) ∧ is_u64 (Commit m) ∧ XXX_unrecognized m = None.

Definition enc (m : t) : bytes :=
  varintFieldBytes 0x8 (Term m) ++ varintFieldBytes 0x10 (Vote m) ++
  varintFieldBytes 0x18 (Commit m) ++ default [] (XXX_unrecognized m).

#[global, program] Instance codec : Codec zero Size MarshalTo Unmarshal :=
  {| encode := enc; codec_wf := wf |}.
Next Obligation.
  intros m (?&?&?&Hx) Hl. unfold enc, Size in *. part_bounds. codec_size. lia.
Qed.
Next Obligation.
  intros m n (?&?&?&Hx) Hl Hn. unfold MarshalTo, enc in *. part_bounds. codec_writes n.
Qed.
Next Obligation.
  intros [] (?&?&?&Hx) Hl. simpl in *. subst. apply Reads_unmarshal; [|done].
  do 3 reads @Reads_uint64. apply Reads_nil.
Qed.
Next Obligation. codec_terminates. Qed.
End HardStateCodec.

(** ** ConfChange *)
Module ConfChangeCodec.
Import ConfChange.

Definition wf (m : t) : Prop :=
  is_u64 (ID m) ∧ is_i32 (Type_ m) ∧ is_u64 (NodeID m) ∧ XXX_unrecognized m = None.

Definition enc (m : t) : bytes :=
  varintFieldBytes 0x8 (ID m) ++ varintFieldBytes 0x10 (u64 (Type_ m)) ++
  varintFieldBytes 0x18 (NodeID m) ++ bytesFieldBytes 0x22 (Context m) ++
  default [] (XXX_unrecognized m).

#[global, program] Instance codec : Codec zero Size MarshalTo Unmarshal :=
  {| encode := enc; codec_wf := wf |}.
Next Obligation.
  intros m (?&?&?&Hx) Hl. unfold enc, Size in *. part_bounds. codec_size. lia.
Qed.
Next Obligation.
  intros m n (?&?&?&Hx) Hl Hn. unfold MarshalTo, enc in *. part_bounds. codec_writes n.
Qed.
Next Obligation.
  intros [] (?&?&?&Hx) Hl. simpl in *. subst. apply Reads_unmarshal; [|done].
  reads @Reads_uint64. reads @Reads_enum. reads @Reads_uint64.
  eapply Reads_app; [eapply Reads_bytes; [tag_ok|done]|]. destruct Context0; apply Reads_nil.
Qed.
Next Obligation. codec_terminates. Qed.
End ConfChangeCodec.

(** ** ConfChangeSingle *)
Module ConfChangeSingleCodec.
Import ConfChangeSingle.

Definition wf (m : t) : Prop :=
  is_i32 (Type_ m) ∧ is_u64 (NodeID m) ∧ XXX_unrecognized m = None.

Definition enc (m : t) : bytes :=
  varintFieldBytes 0x8 (u64 (Type_ m)) ++ varintFieldBytes 0x10 (NodeID m) ++
  default [] (XXX_unrecognized m).

#[global, program] Instance codec : Codec zero Size MarshalTo Unmarshal :=
  {| encode := enc; codec_wf := wf |}.
Next Obligation.
  intros m (?&?&Hx) Hl. unfold enc, Size in *. part_bounds. codec_size. lia.
Qed.
Next Obligation.
  intros m n (?&?&Hx) Hl Hn. unfold MarshalTo, enc in *. part_bounds. codec_writes n.
Qed.
Next Obligation.
  intros [] (?&?&Hx) Hl. simpl in *. subst. apply Reads_unmarshal; [|done].
  reads @Reads_enum. reads @Reads_uint64. apply Reads_nil.
Qed.
Next Obligation. codec_terminates. Qed.
End ConfChangeSingleCodec.

(** ** ConfChangeV2 *)
Module ConfChangeV2Codec.
Import ConfChangeV2.

Definition wf (m : t) : Prop :=
  is_i32 (Transition m) ∧ Forall (codec_wf ConfChangeSingle.Unmarshal) (Changes m) ∧
  XXX_unrecognized m = None.

Definition enc (m : t) : bytes :=
  varintFieldBytes 0x8 (u64 (Transition m)) ++
  (Changes m ≫= messageFieldBytes ConfChangeSingle.Unmarshal 0x12) ++
  bytesFieldBytes 0x1a (Context m) ++ default [] (XXX_unrecognized m).

#[global, program] Instance codec : Codec zero Size MarshalTo Unmarshal :=
  {| encode := enc; codec_wf := wf |}.
Next Obligation.
  intros m (?&?&Hx) Hl. unfold enc, Size, changesSize in *. part_bounds. codec_size.
  rewrite (repeatedMessageSize ConfChangeSingle.Unmarshal 0x12) by (done || lia). lia.
Qed.
Next Obligation.
  intros m n (?&?&Hx) Hl Hn. unfold MarshalTo, enc in *. part_bounds. codec_writes n.
  apply putRepeatedMessage; (done || lia).
Qed.
Next Obligation.
  intros [] (?&?&Hx) Hl. simpl in *. subst. apply Reads_unmarshal; [|done].
  reads @Reads_enum.
  eapply Reads_app.
  { apply (Reads_repeatedMessage ConfChangeSingle.Unmarshal _ _ Changes
             (λ es m, m <| Changes := es |>) 0x12 2);
      [tag_ok|done|done|done|done|by intros []]. }
  eapply Reads_app; [eapply Reads_bytes; [tag_ok|done]|]. destruct Context0; apply Reads_nil.
Qed.
Next Obligation. codec_terminates. Qed.
End ConfChangeV2Codec.

(** ** Marshal and Unmarshal are inverse *)

(** For any message type with a codec: [Marshal] succeeds, in a buffer of
    exactly [Size] bytes, and [Unmarshal] into the zero value gives it back. *)
Lemma codec_roundtrip {M} {zero : M} {Size MarshalTo Unmarshal}
    `{!Codec zero Size MarshalTo Unmarshal} m :
  codec_wf Unmarshal m → len (encode Unmarshal m) < 2 ^ 63 →
  ∃ d, MarshalTo m (Size m) = Ret d ∧ len d = Size m ∧ Unmarshal zero d = Ret m.
Proof.
  intros Hwf Hl. exists (encode Unmarshal m).
  pose proof (codec_Size m Hwf Hl) as HS. rewrite HS. split_and!; [|done|].
  - by apply codec_MarshalTo.
  - by apply codec_Unmarshal.
Qed.

(** C7 (roundtrip): every raft message whose fields have their declared
    widths and whose encoding fits a Go slice is marshalled into exactly
    [Size] bytes, and unmarshalling those bytes into a fresh message gives the
    message back: entries, snapshot and its metadata included. *)
Theorem message_roundtrip m :
  MessageCodec.wf m → len (MessageCodec.enc m) < 2 ^ 63 →
  ∃ d, Message.Marshal m = Ret d ∧ len d = Message.Size m ∧
       Message.Unmarshal Message.zero d = Ret m.
Proof. exact (codec_roundtrip (Codec0 := MessageCodec.codec) m). Qed.

Definition sample_message : Message.t :=
  Message.zero <| Message.Type_ := MsgApp |> <| Message.To := 2 |> <| Message.From := 2 ^ 64 - 1 |>
    <| Message.Entries := [Entry.mk 7 300 EntryConfChange (Some [1; 255]) None] |>
    <| Message.Snapshot_ := Snapshot.mk (Some [])
         (SnapshotMetadata.mk (ConfState.mk [1; 2] [] [] [300] true None) 5 6 None) None |>.

Lemma message_roundtrip_witness : ∃ d, Message.Marshal sample_message = Ret d ∧
  len d = Message.Size sample_message ∧ Message.Unmarshal Message.zero d = Ret sample_message.
Proof.
  apply message_roundtrip.
  - unfold MessageCodec.wf, is_i32, is_u64. simpl. split_and!; try (done || lia).
    + repeat constructor; done.
    + repeat constructor; done.
  - vm_compute. reflexivity.
Defined.

(** A configuration change of either form, written by
    [MarshalConfChange] into an entry, is recovered by the [Unmarshal] method
    that the entry type it returns calls for. *)
Theorem marshalConfChange_roundtrip (v1 : ConfChange.t) (v2 : ConfChangeV2.t) :
  ConfChangeCodec.wf v1 → len (ConfChangeCodec.enc v1) < 2 ^ 63 →
  ConfChangeV2Codec.wf v2 → len (ConfChangeV2Codec.enc v2) < 2 ^ 63 →
  (∃ d, MarshalConfChange v1 = Ret (EntryConfChange, d) ∧
        ConfChange.Unmarshal ConfChange.zero d = Ret v1) ∧
  (∃ d, MarshalConfChange v2 = Ret (EntryConfChangeV2, d) ∧
        ConfChangeV2.Unmarshal ConfChangeV2.zero d = Ret v2).
Proof.
  intros H1 L1 H2 L2.
  destruct (codec_roundtrip (Codec0 := ConfChangeCodec.codec) v1 H1 L1) as (d1 & Hm1 & _ & ?).
  destruct (codec_roundtrip (Codec0 := ConfChangeV2Codec.codec) v2 H2 L2) as (d2 & Hm2 & _ & ?).
  split; [exists d1|exists d2]; (split; [|done]).
  - unfold MarshalConfChange, ConfChange.Marshal. simpl. by rewrite Hm1.
  - unfold MarshalConfChange, ConfChangeV2.Marshal. simpl. by rewrite Hm2.
Qed.

Definition sample_v1 : ConfChange.t := ConfChange.mk ConfChangeRemoveNode 9 (Some [3]) 1 None.
Definition sample_v2 : ConfChangeV2.t :=
  ConfChangeV2.mk ConfChangeTransitionJointExplicit
    [ConfChangeSingle.mk ConfChangeAddNode 1 None; ConfChangeSingle.mk (-1) 200 None] None None.

Lemma marshalConfChange_roundtrip_witness :
  (∃ d, MarshalConfChange sample_v1 = Ret (EntryConfChange, d) ∧
        ConfChange.Unmarshal ConfChange.zero d = Ret sample_v1) ∧
  (∃ d, MarshalConfChange sample_v2 = Ret (EntryConfChangeV2, d) ∧
        ConfChangeV2.Unmarshal ConfChangeV2.zero d = Ret sample_v2).
Proof.
  apply marshalConfChange_roundtrip.
  - unfold ConfChangeCodec.wf, is_u64, is_i32. simpl. split_and!; (done || lia).
  - vm_compute. reflexivity.
  - unfold ConfChangeV2Codec.wf. simpl. split_and!; try done. repeat constructor; done.
  - vm_compute. reflexivity.
Defined.

(** A run that ends: with a value, an error or a panic. *)
Definition returns {A} (o : outcome A) : Prop := o ≠ OutOfFuel.

(** No input makes [Unmarshal] loop.  For every buffer
    shorter than 2^62 bytes and every starting value each of the generated
    [Unmarshal] methods comes back (with a message, an error or a panic)
    within the number of iterations the length of the buffer allows, nested
    messages, packed runs and skipped groups included. *)
Theorem unmarshal_returns d :
  len d < 2 ^ 62 →
  (∀ m, returns (Message.Unmarshal m d)) ∧ (∀ m, returns (Entry.Unmarshal m d)) ∧
  (∀ m, returns (Snapshot.Unmarshal m d)) ∧ (∀ m, returns (HardState.Unmarshal m d)) ∧
  (∀ m, returns (ConfState.Unmarshal m d)) ∧ (∀ m, returns (ConfChange.Unmarshal m d)) ∧
  (∀ m, returns (ConfChangeV2.Unmarshal m d)).
Proof. intros. split_and!; intros m; by eapply codec_terminates. Qed.

Lemma unmarshal_returns_witness :
  len [0x0b; 0x0b; 0xff; 0x22] < 2 ^ 62 ∧ returns (Entry.Unmarshal Entry.zero [0x0b; 0x0b; 0xff; 0x22]).
Proof. split; [done|]. by apply (unmarshal_returns [0x0b; 0x0b; 0xff; 0x22]). Defined.

(** A length prefix close to the largest [int] is not rejected:
    [postIndex] wraps below zero, the [postIndex > l] test passes and the
    slice expression panics, so ten bytes from the network crash the
    decoder of an entry instead of producing an error. *)
Theorem unmarshal_length_overflow_panics (m : Entry.t) :
  Entry.Unmarshal m [0x22; 0xff; 0xff; 0xff; 0xff; 0xff; 0xff; 0xff; 0xff; 0x7f]
  = Panic IndexOutOfRange.
Proof. by vm_compute. Qed.
