(* ===== verification/ProtoChecked.v ===== *)
(** * The wire format with checked lengths

    The generator that wrote etcdserverpb and mvccpb is newer than that of
    raft.pb.go ([Proto]): after every addition of a length to an index it tests
    for a negative result, where the older one goes on and panics.  This file has
    the operations that differ, shows that they return on every input without a
    panic, and that they agree with the older ones wherever those return. *)

From S2P Require Import Prelude Proto RaftPb.

(** ** The operations

    Each generated file has its own copies of the functions and of the two
    errors; the loops that read a varint are those of [Proto]. *)
Module checked.
Definition lengthPrefix (d : list Z) (iNdEx : Z) : outcome (Z * Z) :=
  '(byteLen, iNdEx) ← decodeVarint i64 d iNdEx;
  if byteLen <? 0 then Err ErrInvalidLengthRaft else
  let postIndex := i64 (iNdEx + byteLen) in
  if postIndex <? 0 then Err ErrInvalidLengthRaft else
  if postIndex >? len d then Err ErrUnexpectedEOF else
  Ret (iNdEx, postIndex).

(** [x = append(x[:0], dAtA[iNdEx:postIndex]...)] *)
Definition bytesField (d : list Z) (iNdEx : Z) : outcome (list Z * Z) :=
  '(iNdEx, postIndex) ← lengthPrefix d iNdEx;
  p ← go_slice d iNdEx postIndex;
  Ret (p, postIndex).

(** [x = string(dAtA[iNdEx:postIndex])]: the length is read as a uint64. *)
Definition stringField (d : list Z) (iNdEx : Z) : outcome (list Z * Z) :=
  '(stringLen, iNdEx) ← decodeVarint u64 d iNdEx;
  let intStringLen := i64 stringLen in
  if intStringLen <? 0 then Err ErrInvalidLengthRaft else
  let postIndex := i64 (iNdEx + intStringLen) in
  if postIndex <? 0 then Err ErrInvalidLengthRaft else
  if postIndex >? len d then Err ErrUnexpectedEOF else
  p ← go_slice d iNdEx postIndex;
  Ret (p, postIndex).

(** The fields of a group, until the tag that ends it. *)
Fixpoint skip_group (skip : list Z → outcome Z) (fuel : nat) (d : list Z) (iNdEx : Z) : outcome Z :=
  match fuel with
  | O => OutOfFuel
  | S fuel =>
      let start := iNdEx in
      '(innerWire, iNdEx) ← decodeVarint u64 d iNdEx;
      let innerWireType := Z.land innerWire 0x7 in
      if innerWireType =? 4 then Ret iNdEx else
      rest ← go_slice d start (len d);
      next ← skip rest;
      let iNdEx := i64 (start + next) in
      if iNdEx <? 0 then Err ErrInvalidLengthRaft else skip_group skip fuel d iNdEx
  end.

Fixpoint skip_loop (fuel : nat) (d : list Z) : outcome Z :=
  match fuel with
  | O => OutOfFuel
  | S fuel =>
      if 0 <? len d then
        '(wire, iNdEx) ← decodeVarint u64 d 0;
        let wireType := Z.land wire 0x7 in
        if wireType =? 0 then skip_varint varint_fuel d iNdEx 0
        else if wireType =? 1 then Ret (iNdEx + 8)
        else if wireType =? 2 then
          '(length, iNdEx) ← decodeVarint i64 d iNdEx;
          if length <? 0 then Err ErrInvalidLengthRaft else
          let iNdEx := i64 (iNdEx + length) in
          if iNdEx <? 0 then Err ErrInvalidLengthRaft else Ret iNdEx
        else if wireType =? 3 then
          skip_group (skip_loop fuel) (S (List.length d)) d iNdEx
        else if wireType =? 4 then Ret iNdEx
        else if wireType =? 5 then Ret (iNdEx + 4)
        else Err (Errorf "proto: illegal wireType")
      else Panic (PanicString "unreachable")
  end.
Definition skip (d : list Z) : outcome Z := skip_loop (S (length d)) d.

Section Unmarshal.
Context {M : Type}.
Context (field : Z → Z → list Z → Z → M → outcome (option (M * Z))).
Context (unrecognized : list Z → M → M).

Fixpoint unmarshal_loop (fuel : nat) (d : list Z) (m : M) (iNdEx : Z) : outcome M :=
  match fuel with
  | O => OutOfFuel
  | S fuel =>
      if iNdEx <? len d then
        let preIndex := iNdEx in
        '(wire, iNdEx) ← decodeVarint u64 d iNdEx;
        let fieldNum := i32 (Z.shiftr wire 3) in
        let wireType := Z.land wire 0x7 in
        if wireType =? 4
        then Err (Errorf "proto: wiretype end group for non-group") else
        if fieldNum <=? 0 then Err (Errorf "proto: illegal tag") else
        r ← field fieldNum wireType d iNdEx m;
        match r with
        | Some (m, iNdEx) => unmarshal_loop fuel d m iNdEx
        | None =>
            let iNdEx := preIndex in
            rest ← go_slice d iNdEx (len d);
            skippy ← skip rest;
            if skippy <? 0 then Err ErrInvalidLengthRaft else
            if i64 (iNdEx + skippy) <? 0 then Err ErrInvalidLengthRaft else
            if i64 (iNdEx + skippy) >? len d then Err ErrUnexpectedEOF else
            u ← go_slice d iNdEx (i64 (iNdEx + skippy));
            unmarshal_loop fuel d (unrecognized u m) (i64 (iNdEx + skippy))
        end
      else if iNdEx >? len d then Err ErrUnexpectedEOF else Ret m
  end.

(** The errors of the package the message is in. *)
Definition packageErrors {A} (o : outcome A) : outcome A :=
  match o with
  | Err ErrIntOverflowRaft => Err (Errorf "proto: integer overflow")
  | Err ErrInvalidLengthRaft => Err (Errorf "proto: negative length found during unmarshaling")
  | o => o
  end.
Definition unmarshal (m : M) (d : list Z) : outcome M :=
  packageErrors (unmarshal_loop (S (length d)) d m 0).

(** The cases of the [switch]; those of a uint64, an enumeration and a bool are in
    [RaftPb]. *)
Definition int64Case (upd : Z → M → M) (wireType : Z) (d : list Z) (i : Z) (m : M) : outcome (option (M * Z)) :=
  if negb (wireType =? 0) then wrongWireType else
  '(v, i) ← decodeVarint i64 d i; Ret (Some (upd v m, i)).
Definition bytesCase (upd : list Z → M → M) (wireType : Z) (d : list Z) (i : Z) (m : M)
    : outcome (option (M * Z)) :=
  if negb (wireType =? 2) then wrongWireType else
  '(p, i) ← bytesField d i; Ret (Some (upd p m, i)).
Definition stringCase (upd : list Z → M → M) (wireType : Z) (d : list Z) (i : Z) (m : M)
    : outcome (option (M * Z)) :=
  if negb (wireType =? 2) then wrongWireType else
  '(p, i) ← stringField d i; Ret (Some (upd p m, i)).
(** [if m.X == nil { m.X = &X{} }; m.X.Unmarshal(dAtA[iNdEx:postIndex])] *)
Definition pointerCase {X} (zero : X) (unmarshal : X → list Z → outcome X) (get : M → option X)
    (upd : X → M → M) (wireType : Z) (d : list Z) (i : Z) (m : M) : outcome (option (M * Z)) :=
  if negb (wireType =? 2) then wrongWireType else
  '(p, i) ← bytesField d i;
  x ← unmarshal (default zero (get m)) p;
  Ret (Some (upd x m, i)).
End Unmarshal.
End checked.

(** ** Every input is answered *)

(** The result is a value with [P], or an error: no panic, and the fuel suffices. *)
Definition total {A} (P : A → Prop) (o : outcome A) : Prop :=
  match o with Ret a => P a | Err _ => True | Panic _ | OutOfFuel => False end.

Lemma total_bind {A B} (P : A → Prop) (Q : B → Prop) (o : outcome A) (f : A → outcome B) :
  total P o → (∀ a, P a → total Q (f a)) → total Q (o ≫= f).
Proof. destruct o; simpl; auto. Qed.
Lemma total_mono {A} (P Q : A → Prop) (o : outcome A) : total P o → (∀ a, P a → Q a) → total Q o.
Proof. destruct o; simpl; auto. Qed.
Lemma total_if {A} (P : A → Prop) (b : bool) (o o' : outcome A) :
  (b = true → total P o) → (b = false → total P o') → total P (if b then o else o').
Proof. destruct b; auto. Qed.

Lemma total_varint_loop W fuel d i shift acc :
  0 ≤ i → 0 ≤ shift → (0 < fuel)%nat → 71 ≤ shift + 7 * Z.of_nat fuel →
  total (λ '(_, j), i < j ≤ len d) (varint_loop W fuel d i shift acc).
Proof.
  revert i shift acc. induction fuel as [|fuel IH]; intros i shift acc Hi Hs H0 Hf; [lia|].
  cbn [varint_loop]. case_bool; [done|]. case_bool; [done|].
  destruct (go_index_in_range d i) as (b & -> & _); [lia|]. rewrite bind_Ret.
  destruct (b <? 0x80); [simpl; lia|].
  eapply total_mono; [apply IH; lia|]. intros [v j] ?. lia.
Qed.

Lemma total_decodeVarint W d i : 0 ≤ i → total (λ '(_, j), i < j ≤ len d) (decodeVarint W d i).
Proof. intros. apply total_varint_loop; unfold varint_fuel; lia. Qed.

Lemma total_decodeInt d i : 0 ≤ i → total (λ '(v, j), i < j ≤ len d ∧ is_i64 v) (decodeVarint i64 d i).
Proof.
  intros Hi. pose proof (total_decodeVarint i64 d i Hi) as H.
  destruct (decodeVarint i64 d i) as [[v j]|e|p|] eqn:E; [|done..]. split; [done|].
  rewrite <- (decodeVarint_width i64 d i v j E). apply i64_range.
Qed.

Lemma total_skip_varint fuel d i shift :
  0 ≤ i → 0 ≤ shift → (0 < fuel)%nat → 71 ≤ shift + 7 * Z.of_nat fuel →
  total (λ j, i < j ≤ len d) (skip_varint fuel d i shift).
Proof.
  revert i shift. induction fuel as [|fuel IH]; intros i shift Hi Hs H0 Hf; [lia|].
  cbn [skip_varint]. case_bool; [done|]. case_bool; [done|].
  destruct (go_index_in_range d i) as (b & -> & _); [lia|]. rewrite bind_Ret.
  destruct (b <? 0x80); [simpl; lia|].
  eapply total_mono; [apply IH; lia|]. simpl. lia.
Qed.

(** The sum of an index and a length is exact, or negative. *)
Lemma i64_index_sum i n : 0 ≤ i < 2 ^ 63 → 0 ≤ n < 2 ^ 63 → i64 (i + n) = i + n ∨ i64 (i + n) < 0.
Proof.
  intros. destruct (decide (i + n < 2 ^ 63)) as [H'|H'].
  - left. apply i64_id. unfold is_i64. lia.
  - right. unfold i64. rewrite <- (Z.mod_unique_pos (i + n + 2 ^ 63) (2 ^ 64) 1 (i + n - 2 ^ 63)); lia.
Qed.

Lemma total_slice {A} (d : list A) lo hi :
  0 ≤ lo ≤ hi → hi ≤ len d → total (λ p, len p = hi - lo) (go_slice d lo hi).
Proof.
  intros [? ?] ?. rewrite go_slice_in_range by done. simpl. unfold len in *. rewrite length_take, length_drop. lia.
Qed.

Lemma total_skip_group skip d fuel start :
  len d < 2 ^ 62 → (∀ d', 0 < len d' < len d → total (λ n, 0 < n < 2 ^ 63) (skip d')) →
  1 ≤ start → (0 < fuel)%nat → len d - start < Z.of_nat fuel →
  total (λ n, 0 < n ≤ len d) (checked.skip_group skip fuel d start).
Proof.
  intros Hd Hskip. revert start. induction fuel as [|fuel IH]; intros start Hs H0 Hf; [lia|].
  cbn [checked.skip_group].
  eapply total_bind; [by apply total_decodeVarint; lia|]. intros [wire j] Hj.
  case_bool; [simpl; lia|].
  eapply total_bind; [apply total_slice; lia|]. intros rest Hr; cbn beta in Hr.
  eapply total_bind; [apply Hskip; lia|]. intros next Hn; cbn beta in Hn. cbv zeta.
  case_bool; [done|]. destruct (i64_index_sum start next) as [E|?]; [lia..| |lia]. apply IH; lia.
Qed.

Lemma total_skip_loop fuel d :
  0 < len d < 2 ^ 62 → len d < Z.of_nat fuel → total (λ n, 0 < n < 2 ^ 63) (checked.skip_loop fuel d).
Proof.
  revert d. induction fuel as [|fuel IH]; intros d Hd Hf; [lia|]. cbn [checked.skip_loop].
  case_bool. eapply total_bind; [by apply total_decodeVarint|]. intros [wire j] Hj. cbv zeta.
  case_bool. { eapply total_mono; [apply total_skip_varint; unfold varint_fuel; lia|]. simpl. lia. }
  case_bool; [simpl; lia|].
  case_bool.
  { eapply total_bind; [apply total_decodeInt; lia|]. intros [n k] [Hk Hn]. case_bool; [done|].
    pose proof (i64_range (k + n)) as Hr. unfold is_i64 in *. cbv zeta. case_bool; [done|]. simpl.
    destruct (i64_index_sum k n); lia. }
  case_bool.
  { eapply total_mono; [apply total_skip_group; try lia|simpl; lia].
    - intros d' Hd'. apply IH; lia.
    - unfold len in *. lia. }
  case_bool; [simpl; lia|]. case_bool; [simpl; lia|]. done.
Qed.

Lemma total_lengthPrefix d i :
  0 ≤ i → len d < 2 ^ 62 → total (λ '(j, k), i < j ≤ k ∧ k ≤ len d) (checked.lengthPrefix d i).
Proof.
  intros Hi Hd. eapply total_bind; [by apply total_decodeInt|]. intros [n j] [Hj Hn].
  unfold is_i64 in Hn. case_bool; [done|]. cbv zeta. case_bool; [done|]. case_bool; [done|]. simpl.
  destruct (i64_index_sum j n); lia.
Qed.
Lemma total_bytesField d i :
  0 ≤ i → len d < 2 ^ 62 → total (λ '(p, j), i < j ≤ len d ∧ len p < 2 ^ 62) (checked.bytesField d i).
Proof.
  intros Hi Hd. eapply total_bind; [by apply total_lengthPrefix|]. intros [j k] Hj.
  eapply total_bind; [apply total_slice; lia|]. intros p Hp; cbn beta in Hp. simpl. lia.
Qed.
Lemma total_stringField d i :
  0 ≤ i → len d < 2 ^ 62 → total (λ '(p, j), i < j ≤ len d) (checked.stringField d i).
Proof.
  intros Hi Hd. eapply total_bind; [by apply total_decodeVarint|]. intros [n j] Hj. cbv zeta.
  pose proof (i64_range n) as Hn. unfold is_i64 in Hn.
  case_bool; [done|]. case_bool; [done|]. case_bool; [done|].
  destruct (i64_index_sum j (i64 n)); [lia..| |lia].
  eapply total_bind; [apply total_slice; lia|]. intros p Hp; cbn beta in Hp. simpl. lia.
Qed.

(** The [switch] of a message answers, and moves on. *)
Definition FieldTotal {M} (field : Z → Z → list Z → Z → M → outcome (option (M * Z))) : Prop :=
  ∀ fn wt d i m, 0 ≤ i → len d < 2 ^ 62 →
    total (λ r, match r with Some (_, j) => i < j | None => True end) (field fn wt d i m).

Lemma total_unmarshal {M} field unrecognized (m : M) d :
  FieldTotal field → len d < 2 ^ 62 → total (λ _, True) (checked.unmarshal field unrecognized m d).
Proof.
  intros HF Hd.
  assert (Hl : ∀ fuel m i, 0 ≤ i → (0 < fuel)%nat → len d - i < Z.of_nat fuel →
    total (λ _, True) (checked.unmarshal_loop field unrecognized fuel d m i)).
  { intros fuel. induction fuel as [|fuel IH]; intros m' i Hi H0 Hf; [lia|].
    cbn [checked.unmarshal_loop]. case_bool; [|by case_bool].
    eapply total_bind; [by apply total_decodeVarint|]. intros [wire j] Hj. cbv zeta.
    case_bool; [done|]. case_bool; [done|].
    eapply total_bind; [apply HF; [lia|done]|]. intros [[m1 k]|] Hk; [apply IH; lia|].
    eapply total_bind; [apply total_slice; lia|]. intros rest Hr; cbn beta in Hr.
    eapply total_bind; [apply total_skip_loop; unfold len in *; lia|]. intros n Hn; cbn beta in Hn.
    case_bool. case_bool; [done|]. case_bool; [done|].
    destruct (i64_index_sum i n) as [E|?]; [lia..|rewrite E in *|lia].
    eapply total_bind; [apply total_slice; lia|]. intros u Hu; cbn beta in Hu. apply IH; lia. }
  unfold checked.unmarshal. specialize (Hl (S (length d)) m 0).
  destruct (checked.unmarshal_loop _ _ _ _ _ _) as [|[]| |]; simpl in *; try done; apply Hl; unfold len in *; lia.
Qed.

(** ** Agreement with the older generator

    The checks turn panics into errors and change nothing else: where the older
    loop returns a message, the newer one returns the same. *)

Lemma go_slice_Ret {A} (l : list A) lo hi p :
  go_slice l lo hi = Ret p → 0 ≤ lo ≤ hi ∧ hi ≤ len l ∧ len p = hi - lo.
Proof.
  unfold go_slice. case_bool; [|done]. intros [= <-]. unfold len in *.
  rewrite length_take, length_drop. lia.
Qed.

Lemma skip_group_agrees skip skip' d fuel start j :
  len d < 2 ^ 63 →
  (∀ rest n, len rest ≤ len d → skip rest = Ret n →
     (0 ≤ n ∧ skip' rest = Ret n) ∨ - 2 ^ 63 ≤ n < len rest - 2 ^ 63) →
  0 ≤ start → skip_group skip fuel d start = Ret j →
  0 ≤ j ∧ checked.skip_group skip' fuel d start = Ret j.
Proof.
  intros Hd Hs. revert start. induction fuel as [|fuel IH]; intros start H0; [done|].
  cbn [skip_group checked.skip_group]. intros H.
  apply outcome_bind_Ret in H as ([wire k] & Hw & H). rewrite Hw, bind_Ret.
  pose proof (decodeVarint_advances _ _ _ _ _ Hw).
  destruct (_ =? 4); [injection H as [= <-]; split; [lia|done]|].
  apply outcome_bind_Ret in H as (rest & Hr & H). rewrite Hr, bind_Ret.
  apply go_slice_Ret in Hr as (_ & _ & Hr).
  apply outcome_bind_Ret in H as (next & Hn & H). cbv zeta.
  assert (Hpos : 0 ≤ i64 (start + next)).
  { destruct fuel as [|fuel]; [done|]. cbn [skip_group] in H.
    apply outcome_bind_Ret in H as ([? ?] & Hw' & _). apply decodeVarint_advances in Hw' as [? _]. done. }
  destruct (Hs rest next) as [[? Hs']|Hneg]; [lia|done| |].
  - rewrite Hs', bind_Ret. case_bool. by apply IH.
  - rewrite i64_id in Hpos; unfold is_i64; lia.
Qed.

Lemma skip_varint_nonneg fuel d i shift j : 0 ≤ i → skip_varint fuel d i shift = Ret j → 0 ≤ j.
Proof.
  revert i shift. induction fuel as [|fuel IH]; intros i shift Hi; [done|]. cbn [skip_varint].
  case_bool; [done|]. case_bool; [done|]. intros H. apply outcome_bind_Ret in H as (b & _ & H).
  destruct (b <? 0x80); [injection H as [= <-]; lia|]. eapply IH, H. lia.
Qed.

Lemma skip_loop_agrees fuel d n :
  len d < 2 ^ 63 → skip_loop fuel d = Ret n →
  (0 ≤ n ∧ checked.skip_loop fuel d = Ret n) ∨ - 2 ^ 63 ≤ n < len d - 2 ^ 63.
Proof.
  revert d n. induction fuel as [|fuel IH]; intros d n Hd; [done|].
  cbn [skip_loop checked.skip_loop]. case_bool; [|done]. intros H.
  apply outcome_bind_Ret in H as ([wire k] & Hw & H). rewrite Hw, bind_Ret.
  pose proof (decodeVarint_advances _ _ _ _ _ Hw). cbv zeta in *.
  destruct (_ =? 0). { left. split; [|done]. eapply skip_varint_nonneg, H. lia. }
  destruct (_ =? 1). { injection H as [= <-]. left. split; [lia|done]. }
  destruct (_ =? 2).
  { apply outcome_bind_Ret in H as ([l j] & Hl & H). rewrite Hl, bind_Ret.
    pose proof (decodeVarint_advances _ _ _ _ _ Hl).
    assert (Hi : is_i64 l) by (rewrite <- (decodeVarint_width i64 _ _ _ _ Hl); apply i64_range).
    destruct (l <? 0) eqn:El; [done|]. injection H as [= <-]. zify_bool. unfold is_i64 in Hi.
    pose proof (i64_range (j + l)) as Hr. unfold is_i64 in Hr.
    case_bool; [right|left; split; [lia|done]].
    destruct (decide (j + l < 2 ^ 63)); [rewrite i64_id in *; unfold is_i64; lia|].
    unfold i64 in *. rewrite <- (Z.mod_unique_pos (j + l + 2 ^ 63) (2 ^ 64) 1 (j + l - 2 ^ 63)) in *; lia. }
  destruct (_ =? 3).
  { left. eapply skip_group_agrees, H; [done| |lia]. intros rest n' Hr. apply IH. lia. }
  destruct (_ =? 4). { injection H as [= <-]. left. split; [lia|done]. }
  destruct (_ =? 5). { injection H as [= <-]. left. split; [lia|done]. }
  done.
Qed.

Lemma unmarshal_agrees {M} field unrecognized (m m' : M) d :
  len d < 2 ^ 63 → unmarshal field unrecognized m d = Ret m' →
  checked.unmarshal field unrecognized m d = Ret m'.
Proof.
  intros Hd. unfold unmarshal, checked.unmarshal. generalize (S (length d)) as fuel, 0 as i. intros fuel.
  enough (∀ m i, unmarshal_loop field unrecognized fuel d m i = Ret m' →
            checked.unmarshal_loop field unrecognized fuel d m i = Ret m') as Hl.
  { intros i H. by rewrite (Hl _ _ H). }
  clear m. induction fuel as [|fuel IH]; intros m i; [done|].
  cbn [unmarshal_loop checked.unmarshal_loop]. destruct (i <? len d); [|done]. intros H.
  apply outcome_bind_Ret in H as ([wire k] & Hw & H). rewrite Hw, bind_Ret.
  pose proof (decodeVarint_advances _ _ _ _ _ Hw). cbv zeta in *.
  destruct (_ =? 4); [done|]. destruct (_ <=? 0); [done|].
  apply outcome_bind_Ret in H as ([[m1 j]|] & Hf & H); rewrite Hf, bind_Ret; [by apply IH|].
  apply outcome_bind_Ret in H as (rest & Hr & H). rewrite Hr, bind_Ret.
  apply go_slice_Ret in Hr as (_ & _ & Hr).
  apply outcome_bind_Ret in H as (n & Hn & H).
  destruct (n <? 0) eqn:En; [done|]. zify_bool.
  assert (Hl : len rest < 2 ^ 63) by lia.
  destruct (skip_loop_agrees _ _ _ Hl Hn) as [[_ Hn']|?]; [|lia].
  unfold checked.skip. rewrite Hn', bind_Ret. case_bool.
  destruct (_ >? len d); [done|]. apply outcome_bind_Ret in H as (u & Hu & H).
  pose proof (go_slice_Ret _ _ _ _ Hu). case_bool. rewrite Hu, bind_Ret. by apply IH.
Qed.

(** ** The cases of the switch *)

Section CasesTotal.
Context {M : Type} (upd : Z → M → M) (updb : bool → M → M) (updp : list Z → M → M) (wt : Z) (d : list Z) (i : Z) (m : M).
Context (Hi : 0 ≤ i) (Hd : len d < 2 ^ 62).
#[local] Abbreviation moves := (total (λ r, match r with Some (_, j) => i < j | None => True end)).

Lemma total_uint64Case : moves (uint64Case upd wt d i m).
Proof.
  apply total_if; [done|]. intros _. eapply total_bind; [by apply total_decodeVarint|]. intros [v j] ?. simpl. lia.
Qed.
Lemma total_enumCase : moves (enumCase upd wt d i m).
Proof.
  apply total_if; [done|]. intros _. eapply total_bind; [by apply total_decodeVarint|]. intros [v j] ?. simpl. lia.
Qed.
Lemma total_boolCase : moves (boolCase updb wt d i m).
Proof.
  apply total_if; [done|]. intros _. eapply total_bind; [by apply total_decodeVarint|]. intros [v j] ?. simpl. lia.
Qed.
Lemma total_int64Case : moves (checked.int64Case upd wt d i m).
Proof.
  apply total_if; [done|]. intros _. eapply total_bind; [by apply total_decodeVarint|]. intros [v j] ?. simpl. lia.
Qed.
Lemma total_bytesCase : moves (checked.bytesCase updp wt d i m).
Proof.
  apply total_if; [done|]. intros _. eapply total_bind; [by apply total_bytesField|]. intros [p j] ?. simpl. lia.
Qed.
Lemma total_stringCase : moves (checked.stringCase updp wt d i m).
Proof.
  apply total_if; [done|]. intros _. eapply total_bind; [by apply total_stringField|]. intros [p j] ?. simpl. lia.
Qed.
Lemma total_pointerCase {X} (zero : X) um get (updx : X → M → M) :
  (∀ x p, len p < 2 ^ 62 → total (λ _, True) (um x p)) → moves (checked.pointerCase zero um get updx wt d i m).
Proof.
  intros Hu. apply total_if; [done|]. intros _. eapply total_bind; [by apply total_bytesField|].
  intros [p j] [? ?]. eapply total_bind; [by apply Hu|]. intros x _. simpl. lia.
Qed.
End CasesTotal.

(** The [switch] reads [bs], wherever they are in the buffer, and updates [m]. *)
Definition Consumes {M} (field : Z → Z → list Z → Z → M → outcome (option (M * Z))) (fn wt : Z)
    (m : M) (bs : list Z) (m' : M) : Prop :=
  ∀ pre post, len (pre ++ bs ++ post) < 2 ^ 63 →
    field fn wt (pre ++ bs ++ post) (len pre) m = Ret (Some (m', len (pre ++ bs))).

Lemma i64_u64 v : is_i64 v → i64 (u64 v) = v.
Proof.
  unfold is_i64, i64, u64. intros. destruct (decide (0 ≤ v)).
  - rewrite (Z.mod_small v), Z.mod_small; lia.
  - rewrite <- (Z.mod_unique_pos v (2 ^ 64) (-1) (v + 2 ^ 64)) by lia.
    rewrite <- (Z.mod_unique_pos _ (2 ^ 64) 1 (v + 2 ^ 63)); lia.
Qed.

Lemma checked_lengthPrefix_ok pre p post :
  len (pre ++ varint_bytes (len p) ++ p ++ post) < 2 ^ 63 →
  checked.lengthPrefix (pre ++ varint_bytes (len p) ++ p ++ post) (len pre) =
  Ret (len (pre ++ varint_bytes (len p)), len (pre ++ varint_bytes (len p) ++ p)).
Proof.
  intros Hl. pose proof (lengthPrefix_ok pre p post Hl) as H. unfold lengthPrefix in H.
  unfold checked.lengthPrefix. apply outcome_bind_Ret in H as ([n j] & Hn & H). rewrite Hn, bind_Ret.
  destruct (n <? 0); [done|]. cbv zeta in *. destruct (_ >? _); [done|].
  injection H as [= Hj Hp]. rewrite Hp, Hj. case_bool; [|done].
  pose proof (len_nonneg (pre ++ varint_bytes (len p) ++ p)). lia.
Qed.

Section Consumes.
Context {M : Type} (field : Z → Z → list Z → Z → M → outcome (option (M * Z))) (fn : Z) (m : M).

Lemma Consumes_uint64 v upd :
  (∀ d i, field fn 0 d i m = uint64Case upd 0 d i m) → is_u64 v →
  Consumes field fn 0 m (varint_bytes v) (upd v m).
Proof.
  intros Hf Hv pre post _. rewrite Hf. unfold uint64Case. simpl. rewrite (decodeVarint_ok u64) by done. simpl.
  by rewrite u64_id.
Qed.
Lemma Consumes_int64 v upd :
  (∀ d i, field fn 0 d i m = checked.int64Case upd 0 d i m) → is_i64 v →
  Consumes field fn 0 m (varint_bytes (u64 v)) (upd v m).
Proof.
  intros Hf Hv pre post _. rewrite Hf. unfold checked.int64Case. simpl.
  rewrite (decodeVarint_ok i64) by apply u64_range. simpl. by rewrite i64_u64.
Qed.
Lemma Consumes_enum v upd :
  (∀ d i, field fn 0 d i m = enumCase upd 0 d i m) → is_i32 v →
  Consumes field fn 0 m (varint_bytes (u64 v)) (upd v m).
Proof.
  intros Hf Hv pre post _. rewrite Hf. unfold enumCase. simpl.
  rewrite (decodeVarint_ok i32) by apply u64_range. simpl. by rewrite i32_u64.
Qed.
Lemma Consumes_bool (b : bool) upd :
  (∀ d i, field fn 0 d i m = boolCase upd 0 d i m) →
  Consumes field fn 0 m [if b then 1 else 0] (upd b m).
Proof.
  intros Hf pre post _. rewrite Hf. unfold boolCase. simpl.
  replace (_ :: post) with (varint_bytes (if b then 1 else 0) ++ post) by (by destruct b).
  rewrite (decodeVarint_ok i64) by (by destruct b). simpl. by destruct b.
Qed.
Lemma Consumes_bytes p upd :
  (∀ d i, field fn 2 d i m = checked.bytesCase upd 2 d i m) →
  Consumes field fn 2 m (varint_bytes (len p) ++ p) (upd p m).
Proof.
  intros Hf pre post Hl. rewrite Hf. unfold checked.bytesCase, checked.bytesField. cbn [negb Z.eqb].
  rewrite <- app_assoc in Hl |- *. rewrite checked_lengthPrefix_ok by done. cbn.
  rewrite (app_assoc pre _ (p ++ post)), (app_assoc pre _ p). by rewrite go_slice_middle.
Qed.
Lemma Consumes_string p upd :
  (∀ d i, field fn 2 d i m = checked.stringCase upd 2 d i m) →
  Consumes field fn 2 m (varint_bytes (len p) ++ p) (upd p m).
Proof.
  intros Hf pre post Hl. rewrite Hf. unfold checked.stringCase, checked.stringField. cbn [negb Z.eqb].
  rewrite <- app_assoc in Hl |- *.
  assert (Hp : is_u64 (len p) ∧ len p < 2 ^ 63).
  { autorewrite with go_len in Hl. pose proof (len_nonneg pre). pose proof (len_nonneg post).
    pose proof (len_nonneg (varint_bytes (len p))). pose proof (len_nonneg p). unfold is_u64. lia. }
  rewrite (decodeVarint_ok u64) by apply Hp. rewrite bind_Ret, u64_id by apply Hp. cbv zeta.
  rewrite (i64_id (len p)) by (unfold is_i64, is_u64 in *; lia).
  pose proof (len_nonneg p). pose proof (len_nonneg (pre ++ varint_bytes (len p))).
  assert (Hsum : i64 (len (pre ++ varint_bytes (len p)) + len p) = len (pre ++ varint_bytes (len p) ++ p)).
  { rewrite i64_id; autorewrite with go_len in *; [lia|]. pose proof (len_nonneg post). unfold is_i64. lia. }
  pose proof (len_nonneg (pre ++ varint_bytes (len p) ++ p)). rewrite Hsum. case_bool. case_bool. case_bool. case_bool.
  { autorewrite with go_len in *. pose proof (len_nonneg post). lia. }
  rewrite (app_assoc pre _ (p ++ post)), (app_assoc pre _ p), go_slice_middle. done.
Qed.
Lemma Consumes_pointer {X} (zero : X) um get x p upd :
  (∀ d i, field fn 2 d i m = checked.pointerCase zero um get upd 2 d i m) →
  get m = None → (len p < 2 ^ 63 → um zero p = Ret x) →
  Consumes field fn 2 m (varint_bytes (len p) ++ p) (upd x m).
Proof.
  intros Hf Hg Hu pre post Hl. rewrite Hf. unfold checked.pointerCase, checked.bytesField. cbn [negb Z.eqb].
  rewrite <- app_assoc in Hl |- *. rewrite checked_lengthPrefix_ok by done. cbn.
  rewrite (app_assoc pre _ (p ++ post)), (app_assoc pre _ p), go_slice_middle. cbn.
  rewrite Hg. cbn. rewrite Hu; [done|]. autorewrite with go_len in Hl.
  pose proof (len_nonneg pre). pose proof (len_nonneg post). pose proof (len_nonneg (varint_bytes (len p))). lia.
Qed.
End Consumes.

Section Tags.
Context {M : Type} (field : Z → Z → list Z → Z → M → outcome (option (M * Z))) (unrecognized : list Z → M → M).

(** A tag of two bytes, for the field numbers from 16. *)
Definition tag2_ok (tag1 tag2 fn wt : Z) : Prop :=
  ∃ v, varint_bytes v = [tag1; tag2] ∧ is_u64 v ∧ i32 (Z.shiftr v 3) = fn ∧ Z.land v 0x7 = wt ∧ wt ≠ 4 ∧ 0 < fn.

Lemma Reads_tag2 tag1 tag2 fn wt m bs m' :
  tag2_ok tag1 tag2 fn wt → Consumes field fn wt m bs m' →
  Reads field unrecognized m (tag1 :: tag2 :: bs) m'.
Proof.
  intros (v & Hv & Hu & <- & <- & Hw & Hf) H. exists 1%nat. split; [simpl; lia|].
  intros pre post fuel Hl. change (tag1 :: tag2 :: bs) with ([tag1; tag2] ++ bs) in *.
  rewrite <-!Hv in *. rewrite <- !app_assoc in *. cbn [Nat.add unmarshal_loop].
  case_bool.
  2: { autorewrite with go_len in *. rewrite Hv in *. autorewrite with go_len in *.
       pose proof (len_nonneg bs). pose proof (len_nonneg post). lia. }
  rewrite (decodeVarint_ok u64) by done. rewrite bind_Ret, u64_id by done. cbv zeta. case_bool. case_bool.
  rewrite (app_assoc pre) in *. rewrite H by done. rewrite bind_Ret.
  by rewrite (app_assoc pre (varint_bytes v) bs).
Qed.
Lemma Reads_tag tag fn wt m bs m' :
  tag_ok tag fn wt → Consumes field fn wt m bs m' → Reads field unrecognized m (tag :: bs) m'.
Proof. intros Ht H. by eapply Reads_field. Qed.

(** A field that is written when it is not zero. *)
Definition opt (b : bool) (bs : list Z) : list Z := if b then bs else [].
Lemma Reads_opt (b : bool) bs m m' :
  Reads field unrecognized m bs m' → (b = false → m' = m) → Reads field unrecognized m (opt b bs) m'.
Proof. intros H Hm. destruct b; [done|]. rewrite Hm by done. apply Reads_nil. Qed.
End Tags.

Lemma Reads_checked {M} field unrecognized (m m' : M) bs :
  Reads field unrecognized m bs m' → len bs < 2 ^ 63 → checked.unmarshal field unrecognized m bs = Ret m'.
Proof. intros H Hl. apply unmarshal_agrees; [done|]. by apply Reads_unmarshal. Qed.
