(* ===== verification/Quorum.v ===== *)
(** * raft/quorum: majority and joint quorums

    [MajorityConfig] is a set of voter ids (a Go map, possibly nil) and
    [JointConfig] a pair of them; [VoteResult] decides an election from the
    votes recorded so far.  The loops range over Go maps: the definitions are
    parameterised by the order ([MapOrder]), the theorems hold for all. *)

From S2P Require Import Prelude.
From stdpp Require Import pretty.
#[local] Open Scope Z_scope.

Abbreviation MajorityConfig := idset (only parsing).
Abbreviation Votes := (gmap Z bool).

Inductive voteResult : Set := VotePending | VoteLost | VoteWon.
#[global] Instance voteResult_eq_dec : EqDecision voteResult.
Proof. solve_decision. Defined.

(** [sort.Slice(sl, func(i, j int) bool { return sl[i] < sl[j] })] *)
Definition sortIDs (sl : list Z) : list Z := merge_sort Z.le sl.

Module MajorityConfig.
Section Ops.
Context `{!MapOrder}.

Definition Slice (c : MajorityConfig) : list Z := sortIDs (range_order (keys c)).

(** [fmt.Fprint] of the ids, separated by spaces. *)
Fixpoint joinIDs (sl : list Z) : string :=
  match sl with
  | [] => ""
  | [id] => pretty id
  | id :: sl => pretty id +:+ " " +:+ joinIDs sl
  end.
Definition String_ (c : MajorityConfig) : string :=
  let sl := sortIDs (range_order (keys c)) in "(" +:+ joinIDs sl +:+ ")".

(** The loop over the voters: the counts of no, of yes and of missing votes. *)
Fixpoint count_loop (votes : Votes) (ids : list Z) (no yes missing : Z) : Z * Z * Z :=
  match ids with
  | [] => (no, yes, missing)
  | id :: ids =>
      match votes !! id : option bool with
      | None => count_loop votes ids no yes (missing + 1)
      | Some v =>
          if v then count_loop votes ids no (yes + 1) missing
          else count_loop votes ids (no + 1) yes missing
      end
  end.

Definition VoteResult (c : MajorityConfig) (votes : Votes) : voteResult :=
  if mlen c =? 0 then VoteWon else
  let '(no, yes, missing) := count_loop votes (range_order (keys c)) 0 0 0 in
  let q := mlen c / 2 + 1 in
  if yes >=? q then VoteWon else
  if yes + missing >=? q then VotePending else VoteLost.
End Ops.
End MajorityConfig.

Module JointConfig.
Abbreviation t := (MajorityConfig * MajorityConfig)%type.
Section Ops.
Context `{!MapOrder}.

Definition String_ (c : t) : string :=
  if mlen c.2 >? 0
  then MajorityConfig.String_ c.1 +:+ "&&" +:+ MajorityConfig.String_ c.2
  else MajorityConfig.String_ c.1.

Definition IDs (c : t) : gset Z := keys c.1 ∪ keys c.2.

Definition VoteResult (c : t) (votes : Votes) : voteResult :=
  let r1 := MajorityConfig.VoteResult c.1 votes in
  let r2 := MajorityConfig.VoteResult c.2 votes in
  if decide (r1 = r2) then r1 else
  if decide (r1 = VoteLost ∨ r2 = VoteLost) then VoteLost else VotePending.
End Ops.
End JointConfig.

(** ** Sorting *)

Lemma sortIDs_perm l : sortIDs l ≡ₚ l.
Proof. apply merge_sort_Permutation. Qed.

Lemma sortIDs_sorted l : Sorted Z.le (sortIDs l).
Proof. apply Sorted_merge_sort. typeclasses eauto. Qed.

(** The result does not depend on the order in which the map was ranged over. *)
Lemma sortIDs_unique l1 l2 : l1 ≡ₚ l2 → sortIDs l1 = sortIDs l2.
Proof.
  intros H. apply (Sorted_unique Z.le); [apply sortIDs_sorted..|].
  by rewrite !sortIDs_perm.
Qed.

Lemma Slice_elements `{!MapOrder} c :
  MajorityConfig.Slice c = sortIDs (elements (keys c)).
Proof. apply sortIDs_unique, range_order_perm. Qed.

Lemma elem_of_Slice `{!MapOrder} c id : id ∈ MajorityConfig.Slice c ↔ id ∈ keys c.
Proof. unfold MajorityConfig.Slice. by rewrite sortIDs_perm, elem_of_range_order. Qed.

Lemma sortIDs_increasing l : NoDup l → StronglySorted Z.lt (sortIDs l).
Proof.
  intros Hl. assert (Hnd : NoDup (sortIDs l)) by (by rewrite sortIDs_perm).
  pose proof (Sorted_StronglySorted _ _ (sortIDs_sorted l)) as Hs.
  revert Hnd. clear Hl. induction Hs as [|x k Hk IH Hx]; intros Hnd.
  - constructor.
  - apply NoDup_cons in Hnd as [Hn Hnd]. constructor; [auto|].
    rewrite Forall_forall in Hx |- *. intros y Hy. specialize (Hx _ Hy).
    assert (x ≠ y) by (by intros ->). lia.
Qed.

Lemma Slice_increasing `{!MapOrder} c : StronglySorted Z.lt (MajorityConfig.Slice c).
Proof. apply sortIDs_increasing. rewrite range_order_perm. apply NoDup_elements. Qed.

(** ** Counting

    The abstract specification: the voters who said yes, who said no, and who
    have not voted. *)

Definition yes_set (c : gset Z) (votes : Votes) : gset Z :=
  filter (λ id, votes !! id = Some true) c.
Definition no_set (c : gset Z) (votes : Votes) : gset Z :=
  filter (λ id, votes !! id = Some false) c.

Definition majority (c s : gset Z) : Prop := (size c < 2 * size s)%nat.
#[global] Instance majority_dec c s : Decision (majority c s).
Proof. unfold majority. apply _. Defined.

Lemma count_loop_ok votes ids no yes missing :
  MajorityConfig.count_loop votes ids no yes missing =
  (no + len (filter (λ id, votes !! id = Some false) ids),
   yes + len (filter (λ id, votes !! id = Some true) ids),
   missing + len (filter (λ id, votes !! id = None) ids)).
Proof.
  revert no yes missing. induction ids as [|id ids IH]; intros no yes missing;
    cbn [MajorityConfig.count_loop].
  - cbn. rewrite !pair_equal_spec. autorewrite with go_len. lia.
  - destruct (votes !! id) as [[]|] eqn:E; rewrite IH, !filter_cons;
      repeat case_decide; try congruence; autorewrite with go_len; rewrite !pair_equal_spec; lia.
Qed.

Lemma filter_elements_len (P : Z → Prop) `{!∀ x, Decision (P x)} (c : gset Z) l :
  l ≡ₚ elements c → len (filter P l) = Z.of_nat (size (filter P c)).
Proof.
  intros Hl. unfold len, size, set_size. simpl. f_equal. apply Permutation_length.
  rewrite Hl. apply NoDup_Permutation.
  - apply NoDup_filter, NoDup_elements.
  - apply NoDup_elements.
  - intros x. rewrite list_elem_of_filter, !elem_of_elements, elem_of_filter. done.
Qed.

(** The result of the code's loop, in terms of the sets of voters: it does
    not depend on the order of the map. *)
Lemma VoteResult_spec `{!MapOrder} c votes :
  MajorityConfig.VoteResult c votes =
  if decide (keys c = ∅ ∨ majority (keys c) (yes_set (keys c) votes)) then VoteWon
  else if decide (2 * size (no_set (keys c) votes) < size (keys c))%nat then VotePending
  else VoteLost.
Proof.
  unfold MajorityConfig.VoteResult. rewrite count_loop_ok.
  rewrite !(filter_elements_len _ _ _ (range_order_perm _)).
  fold (yes_set (keys c) votes) (no_set (keys c) votes).
  assert (Hsum : (size (keys c) = size (yes_set (keys c) votes) + size (no_set (keys c) votes)
            + size (filter (λ id, votes !! id = None) (keys c)))%nat).
  { rewrite <- !size_union.
    - f_equal. apply set_eq. intros x. unfold yes_set, no_set.
      rewrite !elem_of_union, !elem_of_filter. destruct (votes !! x) as [[]|]; naive_solver.
    - unfold yes_set, no_set. intros x. rewrite !elem_of_union, !elem_of_filter. naive_solver congruence.
    - unfold yes_set, no_set. intros x. rewrite !elem_of_filter. naive_solver congruence. }
  unfold mlen. case_bool.
  { rewrite decide_True; [done|]. left. apply leibniz_equiv, size_empty_inv. lia. }
  assert (keys c ≠ ∅) by (intros Hc%(f_equal size); rewrite size_empty in Hc; lia).
  assert (Hq : ∀ n : nat, Z.of_nat (size (keys c)) / 2 + 1 ≤ Z.of_nat n ↔ (size (keys c) < 2 * n)%nat).
  { intros n. pose proof (Z.div_mod (Z.of_nat (size (keys c))) 2).
    pose proof (Z.mod_pos_bound (Z.of_nat (size (keys c))) 2). lia. }
  case_bool.
  { rewrite decide_True; [done|]. right. apply Hq. lia. }
  rewrite decide_False by (intros [?|Hm]; [done|apply Hq in Hm; lia]).
  rewrite Z.add_0_l, Z.add_0_l, <- Nat2Z.inj_add.
  destruct (_ >=? _) eqn:E; zify_bool; [rewrite decide_True|rewrite decide_False]; try done.
  - apply Hq in E. lia.
  - intros ?. apply Z.lt_nge in E. apply E, Hq. lia.
Qed.

Section Results.
Context `{!MapOrder}.
Implicit Types (c : idset) (votes : Votes).

Lemma VoteResult_Won c votes :
  MajorityConfig.VoteResult c votes = VoteWon ↔
  keys c = ∅ ∨ majority (keys c) (yes_set (keys c) votes).
Proof. rewrite VoteResult_spec. repeat case_decide; naive_solver. Qed.

Lemma VoteResult_Lost c votes :
  MajorityConfig.VoteResult c votes = VoteLost ↔
  (size (keys c) ≤ 2 * size (no_set (keys c) votes))%nat ∧ keys c ≠ ∅.
Proof.
  rewrite VoteResult_spec.
  assert (yes_set (keys c) votes ## no_set (keys c) votes).
  { unfold yes_set, no_set. intros x. rewrite !elem_of_filter. naive_solver congruence. }
  assert (size (yes_set (keys c) votes) + size (no_set (keys c) votes) ≤ size (keys c))%nat.
  { rewrite <- size_union by done. apply subseteq_size. unfold yes_set, no_set. set_solver. }
  unfold majority in *.
  repeat case_decide; naive_solver lia.
Qed.

(** More votes never take a voter out of either set. *)
Lemma yes_set_mono (c : gset Z) votes votes' : votes ⊆ votes' → yes_set c votes ⊆ yes_set c votes'.
Proof.
  intros Hv x. unfold yes_set. rewrite !elem_of_filter. intros [? ?].
  split; [by eapply lookup_weaken|done].
Qed.
Lemma no_set_mono (c : gset Z) votes votes' : votes ⊆ votes' → no_set c votes ⊆ no_set c votes'.
Proof.
  intros Hv x. unfold no_set. rewrite !elem_of_filter. intros [? ?].
  split; [by eapply lookup_weaken|done].
Qed.

Lemma VoteResult_Won_mono c votes votes' :
  votes ⊆ votes' → MajorityConfig.VoteResult c votes = VoteWon →
  MajorityConfig.VoteResult c votes' = VoteWon.
Proof.
  rewrite !VoteResult_Won. intros Hv [?|Hm]; [by left|right]. unfold majority in *.
  pose proof (subseteq_size _ _ (yes_set_mono (keys c) _ _ Hv)). lia.
Qed.
Lemma VoteResult_Lost_mono c votes votes' :
  votes ⊆ votes' → MajorityConfig.VoteResult c votes = VoteLost →
  MajorityConfig.VoteResult c votes' = VoteLost.
Proof.
  rewrite !VoteResult_Lost. intros Hv [Hm ?]. split; [|done].
  pose proof (subseteq_size _ _ (no_set_mono (keys c) _ _ Hv)). lia.
Qed.

(** The votes in which every voter of [s] who has not voted says [b]. *)
Definition complete (b : bool) (s : gset Z) (votes : Votes) : Votes :=
  votes ∪ gset_to_gmap b s.

Lemma complete_extends b s votes : votes ⊆ complete b s votes.
Proof. apply map_union_subseteq_l. Qed.

Lemma complete_lookup b s votes id :
  id ∈ s → complete b s votes !! id = Some (default b (votes !! id)).
Proof.
  intros Hid. unfold complete. rewrite lookup_union, lookup_gset_to_gmap, option_guard_True by done.
  by destruct (votes !! id).
Qed.

Lemma complete_true c s votes :
  keys c ⊆ s → MajorityConfig.VoteResult c votes ≠ VoteLost →
  MajorityConfig.VoteResult c (complete true s votes) = VoteWon.
Proof.
  rewrite VoteResult_Lost, VoteResult_Won. intros Hs Hnl.
  destruct (decide (keys c = ∅)); [by left|right].
  assert (Hy : yes_set (keys c) (complete true s votes) = keys c ∖ no_set (keys c) votes).
  { apply set_eq. intros x. unfold yes_set, no_set.
    rewrite elem_of_difference, !elem_of_filter.
    destruct (decide (x ∈ keys c)); [|naive_solver].
    rewrite complete_lookup by set_solver. destruct (votes !! x) as [[]|]; naive_solver. }
  unfold majority. rewrite Hy, size_difference by (unfold no_set; set_solver).
  assert (¬ (size (keys c) ≤ 2 * size (no_set (keys c) votes))%nat) by naive_solver. lia.
Qed.

Lemma complete_false c s votes :
  keys c ⊆ s → MajorityConfig.VoteResult c votes ≠ VoteWon →
  MajorityConfig.VoteResult c (complete false s votes) = VoteLost.
Proof.
  rewrite VoteResult_Lost, VoteResult_Won. intros Hs Hnl.
  split; [|naive_solver].
  assert (Hy : no_set (keys c) (complete false s votes) = keys c ∖ yes_set (keys c) votes).
  { apply set_eq. intros x. unfold yes_set, no_set.
    rewrite elem_of_difference, !elem_of_filter.
    destruct (decide (x ∈ keys c)); [|naive_solver].
    rewrite complete_lookup by set_solver. destruct (votes !! x) as [[]|]; naive_solver. }
  rewrite Hy, size_difference by (unfold yes_set; set_solver).
  assert (¬ majority (keys c) (yes_set (keys c) votes)) as Hm by naive_solver.
  unfold majority in Hm. lia.
Qed.

Lemma JointVoteResult_spec (c : JointConfig.t) votes :
  let r1 := MajorityConfig.VoteResult c.1 votes in
  let r2 := MajorityConfig.VoteResult c.2 votes in
  (JointConfig.VoteResult c votes = VoteWon ↔ r1 = VoteWon ∧ r2 = VoteWon) ∧
  (JointConfig.VoteResult c votes = VoteLost ↔ r1 = VoteLost ∨ r2 = VoteLost).
Proof.
  unfold JointConfig.VoteResult. simpl.
  destruct (MajorityConfig.VoteResult c.1 votes), (MajorityConfig.VoteResult c.2 votes);
    repeat case_decide; naive_solver.
Qed.

(** A majority quorum wins or loses as the joint quorum whose other half is nil. *)
Lemma JointVoteResult_nil c votes :
  JointConfig.VoteResult (c, None) votes = MajorityConfig.VoteResult c votes.
Proof.
  unfold JointConfig.VoteResult. simpl.
  replace (MajorityConfig.VoteResult None votes) with VoteWon by done.
  destruct (MajorityConfig.VoteResult c votes); done.
Qed.

Lemma majority_intersect (c s1 s2 : gset Z) :
  s1 ⊆ c → s2 ⊆ c → majority c s1 → majority c s2 → ∃ id, id ∈ s1 ∧ id ∈ s2.
Proof.
  unfold majority. intros H1 H2 Hm1 Hm2.
  destruct (set_choose_or_empty (s1 ∩ s2)) as [[x Hx]|Hx]; [set_solver|].
  assert (size (s1 ∪ s2) ≤ size c)%nat by (apply subseteq_size; set_solver).
  rewrite size_union in * by set_solver. lia.
Qed.

(** C3 (safety): quorums intersect.  If a (joint) configuration whose
    incoming half is not empty counts an election won on two sets of votes,
    some voter of the incoming half said yes in both; the same for the
    outgoing half when the configuration is joint. *)
Theorem quorum_intersection (c : JointConfig.t) votes1 votes2 :
  JointConfig.VoteResult c votes1 = VoteWon → JointConfig.VoteResult c votes2 = VoteWon →
  (keys c.1 ≠ ∅ → ∃ id, id ∈ keys c.1 ∧ votes1 !! id = Some true ∧ votes2 !! id = Some true) ∧
  (keys c.2 ≠ ∅ → ∃ id, id ∈ keys c.2 ∧ votes1 !! id = Some true ∧ votes2 !! id = Some true).
Proof.
  rewrite !(proj1 (JointVoteResult_spec _ _)), !VoteResult_Won.
  intros [H1 H1'] [H2 H2'].
  assert (Hyes : ∀ s v, yes_set s v ⊆ s) by (unfold yes_set; set_solver).
  split; intros Hne.
  - destruct (majority_intersect (keys c.1) (yes_set (keys c.1) votes1)
      (yes_set (keys c.1) votes2)) as (x & Hx1 & Hx2); [apply Hyes..|naive_solver|naive_solver|].
    exists x. apply elem_of_filter in Hx1, Hx2. naive_solver.
  - destruct (majority_intersect (keys c.2) (yes_set (keys c.2) votes1)
      (yes_set (keys c.2) votes2)) as (x & Hx1 & Hx2); [apply Hyes..|naive_solver|naive_solver|].
    exists x. apply elem_of_filter in Hx1, Hx2. naive_solver.
Qed.

(** What the three results mean.  Against the votes that may
    still arrive, [VoteWon] and [VoteLost] are final, whichever votes follow,
    and [VotePending] is reported exactly when the outcome is open: some
    continuation wins and some continuation loses. *)
Theorem voteResult_meaning (c : JointConfig.t) votes :
  (JointConfig.VoteResult c votes = VoteWon ↔
     ∀ votes', votes ⊆ votes' → JointConfig.VoteResult c votes' = VoteWon) ∧
  (JointConfig.VoteResult c votes = VoteLost ↔
     ∀ votes', votes ⊆ votes' → JointConfig.VoteResult c votes' = VoteLost) ∧
  (JointConfig.VoteResult c votes = VotePending ↔
     (∃ votes', votes ⊆ votes' ∧ JointConfig.VoteResult c votes' = VoteWon) ∧
     (∃ votes', votes ⊆ votes' ∧ JointConfig.VoteResult c votes' = VoteLost)).
Proof.
  assert (Hwon : ∀ v v', v ⊆ v' → JointConfig.VoteResult c v = VoteWon →
    JointConfig.VoteResult c v' = VoteWon).
  { intros v v' Hv. rewrite !(proj1 (JointVoteResult_spec _ _)).
    intros [? ?]; split; by eapply VoteResult_Won_mono. }
  assert (Hlost : ∀ v v', v ⊆ v' → JointConfig.VoteResult c v = VoteLost →
    JointConfig.VoteResult c v' = VoteLost).
  { intros v v' Hv. rewrite !(proj2 (JointVoteResult_spec _ _)).
    intros [?|?]; [left|right]; by eapply VoteResult_Lost_mono. }
  assert (Hpend : JointConfig.VoteResult c votes = VotePending →
     (∃ votes', votes ⊆ votes' ∧ JointConfig.VoteResult c votes' = VoteWon) ∧
     (∃ votes', votes ⊆ votes' ∧ JointConfig.VoteResult c votes' = VoteLost)).
  { intros Hp. pose proof (JointVoteResult_spec c votes) as [Hw Hl].
    rewrite Hp in Hw, Hl. split.
    - exists (complete true (JointConfig.IDs c) votes). split; [apply complete_extends|].
      apply JointVoteResult_spec. unfold JointConfig.IDs.
      split; apply complete_true; try set_solver; naive_solver.
    - exists (complete false (JointConfig.IDs c) votes). split; [apply complete_extends|].
      apply JointVoteResult_spec. unfold JointConfig.IDs.
      destruct (decide (MajorityConfig.VoteResult c.1 votes = VoteWon));
        [right|left]; apply complete_false; try set_solver; naive_solver. }
  split_and!.
  - split; [eauto|]. intros Hall. by apply Hall.
  - split; [eauto|]. intros Hall. by apply Hall.
  - split; [done|]. intros [(v1 & Hv1 & H1) (v2 & Hv2 & H2)].
    destruct (JointConfig.VoteResult c votes) eqn:E; [done| |].
    + rewrite (Hlost _ _ Hv1 E) in H1. done.
    + rewrite (Hwon _ _ Hv2 E) in H2. done.
Qed.
End Results.

Lemma quorum_intersection_witness :
  let O := elements_order in
  let c : JointConfig.t := (Some {[1; 2; 3]}, Some {[3; 4]}) in
  let v1 : Votes := {[1 := true; 3 := true; 4 := true]} in
  let v2 : Votes := {[2 := true; 3 := true; 4 := true; 1 := false]} in
  (keys c.1 ≠ ∅ → ∃ id, id ∈ keys c.1 ∧ v1 !! id = Some true ∧ v2 !! id = Some true) ∧
  (keys c.2 ≠ ∅ → ∃ id, id ∈ keys c.2 ∧ v1 !! id = Some true ∧ v2 !! id = Some true).
Proof.
  intros O c v1 v2. apply quorum_intersection; vm_compute; reflexivity.
Defined.
