(* ===== verification/Tracker.v ===== *)
(** * raft/tracker: the configuration and the progress of the peers

    [Config] (voters, learners), [Progress] and [Inflights] of a peer, and
    [ProgressTracker], which the leader and the candidate keep: its votes, its
    visitor and its views of the configuration.  A [ProgressMap] maps ids to
    pointers that nothing else holds, so it is a finite map of values. *)

From S2P Require Import Prelude RaftPb Quorum.
From stdpp Require Import pretty.
#[local] Open Scope Z_scope.

(** ** state.go *)
Definition StateProbe : Z := 0.
Definition StateReplicate : Z := 1.
Definition StateSnapshot : Z := 2.
Definition prstmap : list string := ["StateProbe"; "StateReplicate"; "StateSnapshot"].
Definition StateType_String (st : Z) : outcome string := go_index prstmap st.

(** ** inflights.go *)
Module Inflights.
Record t := mk { start : Z; count : Z; size : Z; buffer : list Z }.
Definition NewInflights (size : Z) : t := mk 0 0 size [].
End Inflights.

(** ** progress.go *)
Module Progress.
Record t := mk {
  Match : Z; Next : Z; State : Z; PendingSnapshot : Z; RecentActive : bool;
  ProbeSent : bool; Inflights_ : option Inflights.t; IsLearner : bool }.
Definition zero : t := mk 0 0 StateProbe 0 false false None false.
End Progress.

Abbreviation ProgressMap := (gmap Z Progress.t).

(** ** tracker.go: Config *)
Module Config.
Record t := mk {
  Voters : JointConfig.t; AutoLeave : bool; Learners : idset; LearnersNext : idset }.
Definition zero : t := mk (None, None) false None None.

Section Ops.
Context `{!MapOrder}.

Definition String_ (c : t) : string :=
  "voters=" +:+ JointConfig.String_ (Voters c)
  +:+ (match Learners c with
       | Some _ => " learners=" +:+ MajorityConfig.String_ (Learners c)
       | None => "" end)
  +:+ (match LearnersNext c with
       | Some _ => " learners_next=" +:+ MajorityConfig.String_ (LearnersNext c)
       | None => "" end)
  +:+ (if AutoLeave c then " autoleave" else "").

(** [mm := make(map); for k := range m { mm[k] = struct{}{} }] *)
Definition clone (m : idset) : idset :=
  match m with
  | None => None
  | Some s => Some (foldl (λ mm k, {[k]} ∪ mm) ∅ (range_order s))
  end.

Definition Clone (c : t) : t :=
  {| Voters := (clone (Voters c).1, clone (Voters c).2);
     Learners := clone (Learners c);
     LearnersNext := clone (LearnersNext c);
     AutoLeave := false |}.
End Ops.
End Config.

(** ** tracker.go: ProgressTracker *)
Module ProgressTracker.
Record t := mk {
  Config_ : Config.t; Progress_ : ProgressMap; Votes_ : Votes; MaxInflight : Z }.

Definition MakeProgressTracker (maxInflight : Z) : t :=
  mk (Config.mk (Some ∅, None) false None None) ∅ ∅ maxInflight.

Section Ops.
Context `{!MapOrder}.

Definition ConfState_ (p : t) : ConfState.t :=
  {| ConfState.Voters := MajorityConfig.Slice (Config.Voters (Config_ p)).1;
     ConfState.VotersOutgoing := MajorityConfig.Slice (Config.Voters (Config_ p)).2;
     ConfState.Learners := MajorityConfig.Slice (Config.Learners (Config_ p));
     ConfState.LearnersNext := MajorityConfig.Slice (Config.LearnersNext (Config_ p));
     ConfState.AutoLeave := Config.AutoLeave (Config_ p);
     ConfState.XXX_unrecognized := None |}.

(** [for id := range p.Progress { n--; ids[n] = id }] *)
Fixpoint fill_ids (range : list Z) (n : Z) (ids : list Z) : list Z :=
  match range with
  | [] => ids
  | id :: range => let n := n - 1 in fill_ids range n (<[Z.to_nat n := id]> ids)
  end.

(** The ids in the order in which [Visit] calls its argument. *)
Definition visit_ids (p : t) : list Z :=
  let n := Z.of_nat (size (Progress_ p)) in
  let sl := replicate 7 0 in
  let ids := if len sl >=? n then take (Z.to_nat n) sl else replicate (Z.to_nat n) 0 in
  fill_ids (range_order (dom (Progress_ p))) n ids.

(** [f] may update the Progress it is given a pointer to. *)
Definition Visit (f : Z → Progress.t → Progress.t) (p : t) : t :=
  p <| Progress_ := foldl (λ prs id, alter (f id) id prs) (Progress_ p) (visit_ids p) |>.

Definition VoterNodes (p : t) : list Z :=
  sortIDs (range_order (JointConfig.IDs (Config.Voters (Config_ p)))).

Definition LearnerNodes (p : t) : list Z :=
  if mlen (Config.Learners (Config_ p)) =? 0 then []
  else sortIDs (range_order (keys (Config.Learners (Config_ p)))).

Definition ResetVotes (p : t) : t := p <| Votes_ := ∅ |>.

Definition RecordVote (id : Z) (v : bool) (p : t) : t :=
  match Votes_ p !! id with
  | Some _ => p
  | None => p <| Votes_ ::= <[id := v]> |>
  end.

Fixpoint tally_loop (p : t) (ids : list Z) (granted rejected : Z) : Z * Z :=
  match ids with
  | [] => (granted, rejected)
  | id :: ids =>
      match Progress_ p !! id : option Progress.t with
      | Some pr =>
          if Progress.IsLearner pr then tally_loop p ids granted rejected else
          match Votes_ p !! id : option bool with
          | None => tally_loop p ids granted rejected
          | Some true => tally_loop p ids (granted + 1) rejected
          | Some false => tally_loop p ids granted (rejected + 1)
          end
      | None => tally_loop p ids granted rejected
      end
  end.

(** (granted, rejected, result) *)
Definition TallyVotes (p : t) : Z * Z * voteResult :=
  let '(granted, rejected) := tally_loop p (range_order (dom (Progress_ p))) 0 0 in
  let result := JointConfig.VoteResult (Config.Voters (Config_ p)) (Votes_ p) in
  (granted, rejected, result).
End Ops.
End ProgressTracker.

(** ** Lemmas *)

Section Tracker.
Context `{MO : !MapOrder}.
Implicit Types (p : ProgressTracker.t) (c : Config.t).

Lemma range_order_NoDup (s : gset Z) : NoDup (range_order s).
Proof. rewrite range_order_perm. apply NoDup_elements. Qed.

Lemma clone_id (m : idset) : Config.clone m = m.
Proof.
  destruct m as [s|]; [|done]. simpl. f_equal.
  assert (H : ∀ l (acc : gset Z), foldl (λ mm k, {[k]} ∪ mm) acc l = list_to_set l ∪ acc).
  { induction l as [|k l IH]; intros acc; simpl; [set_solver|]. rewrite IH. set_solver. }
  rewrite H. apply set_eq. intros x.
  rewrite elem_of_union, elem_of_list_to_set, elem_of_range_order. set_solver.
Qed.

(** [Clone] copies the sets; it does not copy [AutoLeave]. *)
Lemma Clone_spec c : Config.Clone c = c <| Config.AutoLeave := false |>.
Proof. destruct c as [[v1 v2] a l ln]. unfold Config.Clone. simpl. by rewrite !clone_id. Qed.

Lemma fill_ids_ok range ids :
  ProgressTracker.fill_ids range (len range) (replicate (length range) 0 ++ ids)
  = reverse range ++ ids.
Proof.
  revert ids. induction range as [|id range IH]; intros ids; [done|].
  cbn [ProgressTracker.fill_ids length]. rewrite len_cons.
  replace (1 + len range - 1) with (len range) by lia.
  rewrite replicate_S_end, <- app_assoc. unfold len. rewrite Nat2Z.id.
  rewrite insert_app_r_alt by (rewrite length_replicate; lia).
  rewrite length_replicate, Nat.sub_diag. simpl.
  rewrite reverse_cons, <- app_assoc. apply IH.
Qed.

(** [Visit] calls its argument on every id, in the reverse of the map's order. *)
Lemma visit_ids_spec p :
  ProgressTracker.visit_ids p = reverse (range_order (dom (ProgressTracker.Progress_ p))).
Proof.
  unfold ProgressTracker.visit_ids.
  set (range := range_order _).
  assert (Hn : size (ProgressTracker.Progress_ p) = length range).
    { unfold range. rewrite range_order_perm. by rewrite <- size_dom. }
  rewrite Hn. fold (len range).
  rewrite <- (app_nil_r (reverse range)), <- fill_ids_ok, app_nil_r. f_equal.
  unfold len. rewrite Nat2Z.id, length_replicate. case_bool; [|done].
  rewrite take_replicate. f_equal. lia.
Qed.

Lemma foldl_alter (f : Z → Progress.t → Progress.t) ids (prs : ProgressMap) id :
  NoDup ids →
  (foldl (λ (prs : ProgressMap) id, alter (f id) id prs) prs ids : ProgressMap) !! id =
  if decide (id ∈ ids) then f id <$> prs !! id else prs !! id.
Proof.
  revert prs. induction ids as [|k ids IH]; intros prs; simpl; [done|].
  intros [Hk Hnd]%NoDup_cons. rewrite IH by done.
  destruct (decide (id = k)) as [->|].
  - rewrite decide_False, decide_True by set_solver. by rewrite lookup_alter_eq.
  - rewrite lookup_alter_ne by done. repeat case_decide; set_solver.
Qed.

(** The order of the visit is not observable in the progress map. *)
Lemma Visit_spec f p :
  ProgressTracker.Visit f p =
  p <| ProgressTracker.Progress_ := map_imap (λ id pr, Some (f id pr)) (ProgressTracker.Progress_ p) |>.
Proof.
  unfold ProgressTracker.Visit. rewrite visit_ids_spec. f_equal.
  destruct p as [cfg prs vs mi]. simpl. f_equal. apply map_eq. intros id.
  rewrite foldl_alter by (rewrite reverse_Permutation; apply range_order_NoDup).
  rewrite map_lookup_imap.
  destruct (decide _) as [Hin|Hin];
    rewrite elem_of_reverse, elem_of_range_order, elem_of_dom in Hin.
  - by destruct (prs !! id).
  - apply eq_None_not_Some in Hin. by rewrite Hin.
Qed.

(** The tracked peers that are not learners and whose vote is [b]. *)
Definition tallied (b : bool) (p : ProgressTracker.t) : gset Z :=
  filter (λ id, Progress.IsLearner <$> ProgressTracker.Progress_ p !! id = Some false ∧
                ProgressTracker.Votes_ p !! id = Some b)
    (dom (ProgressTracker.Progress_ p)).

Lemma tally_loop_ok p ids g r :
  ProgressTracker.tally_loop p ids g r =
  (g + len (filter (λ id, Progress.IsLearner <$> ProgressTracker.Progress_ p !! id = Some false ∧
                          ProgressTracker.Votes_ p !! id = Some true) ids),
   r + len (filter (λ id, Progress.IsLearner <$> ProgressTracker.Progress_ p !! id = Some false ∧
                          ProgressTracker.Votes_ p !! id = Some false) ids)).
Proof.
  revert g r. induction ids as [|id ids IH]; intros g r; cbn [ProgressTracker.tally_loop].
  - cbn. by rewrite !len_nil, !Z.add_0_r.
  - rewrite !filter_cons.
    destruct (ProgressTracker.Progress_ p !! id) as [pr|]; simpl;
      [destruct (Progress.IsLearner pr)|];
      [|destruct (ProgressTracker.Votes_ p !! id) as [[]|]|];
      rewrite IH; repeat case_decide; try naive_solver;
      autorewrite with go_len; rewrite pair_equal_spec; lia.
Qed.

Lemma TallyVotes_spec p :
  ProgressTracker.TallyVotes p =
  (Z.of_nat (size (tallied true p)), Z.of_nat (size (tallied false p)),
   JointConfig.VoteResult (Config.Voters (ProgressTracker.Config_ p)) (ProgressTracker.Votes_ p)).
Proof.
  unfold ProgressTracker.TallyVotes. rewrite tally_loop_ok, !Z.add_0_l.
  by rewrite !(filter_elements_len _ _ _ (range_order_perm _)).
Qed.

Lemma RecordVote_lookup id v p :
  ProgressTracker.Votes_ (ProgressTracker.RecordVote id v p) !! id =
  Some (default v (ProgressTracker.Votes_ p !! id)).
Proof.
  unfold ProgressTracker.RecordVote.
  destruct (ProgressTracker.Votes_ p !! id) eqn:E; simpl; [done|]. apply lookup_insert_eq.
Qed.

Lemma RecordVote_ne id id' v p :
  id ≠ id' →
  ProgressTracker.Votes_ (ProgressTracker.RecordVote id v p) !! id' = ProgressTracker.Votes_ p !! id'.
Proof.
  intros. unfold ProgressTracker.RecordVote.
  destruct (ProgressTracker.Votes_ p !! id); simpl; [done|]. by apply lookup_insert_ne.
Qed.

(** A vote, once recorded, is never changed. *)
Lemma RecordVote_mono id v p :
  ProgressTracker.Votes_ p ⊆ ProgressTracker.Votes_ (ProgressTracker.RecordVote id v p).
Proof.
  unfold ProgressTracker.RecordVote.
  destruct (ProgressTracker.Votes_ p !! id) eqn:E; simpl; [done|]. by apply insert_subseteq.
Qed.

(** Folding [RecordVote] over a sequence of responses. *)
Definition recordVotes (rs : list (Z * bool)) (p : ProgressTracker.t) : ProgressTracker.t :=
  foldl (λ p r, ProgressTracker.RecordVote r.1 r.2 p) p rs.

Lemma recordVotes_mono rs p :
  ProgressTracker.Votes_ p ⊆ ProgressTracker.Votes_ (recordVotes rs p).
Proof.
  revert p. induction rs as [|r rs IH]; intros p; [done|].
  transitivity (ProgressTracker.Votes_ (ProgressTracker.RecordVote r.1 r.2 p));
    [apply RecordVote_mono|apply IH].
Qed.

Lemma recordVotes_Config rs p :
  ProgressTracker.Config_ (recordVotes rs p) = ProgressTracker.Config_ p.
Proof.
  revert p. induction rs as [|r rs IH]; intros p; [done|].
  etransitivity; [apply IH|]. unfold ProgressTracker.RecordVote. by case_match.
Qed.

(** The tally counts the voters.  When the tracked peers that
    are not learners are the voters of a configuration that is not joint, the
    numbers [TallyVotes] returns are the numbers of voters who granted and who
    rejected, and the result follows from them: won on a strict majority of
    grants, lost as soon as half of the voters have rejected, pending
    otherwise. *)
Theorem tallyVotes_counts_voters p (c : gset Z) :
  Config.Voters (ProgressTracker.Config_ p) = (Some c, None) → c ≠ ∅ →
  (∀ id, id ∈ c ↔ Progress.IsLearner <$> ProgressTracker.Progress_ p !! id = Some false) →
  ∃ granted rejected result,
    ProgressTracker.TallyVotes p = (granted, rejected, result) ∧
    granted = Z.of_nat (size (yes_set c (ProgressTracker.Votes_ p))) ∧
    rejected = Z.of_nat (size (no_set c (ProgressTracker.Votes_ p))) ∧
    let n := Z.of_nat (size c) in
    result = if n <? 2 * granted then VoteWon
             else if n <=? 2 * rejected then VoteLost else VotePending.
Proof.
  intros Hc Hne Hv.
  assert (Ht : ∀ b, tallied b p = filter (λ id, ProgressTracker.Votes_ p !! id = Some b) c).
  { intros b. apply set_eq. intros id. unfold tallied. rewrite !elem_of_filter, elem_of_dom, Hv.
    destruct (ProgressTracker.Progress_ p !! id); simpl; [|naive_solver].
    assert (is_Some (Some t)) by by eexists. tauto. }
  rewrite TallyVotes_spec, Hc, JointVoteResult_nil, VoteResult_spec, !Ht.
  do 3 eexists. split_and!; [done..|]. simpl. unfold majority, yes_set, no_set.
  repeat case_decide; repeat case_bool; naive_solver lia.
Qed.

(** C32 (safety): once a vote is decided, no later response changes the
    decision, and a peer's first response is the one that counts.  Here [rs]
    is any sequence of further responses, from any peers, repeated or not. *)
Theorem recordVote_decision_stable rs p result :
  (ProgressTracker.TallyVotes p).2 = result → result ≠ VotePending →
  (ProgressTracker.TallyVotes (recordVotes rs p)).2 = result ∧
  ∀ id v, ProgressTracker.Votes_ p !! id = Some v →
    ProgressTracker.Votes_ (recordVotes rs p) !! id = Some v.
Proof.
  rewrite !TallyVotes_spec, recordVotes_Config. simpl. intros Hr Hd.
  pose proof (recordVotes_mono rs p) as Hm. split.
  - pose proof (JointVoteResult_spec (Config.Voters (ProgressTracker.Config_ p))
      (ProgressTracker.Votes_ p)) as [Hw Hl].
    destruct result; [done| |].
    + apply JointVoteResult_spec. apply Hl in Hr as [?|?]; [left|right];
        by eapply VoteResult_Lost_mono.
    + apply JointVoteResult_spec. apply Hw in Hr as [? ?]. split; by eapply VoteResult_Won_mono.
  - intros id v Hid. by eapply lookup_weaken.
Qed.

(** [ConfState] reports the configuration: four strictly
    increasing lists of exactly the ids in the four sets, whatever order the
    maps are ranged in, and [AutoLeave]. *)
Theorem confState_represents p :
  let cs := ProgressTracker.ConfState_ p in
  let cfg := ProgressTracker.Config_ p in
  (∀ id, (id ∈ ConfState.Voters cs ↔ id ∈ keys (Config.Voters cfg).1) ∧
         (id ∈ ConfState.VotersOutgoing cs ↔ id ∈ keys (Config.Voters cfg).2) ∧
         (id ∈ ConfState.Learners cs ↔ id ∈ keys (Config.Learners cfg)) ∧
         (id ∈ ConfState.LearnersNext cs ↔ id ∈ keys (Config.LearnersNext cfg))) ∧
  Forall (StronglySorted Z.lt) [ConfState.Voters cs; ConfState.VotersOutgoing cs;
    ConfState.Learners cs; ConfState.LearnersNext cs] ∧
  ConfState.AutoLeave cs = Config.AutoLeave cfg.
Proof.
  simpl. split_and!; [|repeat constructor; apply Slice_increasing|done].
  intros id. by rewrite !elem_of_Slice.
Qed.
End Tracker.

Definition sample_progress (learner : bool) : Progress.t :=
  Progress.zero <| Progress.IsLearner := learner |>.
Definition sample_tracker : ProgressTracker.t :=
  ProgressTracker.mk (Config.mk (Some {[1; 2; 3]}, None) false None None)
    {[1 := sample_progress false; 2 := sample_progress false; 3 := sample_progress false]}
    {[1 := true; 3 := true; 2 := false]} 256.

Lemma tallyVotes_counts_voters_witness :
  let O := elements_order in
  ∃ granted rejected result,
    ProgressTracker.TallyVotes sample_tracker = (granted, rejected, result) ∧
    granted = Z.of_nat (size (yes_set {[1; 2; 3]} (ProgressTracker.Votes_ sample_tracker))) ∧
    rejected = Z.of_nat (size (no_set {[1; 2; 3]} (ProgressTracker.Votes_ sample_tracker))) ∧
    let n := Z.of_nat (size ({[1; 2; 3]} : gset Z)) in
    result = if n <? 2 * granted then VoteWon
             else if n <=? 2 * rejected then VoteLost else VotePending.
Proof.
  intros O. apply tallyVotes_counts_voters; [done|set_solver|].
  intros id. simpl. rewrite !lookup_insert, lookup_singleton.
  repeat case_decide; simpl; set_solver.
Defined.

Lemma recordVote_decision_stable_witness :
  let O := elements_order in
  (ProgressTracker.TallyVotes (recordVotes [(1, false); (3, false)] sample_tracker)).2 = VoteWon.
Proof.
  intros O. apply (recordVote_decision_stable [(1, false); (3, false)] sample_tracker);
    [vm_compute; reflexivity|done].
Defined.
