(* ===== verification/ConfChanger.v ===== *)
(** * raft/confchange: changing the configuration

    [Changer.Simple] and what it is made of.  [cfg] and [prs] are passed by
    reference in the code and mutated: the definitions take and return them.
    A write to the map [Voters[0]] panics when that map is nil. *)

From S2P Require Import Prelude RaftPb Quorum Tracker.
From stdpp Require Import pretty.
#[local] Open Scope Z_scope.

Module Changer.
Record t := mk { Tracker_ : ProgressTracker.t; LastIndex : Z }.
End Changer.

Definition incoming (voters : JointConfig.t) : idset := voters.1.
Definition outgoing (voters : JointConfig.t) : idset := voters.2.

Definition joint (cfg : Config.t) : bool := mlen (outgoing (Config.Voters cfg)) >? 0.

Definition nilAwareAdd (m : idset) (id : Z) : idset :=
  let m := match m with None => ∅ | Some s => s end in Some ({[id]} ∪ m).

Definition nilAwareDelete (m : idset) (id : Z) : idset :=
  match m with
  | None => None
  | Some s => let s := s ∖ {[id]} in if mlen (Some s) =? 0 then None else Some s
  end.

(** [m[id] = struct{}{}] *)
Definition mapAdd (m : idset) (id : Z) : outcome idset :=
  match m with None => Panic NilMapWrite | Some s => Ret (Some ({[id]} ∪ s)) end.

Definition addIncoming (cfg : Config.t) (id : Z) : outcome Config.t :=
  v ← mapAdd (incoming (Config.Voters cfg)) id;
  Ret (cfg <| Config.Voters := (v, outgoing (Config.Voters cfg)) |>).

Abbreviation state := (Config.t * ProgressMap)%type.

Section Ops.
Context `{MO : !MapOrder}.

(** [for id := range p[0] { if _, ok := p[1][id]; !ok { n++ } }] *)
Fixpoint diff_loop (r : gset Z) (ids : list Z) (n : Z) : Z :=
  match ids with
  | [] => n
  | id :: ids => diff_loop r ids (if decide (id ∈ r) then n else n + 1)
  end.

Definition symdiff (l r : idset) : Z :=
  let n := diff_loop (keys r) (range_order (keys l)) 0 in
  diff_loop (keys l) (range_order (keys r)) n.

Definition initProgress (c : Changer.t) (st : state) (id : Z) (isLearner : bool)
    : outcome state :=
  let '(cfg, prs) := st in
  cfg ← (if negb isLearner then addIncoming cfg id
         else Ret (cfg <| Config.Learners := nilAwareAdd (Config.Learners cfg) id |>));
  Ret (cfg, <[id :=
    {| Progress.Next := Changer.LastIndex c;
       Progress.Match := 0;
       Progress.State := StateProbe;
       Progress.PendingSnapshot := 0;
       Progress.ProbeSent := false;
       Progress.Inflights_ :=
         Some (Inflights.NewInflights (ProgressTracker.MaxInflight (Changer.Tracker_ c)));
       Progress.IsLearner := isLearner;
       Progress.RecentActive := true |}]> prs).

Definition makeVoter (c : Changer.t) (st : state) (id : Z) : outcome state :=
  let '(cfg, prs) := st in
  match prs !! id : option Progress.t with
  | None => initProgress c (cfg, prs) id false
  | Some pr =>
      let prs := <[id := pr <| Progress.IsLearner := false |>]> prs in
      let cfg := cfg <| Config.Learners := nilAwareDelete (Config.Learners cfg) id |> in
      let cfg := cfg <| Config.LearnersNext := nilAwareDelete (Config.LearnersNext cfg) id |> in
      cfg ← addIncoming cfg id;
      Ret (cfg, prs)
  end.

Fixpoint apply_loop (c : Changer.t) (st : state) (ccs : list ConfChangeSingle.t)
    : outcome state :=
  match ccs with
  | [] => Ret st
  | cc :: ccs =>
      if ConfChangeSingle.NodeID cc =? 0 then apply_loop c st ccs else
      if ConfChangeSingle.Type_ cc =? ConfChangeAddNode then
        st ← makeVoter c st (ConfChangeSingle.NodeID cc); apply_loop c st ccs
      else if ConfChangeSingle.Type_ cc =? ConfChangeUpdateNode then apply_loop c st ccs
      else Err (Errorf ("unexpected conf type " +:+ pretty (ConfChangeSingle.Type_ cc)))
  end.

Definition apply (c : Changer.t) (st : state) (ccs : list ConfChangeSingle.t)
    : outcome state :=
  '(cfg, prs) ← apply_loop c st ccs;
  if mlen (incoming (Config.Voters cfg)) =? 0 then Err (Errorf "removed all voters")
  else Ret (cfg, prs).

(** The loops of [checkInvariants]. *)
Fixpoint check_progress (prs : ProgressMap) (ids : list Z) : outcome unit :=
  match ids with
  | [] => Ret tt
  | id :: ids =>
      match prs !! id : option Progress.t with
      | None => Err (Errorf ("no progress for " +:+ pretty id))
      | Some _ => check_progress prs ids
      end
  end.

Definition isLearnerAt (prs : ProgressMap) (id : Z) : outcome bool :=
  match prs !! id : option Progress.t with
  | None => Panic NilDereference
  | Some pr => Ret (Progress.IsLearner pr)
  end.

Fixpoint check_staged (cfg : Config.t) (prs : ProgressMap) (ids : list Z) : outcome unit :=
  match ids with
  | [] => Ret tt
  | id :: ids =>
      if decide (id ∉ keys (outgoing (Config.Voters cfg))) then
        Err (Errorf (pretty id +:+ " is in LearnersNext, but not Voters[1]")) else
      b ← isLearnerAt prs id;
      if (b : bool) then
        Err (Errorf (pretty id +:+ " is in LearnersNext, but is already marked as learner"))
      else check_staged cfg prs ids
  end.

Fixpoint check_learners (cfg : Config.t) (prs : ProgressMap) (ids : list Z) : outcome unit :=
  match ids with
  | [] => Ret tt
  | id :: ids =>
      if decide (id ∈ keys (outgoing (Config.Voters cfg))) then
        Err (Errorf (pretty id +:+ " is in Learners and Voters[1]")) else
      if decide (id ∈ keys (incoming (Config.Voters cfg))) then
        Err (Errorf (pretty id +:+ " is in Learners and Voters[0]")) else
      b ← isLearnerAt prs id;
      if negb b then
        Err (Errorf (pretty id +:+ " is in Learners, but is not marked as learner"))
      else check_learners cfg prs ids
  end.

Definition checkInvariants (cfg : Config.t) (prs : ProgressMap) : outcome unit :=
  _ ← check_progress prs (range_order (JointConfig.IDs (Config.Voters cfg)));
  _ ← check_progress prs (range_order (keys (Config.Learners cfg)));
  _ ← check_progress prs (range_order (keys (Config.LearnersNext cfg)));
  _ ← check_staged cfg prs (range_order (keys (Config.LearnersNext cfg)));
  _ ← check_learners cfg prs (range_order (keys (Config.Learners cfg)));
  if negb (joint cfg) then
    if decide (outgoing (Config.Voters cfg) ≠ None) then
      Err (Errorf "Voters[1] must be nil when not joint") else
    if decide (Config.LearnersNext cfg ≠ None) then
      Err (Errorf "LearnersNext must be nil when not joint") else
    if Config.AutoLeave cfg then
      Err (Errorf "AutoLeave must be false when not joint") else Ret tt
  else Ret tt.

Definition checkAndReturn (cfg : Config.t) (prs : ProgressMap) : outcome state :=
  _ ← checkInvariants cfg prs; Ret (cfg, prs).

(** [for id, pr := range c.Tracker.Progress { ppr := *pr; prs[id] = &ppr }] *)
Definition copy_progress (prs : ProgressMap) : ProgressMap :=
  foldl (λ acc id, match prs !! id : option Progress.t with
                   | Some pr => <[id := pr]> acc | None => acc end)
    ∅ (range_order (dom prs)).

Definition checkAndCopy (c : Changer.t) : outcome state :=
  let cfg := Config.Clone (ProgressTracker.Config_ (Changer.Tracker_ c)) in
  let prs := copy_progress (ProgressTracker.Progress_ (Changer.Tracker_ c)) in
  checkAndReturn cfg prs.

Definition Simple (c : Changer.t) (ccs : list ConfChangeSingle.t) : outcome state :=
  '(cfg, prs) ← checkAndCopy c;
  if joint cfg then Err (Errorf "can't apply simple config change in joint config") else
  '(cfg, prs) ← apply c (cfg, prs) ccs;
  let voters := Config.Voters (ProgressTracker.Config_ (Changer.Tracker_ c)) in
  if symdiff (incoming voters) (incoming (Config.Voters cfg)) >? 1 then
    Err (Errorf "more than one voter changed without entering joint config")
  else checkAndReturn cfg prs.

(** restore.go *)
Fixpoint chain (chg : Changer.t) (ops : list (Changer.t → outcome state)) : outcome state :=
  match ops with
  | [] => Ret (ProgressTracker.Config_ (Changer.Tracker_ chg),
               ProgressTracker.Progress_ (Changer.Tracker_ chg))
  | op :: ops =>
      '(cfg, prs) ← op chg;
      let trk := (Changer.Tracker_ chg) <| ProgressTracker.Config_ := cfg |>
                   <| ProgressTracker.Progress_ := prs |> in
      chain (chg <| Changer.Tracker_ := trk |>) ops
  end.
End Ops.

(** ** The invariant that [checkInvariants] decides *)

Record ConfigInv (cfg : Config.t) (prs : ProgressMap) : Prop := {
  inv_progress id :
    id ∈ JointConfig.IDs (Config.Voters cfg) ∪ keys (Config.Learners cfg)
         ∪ keys (Config.LearnersNext cfg) → is_Some (prs !! id);
  inv_staged id :
    id ∈ keys (Config.LearnersNext cfg) →
    id ∈ keys (Config.Voters cfg).2 ∧ Progress.IsLearner <$> prs !! id = Some false;
  inv_learners id :
    id ∈ keys (Config.Learners cfg) →
    (id ∉ JointConfig.IDs (Config.Voters cfg)) ∧ Progress.IsLearner <$> prs !! id = Some true;
  inv_simple :
    keys (Config.Voters cfg).2 = ∅ →
    (Config.Voters cfg).2 = None ∧ Config.LearnersNext cfg = None ∧ Config.AutoLeave cfg = false;
}.

(** A check: it succeeds exactly when [P] holds, and otherwise returns an
    error that it made. *)
Definition decides (m : outcome unit) (P : Prop) : Prop :=
  (m = Ret tt ∧ P) ∨ (∃ s, m = Err (Errorf s)) ∧ ¬ P.

Lemma decides_iff m P : decides m P → m = Ret tt ↔ P.
Proof. intros [[-> ?]|[[s ->] ?]]; naive_solver. Qed.

Lemma decides_bind m k (P Q : Prop) :
  decides m P → (P → decides k Q) → decides (m ≫= λ _, k) (P ∧ Q).
Proof.
  intros [[-> HP]|[[s ->] HP]] Hk; simpl.
  - destruct (Hk HP) as [[-> ?]|[[s ->] ?]]; [left|right]; naive_solver.
  - right. naive_solver.
Qed.

#[global] Instance decides_Proper : Proper (eq ==> iff ==> iff) decides.
Proof. intros m ? <- P Q H. unfold decides. by rewrite H. Qed.

Lemma decides_proper m (P Q : Prop) : decides m P → (P ↔ Q) → decides m Q.
Proof. intros Hm <-. done. Qed.

Lemma check_progress_decides prs ids :
  decides (check_progress prs ids) (∀ id, id ∈ ids → is_Some (prs !! id)).
Proof.
  induction ids as [|id ids IH]; simpl.
  - left. split; [done|]. intros id. by rewrite elem_of_nil.
  - destruct (prs !! id) eqn:E.
    + eapply decides_proper; [apply IH|]. setoid_rewrite elem_of_cons. naive_solver.
    + right. split; [by eexists|]. intros H. destruct (H id) as [? ?]; [set_solver|]. congruence.
Qed.

Lemma forall_elem_cons (P : Z → Prop) id ids :
  (∀ x, x ∈ id :: ids → P x) ↔ P id ∧ ∀ x, x ∈ ids → P x.
Proof. setoid_rewrite elem_of_cons. naive_solver. Qed.

Lemma check_staged_decides cfg prs ids :
  (∀ id, id ∈ ids → is_Some (prs !! id)) →
  decides (check_staged cfg prs ids)
    (∀ id, id ∈ ids → id ∈ keys (Config.Voters cfg).2 ∧
       Progress.IsLearner <$> prs !! id = Some false).
Proof.
  induction ids as [|id ids IH]; intros Hp; cbn [check_staged].
  - left. split; [done|]. intros id. by rewrite elem_of_nil.
  - apply forall_elem_cons in Hp as [[pr Hpr] Hp]. specialize (IH Hp).
    unfold isLearnerAt, outgoing. rewrite forall_elem_cons, Hpr. simpl.
    destruct (decide _) as [Hn|Hn]; [right; naive_solver|].
    destruct (Progress.IsLearner pr); [right; naive_solver|].
    eapply decides_proper; [done|].
    split; [|naive_solver]. intros. split; [|done]. split; [|done].
    destruct (decide (id ∈ keys (Config.Voters cfg).2)); naive_solver.
Qed.

Lemma check_learners_decides cfg prs ids :
  (∀ id, id ∈ ids → is_Some (prs !! id)) →
  decides (check_learners cfg prs ids)
    (∀ id, id ∈ ids → (id ∉ JointConfig.IDs (Config.Voters cfg)) ∧
       Progress.IsLearner <$> prs !! id = Some true).
Proof.
  induction ids as [|id ids IH]; intros Hp; cbn [check_learners].
  - left. split; [done|]. intros id. by rewrite elem_of_nil.
  - apply forall_elem_cons in Hp as [[pr Hpr] Hp]. specialize (IH Hp).
    unfold isLearnerAt, outgoing, incoming, JointConfig.IDs in *.
    rewrite forall_elem_cons, Hpr. simpl.
    destruct (decide _) as [?|Hn]; [right; set_solver|].
    destruct (decide _) as [?|Hn']; [right; set_solver|].
    destruct (Progress.IsLearner pr); simpl; [|right; naive_solver].
    eapply decides_proper; [done|]. set_solver.
Qed.

Lemma joint_false cfg : joint cfg = false ↔ keys (Config.Voters cfg).2 = ∅.
Proof.
  unfold joint, mlen, outgoing. rewrite Z.gtb_ltb, Z.ltb_ge. split.
  - intros. apply leibniz_equiv, size_empty_inv. lia.
  - intros ->. by rewrite size_empty.
Qed.

(** The code's checks, taken together, decide [ConfigInv]; no input makes them
    dereference a nil [*Progress]. *)
Lemma checkInvariants_decides `{MO : !MapOrder} cfg prs :
  decides (checkInvariants cfg prs) (ConfigInv cfg prs).
Proof.
  unfold checkInvariants. eapply decides_proper.
  - apply decides_bind; [apply check_progress_decides|intros H1].
    apply decides_bind; [apply check_progress_decides|intros H2].
    apply decides_bind; [apply check_progress_decides|intros H3].
    apply decides_bind; [by apply check_staged_decides|intros _].
    apply decides_bind; [by apply check_learners_decides|intros _].
    instantiate (1 := keys (Config.Voters cfg).2 = ∅ →
      (Config.Voters cfg).2 = None ∧ Config.LearnersNext cfg = None ∧ Config.AutoLeave cfg = false).
    destruct (joint cfg) eqn:E; simpl.
    { left. split; [done|]. intros H%joint_false. congruence. }
    apply joint_false in E. unfold outgoing.
    destruct (decide _) as [?|?%dec_stable]; [right; naive_solver|].
    destruct (decide _) as [?|?%dec_stable]; [right; naive_solver|].
    destruct (Config.AutoLeave cfg); [right; naive_solver|left; naive_solver].
  - repeat setoid_rewrite elem_of_range_order. split.
    + intros (H1 & H2 & H3 & H4 & H5 & H6). split; [|done..]. set_solver.
    + intros []. split_and!; [set_solver..|done|done|done].
Qed.

Lemma checkAndReturn_Ret `{MO : !MapOrder} cfg prs st :
  checkAndReturn cfg prs = Ret st ↔ st = (cfg, prs) ∧ ConfigInv cfg prs.
Proof.
  unfold checkAndReturn. rewrite <- (decides_iff _ _ (checkInvariants_decides cfg prs)).
  destruct (checkInvariants cfg prs) as [[]| | |]; naive_solver.
Qed.

(** ** What [Simple] does *)

Lemma copy_progress_id `{MO : !MapOrder} prs : copy_progress prs = prs.
Proof.
  unfold copy_progress. apply map_eq. intros id.
  assert (H : ∀ l (acc : ProgressMap),
    foldl (λ (acc : ProgressMap) id, match prs !! id : option Progress.t with
                     | Some pr => <[id := pr]> acc | None => acc end) acc l !! id
    = if decide (id ∈ l) then from_option Some (acc !! id) (prs !! id) else acc !! id).
  { induction l as [|k l IH]; intros acc; simpl; [done|]. rewrite IH.
    destruct (decide (id = k)) as [->|].
    - rewrite (decide_True (P := k ∈ k :: l)) by set_solver.
      destruct (prs !! k) eqn:E; simpl; case_decide; try done; by rewrite lookup_insert_eq.
    - replace (decide (id ∈ k :: l)) with (decide (id ∈ k :: l)) by done.
      destruct (prs !! k); rewrite ?lookup_insert_ne by done;
        repeat case_decide; set_solver. }
  rewrite H. destruct (decide _) as [Hin|Hin]; rewrite elem_of_range_order, elem_of_dom in Hin.
  - destruct Hin as [? ->]. done.
  - apply eq_None_not_Some in Hin. by rewrite lookup_empty.
Qed.

Lemma diff_loop_ok r ids n :
  diff_loop r ids n = n + len (filter (λ id, id ∉ r) ids).
Proof.
  revert n. induction ids as [|id ids IH]; intros n; cbn [diff_loop].
  - cbn. by rewrite len_nil, Z.add_0_r.
  - rewrite IH, filter_cons. repeat case_decide; autorewrite with go_len; try lia; done.
Qed.

Lemma symdiff_spec `{MO : !MapOrder} l r :
  symdiff l r = Z.of_nat (size (keys l ∖ keys r) + size (keys r ∖ keys l)).
Proof.
  unfold symdiff. rewrite !diff_loop_ok, !(filter_elements_len _ _ _ (range_order_perm _)).
  rewrite Nat2Z.inj_add, Z.add_0_l. f_equal; do 2 f_equal; set_solver.
Qed.

Lemma keys_nilAwareDelete m id : keys (nilAwareDelete m id) = keys m ∖ {[id]}.
Proof.
  destruct m as [s|]; simpl; [|set_solver]. unfold mlen. simpl. case_bool; [|done].
  symmetry. apply leibniz_equiv, size_empty_inv. lia.
Qed.

(** The Progress of a voter that [makeVoter] has handled. *)
Definition voterProgress (c : Changer.t) (pr : option Progress.t) : Progress.t :=
  match pr with
  | Some pr => pr <| Progress.IsLearner := false |>
  | None =>
      {| Progress.Next := Changer.LastIndex c; Progress.Match := 0;
         Progress.State := StateProbe; Progress.PendingSnapshot := 0;
         Progress.ProbeSent := false;
         Progress.Inflights_ :=
           Some (Inflights.NewInflights (ProgressTracker.MaxInflight (Changer.Tracker_ c)));
         Progress.IsLearner := false; Progress.RecentActive := true |}
  end.

(** [st'] is [st] with the ids of [adds] made voters. *)
Record Promoted (c : Changer.t) (adds : gset Z) (st st' : state) : Prop := {
  promoted_incoming :
    keys (Config.Voters st'.1).1 = adds ∪ keys (Config.Voters st.1).1;
  promoted_incoming_nil : (Config.Voters st'.1).1 = None → (Config.Voters st.1).1 = None;
  promoted_outgoing : (Config.Voters st'.1).2 = (Config.Voters st.1).2;
  promoted_autoLeave : Config.AutoLeave st'.1 = Config.AutoLeave st.1;
  promoted_learners : keys (Config.Learners st'.1) = keys (Config.Learners st.1) ∖ adds;
  promoted_learnersNext :
    Config.LearnersNext st.1 = None → Config.LearnersNext st'.1 = None;
  promoted_progress id :
    st'.2 !! id = if decide (id ∈ adds) then Some (voterProgress c (st.2 !! id)) else st.2 !! id;
}.

Definition learners_tracked (st : state) : Prop :=
  keys (Config.Learners st.1) ⊆ dom st.2.

Lemma Promoted_refl c st : Promoted c ∅ st st.
Proof. split; try done; set_solver. Qed.

Lemma voterProgress_idemp c pr :
  voterProgress c (Some (voterProgress c pr)) = voterProgress c pr.
Proof. by destruct pr. Qed.

Lemma Promoted_trans c a1 a2 st1 st2 st3 :
  Promoted c a1 st1 st2 → Promoted c a2 st2 st3 → Promoted c (a1 ∪ a2) st1 st3.
Proof.
  intros [Hi1 Hn1 Ho1 Ha1 Hl1 Hx1 Hp1] [Hi2 Hn2 Ho2 Ha2 Hl2 Hx2 Hp2].
  split; [| |congruence..| | |].
  { rewrite Hi2, Hi1. set_solver. }
  { auto. }
  { rewrite Hl2, Hl1. set_solver. }
  { auto. }
  intros id. rewrite Hp2, Hp1.
  destruct (decide (id ∈ a1)), (decide (id ∈ a2)).
  - rewrite decide_True by set_solver. by rewrite voterProgress_idemp.
  - by rewrite decide_True by set_solver.
  - by rewrite decide_True by set_solver.
  - by rewrite decide_False by set_solver.
Qed.

Lemma Promoted_tracked c adds st st' :
  Promoted c adds st st' → learners_tracked st → learners_tracked st'.
Proof.
  intros [] Hl. unfold learners_tracked in *. rewrite promoted_learners0.
  intros id [Hid Hna]%elem_of_difference. apply elem_of_dom.
  rewrite promoted_progress0, decide_False by done. by apply elem_of_dom, Hl.
Qed.

Lemma makeVoter_ok c st id :
  learners_tracked st → (Config.Voters st.1).1 ≠ None →
  ∃ st', makeVoter c st id = Ret st' ∧ Promoted c {[id]} st st'.
Proof.
  destruct st as [[[[v|] o] a l ln] prs]; [|done]. intros Hl _.
  unfold learners_tracked in Hl. simpl in Hl.
  unfold makeVoter, initProgress, addIncoming. simpl.
  destruct (prs !! id) eqn:E; simpl; eexists; (split; [done|]); split; simpl; try done;
    try (by intros ->).
  - apply keys_nilAwareDelete.
  - intros id'. destruct (decide (id' = id)) as [->|].
    + rewrite lookup_insert_eq, decide_True, E by set_solver. done.
    + rewrite lookup_insert_ne, decide_False by set_solver. done.
  - assert (id ∉ dom prs) by (by apply not_elem_of_dom). set_solver.
  - intros id'. destruct (decide (id' = id)) as [->|].
    + rewrite lookup_insert_eq, decide_True, E by set_solver. done.
    + rewrite lookup_insert_ne, decide_False by set_solver. done.
Qed.

(** The ids that a list of changes makes voters. *)
Definition addedIDs (ccs : list ConfChangeSingle.t) : gset Z :=
  list_to_set (ConfChangeSingle.NodeID <$>
    filter (λ cc, ConfChangeSingle.NodeID cc ≠ 0 ∧ ConfChangeSingle.Type_ cc = ConfChangeAddNode) ccs).

(** The changes that [apply] knows. *)
Definition supported (cc : ConfChangeSingle.t) : Prop :=
  ConfChangeSingle.NodeID cc = 0 ∨ ConfChangeSingle.Type_ cc = ConfChangeAddNode ∨
  ConfChangeSingle.Type_ cc = ConfChangeUpdateNode.
#[global] Instance supported_dec cc : Decision (supported cc).
Proof. unfold supported. apply _. Defined.

Lemma addedIDs_cons cc ccs :
  addedIDs (cc :: ccs) =
  if decide (ConfChangeSingle.NodeID cc ≠ 0 ∧ ConfChangeSingle.Type_ cc = ConfChangeAddNode)
  then {[ConfChangeSingle.NodeID cc]} ∪ addedIDs ccs else addedIDs ccs.
Proof. unfold addedIDs. rewrite filter_cons. by case_decide. Qed.

Lemma apply_loop_ok c st ccs :
  learners_tracked st → (Config.Voters st.1).1 ≠ None →
  (Forall supported ccs →
     ∃ st', apply_loop c st ccs = Ret st' ∧ Promoted c (addedIDs ccs) st st') ∧
  (¬ Forall supported ccs →
     ∃ ty, apply_loop c st ccs = Err (Errorf ("unexpected conf type " +:+ pretty ty)) ∧
       ty ≠ ConfChangeAddNode ∧ ty ≠ ConfChangeUpdateNode).
Proof.
  revert st. induction ccs as [|cc ccs IH]; intros st Hl Hv.
  { split; [|intros []; constructor]. exists st. split; [done|]. apply Promoted_refl. }
  cbn [apply_loop]. rewrite addedIDs_cons, Forall_cons. unfold supported at 1 3.
  destruct (ConfChangeSingle.NodeID cc =? 0) eqn:E0; zify_bool.
  { rewrite (decide_False (P := _ ∧ _)) by naive_solver.
    specialize (IH st Hl Hv). naive_solver. }
  destruct (_ =? ConfChangeAddNode) eqn:E1; zify_bool.
  { rewrite (decide_True (P := _ ∧ _)) by done.
    destruct (makeVoter_ok c st (ConfChangeSingle.NodeID cc) Hl Hv) as (st1 & -> & H1).
    simpl. destruct (IH st1 (Promoted_tracked _ _ _ _ H1 Hl)
      (λ Hn, Hv (promoted_incoming_nil _ _ _ _ H1 Hn))) as [IH1 IH2].
    split; [|naive_solver]. intros [_ Hs]. destruct (IH1 Hs) as (st2 & -> & H2).
    exists st2. split; [done|]. by eapply Promoted_trans. }
  rewrite (decide_False (P := _ ∧ _)) by naive_solver.
  destruct (_ =? ConfChangeUpdateNode) eqn:E2; zify_bool.
  { specialize (IH st Hl Hv). naive_solver. }
  split; [naive_solver|]. eauto.
Qed.

Section Simple.
Context `{MO : !MapOrder}.

(** The configuration of the tracker a [Changer] was made with. *)
Definition changerConfig (c : Changer.t) : Config.t :=
  ProgressTracker.Config_ (Changer.Tracker_ c).
Definition changerProgress (c : Changer.t) : ProgressMap :=
  ProgressTracker.Progress_ (Changer.Tracker_ c).

(** What [Simple] starts from: the tracker's configuration without [AutoLeave]. *)
Definition simple_start (c : Changer.t) : state :=
  ((changerConfig c) <| Config.AutoLeave := false |>, changerProgress c).

Lemma checkAndCopy_spec c :
  checkAndCopy c = checkAndReturn (simple_start c).1 (simple_start c).2.
Proof. unfold checkAndCopy. by rewrite Clone_spec, copy_progress_id. Qed.

Lemma ConfigInv_tracked st : ConfigInv st.1 st.2 → learners_tracked st.
Proof.
  intros [H _ _ _] id Hid. apply elem_of_dom, H. set_solver.
Qed.

Lemma Promoted_inv c adds st st' :
  Promoted c adds st st' → ConfigInv st.1 st.2 → keys (Config.Voters st.1).2 = ∅ →
  ConfigInv st'.1 st'.2.
Proof.
  intros [Hi _ Ho Ha Hl Hx Hp] [Ip _ Il Is] Hj. destruct (Is Hj) as (Hnil & Hln & Hauto).
  unfold JointConfig.IDs in *. split; unfold JointConfig.IDs;
    rewrite ?Ho, ?Hi, ?Hl, ?(Hx Hln), ?Hnil; simpl.
  - intros id Hid. rewrite Hp. case_decide; [by eexists|]. apply Ip. set_solver.
  - intros id. set_solver.
  - intros id [Hid Hna]%elem_of_difference. rewrite Hp, decide_False by done.
    apply Il in Hid. set_solver.
  - intros _. by rewrite Ha.
Qed.

Lemma Simple_started c ccs :
  ConfigInv (simple_start c).1 (simple_start c).2 → joint (changerConfig c) = false →
  Simple c ccs =
  '(cfg, prs) ← apply c (simple_start c) ccs;
  if symdiff (incoming (Config.Voters (changerConfig c))) (incoming (Config.Voters cfg)) >? 1
  then Err (Errorf "more than one voter changed without entering joint config")
  else checkAndReturn cfg prs.
Proof.
  intros Hinv Hj. unfold Simple. rewrite checkAndCopy_spec.
  rewrite (proj2 (checkAndReturn_Ret _ _ (simple_start c))) by done. simpl.
  unfold joint in Hj |- *. simpl. by rewrite Hj.
Qed.

(** What a successful [Simple] has done. *)
Lemma Simple_Ret c ccs st :
  (Config.Voters (changerConfig c)).1 ≠ None → Simple c ccs = Ret st →
  joint (changerConfig c) = false ∧ Promoted c (addedIDs ccs) (simple_start c) st ∧
  ConfigInv st.1 st.2 ∧ Forall supported ccs.
Proof.
  intros Hv HS. pose proof HS as HS0. unfold Simple in HS0. rewrite checkAndCopy_spec in HS0.
  apply outcome_bind_Ret in HS0 as ([cfg0 prs0] & H0 & HS0).
  apply checkAndReturn_Ret in H0 as [Heq Hinv].
  assert (Hj : joint (changerConfig c) = false).
  { injection Heq as -> _. unfold joint in *. simpl in HS0. by destruct (_ >? 0). }
  rewrite (Simple_started c ccs Hinv Hj) in HS.
  destruct (apply_loop_ok c (simple_start c) ccs (ConfigInv_tracked _ Hinv) Hv) as [Hok Hbad].
  apply outcome_bind_Ret in HS as ([cfg1 prs1] & H1 & HS). unfold apply in H1.
  destruct (decide (Forall supported ccs)) as [Hs|Hs];
    [|destruct (Hbad Hs) as (? & Hx & _); by rewrite Hx in H1].
  destruct (Hok Hs) as ([cfg prs] & Hx & HP). rewrite Hx in H1. simpl in H1.
  destruct (_ =? 0); [done|]. injection H1 as <- <-.
  destruct (_ >? 1); [done|]. apply checkAndReturn_Ret in HS as [-> ?]. done.
Qed.

Section Branches.
Context (c : Changer.t) (ccs : list ConfChangeSingle.t).
Hypothesis Hinv : ConfigInv (simple_start c).1 (simple_start c).2.
Hypothesis Hj : joint (changerConfig c) = false.
Hypothesis Hv : (Config.Voters (changerConfig c)).1 ≠ None.

Lemma Simple_unsupported :
  ¬ Forall supported ccs → ∃ ty : Z,
  Simple c ccs = Err (Errorf ("unexpected conf type " +:+ pretty ty)).
Proof.
  intros Hu. rewrite (Simple_started c ccs Hinv Hj). unfold apply.
  destruct (apply_loop_ok c (simple_start c) ccs (ConfigInv_tracked _ Hinv) Hv) as [_ Hbad].
  destruct (Hbad Hu) as (ty & -> & _). by exists ty.
Qed.

(** The supported changes: the outcome depends on the number of new voters. *)
Lemma Simple_supported :
  Forall supported ccs → ∃ st,
  Promoted c (addedIDs ccs) (simple_start c) st ∧ ConfigInv st.1 st.2 ∧
  Simple c ccs =
  if decide (addedIDs ccs ∪ keys (Config.Voters (changerConfig c)).1 = ∅)
  then Err (Errorf "removed all voters")
  else if decide (1 < size (addedIDs ccs ∖ keys (Config.Voters (changerConfig c)).1))%nat
  then Err (Errorf "more than one voter changed without entering joint config")
  else Ret st.
Proof.
  intros Hs. rewrite (Simple_started c ccs Hinv Hj). unfold apply.
  set (old := keys (Config.Voters (changerConfig c)).1). set (new := addedIDs ccs ∪ old).
  destruct (apply_loop_ok c (simple_start c) ccs (ConfigInv_tracked _ Hinv) Hv) as [Hok _].
  destruct (Hok Hs) as ([cfg prs] & -> & HP).
  pose proof (promoted_incoming _ _ _ _ HP) as Hi. simpl in Hi. fold old new in Hi.
  assert (Hc : ConfigInv cfg prs).
  { eapply (Promoted_inv _ _ _ _ HP); [done|]. simpl. by apply joint_false. }
  exists (cfg, prs). split_and!; try done. simpl. unfold mlen, incoming. rewrite Hi.
  destruct (decide (new = ∅)) as [Hn|Hn]; [by rewrite Hn, size_empty|].
  assert (size new ≠ 0%nat) by (intros Hz; by apply Hn, leibniz_equiv, size_empty_inv).
  case_bool. simpl. rewrite symdiff_spec, Hi. fold old.
  replace (old ∖ new) with (∅ : gset Z) by set_solver. rewrite size_empty, Nat.add_0_l.
  replace (new ∖ old) with (addedIDs ccs ∖ old) by set_solver.
  repeat case_decide; case_bool; try done; try lia. by apply checkAndReturn_Ret.
Qed.

Lemma Simple_succeeds :
  Forall supported ccs → addedIDs ccs ∪ keys (Config.Voters (changerConfig c)).1 ≠ ∅ →
  (size (addedIDs ccs ∖ keys (Config.Voters (changerConfig c)).1) ≤ 1)%nat → ∃ st,
  Simple c ccs = Ret st ∧ Promoted c (addedIDs ccs) (simple_start c) st ∧ ConfigInv st.1 st.2.
Proof.
  intros Hs Hne Hsz. destruct (Simple_supported Hs) as (st & HP & Hc & HS). exists st.
  rewrite decide_False, decide_False in HS by (done || lia). done.
Qed.
End Branches.

(** Majorities of two voter sets that differ in at most one voter intersect. *)
Lemma majority_overlap (old new s1 s2 : gset Z) :
  (size (old ∖ new) + size (new ∖ old) ≤ 1)%nat →
  s1 ⊆ old → s2 ⊆ new → majority old s1 → majority new s2 → ∃ id, id ∈ s1 ∧ id ∈ s2.
Proof.
  unfold majority. intros Hd H1 H2 Hm1 Hm2.
  destruct (set_choose_or_empty (s1 ∩ s2)) as [[x Hx]|Hx]; [set_solver|].
  assert (Hs : size (s1 ∪ s2) = (size s1 + size s2)%nat) by (apply size_union; set_solver).
  assert (size (s1 ∪ s2) ≤ size (old ∪ new))%nat by (apply subseteq_size; set_solver).
  assert (Hold : size old = (size (old ∖ new) + size (old ∩ new))%nat).
  { rewrite <- size_union by set_solver. f_equal. apply set_eq. intros x.
    destruct (decide (x ∈ new)); set_solver. }
  assert (Hnew : size new = (size (new ∖ old) + size (old ∩ new))%nat).
  { rewrite <- size_union by set_solver. f_equal. apply set_eq. intros x.
    destruct (decide (x ∈ old)); set_solver. }
  assert (Hu : size (old ∪ new) = (size old + size (new ∖ old))%nat) by apply size_union_alt.
  lia.
Qed.


(** [Simple], branch by branch.  It refuses a tracker whose
    configuration violates the invariants, a joint configuration, an
    unsupported change, an empty result and a change of more than one voter,
    each with the error shown; otherwise it makes exactly the ids added by the
    changes voters, ends their learner role, creates or keeps their
    Progress, leaves the rest alone, and returns a configuration that
    satisfies the invariants. *)
Theorem simple_behaviour c ccs :
  let old := keys (Config.Voters (changerConfig c)).1 in
  let new := addedIDs ccs ∪ old in
  (¬ ConfigInv (simple_start c).1 (simple_start c).2 → ∃ s, Simple c ccs = Err (Errorf s)) ∧
  (ConfigInv (simple_start c).1 (simple_start c).2 → joint (changerConfig c) = true →
     Simple c ccs = Err (Errorf "can't apply simple config change in joint config")) ∧
  (ConfigInv (simple_start c).1 (simple_start c).2 → joint (changerConfig c) = false →
   (Config.Voters (changerConfig c)).1 ≠ None →
     (¬ Forall supported ccs → ∃ ty : Z,
        Simple c ccs = Err (Errorf ("unexpected conf type " +:+ pretty ty))) ∧
     (Forall supported ccs → new = ∅ → Simple c ccs = Err (Errorf "removed all voters")) ∧
     (Forall supported ccs → new ≠ ∅ → (1 < size (addedIDs ccs ∖ old))%nat →
        Simple c ccs = Err (Errorf "more than one voter changed without entering joint config")) ∧
     (Forall supported ccs → new ≠ ∅ → (size (addedIDs ccs ∖ old) ≤ 1)%nat → ∃ st,
        Simple c ccs = Ret st ∧ Promoted c (addedIDs ccs) (simple_start c) st ∧
        ConfigInv st.1 st.2)).
Proof.
  intros old new. split_and!.
  - intros Hn. unfold Simple. rewrite checkAndCopy_spec. unfold checkAndReturn.
    destruct (checkInvariants_decides (simple_start c).1 (simple_start c).2)
      as [[_ ?]|[[s ->] _]]; [done|]. by exists s.
  - intros Hinv Hj. unfold Simple. rewrite checkAndCopy_spec.
    rewrite (proj2 (checkAndReturn_Ret _ _ (simple_start c))) by done. simpl.
    unfold joint in Hj |- *. simpl. by rewrite Hj.
  - intros Hinv Hj Hv. split_and!.
    + by apply Simple_unsupported.
    + intros Hs ?. destruct (Simple_supported c ccs Hinv Hj Hv Hs) as (st & _ & _ & ->).
      by rewrite decide_True.
    + intros Hs ? Hsz. destruct (Simple_supported c ccs Hinv Hj Hv Hs) as (st & _ & _ & ->).
      by rewrite decide_False, decide_True.
    + intros Hs ? Hsz. by apply Simple_succeeds.
Qed.
End Simple.

Definition sample_changer : Changer.t := Changer.mk sample_tracker 5.
Definition sample_add : ConfChangeSingle.t := ConfChangeSingle.mk ConfChangeAddNode 4 None.


Lemma simple_behaviour_witness :
  let O := elements_order in
  ∃ st, Simple sample_changer [sample_add] = Ret st ∧
    Promoted sample_changer {[4]} (simple_start sample_changer) st ∧ ConfigInv st.1 st.2.
Proof.
  intros O.
  assert (HI : ConfigInv (simple_start sample_changer).1 (simple_start sample_changer).2).
  { apply (decides_iff _ _ (checkInvariants_decides _ _)). vm_compute. reflexivity. }
  replace ({[4]} : gset Z) with (addedIDs [sample_add]) by (vm_compute; reflexivity).
  apply (proj2 (proj2 (simple_behaviour sample_changer [sample_add])));
    [done|vm_compute; reflexivity|done|apply Forall_singleton|..].
  - right. by left.
  - set_solver.
  - vm_compute. lia.
Defined.
