(* ===== verification/Storage.v ===== *)
(** * raft/storage.go, raft/util.go: the stable storage

    The [Storage] interface that the raft log reads, [MemoryStorage], its
    implementation, and the helpers of util.go.  The lock that [MemoryStorage]
    takes in every method makes the methods atomic: each is one function from
    state to state. *)

From S2P Require Import Prelude RaftPb.

(** ** util.go *)

Definition min (a b : Z) : Z := if a >? b then b else a.
Definition max (a b : Z) : Z := if a >? b then a else b.

Definition voteRespMsgType (msgt : Z) : outcome Z :=
  if msgt =? MsgVote then Ret MsgVoteResp
  else if msgt =? MsgPreVote then Ret MsgPreVoteResp
  else Panic (PanicString "not a vote message").

(** The loop of [limitSize]: [rest] is [ents[limit:]]. *)
Fixpoint limit_loop (rest : list Entry.t) (maxSize size limit : Z) : Z :=
  match rest with
  | [] => limit
  | e :: rest =>
      let size := i64 (size + Entry.Size e) in
      if u64 size >? maxSize then limit else limit_loop rest maxSize size (limit + 1)
  end.

Definition limitSize (ents : list Entry.t) (maxSize : Z) : outcome (list Entry.t) :=
  match ents with
  | [] => Ret ents
  | e :: rest => go_slice ents 0 (limit_loop rest maxSize (Entry.Size e) 1)
  end.

(** ** The interface *)

Class Storage (S : Type) := {
  InitialState : S → outcome (HardState.t * ConfState.t);
  Entries : S → Z → Z → Z → outcome (list Entry.t);
  Term : S → Z → outcome Z;
  LastIndex : S → outcome Z;
  FirstIndex : S → outcome Z;
  Snapshot_ : S → outcome Snapshot.t;
}.

(** ** MemoryStorage *)
Module MemoryStorage.
Record t := mk { hardState : HardState.t; snapshot : Snapshot.t; ents : list Entry.t }.

Definition NewMemoryStorage : t := mk HardState.zero Snapshot.zero [Entry.zero].

Definition InitialState (ms : t) : outcome (HardState.t * ConfState.t) :=
  Ret (hardState ms, SnapshotMetadata.ConfState_ (Snapshot.Metadata (snapshot ms))).

Definition SetHardState (st : HardState.t) (ms : t) : outcome t :=
  Ret (ms <| hardState := st |>).

Definition lastIndex (ms : t) : outcome Z :=
  e0 ← go_index (ents ms) 0;
  Ret (Entry.Index e0 ⊕ len (ents ms) ⊖ 1).

Definition firstIndex (ms : t) : outcome Z :=
  e0 ← go_index (ents ms) 0;
  Ret (Entry.Index e0 ⊕ 1).

Definition LastIndex (ms : t) : outcome Z := lastIndex ms.
Definition FirstIndex (ms : t) : outcome Z := firstIndex ms.

Definition Entries (ms : t) (lo hi maxSize : Z) : outcome (list Entry.t) :=
  e0 ← go_index (ents ms) 0;
  let offset := Entry.Index e0 in
  if lo <=? offset then Err ErrCompacted else
  last ← lastIndex ms;
  if hi >? last ⊕ 1 then Panic (PanicString "entries' hi is out of bound lastindex") else
  if len (ents ms) =? 1 then Err ErrUnavailable else
  es ← go_slice (ents ms) (lo ⊖ offset) (hi ⊖ offset);
  limitSize es maxSize.

Definition Term (ms : t) (i : Z) : outcome Z :=
  e0 ← go_index (ents ms) 0;
  let offset := Entry.Index e0 in
  if i <? offset then Err ErrCompacted else
  if i64 (i ⊖ offset) >=? len (ents ms) then Err ErrUnavailable else
  e ← go_index (ents ms) (i ⊖ offset);
  Ret (Entry.Term e).

Definition Snapshot_ (ms : t) : outcome Snapshot.t := Ret (snapshot ms).

Definition ApplySnapshot (snap : Snapshot.t) (ms : t) : outcome t :=
  let msIndex := SnapshotMetadata.Index (Snapshot.Metadata (snapshot ms)) in
  let snapIndex := SnapshotMetadata.Index (Snapshot.Metadata snap) in
  if msIndex >=? snapIndex then Err ErrSnapOutOfDate else
  Ret (ms <| snapshot := snap |>
          <| ents := [Entry.zero <| Entry.Term := SnapshotMetadata.Term (Snapshot.Metadata snap) |>
                        <| Entry.Index := SnapshotMetadata.Index (Snapshot.Metadata snap) |>] |>).

Definition CreateSnapshot (i : Z) (cs : option ConfState.t) (data : option bytes) (ms : t)
    : outcome (t * Snapshot.t) :=
  if i <=? SnapshotMetadata.Index (Snapshot.Metadata (snapshot ms)) then Err ErrSnapOutOfDate else
  e0 ← go_index (ents ms) 0;
  let offset := Entry.Index e0 in
  last ← lastIndex ms;
  if i >? last then Panic (PanicString "snapshot is out of bound lastindex") else
  e ← go_index (ents ms) (i ⊖ offset);
  let md := (Snapshot.Metadata (snapshot ms))
              <| SnapshotMetadata.Index := i |> <| SnapshotMetadata.Term := Entry.Term e |> in
  let md := match cs with
            | Some cs => md <| SnapshotMetadata.ConfState_ := cs |>
            | None => md
            end in
  let snap := (snapshot ms) <| Snapshot.Metadata := md |> <| Snapshot.Data := data |> in
  Ret (ms <| snapshot := snap |>, snap).

Definition Compact (compactIndex : Z) (ms : t) : outcome t :=
  e0 ← go_index (ents ms) 0;
  let offset := Entry.Index e0 in
  if compactIndex <=? offset then Err ErrCompacted else
  last ← lastIndex ms;
  if compactIndex >? last then Panic (PanicString "compact is out of bound lastindex") else
  let i := compactIndex ⊖ offset in
  ei ← go_index (ents ms) i;
  rest ← go_slice (ents ms) (i ⊕ 1) (len (ents ms));
  Ret (ms <| ents := (Entry.zero <| Entry.Index := Entry.Index ei |>
                        <| Entry.Term := Entry.Term ei |>) :: rest |>).

Definition Append (entries : list Entry.t) (ms : t) : outcome t :=
  match entries with
  | [] => Ret ms
  | e :: _ =>
      first ← firstIndex ms;
      let last := Entry.Index e ⊕ len entries ⊖ 1 in
      if last <? first then Ret ms else
      entries ← (if first >? Entry.Index e
                 then go_slice entries (first ⊖ Entry.Index e) (len entries)
                 else Ret entries);
      e ← go_index entries 0;
      e0 ← go_index (ents ms) 0;
      let offset := Entry.Index e ⊖ Entry.Index e0 in
      if len (ents ms) >? offset then
        kept ← go_slice (ents ms) 0 offset;
        Ret (ms <| ents := kept ++ entries |>)
      else if len (ents ms) =? offset then
        Ret (ms <| ents := ents ms ++ entries |>)
      else Panic (PanicString "missing log entry")
  end.

#[global] Instance storage : Storage t := {
  InitialState := InitialState;
  Entries := Entries;
  Term := Term;
  LastIndex := LastIndex;
  FirstIndex := FirstIndex;
  Snapshot_ := Snapshot_;
}.
End MemoryStorage.

(** ** The abstract log

    What a storage holds: the index and term of the last compacted entry, and
    the entries after it. *)

Record slog := SLog { sl_offset : Z; sl_term : Z; sl_ents : list Entry.t }.

(** The indices of [es] are [f], [f+1], ... *)
Definition contiguous (f : Z) (es : list Entry.t) : Prop :=
  ∀ k e, es !! k = Some e → Entry.Index e = f + Z.of_nat k.

Definition sl_last (L : slog) : Z := sl_offset L + len (sl_ents L).

Record slog_wf (L : slog) : Prop := {
  slog_offset_nonneg : 0 ≤ sl_offset L;
  slog_contiguous : contiguous (sl_offset L + 1) (sl_ents L);
  slog_bound : sl_last L < 2 ^ 63 - 1;
}.

Definition slog_term (L : slog) (i : Z) : option Z :=
  if i <? sl_offset L then None
  else if i =? sl_offset L then Some (sl_term L)
  else Entry.Term <$> sl_ents L !! Z.to_nat (i - sl_offset L - 1).

Definition slog_slice (L : slog) (lo hi : Z) : list Entry.t :=
  take (Z.to_nat (hi - lo)) (drop (Z.to_nat (lo - sl_offset L - 1)) (sl_ents L)).

Lemma slog_term_Some L i : sl_offset L ≤ i ≤ sl_last L → ∃ t, slog_term L i = Some t.
Proof.
  unfold sl_last, slog_term. intros Hi. case_bool. case_bool; [by eexists|].
  destruct (lookup_lt_is_Some_2 (sl_ents L) (Z.to_nat (i - sl_offset L - 1))) as [e ->];
    [unfold len in *; lia|by eexists].
Qed.

Lemma slog_term_None L i : sl_last L < i → slog_term L i = None.
Proof.
  unfold sl_last, slog_term. intros Hi. pose proof (len_nonneg (sl_ents L)).
  case_bool. case_bool. rewrite lookup_ge_None_2; [done|]. unfold len in *. lia.
Qed.

(** What a [Storage] promises to the raft log. *)
Class StorageLaws (S : Type) `{!Storage S} := {
  storage_log : S → slog;
  storage_ok : S → Prop;
  storage_ok_wf s : storage_ok s → slog_wf (storage_log s);
  law_FirstIndex s : storage_ok s → FirstIndex s = Ret (sl_offset (storage_log s) + 1);
  law_LastIndex s : storage_ok s → LastIndex s = Ret (sl_last (storage_log s));
  law_Term s i :
    storage_ok s → 0 ≤ i < 2 ^ 63 →
    Term s i =
    if i <? sl_offset (storage_log s) then Err ErrCompacted
    else match slog_term (storage_log s) i with
         | Some t => Ret t | None => Err ErrUnavailable end;
  law_Entries s lo hi maxSize :
    storage_ok s → 0 ≤ lo < hi → hi ≤ sl_last (storage_log s) + 1 →
    Entries s lo hi maxSize =
    if lo <=? sl_offset (storage_log s) then Err ErrCompacted
    else limitSize (slog_slice (storage_log s) lo hi) maxSize;
}.

(** ** limitSize *)

Definition totalSize (es : list Entry.t) : Z := foldr (λ e n, Entry.Size e + n) 0 es.

Lemma limit_loop_bounds rest maxSize size limit :
  limit ≤ limit_loop rest maxSize size limit ≤ limit + len rest.
Proof.
  revert size limit. induction rest as [|e rest IH]; intros size limit; cbn [limit_loop].
  - rewrite len_nil. lia.
  - rewrite len_cons. pose proof (len_nonneg rest). case_bool.
    specialize (IH (i64 (size + Entry.Size e)) (limit + 1)). lia.
Qed.

(** [limitSize] returns a prefix, and a non-empty one of a non-empty list. *)
Lemma limitSize_prefix es maxSize :
  ∃ k, limitSize es maxSize = Ret (take k es) ∧ (k ≤ length es)%nat ∧ (es ≠ [] → (1 ≤ k)%nat).
Proof.
  destruct es as [|e rest]; [by exists 0%nat|]. simpl.
  pose proof (limit_loop_bounds rest maxSize (Entry.Size e) 1).
  set (n := limit_loop _ _ _ _) in *. exists (Z.to_nat n).
  rewrite go_slice_prefix by (rewrite len_cons; lia). unfold len in *. split_and!; [done|lia|].
  intros. lia.
Qed.

Lemma limitSize_nil maxSize : limitSize [] maxSize = Ret [].
Proof. done. Qed.

Lemma Size_nonneg_sov fuel n v : n ≤ Proto.sov_loop fuel n v.
Proof.
  revert n v. induction fuel as [|fuel IH]; intros n v; simpl; [lia|].
  case_bool. specialize (IH (n + 1) (Z.shiftr v 7)). lia.
Qed.

Lemma Entry_Size_nonneg e : 0 ≤ Entry.Size e.
Proof.
  assert (H : ∀ v, 0 ≤ Proto.sovRaft v) by (intros; apply Size_nonneg_sov).
  unfold Entry.Size.
  pose proof (H (u64 (Entry.Type_ e))). pose proof (H (Entry.Term e)).
  pose proof (H (Entry.Index e)).
  assert (0 ≤ Proto.bytesFieldSize (Entry.Data e)).
  { unfold Proto.bytesFieldSize. destruct (Entry.Data e) as [p|]; [|done].
    pose proof (len_nonneg p). pose proof (H (len p)). lia. }
  assert (0 ≤ Proto.unrecognizedSize (Entry.XXX_unrecognized e)).
  { unfold Proto.unrecognizedSize. destruct (Entry.XXX_unrecognized e); [apply len_nonneg|done]. }
  lia.
Qed.

Lemma totalSize_nonneg es : 0 ≤ totalSize es.
Proof.
  induction es as [|e es IH]; simpl; [done|]. pose proof (Entry_Size_nonneg e). lia.
Qed.

(** The number of entries the loop keeps: as many as fit. *)
Lemma limit_loop_spec rest maxSize size limit :
  0 ≤ size → size + totalSize rest < 2 ^ 63 →
  ∃ k, (k ≤ length rest)%nat ∧ limit_loop rest maxSize size limit = limit + Z.of_nat k ∧
    ((0 < k)%nat → size + totalSize (take k rest) ≤ maxSize) ∧
    ((k < length rest)%nat → maxSize < size + totalSize (take (S k) rest)).
Proof.
  revert size limit. induction rest as [|e rest IH]; intros size limit H0 Hs.
  { exists 0%nat. simpl. split_and!; lia. }
  simpl in Hs. pose proof (Entry_Size_nonneg e). pose proof (totalSize_nonneg rest).
  cbn [limit_loop]. unwrap. case_bool.
  - exists 0%nat. simpl. split_and!; lia.
  - destruct (IH (size + Entry.Size e) (limit + 1)) as (k & Hk & Hl & Hm & Hn); [lia..|].
    exists (S k). rewrite Hl. split_and!; [simpl; lia|lia| |].
    + intros _. destruct k; [simpl; lia|]. specialize (Hm ltac:(lia)). simpl in *. lia.
    + simpl. intros Hlt. specialize (Hn ltac:(lia)). simpl in Hn. lia.
Qed.

(** [limitSize] returns the longest prefix of the entries whose
    total size is at most the limit, except that the first entry is always
    included. *)
Theorem limitSize_longest_prefix es maxSize :
  totalSize es < 2 ^ 63 → es ≠ [] →
  ∃ k, limitSize es maxSize = Ret (take k es) ∧ (1 ≤ k ≤ length es)%nat ∧
    ((1 < k)%nat → totalSize (take k es) ≤ maxSize) ∧
    ((k < length es)%nat → maxSize < totalSize (take (S k) es)).
Proof.
  destruct es as [|e rest]; [done|]. intros Hs _. simpl in Hs.
  pose proof (Entry_Size_nonneg e). pose proof (totalSize_nonneg rest).
  destruct (limit_loop_spec rest maxSize (Entry.Size e) 1) as (k & Hk & Hl & Hm & Hn); [lia..|].
  exists (S k). unfold limitSize. rewrite Hl, go_slice_prefix by (rewrite len_cons; unfold len; lia).
  replace (Z.to_nat (1 + Z.of_nat k)) with (S k) by lia.
  split_and!; [done|lia|simpl; lia| |].
  - intros. simpl. apply Hm. lia.
  - simpl. intros. apply Hn. lia.
Qed.

(** ** MemoryStorage implements the interface *)

Module MemoryStorageOk.
Import MemoryStorage.

Definition log (ms : t) : slog :=
  match ents ms with
  | e0 :: es => SLog (Entry.Index e0) (Entry.Term e0) es
  | [] => SLog 0 0 []
  end.

Definition ok (ms : t) : Prop := ents ms ≠ [] ∧ slog_wf (log ms).

(** [ok ms], with the list of entries made explicit. *)
Lemma ok_inv ms :
  ok ms → ∃ e0 es, ents ms = e0 :: es ∧ log ms = SLog (Entry.Index e0) (Entry.Term e0) es ∧
    0 ≤ Entry.Index e0 ∧ contiguous (Entry.Index e0 + 1) es ∧
    Entry.Index e0 + len es < 2 ^ 63 - 1 ∧ 0 ≤ len es.
Proof.
  intros [Hne [Ho Hc Hb]]. unfold log, sl_last in *. destruct (ents ms) as [|e0 es]; [done|].
  exists e0, es. simpl in *. split_and!; auto with go.
Qed.

Lemma mk_ok ms e0 es :
  ents ms = e0 :: es → 0 ≤ Entry.Index e0 → contiguous (Entry.Index e0 + 1) es →
  Entry.Index e0 + len es < 2 ^ 63 - 1 → ok ms.
Proof. intros He ???. unfold ok, log. rewrite He. split; [done|]. by split. Qed.

Lemma ms_firstIndex_ok ms : ok ms → firstIndex ms = Ret (sl_offset (log ms) + 1).
Proof.
  intros (e0 & es & He & Hl & Ho & Hc & Hb & ?)%ok_inv. unfold firstIndex.
  rewrite He, Hl, go_index_0. simpl. by unwrap.
Qed.

Lemma ms_lastIndex_ok ms : ok ms → lastIndex ms = Ret (sl_last (log ms)).
Proof.
  intros (e0 & es & He & Hl & Ho & Hc & Hb & ?)%ok_inv. unfold lastIndex, sl_last.
  rewrite He, Hl, go_index_0. simpl. rewrite len_cons. unwrap. f_equal. lia.
Qed.

Lemma drop_cons_pos {A} (x : A) l n : 0 < n → drop (Z.to_nat n) (x :: l) = drop (Z.to_nat (n - 1)) l.
Proof. intros. by replace (Z.to_nat n) with (S (Z.to_nat (n - 1))) by lia. Qed.

Lemma lookup_cons_pos {A} (x : A) l n : 0 < n → (x :: l) !! Z.to_nat n = l !! Z.to_nat (n - 1).
Proof. intros. by replace (Z.to_nat n) with (S (Z.to_nat (n - 1))) by lia. Qed.

Lemma Term_ok ms i :
  ok ms → 0 ≤ i < 2 ^ 63 →
  Term ms i =
  if i <? sl_offset (log ms) then Err ErrCompacted
  else match slog_term (log ms) i with Some t => Ret t | None => Err ErrUnavailable end.
Proof.
  intros (e0 & es & He & Hl & Ho & Hc & Hb & ?)%ok_inv Hi. unfold Term, slog_term.
  rewrite He, Hl, go_index_0. simpl. destruct (i <? Entry.Index e0) eqn:E; [done|]. zify_bool.
  unwrap. rewrite len_cons.
  destruct (Z.eqb_spec i (Entry.Index e0)) as [->|].
  { rewrite Z.sub_diag, go_index_0. case_bool. done. }
  case_bool.
  - rewrite lookup_ge_None_2; [done|]. unfold len in *. lia.
  - destruct (go_index_in_range (e0 :: es) (i - Entry.Index e0)) as (e & -> & Hlk).
    { rewrite len_cons. lia. }
    rewrite lookup_cons_pos in Hlk by lia. by rewrite Hlk.
Qed.

Lemma Entries_ok ms lo hi maxSize :
  ok ms → 0 ≤ lo < hi → hi ≤ sl_last (log ms) + 1 →
  Entries ms lo hi maxSize =
  if lo <=? sl_offset (log ms) then Err ErrCompacted
  else limitSize (slog_slice (log ms) lo hi) maxSize.
Proof.
  intros Hok Hlo Hhi. unfold Entries, slog_slice. rewrite ms_lastIndex_ok by done.
  apply ok_inv in Hok as (e0 & es & He & Hl & Ho & Hc & Hb & ?).
  unfold sl_last in *. rewrite Hl in *. rewrite He, go_index_0, len_cons. simpl in *.
  destruct (_ <=? _) eqn:E; [done|]. zify_bool. unwrap. case_bool. case_bool.
  rewrite go_slice_in_range by (rewrite ?len_cons; lia). simpl.
  rewrite drop_cons_pos by lia. f_equal. f_equal. lia.
Qed.

#[global] Instance laws : StorageLaws t := {
  storage_log := log; storage_ok := ok;
  storage_ok_wf ms H := proj2 H;
  law_FirstIndex := ms_firstIndex_ok;
  law_LastIndex := ms_lastIndex_ok;
  law_Term := Term_ok;
  law_Entries := Entries_ok;
}.

Lemma NewMemoryStorage_ok : ok NewMemoryStorage.
Proof. by eapply mk_ok. Qed.

(** ** The updates *)

Lemma contiguous_app f l k :
  contiguous f l → contiguous (f + len l) k → contiguous f (l ++ k).
Proof.
  intros Hl Hk n e Hn. apply lookup_app_Some in Hn as [Hn|[Hge Hn]].
  - by apply Hl.
  - apply Hk in Hn. unfold len in Hn. lia.
Qed.

Lemma contiguous_take f l n : contiguous f l → contiguous f (take n l).
Proof. intros H k e [Hk _]%lookup_take_Some. by apply H. Qed.

Lemma contiguous_drop f l n : contiguous f l → contiguous (f + Z.of_nat n) (drop n l).
Proof. intros H k e Hk. rewrite lookup_drop in Hk. apply H in Hk. lia. Qed.

Lemma contiguous_cons f e l : contiguous f (e :: l) ↔ Entry.Index e = f ∧ contiguous (f + 1) l.
Proof.
  split.
  - intros H. split; [specialize (H 0%nat e eq_refl); lia|].
    intros k e' Hk. specialize (H (S k) e' Hk). lia.
  - intros [He Hl] [|k] e' Hk; simpl in Hk.
    + injection Hk as <-. lia.
    + apply Hl in Hk. lia.
Qed.

(** The log after appending [es], whose first index is [f]: everything from
    [f] on is replaced, entries already compacted are ignored. *)
Definition appended (L : slog) (f : Z) (es : list Entry.t) : slog :=
  let f' := Z.max f (sl_offset L + 1) in
  SLog (sl_offset L) (sl_term L)
    (take (Z.to_nat (f' - sl_offset L - 1)) (sl_ents L) ++ drop (Z.to_nat (f' - f)) es).

Lemma Append_ok ms f es :
  ok ms → es ≠ [] → contiguous f es → 0 ≤ f → f + len es ≤ 2 ^ 63 - 1 →
  sl_offset (log ms) + 1 ≤ f + len es - 1 → f ≤ sl_last (log ms) + 1 →
  ∃ ms', Append es ms = Ret ms' ∧ ok ms' ∧ log ms' = appended (log ms) f es ∧
    hardState ms' = hardState ms ∧ snapshot ms' = snapshot ms.
Proof.
  intros Hok Hne Hcont Hf Hbd Hnew Hgap. destruct es as [|e es]; [done|].
  pose proof (proj1 (contiguous_cons _ _ _) Hcont) as [He Hc'].
  unfold Append, appended. rewrite (ms_firstIndex_ok ms Hok).
  apply ok_inv in Hok as (e0 & es0 & He0 & Hl & Ho & Hc0 & Hb & ?).
  unfold sl_last in *. rewrite Hl in *. simpl in Hnew, Hgap. rewrite len_cons in Hbd, Hnew.
  pose proof (len_nonneg es). simpl. unwrap. rewrite He, len_cons. unwrap.
  case_bool.
  set (f' := Z.max f (Entry.Index e0 + 1)).
  set (es' := drop (Z.to_nat (f' - f)) (e :: es)).
  assert (Hes' : (if Entry.Index e0 + 1 >? f
      then go_slice (e :: es) (u64 (Entry.Index e0 + 1 - f)) (1 + len es)
      else Ret (e :: es)) = Ret es').
  { unfold es', f'. case_bool; unwrap.
    - rewrite <- (len_cons e), go_slice_suffix by (rewrite len_cons; lia). do 2 f_equal. lia.
    - by replace (Z.to_nat _) with 0%nat by lia. }
  rewrite Hes'. simpl.
  assert (Hce : contiguous f' es').
  { pose proof (contiguous_drop _ _ (Z.to_nat (f' - f)) Hcont) as Hd.
    by replace (f + Z.of_nat (Z.to_nat (f' - f))) with f' in Hd by lia. }
  assert (Hlen : len es' = f + len es + 1 - f').
  { unfold es'. rewrite len_drop, len_cons. lia. }
  destruct es' as [|e' es'']; [rewrite len_nil in Hlen; lia|]. clear Hes'.
  pose proof (proj1 (contiguous_cons _ _ _) Hce) as [He' _].
  rewrite He0, !go_index_0. simpl. rewrite ?go_index_0. simpl. rewrite He', len_cons. unwrap.
  assert (Hkeep : contiguous (Entry.Index e0 + 1)
    (take (Z.to_nat (f' - Entry.Index e0 - 1)) es0 ++ e' :: es'')).
  { apply contiguous_app; [by apply contiguous_take|]. rewrite len_take.
    replace (Entry.Index e0 + 1 + _) with f' by lia. done. }
  assert (Hbound : Entry.Index e0 +
    len (take (Z.to_nat (f' - Entry.Index e0 - 1)) es0 ++ e' :: es'') < 2 ^ 63 - 1).
  { rewrite len_app, len_take, Hlen. lia. }
  case_bool; [|case_bool].
  - rewrite go_slice_prefix by (rewrite len_cons; lia). simpl.
    eexists. split; [done|]. unfold log. simpl.
    replace (take (Z.to_nat (f' - Entry.Index e0)) (e0 :: es0))
      with (e0 :: take (Z.to_nat (f' - Entry.Index e0 - 1)) es0)
      by (by replace (Z.to_nat (f' - Entry.Index e0))
            with (S (Z.to_nat (f' - Entry.Index e0 - 1))) by lia).
    split_and!; done.
  - simpl. eexists. split; [done|]. unfold log. simpl.
    rewrite take_ge in Hkeep, Hbound |- * by (unfold len in *; lia).
    split_and!; done.
Qed.

Lemma Append_old ms f es :
  ok ms → contiguous f es → 0 ≤ f → f + len es < 2 ^ 63 - 1 →
  f + len es - 1 < sl_offset (log ms) + 1 → Append es ms = Ret ms.
Proof.
  intros Hok Hc Hf Hb Hold. destruct es as [|e es]; [done|].
  apply contiguous_cons in Hc as [He _]. unfold Append. rewrite ms_firstIndex_ok by done.
  rewrite len_cons in *. simpl. rewrite He. pose proof (len_nonneg es).
  unwrap. by case_bool.
Qed.

Lemma Append_gap ms f e es :
  ok ms → contiguous f (e :: es) → f + len (e :: es) < 2 ^ 63 - 1 →
  sl_last (log ms) + 1 < f → Append (e :: es) ms = Panic (PanicString "missing log entry").
Proof.
  intros Hok Hc Hb Hgap. apply contiguous_cons in Hc as [He _]. unfold Append.
  rewrite ms_firstIndex_ok by done. rewrite len_cons in *. pose proof (len_nonneg es).
  apply ok_inv in Hok as (e0 & es0 & He0 & Hl & Ho & Hc0 & Hb0 & ?).
  unfold sl_last in *. rewrite Hl in *. simpl in *. rewrite He. unwrap. case_bool. case_bool.
  simpl. rewrite He0, !go_index_0. simpl. rewrite ?go_index_0. simpl. rewrite He, len_cons. unwrap.
  case_bool. case_bool. done.
Qed.

(** The log from [i] on, with [i] as the new dummy entry. *)
Definition compacted (L : slog) (i : Z) : slog :=
  SLog i (default 0 (slog_term L i)) (drop (Z.to_nat (i - sl_offset L)) (sl_ents L)).

Lemma Compact_ok ms i :
  ok ms → sl_offset (log ms) < i ≤ sl_last (log ms) →
  ∃ ms', Compact i ms = Ret ms' ∧ ok ms' ∧ log ms' = compacted (log ms) i ∧
    hardState ms' = hardState ms ∧ snapshot ms' = snapshot ms.
Proof.
  intros Hok Hi. unfold Compact, compacted, slog_term. rewrite ms_lastIndex_ok by done.
  apply ok_inv in Hok as (e0 & es0 & He0 & Hl & Ho & Hc0 & Hb0 & ?).
  unfold sl_last in *. rewrite Hl in *. simpl in Hi. rewrite He0, go_index_0. simpl.
  case_bool. case_bool. unwrap.
  destruct (go_index_in_range (e0 :: es0) (i - Entry.Index e0)) as (ei & -> & Hei).
  { rewrite len_cons. lia. }
  simpl. rewrite go_slice_suffix by (rewrite len_cons; lia). simpl.
  rewrite drop_cons_pos by lia. rewrite lookup_cons_pos in Hei by lia.
  assert (Hidx : Entry.Index ei = i) by (apply Hc0 in Hei; lia).
  case_bool. case_bool. rewrite Hei. simpl.
  replace (i - Entry.Index e0 + 1 - 1) with (i - Entry.Index e0) by lia.
  eexists. split; [done|]. unfold log. simpl. rewrite Hidx. split_and!; try done.
  eapply mk_ok; [done|simpl; lia|..]; simpl.
  - pose proof (contiguous_drop _ _ (Z.to_nat (i - Entry.Index e0)) Hc0) as Hd.
    rewrite ?Hidx. replace (Entry.Index e0 + 1 + _) with (i + 1) in Hd by lia. done.
  - rewrite len_drop, ?Hidx. lia.
Qed.

Lemma ApplySnapshot_ok snap ms :
  0 ≤ SnapshotMetadata.Index (Snapshot.Metadata snap) < 2 ^ 63 - 1 →
  SnapshotMetadata.Index (Snapshot.Metadata (snapshot ms))
    < SnapshotMetadata.Index (Snapshot.Metadata snap) →
  ∃ ms', ApplySnapshot snap ms = Ret ms' ∧ ok ms' ∧ snapshot ms' = snap ∧
    log ms' = SLog (SnapshotMetadata.Index (Snapshot.Metadata snap))
                (SnapshotMetadata.Term (Snapshot.Metadata snap)) [].
Proof.
  intros Hb Hi. unfold ApplySnapshot. case_bool. eexists. split; [done|].
  split_and!; [|done|done]. eapply mk_ok; [done|simpl; lia|done|simpl; rewrite len_nil; lia].
Qed.

Lemma CreateSnapshot_ok i cs data ms :
  ok ms → SnapshotMetadata.Index (Snapshot.Metadata (snapshot ms)) < i →
  sl_offset (log ms) ≤ i ≤ sl_last (log ms) →
  ∃ ms' snap, CreateSnapshot i cs data ms = Ret (ms', snap) ∧ snapshot ms' = snap ∧
    ents ms' = ents ms ∧ hardState ms' = hardState ms ∧
    SnapshotMetadata.Index (Snapshot.Metadata snap) = i ∧
    Some (SnapshotMetadata.Term (Snapshot.Metadata snap)) = slog_term (log ms) i ∧
    Snapshot.Data snap = data ∧
    SnapshotMetadata.ConfState_ (Snapshot.Metadata snap) =
      default (SnapshotMetadata.ConfState_ (Snapshot.Metadata (snapshot ms))) cs.
Proof.
  intros Hok Hs Hi. unfold CreateSnapshot, slog_term. rewrite ms_lastIndex_ok by done.
  apply ok_inv in Hok as (e0 & es0 & He0 & Hl & Ho & Hc0 & Hb0 & ?).
  unfold sl_last in *. rewrite Hl in *. simpl in Hi. case_bool. rewrite He0, go_index_0. simpl.
  case_bool. unwrap.
  destruct (go_index_in_range (e0 :: es0) (i - Entry.Index e0)) as (ei & -> & Hei).
  { rewrite len_cons. lia. }
  simpl. do 2 eexists. split; [done|].
  assert (Ht : Some (Entry.Term ei) =
    if i <? Entry.Index e0 then None
    else if i =? Entry.Index e0 then Some (Entry.Term e0)
    else Entry.Term <$> es0 !! Z.to_nat (i - Entry.Index e0 - 1)).
  { case_bool. destruct (Z.eqb_spec i (Entry.Index e0)) as [->|].
    - rewrite Z.sub_diag in Hei. by injection Hei as ->.
    - rewrite lookup_cons_pos in Hei by lia. by rewrite Hei. }
  destruct cs; simpl; split_and!; done.
Qed.
End MemoryStorageOk.

(** ** Properties of MemoryStorage *)

Lemma slog_term_appended L f es i :
  slog_wf L → es ≠ [] → sl_offset L + 1 ≤ f + len es - 1 → f ≤ sl_last L + 1 →
  slog_term (MemoryStorageOk.appended L f es) i =
  if i <? Z.max f (sl_offset L + 1) then slog_term L i
  else Entry.Term <$> es !! Z.to_nat (i - f).
Proof.
  intros [Ho _ _] Hne Hnew Hgap. unfold slog_term, MemoryStorageOk.appended, sl_last in *. simpl.
  set (f' := Z.max f (sl_offset L + 1)) in *.
  case_bool; [case_bool; done|]. case_bool; [case_bool; done|].
  assert (Hl : length (take (Z.to_nat (f' - sl_offset L - 1)) (sl_ents L))
               = Z.to_nat (f' - sl_offset L - 1)).
  { rewrite length_take. unfold len in *. lia. }
  case_bool.
  - rewrite lookup_app_l by lia. by rewrite lookup_take_lt by lia.
  - rewrite lookup_app_r by lia. rewrite Hl, lookup_drop. do 2 f_equal. lia.
Qed.

(** [Append] of a contiguous run of entries that starts at
    most one past the end replaces everything from its first index on: below
    it every term reads as before, inside it the terms are those of the run,
    past it nothing is left, and the last index is the run's. *)
Theorem memoryStorage_append ms f es :
  MemoryStorageOk.ok ms → es ≠ [] → contiguous f es → 0 ≤ f → f + len es < 2 ^ 63 - 1 →
  sl_offset (storage_log ms) + 1 ≤ f + len es - 1 → f ≤ sl_last (storage_log ms) + 1 →
  ∃ ms', MemoryStorage.Append es ms = Ret ms' ∧ MemoryStorageOk.ok ms' ∧
    MemoryStorage.FirstIndex ms' = MemoryStorage.FirstIndex ms ∧
    MemoryStorage.LastIndex ms' = Ret (f + len es - 1) ∧
    ∀ i, 0 ≤ i < 2 ^ 63 →
      MemoryStorage.Term ms' i =
      if i <? Z.max f (sl_offset (storage_log ms) + 1) then MemoryStorage.Term ms i
      else match es !! Z.to_nat (i - f) with
           | Some e => Ret (Entry.Term e) | None => Err ErrUnavailable end.
Proof.
  intros Hok Hne Hc Hf Hb Hnew Hgap. simpl in *.
  destruct (MemoryStorageOk.Append_ok ms f es) as (ms' & HA & Hok' & Hl & _); try (done || lia).
  exists ms'. unfold MemoryStorage.FirstIndex, MemoryStorage.LastIndex.
  rewrite !MemoryStorageOk.ms_firstIndex_ok, MemoryStorageOk.ms_lastIndex_ok, Hl by done.
  pose proof (proj2 Hok) as Hwf. split_and!; [done..| |].
  - pose proof (len_nonneg es). pose proof (len_nonneg (sl_ents (MemoryStorageOk.log ms))). unfold sl_last in *. simpl. rewrite len_app, len_take, len_drop. apply (f_equal Ret). lia.
  - intros i Hi. rewrite !MemoryStorageOk.Term_ok, Hl, slog_term_appended by done. simpl.
    destruct (i <? Z.max _ _) eqn:E; zify_bool; [done|]. case_bool. by destruct (es !! _).
Qed.

(** [Compact i] forgets exactly the entries below [i]: the
    first index becomes [i+1], the last index stays, terms and entries from
    [i] on read as before, everything below is reported compacted. *)
Theorem memoryStorage_compact ms i :
  MemoryStorageOk.ok ms → sl_offset (storage_log ms) < i ≤ sl_last (storage_log ms) →
  ∃ ms', MemoryStorage.Compact i ms = Ret ms' ∧ MemoryStorageOk.ok ms' ∧
    MemoryStorage.FirstIndex ms' = Ret (i + 1) ∧
    MemoryStorage.LastIndex ms' = MemoryStorage.LastIndex ms ∧
    (∀ j, 0 ≤ j < 2 ^ 63 → MemoryStorage.Term ms' j =
       if j <? i then Err ErrCompacted else MemoryStorage.Term ms j) ∧
    (∀ lo hi maxSize, i < lo < hi → hi ≤ sl_last (storage_log ms) + 1 →
       MemoryStorage.Entries ms' lo hi maxSize = MemoryStorage.Entries ms lo hi maxSize).
Proof.
  simpl. intros Hok Hi. destruct (MemoryStorageOk.Compact_ok ms i) as (ms' & HC & Hok' & Hl & _);
    [done..|].
  pose proof (proj2 Hok) as [Ho Hcont Hb].
  assert (Hlast : sl_last (MemoryStorageOk.log ms') = sl_last (MemoryStorageOk.log ms)).
  { rewrite Hl. unfold sl_last in *. simpl. rewrite len_drop. lia. }
  exists ms'. unfold MemoryStorage.FirstIndex, MemoryStorage.LastIndex.
  rewrite MemoryStorageOk.ms_firstIndex_ok, !MemoryStorageOk.ms_lastIndex_ok, Hlast by done.
  split_and!; [done|done|by rewrite Hl|done| |].
  - intros j Hj. rewrite !MemoryStorageOk.Term_ok, Hl by done. unfold slog_term. simpl.
    case_bool; [done|]. destruct (j <? i) eqn:E; zify_bool; [lia|]. destruct (Z.eqb_spec j i) as [->|].
    + fold (slog_term (MemoryStorageOk.log ms) i). case_bool.
      destruct (slog_term_Some (MemoryStorageOk.log ms) i) as [t' ->]; [lia|done].
    + do 2 case_bool. rewrite lookup_drop.
      replace (Z.to_nat (i - _) + Z.to_nat (j - i - 1))%nat
        with (Z.to_nat (j - sl_offset (MemoryStorageOk.log ms) - 1)) by lia. done.
  - intros lo hi maxSize Hlo Hhi. rewrite !MemoryStorageOk.Entries_ok by (done || lia).
    rewrite Hl. simpl. case_bool. case_bool. unfold slog_slice. simpl. rewrite drop_drop.
    do 3 f_equal. lia.
Qed.

(** [CreateSnapshot] at an index of the log records that
    index with the term of its entry, the data and the configuration given
    (the previous one when none is), leaves the log alone, and [Snapshot]
    returns it; at or below the previous snapshot it is refused. *)
Theorem memoryStorage_createSnapshot i cs data ms :
  MemoryStorageOk.ok ms → sl_offset (storage_log ms) ≤ i ≤ sl_last (storage_log ms) →
  let prev := Snapshot.Metadata (MemoryStorage.snapshot ms) in
  if i <=? SnapshotMetadata.Index prev
  then MemoryStorage.CreateSnapshot i cs data ms = Err ErrSnapOutOfDate
  else ∃ ms' snap, MemoryStorage.CreateSnapshot i cs data ms = Ret (ms', snap) ∧
    MemoryStorage.Snapshot_ ms' = Ret snap ∧ MemoryStorage.ents ms' = MemoryStorage.ents ms ∧
    SnapshotMetadata.Index (Snapshot.Metadata snap) = i ∧
    MemoryStorage.Term ms i = Ret (SnapshotMetadata.Term (Snapshot.Metadata snap)) ∧
    Snapshot.Data snap = data ∧
    MemoryStorage.InitialState ms' =
      Ret (MemoryStorage.hardState ms, default (SnapshotMetadata.ConfState_ prev) cs).
Proof.
  simpl. intros Hok Hi. case_bool.
  - unfold MemoryStorage.CreateSnapshot. by case_bool.
  - destruct (MemoryStorageOk.CreateSnapshot_ok i cs data ms)
      as (ms' & snap & HC & Hs & He & Hh & Hx & Ht & Hd & Hcs); [done..|].
    pose proof (proj2 Hok) as [Ho Hcont Hb].
    exists ms', snap. rewrite MemoryStorageOk.Term_ok, <- Ht by (done || lia).
    unfold MemoryStorage.Snapshot_, MemoryStorage.InitialState. rewrite Hs, Hh, Hcs.
    split_and!; try done. by case_bool.
Qed.

(** The ways a MemoryStorage changes: the callers of [Append] pass contiguous
    entries (its documented precondition), and indices stay below 2^63. *)
Inductive ms_step : MemoryStorage.t → MemoryStorage.t → Prop :=
  | ms_step_SetHardState ms ms' st :
      MemoryStorage.SetHardState st ms = Ret ms' → ms_step ms ms'
  | ms_step_Append ms ms' f es :
      contiguous f es → 0 ≤ f → f + len es < 2 ^ 63 - 1 →
      MemoryStorage.Append es ms = Ret ms' → ms_step ms ms'
  | ms_step_Compact ms ms' i :
      0 ≤ i → MemoryStorage.Compact i ms = Ret ms' → ms_step ms ms'
  | ms_step_ApplySnapshot ms ms' snap :
      0 ≤ SnapshotMetadata.Index (Snapshot.Metadata snap) < 2 ^ 63 - 1 →
      MemoryStorage.ApplySnapshot snap ms = Ret ms' → ms_step ms ms'
  | ms_step_CreateSnapshot ms ms' i cs data snap :
      MemoryStorage.CreateSnapshot i cs data ms = Ret (ms', snap) → ms_step ms ms'.

Lemma CreateSnapshot_ents i cs data ms ms' snap :
  MemoryStorage.CreateSnapshot i cs data ms = Ret (ms', snap) →
  MemoryStorage.ents ms' = MemoryStorage.ents ms.
Proof.
  unfold MemoryStorage.CreateSnapshot. intros H. case_match; [done|].
  apply outcome_bind_Ret in H as (e0 & _ & H). apply outcome_bind_Ret in H as (last & _ & H).
  case_match; [done|]. apply outcome_bind_Ret in H as (e & _ & H). by injection H as <- _.
Qed.

Lemma Compact_range i ms ms' :
  MemoryStorageOk.ok ms → MemoryStorage.Compact i ms = Ret ms' →
  sl_offset (storage_log ms) < i ≤ sl_last (storage_log ms).
Proof.
  intros Hok HC. unfold MemoryStorage.Compact in HC. simpl.
  rewrite MemoryStorageOk.ms_lastIndex_ok in HC by done.
  destruct (MemoryStorageOk.ok_inv _ Hok) as (e0 & es0 & He0 & Hl & _).
  rewrite He0, go_index_0 in HC. simpl in HC. rewrite Hl in *. simpl.
  case_match; [done|]. case_match; [done|]. zify_bool. done.
Qed.

Lemma ms_step_ok ms ms' : ms_step ms ms' → MemoryStorageOk.ok ms → MemoryStorageOk.ok ms'.
Proof.
  intros [ms0 ms1 st H|ms0 ms1 f es Hc Hf Hb H|ms0 ms1 i Hi H|ms0 ms1 snap Hb H
         |ms0 ms1 i cs data snap H] Hok.
  - by injection H as <-.
  - destruct es as [|e es]; [by injection H as <-|].
    destruct (decide (sl_offset (MemoryStorageOk.log ms0) + 1 ≤ f + len (e :: es) - 1)).
    + destruct (decide (f ≤ sl_last (MemoryStorageOk.log ms0) + 1)).
      * destruct (MemoryStorageOk.Append_ok ms0 f (e :: es)) as (ms2 & HA & ? & _); try (done || lia).
        congruence.
      * rewrite (MemoryStorageOk.Append_gap ms0 f e es) in H by (done || lia). done.
    + rewrite (MemoryStorageOk.Append_old ms0 f (e :: es)) in H by (done || lia). congruence.
  - pose proof (Compact_range _ _ _ Hok H).
    destruct (MemoryStorageOk.Compact_ok ms0 i) as (ms2 & ? & ? & _); [done..|]. congruence.
  - destruct (decide (SnapshotMetadata.Index (Snapshot.Metadata (MemoryStorage.snapshot ms0))
      < SnapshotMetadata.Index (Snapshot.Metadata snap))).
    + destruct (MemoryStorageOk.ApplySnapshot_ok snap ms0) as (ms2 & ? & ? & _); [done..|].
      congruence.
    + unfold MemoryStorage.ApplySnapshot in H. case_match; [done|]. zify_bool. lia.
  - apply CreateSnapshot_ents in H. unfold MemoryStorageOk.ok, MemoryStorageOk.log in *.
    by rewrite H.
Qed.


(** ** Instances at concrete inputs *)

Definition sample_entry (term index : Z) : Entry.t :=
  Entry.zero <| Entry.Term := term |> <| Entry.Index := index |>.
Definition sample_storage : MemoryStorage.t :=
  MemoryStorage.mk HardState.zero Snapshot.zero
    [sample_entry 1 3; sample_entry 1 4; sample_entry 1 5; sample_entry 2 6].

Ltac contiguous_list :=
  repeat (apply MemoryStorageOk.contiguous_cons; split; [done|]); by intros ?? ?.

Lemma sample_storage_ok : MemoryStorageOk.ok sample_storage.
Proof. eapply MemoryStorageOk.mk_ok; [done|done|contiguous_list|done]. Qed.

Lemma limitSize_longest_prefix_witness :
  let es := [sample_entry 1 3; sample_entry 1 4; sample_entry 1 5] in
  ∃ k, limitSize es 13 = Ret (take k es) ∧ (1 ≤ k ≤ length es)%nat ∧
    ((1 < k)%nat → totalSize (take k es) ≤ 13) ∧
    ((k < length es)%nat → 13 < totalSize (take (S k) es)).
Proof. apply limitSize_longest_prefix; [by vm_compute|done]. Defined.

Lemma memoryStorage_append_witness :
  ∃ ms', MemoryStorage.Append [sample_entry 3 5] sample_storage = Ret ms' ∧
    MemoryStorage.LastIndex ms' = Ret 5.
Proof.
  destruct (memoryStorage_append sample_storage 5 [sample_entry 3 5])
    as (ms' & HA & _ & _ & HL & _);
    [apply sample_storage_ok|done|contiguous_list|by vm_compute..|].
  by exists ms'.
Defined.

Lemma memoryStorage_compact_witness :
  ∃ ms', MemoryStorage.Compact 5 sample_storage = Ret ms' ∧ MemoryStorage.FirstIndex ms' = Ret 6.
Proof.
  destruct (memoryStorage_compact sample_storage 5) as (ms' & HC & _ & HF & _);
    [apply sample_storage_ok|by vm_compute|].
  by exists ms'.
Defined.

Lemma memoryStorage_createSnapshot_witness :
  ∃ ms' snap, MemoryStorage.CreateSnapshot 5 None (Some [1]) sample_storage = Ret (ms', snap) ∧
    MemoryStorage.Term sample_storage 5 = Ret (SnapshotMetadata.Term (Snapshot.Metadata snap)).
Proof.
  destruct (memoryStorage_createSnapshot 5 None (Some [1]) sample_storage)
    as (ms' & snap & HC & _ & _ & _ & HT & _); [apply sample_storage_ok|by vm_compute|].
  by exists ms', snap.
Defined.

