(* ===== verification/RaftLog.v ===== *)
(** * raft/log.go, raft/log_unstable.go: the log of a node

    [unstable] holds the entries not yet written to the storage, [raftLog]
    joins it with any implementation of the [Storage] interface.  The loggers
    are left out; [logger.Panicf] panics. *)

From S2P Require Import Prelude RaftPb Storage.

Definition noLimit : Z := 2 ^ 64 - 1.

(** ** log_unstable.go *)
Module unstable.
Record t := mk { snapshot : option Snapshot.t; entries : list Entry.t; offset : Z }.

Definition snapIndex (s : Snapshot.t) : Z := SnapshotMetadata.Index (Snapshot.Metadata s).
Definition snapTerm (s : Snapshot.t) : Z := SnapshotMetadata.Term (Snapshot.Metadata s).

(** The methods with a boolean second result return [None] for [(0, false)]. *)
Definition maybeFirstIndex (u : t) : option Z :=
  match snapshot u with Some s => Some (snapIndex s ⊕ 1) | None => None end.

Definition maybeLastIndex (u : t) : option Z :=
  let l := len (entries u) in
  if negb (l =? 0) then Some (offset u ⊕ l ⊖ 1) else
  match snapshot u with Some s => Some (snapIndex s) | None => None end.

Definition maybeTerm (u : t) (i : Z) : outcome (option Z) :=
  if i <? offset u then
    match snapshot u with
    | None => Ret None
    | Some s => if snapIndex s =? i then Ret (Some (snapTerm s)) else Ret None
    end
  else
  match maybeLastIndex u with
  | None => Ret None
  | Some last =>
      if i >? last then Ret None else
      e ← go_index (entries u) (i ⊖ offset u);
      Ret (Some (Entry.Term e))
  end.

(** [cap] is [cap(u.entries)], the capacity of the underlying array. *)
Definition shrinkEntriesArray (cap : Z) (u : t) : t :=
  let lenMultiple := 2 in
  if len (entries u) =? 0 then u <| entries := [] |>
  else if len (entries u) * lenMultiple <? cap then
    let newEntries := replicate (length (entries u)) Entry.zero in
    u <| entries := take (length newEntries) (entries u) |>
  else u.

Definition stableTo (cap i t : Z) (u : unstable.t) : outcome unstable.t :=
  gt ← maybeTerm u i;
  match gt with
  | None => Ret u
  | Some gt =>
      if (gt =? t) && (i >=? offset u) then
        es ← go_slice (entries u) (i ⊕ 1 ⊖ offset u) (len (entries u));
        Ret (shrinkEntriesArray cap (u <| entries := es |> <| offset := i ⊕ 1 |>))
      else Ret u
  end.

Definition mustCheckOutOfBounds (u : t) (lo hi : Z) : outcome unit :=
  if lo >? hi then Panic (PanicString "invalid unstable.slice") else
  let upper := offset u ⊕ len (entries u) in
  if (lo <? offset u) || (hi >? upper) then Panic (PanicString "unstable.slice out of bound")
  else Ret tt.

Definition slice (u : t) (lo hi : Z) : outcome (list Entry.t) :=
  _ ← mustCheckOutOfBounds u lo hi;
  go_slice (entries u) (lo ⊖ offset u) (hi ⊖ offset u).

Definition truncateAndAppend (ents : list Entry.t) (u : t) : outcome t :=
  e ← go_index ents 0;
  let after := Entry.Index e in
  if after =? offset u ⊕ len (entries u) then
    Ret (u <| entries := entries u ++ ents |>)
  else if after <=? offset u then
    Ret (u <| offset := after |> <| entries := ents |>)
  else
    kept ← slice u (offset u) after;
    Ret (u <| entries := kept ++ ents |>).
End unstable.

(** ** log.go *)

(** [if err != nil { panic(err) }] *)
Definition must {A} (m : outcome A) : outcome A :=
  match m with Err _ => Panic (PanicString "storage error") | _ => m end.

Module raftLog.
Record t {S : Type} := mk {
  storage : S; unstable_ : unstable.t; committed : Z; applied : Z; maxNextEntsSize : Z }.
Arguments t S : clear implicits.

Section Ops.
Context {S : Type} `{!Storage S}.

Definition newLogWithSize (st : S) (maxNextEntsSize : Z) : outcome (t S) :=
  firstIndex ← must (FirstIndex st);
  lastIndex ← must (LastIndex st);
  Ret {| storage := st;
         unstable_ := unstable.mk None [] (lastIndex ⊕ 1);
         committed := firstIndex ⊖ 1;
         applied := firstIndex ⊖ 1;
         maxNextEntsSize := maxNextEntsSize |}.

Definition newLog (st : S) : outcome (t S) := newLogWithSize st noLimit.

Definition firstIndex (l : t S) : outcome Z :=
  match unstable.maybeFirstIndex (unstable_ l) with
  | Some i => Ret i
  | None => must (FirstIndex (storage l))
  end.

Definition lastIndex (l : t S) : outcome Z :=
  match unstable.maybeLastIndex (unstable_ l) with
  | Some i => Ret i
  | None => must (LastIndex (storage l))
  end.

Definition append (ents : list Entry.t) (l : t S) : outcome (t S * Z) :=
  match ents with
  | [] => last ← lastIndex l; Ret (l, last)
  | e :: _ =>
      let after := Entry.Index e ⊖ 1 in
      if after <? committed l then Panic (PanicString "after is out of range") else
      u ← unstable.truncateAndAppend ents (unstable_ l);
      let l := l <| unstable_ := u |> in
      last ← lastIndex l;
      Ret (l, last)
  end.

Definition unstableEntries (l : t S) : list Entry.t :=
  if len (unstable.entries (unstable_ l)) =? 0 then [] else unstable.entries (unstable_ l).

Definition mustCheckOutOfBounds (l : t S) (lo hi : Z) : outcome unit :=
  if lo >? hi then Panic (PanicString "invalid slice") else
  fi ← firstIndex l;
  if lo <? fi then Err ErrCompacted else
  last ← lastIndex l;
  let length := last ⊕ 1 ⊖ fi in
  if (lo <? fi) || (hi >? fi ⊕ length) then Panic (PanicString "slice out of bound")
  else Ret tt.

(** The part of [slice] that the storage provides: [inl] when the size limit
    was reached there and the function returns. *)
Definition storedSlice (l : t S) (lo hi maxSize : Z) : outcome (list Entry.t + list Entry.t) :=
  let off := unstable.offset (unstable_ l) in
  if lo <? off then
    storedEnts ←
      match Entries (storage l) lo (min hi off) maxSize with
      | Err ErrCompacted => Err ErrCompacted
      | Err ErrUnavailable => Panic (PanicString "entries is unavailable from storage")
      | Err _ => Panic (PanicString "storage error")
      | r => r
      end;
    if len storedEnts <? min hi off ⊖ lo then Ret (inl storedEnts) else Ret (inr storedEnts)
  else Ret (inr []).

Definition slice (l : t S) (lo hi maxSize : Z) : outcome (list Entry.t) :=
  _ ← mustCheckOutOfBounds l lo hi;
  if lo =? hi then Ret [] else
  stored ← storedSlice l lo hi maxSize;
  match stored with
  | inl ents => Ret ents
  | inr ents =>
      let off := unstable.offset (unstable_ l) in
      ents ←
        (if hi >? off then
           unst ← unstable.slice (unstable_ l) (max lo off) hi;
           Ret (if len ents >? 0 then ents ++ unst else unst)
         else Ret ents);
      limitSize ents maxSize
  end.

Definition nextEnts (l : t S) : outcome (list Entry.t) :=
  first ← firstIndex l;
  let off := max (applied l ⊕ 1) first in
  if committed l ⊕ 1 >? off then
    match slice l off (committed l ⊕ 1) (maxNextEntsSize l) with
    | Err _ => Panic (PanicString "unexpected error when getting unapplied entries")
    | r => r
    end
  else Ret [].

Definition hasNextEnts (l : t S) : outcome bool :=
  first ← firstIndex l;
  let off := max (applied l ⊕ 1) first in
  Ret (committed l ⊕ 1 >? off).

Definition stableTo (cap i t : Z) (l : raftLog.t S) : outcome (raftLog.t S) :=
  u ← unstable.stableTo cap i t (unstable_ l);
  Ret (l <| unstable_ := u |>).

Definition term (l : t S) (i : Z) : outcome Z :=
  first ← firstIndex l;
  let dummyIndex := first ⊖ 1 in
  if i <? dummyIndex then Ret 0 else
  last ← lastIndex l;
  if i >? last then Ret 0 else
  mt ← unstable.maybeTerm (unstable_ l) i;
  match mt with
  | Some t => Ret t
  | None =>
      match Term (storage l) i with
      | Err ErrCompacted => Err ErrCompacted
      | Err ErrUnavailable => Err ErrUnavailable
      | Err _ => Panic (PanicString "storage error")
      | r => r
      end
  end.

Definition lastTerm (l : t S) : outcome Z :=
  last ← lastIndex l;
  match term l last with
  | Err _ => Panic (PanicString "unexpected error when getting the last term")
  | r => r
  end.
End Ops.
End raftLog.

(** ** The log as one sequence

    The entries of the storage up to the unstable offset, then the unstable
    ones: the log the node sees, as an abstract [slog]. *)

Abbreviation stored l := (storage_log (raftLog.storage l)).
Abbreviation uoffset l := (unstable.offset (raftLog.unstable_ l)).
Abbreviation uentries l := (unstable.entries (raftLog.unstable_ l)).

Section Abstract.
Context {S : Type} `{!Storage S, !StorageLaws S}.
Implicit Types (l : raftLog.t S) (u : unstable.t).

Definition log_abs l : slog :=
  SLog (sl_offset (stored l)) (sl_term (stored l))
    (take (Z.to_nat (uoffset l - sl_offset (stored l) - 1)) (sl_ents (stored l)) ++ uentries l).

(** The invariant.  Nothing in the code stores an unstable snapshot. *)
Record log_ok l : Prop := {
  ok_storage : storage_ok (raftLog.storage l);
  ok_snapshot : unstable.snapshot (raftLog.unstable_ l) = None;
  ok_offset : sl_offset (stored l) < uoffset l ≤ sl_last (stored l) + 1;
  ok_entries : contiguous (uoffset l) (uentries l);
  ok_bound : uoffset l + len (uentries l) ≤ 2 ^ 63 - 1;
  ok_empty : uentries l = [] → uoffset l = sl_last (stored l) + 1;
  ok_committed :
    sl_offset (stored l) ≤ raftLog.applied l ≤ raftLog.committed l ∧
    raftLog.committed l ≤ sl_last (log_abs l);
}.

Lemma log_abs_last l : log_ok l → sl_last (log_abs l) = uoffset l + len (uentries l) - 1.
Proof.
  intros [_ _ Ho _ _ _ _]. unfold sl_last, log_abs in *. simpl. rewrite len_app, len_take.
  unfold sl_last in Ho. lia.
Qed.

Lemma log_abs_wf l : log_ok l → slog_wf (log_abs l).
Proof.
  intros Hok. pose proof (log_abs_last l Hok) as Hl.
  destruct Hok as [Hs _ Ho Hc Hb _ _]. destruct (storage_ok_wf _ Hs) as [Hs1 Hs2 Hs3].
  split; [done| |lia]. unfold log_abs. simpl. unfold sl_last in *.
  apply MemoryStorageOk.contiguous_app; [by apply MemoryStorageOk.contiguous_take|].
  rewrite len_take. replace (_ + _ + _) with (uoffset l) by lia. done.
Qed.

(** A numeric summary for [lia]. *)
Lemma log_bounds l :
  log_ok l →
  0 ≤ sl_offset (stored l) ∧ sl_offset (stored l) < uoffset l ≤ sl_last (stored l) + 1 ∧
  sl_last (stored l) < 2 ^ 63 - 1 ∧ 0 ≤ len (uentries l) ∧
  uoffset l + len (uentries l) ≤ 2 ^ 63 - 1 ∧
  sl_last (log_abs l) = uoffset l + len (uentries l) - 1 ∧
  sl_offset (stored l) ≤ raftLog.applied l ≤ raftLog.committed l ∧
  raftLog.committed l ≤ sl_last (log_abs l).
Proof.
  intros Hok. pose proof (log_abs_last l Hok).
  destruct Hok as [Hs _ Ho Hc Hb _ Hcm]. destruct (storage_ok_wf _ Hs) as [Hs1 Hs2 Hs3].
  pose proof (len_nonneg (uentries l)). split_and!; try done; lia.
Qed.

Lemma firstIndex_ok l : log_ok l → raftLog.firstIndex l = Ret (sl_offset (log_abs l) + 1).
Proof.
  intros [Hs Hsn _ _ _ _ _]. unfold raftLog.firstIndex, unstable.maybeFirstIndex.
  rewrite Hsn, law_FirstIndex by done. done.
Qed.

Lemma lastIndex_ok l : log_ok l → raftLog.lastIndex l = Ret (sl_last (log_abs l)).
Proof.
  intros Hok. pose proof (log_bounds l Hok) as (?&?&?&?&?&->&_).
  destruct Hok as [Hs Hsn Ho Hc Hb He _].
  unfold raftLog.lastIndex, unstable.maybeLastIndex. case_bool.
  - unwrap. done.
  - rewrite Hsn, law_LastIndex by done. simpl. apply (f_equal Ret).
    rewrite He by (by apply len_0). lia.
Qed.

(** [maybeTerm] reads the unstable part. *)
Lemma maybeTerm_ok l i :
  log_ok l → 0 ≤ i ≤ sl_last (log_abs l) →
  unstable.maybeTerm (raftLog.unstable_ l) i =
  Ret (if i <? uoffset l then None else slog_term (log_abs l) i).
Proof.
  intros Hok Hi. pose proof (log_bounds l Hok) as (H0&H1&H2&H3&H4&HL&_).
  destruct Hok as [Hs Hsn Ho Hc Hb He _].
  unfold unstable.maybeTerm, unstable.maybeLastIndex. rewrite Hsn.
  destruct (i <? uoffset l) eqn:E; [done|]. zify_bool.
  case_bool. unwrap. case_bool. unwrap.
  destruct (go_index_in_range (uentries l) (i - uoffset l)) as (e & -> & Hlk); [lia|].
  simpl. unfold slog_term, log_abs. simpl. case_bool. case_bool.
  unfold sl_last in *.
  rewrite lookup_app_r by (rewrite length_take; unfold len in *; lia).
  rewrite length_take. replace (_ - _)%nat with (Z.to_nat (i - uoffset l)) by (unfold len in *; lia).
  by rewrite Hlk.
Qed.

Lemma slog_term_stored l i :
  log_ok l → i < uoffset l → slog_term (log_abs l) i = slog_term (stored l) i.
Proof.
  intros Hok Hi. pose proof (log_bounds l Hok) as (H0&H1&H2&H3&H4&HL&_).
  unfold slog_term, log_abs. simpl. case_bool; [done|]. case_bool; [done|].
  unfold sl_last in *.
  rewrite lookup_app_l by (rewrite length_take; unfold len in *; lia).
  by rewrite lookup_take_lt by lia.
Qed.

(** [term]: the term of the entry at [i], 0 outside the log. *)
Lemma term_ok l i :
  log_ok l → is_u64 i →
  raftLog.term l i = Ret (default 0 (slog_term (log_abs l) i)).
Proof.
  intros Hok Hi. pose proof (log_bounds l Hok) as (H0&H1&H2&H3&H4&HL&_). unfold is_u64 in Hi.
  unfold raftLog.term. rewrite firstIndex_ok by done. simpl. unwrap.
  destruct (i <? _) eqn:E; zify_bool.
  { unfold slog_term. simpl. by case_bool. }
  rewrite lastIndex_ok by done. simpl. case_bool.
  { by rewrite slog_term_None. }
  rewrite maybeTerm_ok by (done || lia). simpl.
  destruct (slog_term_Some (log_abs l) i) as [t Ht]; [simpl; lia|].
  destruct (i <? uoffset l) eqn:E'; zify_bool; rewrite Ht; [|done].
  rewrite law_Term by (try apply Hok; lia).
  rewrite <- slog_term_stored, Ht by done. by case_bool.
Qed.

Lemma lastTerm_ok l :
  log_ok l → ∃ t, raftLog.lastTerm l = Ret t ∧ slog_term (log_abs l) (sl_last (log_abs l)) = Some t.
Proof.
  intros Hok. pose proof (log_bounds l Hok) as (H0&H1&H2&H3&H4&HL&_).
  destruct (slog_term_Some (log_abs l) (sl_last (log_abs l))) as [t Ht]; [simpl; lia|].
  exists t. unfold raftLog.lastTerm. rewrite lastIndex_ok by done. simpl.
  rewrite term_ok by (done || (unfold is_u64; lia)). by rewrite Ht.
Qed.

(** *** slice *)

(** The size limit is reached in a prefix or not at all. *)
Lemma limit_loop_app r1 r2 maxSize size limit :
  limit_loop r1 maxSize size limit < limit + len r1 →
  limit_loop (r1 ++ r2) maxSize size limit = limit_loop r1 maxSize size limit.
Proof.
  revert size limit. induction r1 as [|e r1 IH]; intros size limit; simpl.
  - rewrite len_nil. lia.
  - rewrite len_cons. case_bool. intros H. apply IH. lia.
Qed.

Lemma limitSize_app a b maxSize :
  ∃ r, limitSize a maxSize = Ret r ∧
    (len r < len a → limitSize (a ++ b) maxSize = Ret r) ∧ (len a ≤ len r → r = a).
Proof.
  destruct (limitSize_prefix a maxSize) as (k & Hk & Hle & _). exists (take k a).
  split_and!; [done| |].
  - destruct a as [|e rest]; [rewrite len_take, len_nil; lia|]. intros Hlt. revert Hk.
    unfold limitSize. simpl.
    pose proof (limit_loop_bounds rest maxSize (Entry.Size e) 1) as Hb.
    set (n := limit_loop rest maxSize (Entry.Size e) 1) in *.
    rewrite go_slice_prefix by (rewrite len_cons; lia). intros [= Htk].
    assert (Hn : n < 1 + len rest).
    { rewrite <- Htk, len_take, len_cons in Hlt. lia. }
    rewrite limit_loop_app by (fold n; lia). fold n.
    rewrite go_slice_prefix by (rewrite len_cons, len_app; pose proof (len_nonneg b); lia).
    rewrite <- Htk. rewrite app_comm_cons, take_app_le; [done|]. simpl. unfold len in *. lia.
  - rewrite len_take. intros. apply take_ge. unfold len in *. lia.
Qed.

Lemma slog_slice_length L lo hi :
  sl_offset L < lo → lo ≤ hi → hi ≤ sl_last L + 1 → len (slog_slice L lo hi) = hi - lo.
Proof. intros. unfold slog_slice, sl_last in *. rewrite len_take, len_drop. lia. Qed.

(** A slice of the log is a slice of the storage followed by one of the
    unstable entries. *)
Lemma slog_slice_split l lo hi :
  log_ok l → sl_offset (log_abs l) < lo → lo ≤ hi → hi ≤ sl_last (log_abs l) + 1 →
  let off := uoffset l in
  slog_slice (log_abs l) lo hi =
  (if lo <? off then slog_slice (stored l) lo (Z.min hi off) else [])
  ++ (if off <? hi then take (Z.to_nat (hi - Z.max lo off))
                          (drop (Z.to_nat (Z.max lo off - off)) (uentries l)) else []).
Proof.
  intros Hok Hlo Hle Hhi off. pose proof (log_bounds l Hok) as (H0&H1&H2&H3&H4&HL&_).
  fold off in H1, H4, HL. simpl in Hlo. unfold slog_slice, log_abs, sl_last in *. simpl.
  fold off.
  set (d := sl_offset (stored l)) in *. set (es := sl_ents (stored l)) in *.
  set (ue := uentries l) in *.
  assert (Hlen : length (take (Z.to_nat (off - d - 1)) es) = Z.to_nat (off - d - 1)).
  { rewrite length_take. unfold len in *. lia. }
  destruct (lo <? off) eqn:E1, (off <? hi) eqn:E2; zify_bool; rewrite ?app_nil_r, ?app_nil_l.
  - replace (Z.to_nat (Z.max lo off - off)) with 0%nat by lia. rewrite drop_0.
    rewrite drop_app_le, take_app by lia. rewrite length_drop, Hlen, !take_drop_commute, take_take.
    f_equal; f_equal; [f_equal|]; lia.
  - rewrite drop_app_le, take_app_le by (rewrite ?length_drop; lia).
    rewrite !take_drop_commute, take_take. do 2 f_equal. lia.
  - rewrite drop_app_ge by lia. rewrite Hlen. f_equal; [lia|]. f_equal. lia.
  - replace (Z.to_nat (hi - lo)) with 0%nat by lia. done.
Qed.

Lemma unstable_slice_ok l lo hi :
  log_ok l → uoffset l ≤ lo → lo ≤ hi → hi ≤ sl_last (log_abs l) + 1 →
  unstable.slice (raftLog.unstable_ l) lo hi =
  Ret (take (Z.to_nat (hi - lo)) (drop (Z.to_nat (lo - uoffset l)) (uentries l))).
Proof.
  intros Hok Hlo Hle Hhi. pose proof (log_bounds l Hok) as (H0&H1&H2&H3&H4&HL&_).
  unfold unstable.slice, unstable.mustCheckOutOfBounds. unwrap. case_bool. case_bool.
  simpl. rewrite go_slice_in_range by lia. do 2 f_equal. lia.
Qed.

Lemma mustCheckOutOfBounds_ok l lo hi :
  log_ok l → is_u64 lo → is_u64 hi →
  raftLog.mustCheckOutOfBounds l lo hi =
  if hi <? lo then Panic (PanicString "invalid slice")
  else if lo <=? sl_offset (log_abs l) then Err ErrCompacted
  else if sl_last (log_abs l) + 1 <? hi then Panic (PanicString "slice out of bound")
  else Ret tt.
Proof.
  intros Hok Hlo Hhi. pose proof (log_bounds l Hok) as (H0&H1&H2&H3&H4&HL&_).
  unfold raftLog.mustCheckOutOfBounds, is_u64 in *. rewrite firstIndex_ok by done.
  rewrite Z.gtb_ltb. case_bool; [done|]. simpl. case_bool; [by case_bool|].
  rewrite lastIndex_ok by done. simpl. unwrap. repeat case_bool; done.
Qed.

(** The reference definition of [slice]: take the entries, then limit their
    size. *)
Definition slice_spec l (lo hi maxSize : Z) : outcome (list Entry.t) :=
  if hi <? lo then Panic (PanicString "invalid slice")
  else if lo <=? sl_offset (log_abs l) then Err ErrCompacted
  else if sl_last (log_abs l) + 1 <? hi then Panic (PanicString "slice out of bound")
  else limitSize (slog_slice (log_abs l) lo hi) maxSize.

Lemma min_Zmin a b : min a b = Z.min a b.
Proof. unfold min. case_bool; lia. Qed.
Lemma max_Zmax a b : max a b = Z.max a b.
Proof. unfold max. case_bool; lia. Qed.

Lemma slice_ok l lo hi maxSize :
  log_ok l → is_u64 lo → is_u64 hi → raftLog.slice l lo hi maxSize = slice_spec l lo hi maxSize.
Proof.
  intros Hok Hlo Hhi. unfold raftLog.slice, slice_spec. rewrite mustCheckOutOfBounds_ok by done.
  unfold is_u64 in *. destruct (hi <? lo) eqn:?; [done|].
  destruct (lo <=? sl_offset _) eqn:?; [done|].
  destruct (sl_last _ + 1 <? hi) eqn:?; [done|]. zify_bool. simpl.
  pose proof (log_bounds l Hok) as (H0&H1&H2&H3&H4&HL&_).
  destruct (Z.eqb_spec lo hi) as [->|Hne].
  { unfold slog_slice. rewrite Z.sub_diag. done. }
  rewrite slog_slice_split by (done || lia). unfold raftLog.storedSlice.
  rewrite min_Zmin, max_Zmax.
  set (st := if lo <? uoffset l then slog_slice (stored l) lo (Z.min hi (uoffset l)) else []).
  set (un := if uoffset l <? hi then _ else _).
  assert (Hun : (if hi >? uoffset l
      then unstable.slice (raftLog.unstable_ l) (Z.max lo (uoffset l)) hi else Ret []) = Ret un).
  { unfold un. rewrite Z.gtb_ltb. case_bool; [|done]. by rewrite unstable_slice_ok by (done || lia). }
  assert (Hfin : ∀ es, (es = st → 
     ('ents ← (if hi >? uoffset l then
           unst ← unstable.slice (raftLog.unstable_ l) (Z.max lo (uoffset l)) hi;
           Ret (if len es >? 0 then es ++ unst else unst)
         else Ret es); limitSize ents maxSize) = limitSize (st ++ un) maxSize)).
  { intros es ->. destruct (hi >? uoffset l) eqn:E.
    - rewrite Hun. simpl. destruct (len st >? 0) eqn:E0; [done|]. zify_bool.
      assert (st = []) as -> by (apply len_0; pose proof (len_nonneg st); lia). done.
    - injection Hun as <-. simpl. by rewrite app_nil_r. }
  destruct (lo <? uoffset l) eqn:E; zify_bool; [|by apply Hfin].
  rewrite law_Entries by (try apply Hok; simpl in *; lia).
  destruct (lo <=? sl_offset (stored l)) eqn:?; zify_bool; [simpl in *; lia|]. fold st.
  destruct (limitSize_app st un maxSize) as (r & -> & Hlt & Hge). rewrite !bind_Ret.
  assert (Hst : len st = Z.min hi (uoffset l) - lo).
  { unfold st. apply slog_slice_length; simpl in *; lia. }
  unwrap. destruct (len r <? _) eqn:E1; zify_bool; rewrite !bind_Ret.
  - symmetry. apply Hlt. lia.
  - apply Hfin, Hge. lia.
Qed.

(** *** The committed entries that are not applied *)

Lemma nextEnts_ok l :
  log_ok l →
  raftLog.nextEnts l =
  limitSize (slog_slice (log_abs l) (raftLog.applied l + 1) (raftLog.committed l + 1))
    (raftLog.maxNextEntsSize l).
Proof.
  intros Hok. pose proof (log_bounds l Hok) as (H0&H1&H2&H3&H4&HL&H5&H6).
  unfold raftLog.nextEnts. rewrite firstIndex_ok by done. rewrite bind_Ret, max_Zmax. unwrap.
  simpl. replace (Z.max _ _) with (raftLog.applied l + 1) by lia.
  destruct (_ >? _) eqn:E; zify_bool.
  - rewrite slice_ok by (done || unfold is_u64; lia). unfold slice_spec. simpl.
    repeat case_bool.
    destruct (limitSize_prefix (slog_slice (log_abs l) (raftLog.applied l + 1)
      (raftLog.committed l + 1)) (raftLog.maxNextEntsSize l)) as (k & -> & _). done.
  - unfold slog_slice. replace (Z.to_nat _) with 0%nat by lia. done.
Qed.

Lemma hasNextEnts_ok l :
  log_ok l → raftLog.hasNextEnts l = Ret (raftLog.applied l <? raftLog.committed l).
Proof.
  intros Hok. pose proof (log_bounds l Hok) as (H0&H1&H2&H3&H4&HL&H5&H6).
  unfold raftLog.hasNextEnts. rewrite firstIndex_ok by done. rewrite bind_Ret, max_Zmax. unwrap.
  simpl. apply (f_equal Ret). rewrite Z.gtb_ltb.
  destruct (raftLog.applied l <? _) eqn:E; zify_bool; [apply Z.ltb_lt|apply Z.ltb_ge]; lia.
Qed.

(** *** Appending *)

Lemma newLog_ok (st : S) maxSize :
  storage_ok st → ∃ l, raftLog.newLogWithSize st maxSize = Ret l ∧ log_ok l ∧
    log_abs l = storage_log st ∧ raftLog.storage l = st ∧
    raftLog.committed l = sl_offset (storage_log st) ∧ raftLog.applied l = sl_offset (storage_log st).
Proof.
  intros Hs. destruct (storage_ok_wf _ Hs) as [Ho Hc Hb].
  unfold raftLog.newLogWithSize. rewrite law_FirstIndex, law_LastIndex by done. simpl.
  unfold sl_last in *. pose proof (len_nonneg (sl_ents (storage_log st))). unwrap.
  eexists. split; [done|].
  assert (Habs : ∀ l, raftLog.storage l = st → uentries l = [] →
    uoffset l = sl_offset (storage_log st) + len (sl_ents (storage_log st)) + 1 →
    log_abs l = storage_log st).
  { intros l Hst Hue Hoff. unfold log_abs. rewrite Hst, Hue, Hoff, app_nil_r, take_ge
      by (unfold len; lia). by destruct (storage_log st). }
  split_and!; [|by apply Habs|done|simpl; lia|simpl; lia].
  split; try done; rewrite ?Habs by done; unfold sl_last; simpl; rewrite ?len_nil; lia.
Qed.

Lemma truncateAndAppend_ok l f es :
  log_ok l → es ≠ [] → contiguous f es →
  sl_offset (log_abs l) < f ≤ sl_last (log_abs l) + 1 →
  ∃ u, unstable.truncateAndAppend es (raftLog.unstable_ l) = Ret u ∧
    unstable.snapshot u = None ∧ unstable.offset u = Z.min f (uoffset l) ∧
    unstable.entries u = take (Z.to_nat (f - uoffset l)) (uentries l) ++ es.
Proof.
  intros Hok Hne Hc Hf. pose proof (log_bounds l Hok) as (H0&H1&H2&H3&H4&HL&H5&H6).
  destruct es as [|e es]; [done|]. apply MemoryStorageOk.contiguous_cons in Hc as [He _].
  unfold unstable.truncateAndAppend. rewrite go_index_0, bind_Ret, He. unwrap.
  pose proof (ok_snapshot l Hok) as Hsn. case_bool; [|case_bool].
  - eexists. split; [done|]. simpl. split_and!; [done|lia|].
    rewrite take_ge; [done|]. unfold len in *. lia.
  - eexists. split; [done|]. simpl. split_and!; [done|lia|].
    by replace (Z.to_nat _) with 0%nat by lia.
  - rewrite unstable_slice_ok by (done || lia). simpl. eexists. split; [done|]. simpl.
    split_and!; [done|lia|]. by rewrite Z.sub_diag, drop_0.
Qed.

(** [append] replaces the log from the first new index on. *)
Lemma append_ok l f es :
  log_ok l → es ≠ [] → contiguous f es → f + len es < 2 ^ 63 - 1 →
  raftLog.committed l < f ≤ sl_last (log_abs l) + 1 →
  ∃ l', raftLog.append es l = Ret (l', f + len es - 1) ∧ log_ok l' ∧
    log_abs l' = MemoryStorageOk.appended (log_abs l) f es ∧
    raftLog.storage l' = raftLog.storage l ∧ raftLog.committed l' = raftLog.committed l ∧
    raftLog.applied l' = raftLog.applied l ∧
    raftLog.maxNextEntsSize l' = raftLog.maxNextEntsSize l.
Proof.
  intros Hok Hne Hc Hb Hf. pose proof (log_bounds l Hok) as (H0&H1&H2&H3&H4&HL&H5&H6).
  destruct (truncateAndAppend_ok l f es) as (u & Hu & Hsn & Hoff & Hent); try (done || simpl; lia).
  pose (l' := l <| raftLog.unstable_ := u |>).
  assert (Habs : log_abs l' = MemoryStorageOk.appended (log_abs l) f es).
  { unfold l', log_abs, MemoryStorageOk.appended. simpl. rewrite Hoff, Hent. f_equal.
    replace (Z.max f _) with f by lia. rewrite Z.sub_diag, drop_0, app_assoc. f_equal.
    destruct (decide (f ≤ uoffset l)).
    - replace (Z.to_nat (f - uoffset l)) with 0%nat by lia.
      rewrite app_nil_r, take_app_le by (rewrite length_take; unfold sl_last, len in *; lia).
      rewrite take_take. f_equal. lia.
    - rewrite take_app, length_take, take_take. f_equal; f_equal; unfold sl_last, len in *; lia. }
  assert (Hlen : len (unstable.entries u) = f + len es - Z.min f (uoffset l)).
  { rewrite Hent, len_app, len_take. unfold len in *. lia. }
  pose proof (len_nonneg es).
  assert (Hlast : sl_last (log_abs l') = f + len es - 1).
  { rewrite Habs. unfold sl_last, MemoryStorageOk.appended in *. simpl.
    rewrite len_app, len_take, len_drop. unfold log_abs in *. simpl in *. lia. }
  assert (Hpos : 0 < len es).
  { destruct es; [done|]. rewrite len_cons. pose proof (len_nonneg es). lia. }
  assert (Hok' : log_ok l').
  { destruct Hok as [Hs _ Ho He _ _ _]. split; unfold l'; simpl; try done.
    - rewrite Hoff. lia.
    - rewrite Hoff, Hent. apply MemoryStorageOk.contiguous_app.
      + destruct (decide (f ≤ uoffset l)).
        * replace (Z.to_nat (f - uoffset l)) with 0%nat by lia. by intros ???.
        * rewrite Z.min_r by lia. by apply MemoryStorageOk.contiguous_take.
      + rewrite len_take. replace (_ + _) with f by lia. done.
    - rewrite Hoff. lia.
    - intros Hn. rewrite Hn, len_nil in Hlen. lia.
    - fold l'. lia. }
  exists l'. split_and!; try done.
  destruct es as [|e es]; [done|]. apply MemoryStorageOk.contiguous_cons in Hc as [He _].
  unfold raftLog.append. rewrite He. unwrap. case_bool. rewrite Hu. simpl. fold l'.
  rewrite lastIndex_ok by done. simpl. by rewrite Hlast.
Qed.

Lemma append_committed_panics l e es :
  log_ok l → 0 < Entry.Index e < 2 ^ 63 → Entry.Index e ≤ raftLog.committed l →
  raftLog.append (e :: es) l = Panic (PanicString "after is out of range").
Proof. intros Hok He Hc. unfold raftLog.append. unwrap. by case_bool. Qed.

(** *** Persisting *)

Lemma shrinkEntriesArray_ok cap u : unstable.shrinkEntriesArray cap u = u.
Proof.
  destruct u as [sn es off]. unfold unstable.shrinkEntriesArray. simpl. case_bool.
  - by apply len_0 in Heqb as ->.
  - case_bool; [|done]. by rewrite length_replicate, take_ge.
Qed.

(** [stableTo i t] with the term [t] of the unstable entry at [i]: the entries
    up to [i] leave the unstable part; otherwise nothing changes. *)
Lemma stableTo_ok cap l i t :
  log_ok l → is_u64 i →
  raftLog.stableTo cap i t l =
  Ret (if decide (uoffset l ≤ i ∧ slog_term (log_abs l) i = Some t)
       then l <| raftLog.unstable_ := unstable.mk None
                   (drop (Z.to_nat (i + 1 - uoffset l)) (uentries l)) (i + 1) |>
       else l).
Proof.
  intros Hok Hi. pose proof (log_bounds l Hok) as (H0&H1&H2&H3&H4&HL&H5&H6). unfold is_u64 in Hi.
  unfold raftLog.stableTo, unstable.stableTo. pose proof (ok_snapshot l Hok) as Hsn.
  assert (Hsame : l <| raftLog.unstable_ := raftLog.unstable_ l |> = l) by (by destruct l).
  destruct (decide (i ≤ sl_last (log_abs l))).
  - rewrite maybeTerm_ok by (done || lia). simpl. destruct (i <? uoffset l) eqn:E; zify_bool.
    { simpl. rewrite decide_False by lia. by rewrite Hsame. }
    destruct (slog_term_Some (log_abs l) i) as [gt Hgt]; [simpl; lia|]. rewrite Hgt.
    destruct (Z.eqb_spec gt t) as [->|]; simpl.
    + rewrite decide_True by done. case_bool. unwrap.
      rewrite go_slice_suffix by lia. simpl. rewrite shrinkEntriesArray_ok.
      destruct (raftLog.unstable_ l) as [sn es off]. simpl in *. by subst.
    + rewrite decide_False by naive_solver. by rewrite Hsame.
  - rewrite decide_False by (rewrite slog_term_None by lia; naive_solver).
    unfold unstable.maybeTerm, unstable.maybeLastIndex. rewrite Hsn. unwrap.
    repeat case_bool; simpl; by rewrite Hsame.
Qed.
End Abstract.

(** ** Properties *)

Section Properties.
Context {S : Type} `{!Storage S, !StorageLaws S}.
Implicit Types (l : raftLog.t S).

(** C5 (refinement): whatever implements [Storage] lawfully, the raft log
    behaves as one sequence of entries ([log_abs]: the stored entries up to
    the unstable offset, then the unstable ones).  Its first and last index,
    the term at any index (0 outside the log) and the last term are those of
    the sequence, and [slice], which reads the two parts separately and
    applies the size limit twice, returns what limiting the slice of the
    whole sequence once returns, with the same errors and panics. *)
Theorem raftLog_refines_sequence l :
  log_ok l →
  slog_wf (log_abs l) ∧
  raftLog.firstIndex l = Ret (sl_offset (log_abs l) + 1) ∧
  raftLog.lastIndex l = Ret (sl_last (log_abs l)) ∧
  (∀ i, is_u64 i → raftLog.term l i = Ret (default 0 (slog_term (log_abs l) i))) ∧
  (∃ t, raftLog.lastTerm l = Ret t ∧ slog_term (log_abs l) (sl_last (log_abs l)) = Some t) ∧
  (∀ lo hi maxSize, is_u64 lo → is_u64 hi →
     raftLog.slice l lo hi maxSize =
     if hi <? lo then Panic (PanicString "invalid slice")
     else if lo <=? sl_offset (log_abs l) then Err ErrCompacted
     else if sl_last (log_abs l) + 1 <? hi then Panic (PanicString "slice out of bound")
     else limitSize (slog_slice (log_abs l) lo hi) maxSize).
Proof.
  intros Hok. split_and!; [by apply log_abs_wf|by apply firstIndex_ok|by apply lastIndex_ok|
    intros; by apply term_ok|by apply lastTerm_ok|intros; by apply slice_ok].
Qed.


(** C19 (functional): [nextEnts] hands out the committed entries that are not
    yet applied, in order and from the first one: a prefix of them, the whole
    when their size is within the limit, and at least one when there is any,
    which is what the fast check [hasNextEnts] says. *)
Theorem raftLog_nextEnts l :
  log_ok l →
  let todo := slog_slice (log_abs l) (raftLog.applied l + 1) (raftLog.committed l + 1) in
  ∃ k, raftLog.nextEnts l = Ret (take k todo) ∧
    contiguous (raftLog.applied l + 1) (take k todo) ∧
    len todo = raftLog.committed l - raftLog.applied l ∧
    (todo ≠ [] → (1 ≤ k)%nat) ∧
    (totalSize todo ≤ raftLog.maxNextEntsSize l → totalSize todo < 2 ^ 63 → take k todo = todo) ∧
    raftLog.hasNextEnts l = Ret (negb (len (take k todo) =? 0)).
Proof.
  intros Hok todo. pose proof (log_bounds l Hok) as (H0&H1&H2&H3&H4&HL&H5&H6).
  assert (Hlen : len todo = raftLog.committed l - raftLog.applied l).
  { unfold todo. rewrite slog_slice_length; simpl; lia. }
  rewrite nextEnts_ok, hasNextEnts_ok by done. fold todo.
  destruct (limitSize_prefix todo (raftLog.maxNextEntsSize l)) as (k & Hk & Hle & Hne).
  exists k. split_and!; try done.
  - apply MemoryStorageOk.contiguous_take. unfold todo, slog_slice.
    apply MemoryStorageOk.contiguous_take. destruct (log_abs_wf l Hok) as [_ Hcont _].
    pose proof (MemoryStorageOk.contiguous_drop _ _
      (Z.to_nat (raftLog.applied l + 1 - sl_offset (log_abs l) - 1)) Hcont) as Hd.
    replace (_ + Z.of_nat _) with (raftLog.applied l + 1) in Hd by (simpl; lia). done.
  - intros Hsz Hbig. apply take_ge. destruct (decide (length todo ≤ k)%nat) as [|Hgt]; [done|].
    exfalso. destruct todo as [|e rest] eqn:Etodo; [simpl in *; lia|].
    unfold limitSize in Hk.
    assert (Hl : ∀ k', (k' ≤ length rest)%nat → totalSize (take k' rest) ≤ totalSize rest).
    { intros k' _. rewrite <- (take_drop k' rest) at 2.
      assert (Happ : ∀ a b, totalSize (a ++ b) = totalSize a + totalSize b).
      { induction a as [|x a IH]; intros b; simpl; [lia|]. rewrite IH. lia. }
      rewrite Happ. pose proof (totalSize_nonneg (drop k' rest)). lia. }
    simpl in Hsz, Hbig. pose proof (Entry_Size_nonneg e). pose proof (totalSize_nonneg rest).
    destruct (limit_loop_spec rest (raftLog.maxNextEntsSize l) (Entry.Size e) 1)
      as (k' & Hk' & Hll & _ & Hover); [lia..|].
    rewrite Hll, go_slice_prefix in Hk by (rewrite len_cons; unfold len; lia).
    injection Hk as Hk. apply (f_equal length) in Hk. rewrite !length_take in Hk. simpl in *.
    destruct (decide (k' < length rest)%nat) as [Hlt|]; [|lia].
    specialize (Hover Hlt). specialize (Hl (Datatypes.S k')). lia.
  - apply (f_equal Ret). rewrite len_take, Hlen.
    destruct (decide (todo = [])) as [Ht|Ht].
    + rewrite Ht, len_nil in Hlen. destruct (Z.ltb_spec (raftLog.applied l) (raftLog.committed l)); [lia|].
      symmetry. apply negb_false_iff, Z.eqb_eq. lia.
    + specialize (Hne Ht). assert (len todo ≠ 0) by (by rewrite len_0).
      destruct (Z.ltb_spec (raftLog.applied l) (raftLog.committed l)); [|lia].
      symmetry. apply negb_true_iff, Z.eqb_neq. lia.
Qed.
End Properties.

(** Writing the unstable entries to a MemoryStorage. *)
Lemma persist_append (l : raftLog.t MemoryStorage.t) :
  log_ok l → uentries l ≠ [] →
  ∃ ms, MemoryStorage.Append (uentries l) (raftLog.storage l) = Ret ms ∧
    storage_log ms = log_abs l ∧ log_abs (l <| raftLog.storage := ms |>) = log_abs l ∧
    log_ok (l <| raftLog.storage := ms |>).
Proof.
  intros Hok Hne. pose proof (log_bounds l Hok) as (H0&H1&H2&H3&H4&HL&H5&H6).
  assert (len (uentries l) ≠ 0) by (by rewrite len_0).
  pose proof (ok_entries l Hok) as Hc.
  destruct (MemoryStorageOk.Append_ok (raftLog.storage l) (uoffset l) (uentries l))
    as (ms & HA & Hms & Hlog & _); try (done || lia || apply Hok || (simpl in *; lia)).
  assert (Hlm : MemoryStorageOk.log ms = log_abs l).
  { rewrite Hlog. unfold log_abs, MemoryStorageOk.appended. simpl in *. f_equal.
    rewrite Z.max_l, Z.sub_diag, drop_0 by lia. done. }
  assert (Habs1 : log_abs (l <| raftLog.storage := ms |>) = log_abs l).
  { unfold log_abs at 1. simpl. rewrite Hlm. unfold log_abs. simpl.
    do 2 f_equal. unfold sl_last, len in *. simpl in *.
    rewrite take_app_le by (rewrite length_take; lia). rewrite take_take. f_equal. lia. }
  exists ms. split_and!; try done.
  destruct Hok as [_ Hsn _ _ Hb _ Hcm]. split; rewrite ?Habs1; try done;
    simpl in *; rewrite Hlm; simpl in *; try done. lia.
Qed.

(** The term at the index of the last unstable entry. *)
Lemma last_unstable {S} `{!Storage S, !StorageLaws S} (l : raftLog.t S) e :
  log_ok l → last (uentries l) = Some e →
  Entry.Index e = sl_last (log_abs l) ∧ slog_term (log_abs l) (Entry.Index e) = Some (Entry.Term e).
Proof.
  intros Hok Hlast. pose proof (log_bounds l Hok) as (H0&H1&H2&H3&H4&HL&H5&H6).
  rewrite last_lookup in Hlast. pose proof (ok_entries l Hok _ _ Hlast) as Hei.
  pose proof (lookup_lt_Some _ _ _ Hlast).
  assert (Hei' : Entry.Index e = sl_last (log_abs l)) by (rewrite HL; unfold len; lia).
  split; [done|]. unfold slog_term. rewrite Hei', HL. unfold log_abs. simpl.
  unfold len in *. case_bool. case_bool. unfold sl_last, len in *.
  rewrite lookup_app_r by (rewrite length_take; lia). rewrite length_take.
  replace (_ - _)%nat with (pred (length (uentries l))) by lia. by rewrite Hlast.
Qed.

(** [stableTo] at the last entry, once the storage holds the whole log. *)
Lemma stable_all {S} `{!Storage S, !StorageLaws S} (l : raftLog.t S) cap e :
  log_ok l → storage_log (raftLog.storage l) = log_abs l → last (uentries l) = Some e →
  ∃ l', raftLog.stableTo cap (Entry.Index e) (Entry.Term e) l = Ret l' ∧
    uentries l' = [] ∧ log_abs l' = log_abs l ∧ log_ok l'.
Proof.
  intros Hok Hst Hlast. pose proof (log_bounds l Hok) as (H0&H1&H2&H3&H4&HL&H5&H6).
  destruct (last_unstable l e Hok Hlast) as [Hei Ht].
  assert (len (uentries l) ≠ 0) by (rewrite len_0; intros Hn; by rewrite Hn in Hlast).
  rewrite stableTo_ok, decide_True by (done || (split; [lia|done]) || unfold is_u64; lia).
  rewrite drop_ge by (unfold len in *; lia).
  set (l' := l <| raftLog.unstable_ := _ |>).
  assert (Habs : log_abs l' = log_abs l).
  { unfold l'. unfold log_abs at 1. simpl. rewrite Hst, app_nil_r.
    rewrite take_ge by (unfold sl_last, len in *; rewrite Hst in *; lia). by destruct (log_abs l). }
  exists l'. split_and!; try done. destruct Hok as [Hs1 _ _ _ _ _ Hcm1].
  split; rewrite ?Habs; try done; simpl; rewrite ?len_nil, ?Hst; try lia. rewrite Hst in *. simpl in *. lia.
Qed.

(** C20 (safety): the persistence cycle loses nothing.  Writing the unstable
    entries to a MemoryStorage and then calling [stableTo] with the index and
    term of the last of them empties the unstable part and leaves the log the
    node sees exactly as it was, with its invariant. *)
Theorem persist_keeps_log (l : raftLog.t MemoryStorage.t) cap e :
  log_ok l → last (uentries l) = Some e →
  ∃ ms l', MemoryStorage.Append (uentries l) (raftLog.storage l) = Ret ms ∧
    raftLog.stableTo cap (Entry.Index e) (Entry.Term e) (l <| raftLog.storage := ms |>) = Ret l' ∧
    uentries l' = [] ∧ log_abs l' = log_abs l ∧ log_ok l'.
Proof.
  intros Hok Hlast. destruct (persist_append l Hok) as (ms & HA & Hlm & Habs & Hok1).
  { intros Hn. by rewrite Hn in Hlast. }
  destruct (stable_all (l <| raftLog.storage := ms |>) cap e) as (l' & HS & He & Habs' & Hok');
    [done|by rewrite Habs|done|].
  exists ms, l'. split_and!; try done. by rewrite Habs', Habs.
Qed.

(** ** Instances at concrete inputs *)

(** Entries 4 and 5 from the storage, 6 and 7 unstable (6 replaces a stored one). *)
Definition sample_log : raftLog.t MemoryStorage.t :=
  raftLog.mk _ sample_storage (unstable.mk None [sample_entry 3 6; sample_entry 3 7] 6) 5 3 noLimit.

Lemma sample_log_ok : log_ok sample_log.
Proof.
  split; [apply sample_storage_ok|done|by vm_compute|contiguous_list|by vm_compute|done|by vm_compute].
Qed.

Lemma raftLog_refines_sequence_witness :
  raftLog.lastIndex sample_log = Ret 7 ∧ raftLog.term sample_log 6 = Ret 3 ∧
  raftLog.slice sample_log 5 8 noLimit =
    Ret [sample_entry 1 5; sample_entry 3 6; sample_entry 3 7].
Proof.
  destruct (raftLog_refines_sequence sample_log sample_log_ok) as (_ & _ & HL & HT & _ & HS).
  split_and!; [rewrite HL|rewrite HT by done|rewrite HS by done]; by vm_compute.
Defined.


Lemma raftLog_nextEnts_witness :
  raftLog.nextEnts sample_log = Ret [sample_entry 1 4; sample_entry 1 5].
Proof.
  destruct (raftLog_nextEnts sample_log sample_log_ok) as (k & HN & _ & _ & _ & HA & _).
  rewrite HN, HA; by vm_compute.
Defined.

Lemma persist_keeps_log_witness :
  ∃ ms l', MemoryStorage.Append [sample_entry 3 6; sample_entry 3 7] sample_storage = Ret ms ∧
    raftLog.stableTo 2 7 3 (sample_log <| raftLog.storage := ms |>) = Ret l' ∧
    log_abs l' = log_abs sample_log.
Proof.
  destruct (persist_keeps_log sample_log 2 (sample_entry 3 7))
    as (ms & l' & HA & HS & _ & HL & _); [apply sample_log_ok|done|].
  by exists ms, l'.
Defined.
