(* ===== verification/Raft.v ===== *)
(** * raft/raft.go: the state machine of a node

    The [raft] struct, its constructor and its transitions: becoming a
    follower or a candidate, the election clock, campaigning, [Step], and
    configuration changes.  The random number that [globalRand.Intn] draws is
    an argument [rnd] (any integer: [Intn] reduces it to its range); the
    function-valued fields [tick] and [step] are the names of the functions
    the code stores in them.  Logging is left out. *)

From S2P Require Import Prelude RaftPb Quorum Tracker ConfChanger Storage RaftLog.

Definition None_ : Z := 0.

(** State types. *)
Definition StateFollower : Z := 0.
Definition StateCandidate : Z := 1.
Definition StateLeader : Z := 2.
Definition StatePreCandidate : Z := 3.
Definition stmap : list string :=
  ["StateFollower"; "StateCandidate"; "StateLeader"; "StatePreCandidate"].
Definition State_String (st : Z) : outcome string := go_index stmap st.

Definition ReadOnlySafe : Z := 0.
Definition ReadOnlyLeaseBased : Z := 1.

Inductive CampaignType : Set := campaignPreElection | campaignElection | campaignTransfer.
#[global] Instance CampaignType_eq_dec : EqDecision CampaignType.
Proof. solve_decision. Defined.

(** [lockedRand.Intn]: [rnd] is what the generator yields. *)
Definition Intn (rnd n : Z) : outcome Z :=
  if n <=? 0 then Panic RandArgument else Ret (rnd mod n).

(** ** read_only.go *)
Module ReadState.
Record t := mk { Index : Z; RequestCtx : bytes }.
End ReadState.

Module readIndexStatus.
Record t := mk { req : Message.t; index : Z; acks : Votes }.
End readIndexStatus.

Module readOnly.
Record t := mk {
  option_ : Z; pendingReadIndex : gmap string readIndexStatus.t; readIndexQueue : list string }.
Definition newReadOnly (option : Z) : t := mk option ∅ [].
End readOnly.

(** ** Config *)
Module RaftConfig.
Record t {S : Type} := mk {
  ID : Z; peers : list Z; learners : list Z; ElectionTick : Z; HeartbeatTick : Z;
  Storage_ : S; Applied : Z; MaxSizePerMsg : Z; MaxCommittedSizePerReady : Z;
  MaxUncommittedEntriesSize : Z; MaxInflightMsgs : Z; CheckQuorum : bool; PreVote : bool;
  ReadOnlyOption : Z; DisableProposalForwarding : bool }.
Arguments t S : clear implicits.

Definition validate {S} (c : t S) : outcome unit :=
  if ID c =? None_ then Err (Errorf "cannot use none as id") else Ret tt.
End RaftConfig.

Inductive tickFunc : Set := tick_nil | tick_tickElection.
Inductive stepFunc : Set := step_nil | step_stepFollower | step_stepCandidate.

(** ** raft *)
Module raft.
Record t {S : Type} := mk {
  id : Z; Term : Z; Vote : Z; readStates : list ReadState.t; raftLog_ : raftLog.t S;
  maxMsgSize : Z; maxUncommittedSize : Z; prs : ProgressTracker.t; state : Z;
  isLearner : bool; msgs : list Message.t; lead : Z; leadTransferee : Z;
  pendingConfIndex : Z; uncommittedSize : Z; readOnly_ : readOnly.t;
  electionElapsed : Z; heartbeatElapsed : Z; checkQuorum : bool; preVote : bool;
  heartbeatTimeout : Z; electionTimeout : Z; randomizedElectionTimeout : Z;
  disableProposalForwarding : bool; tick : tickFunc; step : stepFunc }.
Arguments t S : clear implicits.

Section Ops.
Context `{MO : !MapOrder}.
Context {S : Type} `{!Storage S}.

Definition hasLeader (r : t S) : bool := negb (lead r =? None_).

Definition hardState (r : t S) : HardState.t :=
  HardState.mk (Term r) (Vote r) (raftLog.committed (raftLog_ r)) None.

Definition resetRandomizedElectionTimeout (rnd : Z) (r : t S) : outcome (t S) :=
  v ← Intn rnd (electionTimeout r);
  Ret (r <| randomizedElectionTimeout := i64 (electionTimeout r + v) |>).

Definition abortLeaderTransfer (r : t S) : t S := r <| leadTransferee := None_ |>.

(** The function that [reset] passes to [Visit]. *)
Definition resetOne (r : t S) (last : Z) (id' : Z) (pr : Progress.t) : Progress.t :=
  let pr := {| Progress.Match := 0;
               Progress.Next := last ⊕ 1;
               Progress.Inflights_ :=
                 Some (Inflights.NewInflights (ProgressTracker.MaxInflight (prs r)));
               Progress.IsLearner := Progress.IsLearner pr;
               Progress.State := StateProbe; Progress.PendingSnapshot := 0;
               Progress.RecentActive := false; Progress.ProbeSent := false |} in
  if id' =? id r then pr <| Progress.Match := last |> else pr.

(** [r.prs.Visit(...)]: [lastIndex] is called only if there is a Progress. *)
Definition resetProgress (r : t S) : outcome (t S) :=
  if len (ProgressTracker.visit_ids (prs r)) =? 0 then Ret r else
  last ← raftLog.lastIndex (raftLog_ r);
  Ret (r <| prs := ProgressTracker.Visit (resetOne r last) (prs r) |>).

Definition reset (rnd term : Z) (r : t S) : outcome (t S) :=
  let r := if negb (Term r =? term) then r <| Term := term |> <| Vote := None_ |> else r in
  let r := r <| lead := None_ |> <| electionElapsed := 0 |> <| heartbeatElapsed := 0 |> in
  r ← resetRandomizedElectionTimeout rnd r;
  let r := abortLeaderTransfer r in
  let r := r <| prs ::= ProgressTracker.ResetVotes |> in
  r ← resetProgress r;
  Ret (r <| pendingConfIndex := 0 |> <| uncommittedSize := 0 |>
         <| readOnly_ := readOnly.newReadOnly (readOnly.option_ (readOnly_ r)) |>).

Definition becomeFollower (rnd term lead' : Z) (r : t S) : outcome (t S) :=
  let r := r <| step := step_stepFollower |> in
  r ← reset rnd term r;
  Ret (r <| tick := tick_tickElection |> <| lead := lead' |> <| state := StateFollower |>).

Definition becomeCandidate (rnd : Z) (r : t S) : outcome (t S) :=
  if state r =? StateLeader
  then Panic (PanicString "invalid transition [leader -> candidate]") else
  let r := r <| step := step_stepCandidate |> in
  r ← reset rnd (Term r ⊕ 1) r;
  Ret (r <| tick := tick_tickElection |> <| Vote := id r |> <| state := StateCandidate |>).

Definition promotable (r : t S) : bool :=
  match ProgressTracker.Progress_ (prs r) !! id r : option Progress.t with
  | None => false
  | Some pr => negb (Progress.IsLearner pr)
  end.

Definition pastElectionTimeout (r : t S) : bool :=
  electionElapsed r >=? randomizedElectionTimeout r.

(** (granted, rejected, result) *)
Definition poll (id' msgt : Z) (v : bool) (r : t S) : t S * (Z * Z * voteResult) :=
  let r := r <| prs ::= ProgressTracker.RecordVote id' v |> in
  (r, ProgressTracker.TallyVotes (prs r)).

Definition campaign (rnd : Z) (ct : CampaignType) (r : t S) : outcome (t S) :=
  '(r, voteMsg) ←
    (if decide (ct = campaignPreElection) then Ret (r, MsgHup)
     else r ← becomeCandidate rnd r; Ret (r, MsgVote));
  respType ← voteRespMsgType voteMsg;
  let '(r, (_, _, res)) := poll (id r) respType true r in
  if decide (res = VoteWon) then Ret r else Ret r.

Definition Step (rnd : Z) (m : Message.t) (r : t S) : outcome (t S) :=
  if Message.Type_ m =? MsgHup then
    if negb (state r =? StateLeader) then
      if negb (promotable r) then Ret r else
      if preVote r then campaign rnd campaignPreElection r
      else campaign rnd campaignElection r
    else Ret r
  else Ret r.

Definition tickElection (rnd : Z) (r : t S) : outcome (t S) :=
  let r := r <| electionElapsed := i64 (electionElapsed r + 1) |> in
  if promotable r && pastElectionTimeout r then
    let r := r <| electionElapsed := 0 |> in
    Step rnd (Message.zero <| Message.From := id r |> <| Message.Type_ := MsgHup |>) r
  else Ret r.

(** [r.tick()] *)
Definition Tick (rnd : Z) (r : t S) : outcome (t S) :=
  match tick r with
  | tick_nil => Panic NilDereference
  | tick_tickElection => tickElection rnd r
  end.

Definition stepCandidate (r : t S) (m : Message.t) : outcome (t S) := Ret r.
Definition stepFollower (r : t S) (m : Message.t) : outcome (t S) := Ret r.

Definition switchToConfig (cfg : Config.t) (progress : ProgressMap) (r : t S)
    : t S * ConfState.t :=
  let r := r <| prs ::= (λ p, p <| ProgressTracker.Config_ := cfg |>
                                 <| ProgressTracker.Progress_ := progress |>) |> in
  let cs := ProgressTracker.ConfState_ (prs r) in
  let pr := ProgressTracker.Progress_ (prs r) !! id r in
  let ok := bool_decide (is_Some pr) in
  let r := r <| isLearner := ok && from_option Progress.IsLearner false pr |> in
  if (negb ok || isLearner r) && (state r =? StateLeader) then (r, cs) else
  if negb (state r =? StateLeader) || (len (ConfState.Voters cs) =? 0) then (r, cs) else
  let tOK := bool_decide (is_Some (ProgressTracker.Progress_ (prs r) !! leadTransferee r)) in
  if negb tOK && negb (leadTransferee r =? 0) then (abortLeaderTransfer r, cs) else (r, cs).

Definition applyConfChange (cc : ConfChangeV2.t) (r : t S) : outcome (t S * ConfState.t) :=
  last ← raftLog.lastIndex (raftLog_ r);
  let changer := Changer.mk (prs r) last in
  match Simple changer (ConfChangeV2.Changes cc) with
  | Ret (cfg, progress) => Ret (switchToConfig cfg progress r)
  | Err _ => Panic (PanicString "applyConfChange")
  | Panic p => Panic p
  | OutOfFuel => OutOfFuel
  end.

(** The body is commented out in the source, the printing apart. *)
Definition loadState (st : HardState.t) (r : t S) : t S := r.

Definition isHardStateEqual (a b : HardState.t) : bool :=
  (HardState.Term a =? HardState.Term b) && (HardState.Vote a =? HardState.Vote b)
  && (HardState.Commit a =? HardState.Commit b).
Definition emptyState : HardState.t := HardState.zero.

(** The [raft] value that [newRaft] builds before it loads a state. *)
Definition initialRaft (c : RaftConfig.t S) (l : raftLog.t S) : t S :=
  {| id := RaftConfig.ID c; Term := 0; Vote := 0; readStates := []; raftLog_ := l;
     maxMsgSize := RaftConfig.MaxSizePerMsg c;
     maxUncommittedSize := RaftConfig.MaxUncommittedEntriesSize c;
     prs := ProgressTracker.MakeProgressTracker (RaftConfig.MaxInflightMsgs c);
     state := StateFollower; isLearner := false; msgs := []; lead := None_;
     leadTransferee := 0; pendingConfIndex := 0; uncommittedSize := 0;
     readOnly_ := readOnly.newReadOnly (RaftConfig.ReadOnlyOption c);
     electionElapsed := 0; heartbeatElapsed := 0; checkQuorum := RaftConfig.CheckQuorum c;
     preVote := RaftConfig.PreVote c; heartbeatTimeout := RaftConfig.HeartbeatTick c;
     electionTimeout := RaftConfig.ElectionTick c; randomizedElectionTimeout := 0;
     disableProposalForwarding := RaftConfig.DisableProposalForwarding c;
     tick := tick_nil; step := step_nil |}.

(** The final log line reads [lastIndex] and [lastTerm], which may panic. *)
Definition newRaft (rnd : Z) (c : RaftConfig.t S) : outcome (t S) :=
  _ ← match RaftConfig.validate c with
      | Err _ => Panic (PanicString "cannot use none as id") | o => o end;
  l ← raftLog.newLogWithSize (RaftConfig.Storage_ c) (RaftConfig.MaxCommittedSizePerReady c);
  '(hs, cs) ← must (InitialState (RaftConfig.Storage_ c));
  let r := initialRaft c l in
  let r := if negb (isHardStateEqual hs emptyState) then loadState hs r else r in
  r ← becomeFollower rnd (Term r) None_ r;
  _ ← raftLog.lastIndex (raftLog_ r);
  _ ← raftLog.lastTerm (raftLog_ r);
  Ret r.
End Ops.
End raft.

Fixpoint pendingConf_loop (ents : list Entry.t) (n : Z) : Z :=
  match ents with
  | [] => n
  | e :: ents => pendingConf_loop ents (if Entry.Type_ e =? EntryConfChange then n + 1 else n)
  end.
Definition numOfPendingConf (ents : list Entry.t) : Z := pendingConf_loop ents 0.

(** ** status.go *)
Module SoftState.
Record t := mk { Lead : Z; RaftState : Z }.
#[global] Instance eq_dec : EqDecision t.
Proof. solve_decision. Defined.
Definition equal (a b : t) : bool := (Lead a =? Lead b) && (RaftState a =? RaftState b).
End SoftState.

Definition softState {S} (r : raft.t S) : SoftState.t := SoftState.mk (raft.lead r) (raft.state r).

(** ** Closed forms of the transitions *)

Section Transitions.
Context `{MO : !MapOrder}.
Context {S : Type} `{!Storage S, !StorageLaws S}.
Implicit Types (r : raft.t S).

Abbreviation rlog r := (log_abs (raft.raftLog_ r)).
Abbreviation rconfig r := (ProgressTracker.Config_ (raft.prs r)).
Abbreviation rprogress r := (ProgressTracker.Progress_ (raft.prs r)).
Abbreviation rvotes r := (ProgressTracker.Votes_ (raft.prs r)).

(** The timeout drawn with [rnd]. *)
Definition drawTimeout rnd r : Z := i64 (raft.electionTimeout r + rnd mod raft.electionTimeout r).

Definition resetTerm term r : raft.t S :=
  if negb (raft.Term r =? term) then r <| raft.Term := term |> <| raft.Vote := None_ |> else r.
Definition resetClock rnd r : raft.t S :=
  let r := r <| raft.lead := None_ |> <| raft.electionElapsed := 0 |>
             <| raft.heartbeatElapsed := 0 |> in
  raft.abortLeaderTransfer (r <| raft.randomizedElectionTimeout := drawTimeout rnd r |>).
Definition resetTracker r : raft.t S :=
  let r := r <| raft.prs ::= ProgressTracker.ResetVotes |> in
  r <| raft.prs := ProgressTracker.Visit (raft.resetOne r (sl_last (rlog r))) (raft.prs r) |>.
Definition resetRest r : raft.t S :=
  r <| raft.pendingConfIndex := 0 |> <| raft.uncommittedSize := 0 |>
    <| raft.readOnly_ := readOnly.newReadOnly (readOnly.option_ (raft.readOnly_ r)) |>.
Definition resetSpec rnd term r : raft.t S :=
  resetRest (resetTracker (resetClock rnd (resetTerm term r))).

Lemma resetProgress_ok r :
  log_ok (raft.raftLog_ r) →
  raft.resetProgress r =
  Ret (r <| raft.prs := ProgressTracker.Visit (raft.resetOne r (sl_last (rlog r))) (raft.prs r) |>).
Proof.
  intros Hl. unfold raft.resetProgress. case_bool.
  - apply len_0 in Heqb. unfold ProgressTracker.Visit. rewrite Heqb. simpl.
    destruct r as [??????? [] ?]. done.
  - by rewrite lastIndex_ok.
Qed.

(** What [reset] leaves alone. *)
Lemma resetSpec_frame rnd term r :
  raft.id (resetSpec rnd term r) = raft.id r ∧
  raft.raftLog_ (resetSpec rnd term r) = raft.raftLog_ r ∧
  raft.state (resetSpec rnd term r) = raft.state r ∧
  raft.electionTimeout (resetSpec rnd term r) = raft.electionTimeout r ∧
  raft.preVote (resetSpec rnd term r) = raft.preVote r ∧
  raft.tick (resetSpec rnd term r) = raft.tick r ∧
  raft.step (resetSpec rnd term r) = raft.step r ∧
  raft.msgs (resetSpec rnd term r) = raft.msgs r ∧
  rconfig (resetSpec rnd term r) = rconfig r.
Proof. unfold resetSpec, resetTerm. destruct (negb _); done. Qed.

(** What it sets. *)
Lemma resetSpec_sets rnd term r :
  raft.Term (resetSpec rnd term r) = term ∧
  raft.Vote (resetSpec rnd term r) = (if raft.Term r =? term then raft.Vote r else None_) ∧
  raft.lead (resetSpec rnd term r) = None_ ∧
  raft.electionElapsed (resetSpec rnd term r) = 0 ∧
  raft.randomizedElectionTimeout (resetSpec rnd term r) = drawTimeout rnd r ∧
  rvotes (resetSpec rnd term r) = ∅.
Proof.
  unfold resetSpec, resetTerm. destruct (raft.Term r =? term) eqn:E; zify_bool; split_and!; done.
Qed.

Lemma resetSpec_isLearner rnd term r id :
  Progress.IsLearner <$> rprogress (resetSpec rnd term r) !! id =
  Progress.IsLearner <$> rprogress r !! id.
Proof.
  assert (Hp : rprogress (resetClock rnd (resetTerm term r)) = rprogress r)
    by (unfold resetTerm; by destruct (negb _)).
  unfold resetSpec. generalize dependent (resetClock rnd (resetTerm term r)). intros r' <-.
  transitivity (Progress.IsLearner <$> ProgressTracker.Progress_ (ProgressTracker.Visit
    (raft.resetOne (r' <| raft.prs ::= ProgressTracker.ResetVotes |>) (sl_last (rlog r')))
    (ProgressTracker.ResetVotes (raft.prs r'))) !! id); [done|].
  rewrite Visit_spec. simpl. rewrite map_lookup_imap.
  destruct (rprogress r' !! id); simpl; [|done]. unfold raft.resetOne. by case_match.
Qed.

Lemma reset_ok rnd term r :
  log_ok (raft.raftLog_ r) → 0 < raft.electionTimeout r →
  raft.reset rnd term r = Ret (resetSpec rnd term r).
Proof.
  intros Hl Ht. unfold raft.reset. fold (resetTerm term r).
  assert (Hl' : log_ok (raft.raftLog_ (resetTerm term r)))
    by (unfold resetTerm; by destruct (negb _)).
  assert (Ht' : 0 < raft.electionTimeout (resetTerm term r))
    by (unfold resetTerm; by destruct (negb _)).
  unfold resetSpec. generalize dependent (resetTerm term r). clear Hl Ht. intros r' Hl Ht.
  unfold raft.resetRandomizedElectionTimeout, Intn.
  destruct (raft.electionTimeout _ <=? 0) eqn:E; zify_bool; [simpl in E; lia|].
  rewrite !bind_Ret. fold (drawTimeout rnd (r' <| raft.lead := None_ |>
    <| raft.electionElapsed := 0 |> <| raft.heartbeatElapsed := 0 |>)).
  fold (resetClock rnd r').
  assert (Hl' : log_ok (raft.raftLog_ (resetClock rnd r'))) by done.
  generalize dependent (resetClock rnd r'). clear. intros r Hl.
  rewrite resetProgress_ok by done. rewrite bind_Ret. reflexivity.
Qed.

#[local] Opaque resetSpec.

Lemma becomeFollower_ok rnd term lead r :
  log_ok (raft.raftLog_ r) → 0 < raft.electionTimeout r →
  raft.becomeFollower rnd term lead r =
  Ret ((resetSpec rnd term (r <| raft.step := step_stepFollower |>))
         <| raft.tick := tick_tickElection |> <| raft.lead := lead |>
         <| raft.state := StateFollower |>).
Proof. intros. unfold raft.becomeFollower. rewrite reset_ok by done. reflexivity. Qed.

(** A candidate after [becomeCandidate]. *)
Definition candidateSpec rnd r : raft.t S :=
  (resetSpec rnd (raft.Term r ⊕ 1) (r <| raft.step := step_stepCandidate |>))
    <| raft.tick := tick_tickElection |> <| raft.Vote := raft.id r |>
    <| raft.state := StateCandidate |>.

Lemma becomeCandidate_ok rnd r :
  log_ok (raft.raftLog_ r) → 0 < raft.electionTimeout r →
  raft.state r ≠ StateLeader →
  raft.becomeCandidate rnd r = Ret (candidateSpec rnd r).
Proof. intros. unfold raft.becomeCandidate. case_bool.
  change (raft.Term (r <| raft.step := step_stepCandidate |>)) with (raft.Term r).
  rewrite reset_ok by done. rewrite bind_Ret.
  by rewrite (proj1 (resetSpec_frame _ _ _)). Qed.

(** A node that has recorded its own vote. *)
Definition voteSelf r : raft.t S :=
  r <| raft.prs ::= ProgressTracker.RecordVote (raft.id r) true |>.

(** An election: a candidate that has recorded its own vote. *)
Definition electionSpec rnd r : raft.t S := voteSelf (candidateSpec rnd r).

Lemma poll_self r :
  (respType ← voteRespMsgType MsgVote;
   let '(r, (_, _, res)) := raft.poll (raft.id r) respType true r in
   if decide (res = VoteWon) then Ret r else Ret r) = Ret (voteSelf r).
Proof.
  simpl. destruct (ProgressTracker.TallyVotes _) as [[??] res]. by case_decide.
Qed.

Lemma campaign_election_ok rnd r :
  log_ok (raft.raftLog_ r) → 0 < raft.electionTimeout r →
  raft.state r ≠ StateLeader →
  raft.campaign rnd campaignElection r = Ret (electionSpec rnd r).
Proof.
  intros. unfold raft.campaign. rewrite decide_False by done.
  rewrite becomeCandidate_ok by done. rewrite !bind_Ret. apply poll_self.
Qed.

Lemma campaign_preElection_panics rnd r :
  raft.campaign rnd campaignPreElection r = Panic (PanicString "not a vote message").
Proof. done. Qed.

Lemma voteSelf_votes r : rvotes r = ∅ → rvotes (voteSelf r) = {[raft.id r := true]}.
Proof.
  unfold voteSelf. destruct r as [??????? [cfg pr vs mi] ?]. simpl. intros ->. done.
Qed.

Lemma RecordVote_frame id v p :
  ProgressTracker.Config_ (ProgressTracker.RecordVote id v p) = ProgressTracker.Config_ p ∧
  ProgressTracker.Progress_ (ProgressTracker.RecordVote id v p) = ProgressTracker.Progress_ p.
Proof. unfold ProgressTracker.RecordVote. by case_match. Qed.

(** The last steps of an election, on any node. *)
Definition makeCandidate id' r : raft.t S :=
  voteSelf (r <| raft.tick := tick_tickElection |> <| raft.Vote := id' |>
              <| raft.state := StateCandidate |>).

Lemma makeCandidate_frame id' r :
  raft.id (makeCandidate id' r) = raft.id r ∧ raft.Term (makeCandidate id' r) = raft.Term r ∧
  raft.lead (makeCandidate id' r) = raft.lead r ∧
  raft.electionElapsed (makeCandidate id' r) = raft.electionElapsed r ∧
  raft.randomizedElectionTimeout (makeCandidate id' r) = raft.randomizedElectionTimeout r ∧
  raft.electionTimeout (makeCandidate id' r) = raft.electionTimeout r ∧
  raft.preVote (makeCandidate id' r) = raft.preVote r ∧
  raft.raftLog_ (makeCandidate id' r) = raft.raftLog_ r ∧
  rconfig (makeCandidate id' r) = rconfig r ∧ rprogress (makeCandidate id' r) = rprogress r.
Proof.
  destruct r. unfold makeCandidate, voteSelf. split_and!; try done; apply RecordVote_frame.
Qed.

Lemma makeCandidate_sets id' r :
  raft.Vote (makeCandidate id' r) = id' ∧ raft.state (makeCandidate id' r) = StateCandidate ∧
  raft.tick (makeCandidate id' r) = tick_tickElection ∧
  (rvotes r = ∅ → rvotes (makeCandidate id' r) = {[raft.id r := true]}).
Proof.
  destruct r. unfold makeCandidate. split_and!; try done. intros Hv. by rewrite voteSelf_votes.
Qed.

(** The fields of a node that has started an election. *)
Lemma electionSpec_frame rnd r :
  raft.id (electionSpec rnd r) = raft.id r ∧
  raft.electionTimeout (electionSpec rnd r) = raft.electionTimeout r ∧
  raft.preVote (electionSpec rnd r) = raft.preVote r ∧
  raft.raftLog_ (electionSpec rnd r) = raft.raftLog_ r ∧
  rconfig (electionSpec rnd r) = rconfig r ∧
  (∀ id, Progress.IsLearner <$> rprogress (electionSpec rnd r) !! id
         = Progress.IsLearner <$> rprogress r !! id).
Proof.
  change (electionSpec rnd r) with (makeCandidate (raft.id r)
    (resetSpec rnd (raft.Term r ⊕ 1) (r <| raft.step := step_stepCandidate |>))).
  set (rc := r <| raft.step := step_stepCandidate |>).
  destruct (resetSpec_frame rnd (raft.Term r ⊕ 1) rc) as (F1&F2&F3&F4&F5&F6&F7&F8&F9).
  pose proof (resetSpec_isLearner rnd (raft.Term r ⊕ 1) rc) as HL.
  generalize dependent (resetSpec rnd (raft.Term r ⊕ 1) rc). intros r0 *. intros.
  destruct (makeCandidate_frame (raft.id r) r0) as (M1&M2&M3&M4&M5&M6&M7&M8&M9&M10).
  rewrite M1, M6, M7, M8, M9, M10. split_and!; try done.
Qed.

Lemma electionSpec_sets rnd r :
  raft.Term (electionSpec rnd r) = raft.Term r ⊕ 1 ∧
  raft.Vote (electionSpec rnd r) = raft.id r ∧
  raft.state (electionSpec rnd r) = StateCandidate ∧
  raft.lead (electionSpec rnd r) = None_ ∧
  raft.electionElapsed (electionSpec rnd r) = 0 ∧
  raft.randomizedElectionTimeout (electionSpec rnd r) = drawTimeout rnd r ∧
  raft.tick (electionSpec rnd r) = tick_tickElection ∧
  rvotes (electionSpec rnd r) = {[raft.id r := true]}.
Proof.
  change (electionSpec rnd r) with (makeCandidate (raft.id r)
    (resetSpec rnd (raft.Term r ⊕ 1) (r <| raft.step := step_stepCandidate |>))).
  set (rc := r <| raft.step := step_stepCandidate |>).
  destruct (resetSpec_frame rnd (raft.Term r ⊕ 1) rc) as (F1&_).
  destruct (resetSpec_sets rnd (raft.Term r ⊕ 1) rc) as (S1&S2&S3&S4&S5&S6).
  generalize dependent (resetSpec rnd (raft.Term r ⊕ 1) rc). intros r0 *. intros.
  destruct (makeCandidate_frame (raft.id r) r0) as (M1&M2&M3&M4&M5&M6&M7&M8&M9&M10).
  destruct (makeCandidate_sets (raft.id r) r0) as (N1&N2&N3&N4).
  rewrite M2, M3, M4, M5, N1, N2, N3, N4 by done. split_and!; try done. by rewrite F1.
Qed.

#[local] Opaque electionSpec.

(** ** The invariant *)

Record raft_ok r : Prop := {
  rok_log : log_ok (raft.raftLog_ r);
  rok_timeout : 0 < raft.electionTimeout r < 2 ^ 61;
  rok_randomized :
    raft.electionTimeout r ≤ raft.randomizedElectionTimeout r ≤ 2 * raft.electionTimeout r - 1;
  rok_state : raft.state r = StateFollower ∨ raft.state r = StateCandidate;
  rok_tick : raft.tick r = tick_tickElection;
  rok_lead : raft.lead r = None_;
  rok_config : ConfigInv (rconfig r) (rprogress r);
  rok_not_joint : joint (rconfig r) = false;
  rok_incoming : (Config.Voters (rconfig r)).1 ≠ None;
  rok_candidate : raft.state r = StateCandidate →
    raft.Vote r = raft.id r ∧ rvotes r !! raft.id r = Some true;
  rok_follower : raft.state r = StateFollower → raft.Vote r = None_;
}.

Lemma ConfigInv_ext cfg (prs prs' : ProgressMap) :
  (∀ id, Progress.IsLearner <$> prs' !! id = Progress.IsLearner <$> prs !! id) →
  ConfigInv cfg prs → ConfigInv cfg prs'.
Proof.
  intros He [H1 H2 H3 H4]. split; [|setoid_rewrite He; done..|done].
  intros id Hid. apply H1 in Hid. specialize (He id). destruct (prs' !! id); [by eexists|].
  destruct Hid as [? Hx]. by rewrite Hx in He.
Qed.

Lemma drawTimeout_range rnd r :
  0 < raft.electionTimeout r < 2 ^ 61 →
  raft.electionTimeout r ≤ drawTimeout rnd r ≤ 2 * raft.electionTimeout r - 1.
Proof.
  intros. unfold drawTimeout. pose proof (Z.mod_pos_bound rnd (raft.electionTimeout r)).
  unwrap. lia.
Qed.

Lemma electionSpec_ok rnd r : raft_ok r → raft_ok (electionSpec rnd r).
Proof.
  intros [Hl Ht _ _ _ _ Hc Hj Hi _ _].
  destruct (electionSpec_frame rnd r) as (E1&E8&E9&E11&E12&E14).
  destruct (electionSpec_sets rnd r) as (E2&E3&E4&E5&E6&E7&E10&E13).
  split; rewrite ?E1, ?E3, ?E4, ?E5, ?E7, ?E8, ?E10, ?E11, ?E12, ?E13; try done.
  - by apply drawTimeout_range.
  - by right.
  - by eapply ConfigInv_ext.
  - intros _. split; [done|]. apply lookup_singleton_eq.
Qed.

(** *** The clock and the messages *)

Lemma electionSpec_elapsed rnd r x :
  electionSpec rnd (r <| raft.electionElapsed := x |>) = electionSpec rnd r.
Proof.
  assert (H1 : ∀ rnd r, resetClock rnd (r <| raft.electionElapsed := x |>) = resetClock rnd r)
    by (by intros ? []).
  assert (H2 : ∀ term r, resetTerm term (r <| raft.electionElapsed := x |>)
    = (resetTerm term r) <| raft.electionElapsed := x |>).
  { intros term' r'. unfold resetTerm. simpl. by destruct (negb _). }
  change (electionSpec rnd (r <| raft.electionElapsed := x |>)) with
    (makeCandidate (raft.id r) (resetRest (resetTracker (resetClock rnd
      (resetTerm (raft.Term r ⊕ 1)
        (r <| raft.step := step_stepCandidate |> <| raft.electionElapsed := x |>)))))).
  by rewrite H2, H1.
Qed.

Lemma Step_ok rnd m r :
  raft_ok r →
  raft.Step rnd m r =
  if (Message.Type_ m =? MsgHup) && raft.promotable r
  then if raft.preVote r then Panic (PanicString "not a vote message")
       else Ret (electionSpec rnd r)
  else Ret r.
Proof.
  intros [Hl Ht _ Hs _ _ _ _ _ _ _]. unfold raft.Step.
  destruct (_ =? MsgHup); [|done]. simpl.
  assert (raft.state r ≠ StateLeader) by (by destruct Hs as [->| ->]). case_bool.
  destruct (raft.promotable r); simpl; [|done]. destruct (raft.preVote r); [done|].
  apply campaign_election_ok; [done|lia|done].
Qed.

Lemma Tick_ok rnd r :
  raft_ok r →
  raft.Tick rnd r =
  if raft.promotable r && (raft.randomizedElectionTimeout r <=? i64 (raft.electionElapsed r + 1))
  then if raft.preVote r then Panic (PanicString "not a vote message")
       else Ret (electionSpec rnd r)
  else Ret (r <| raft.electionElapsed := i64 (raft.electionElapsed r + 1) |>).
Proof.
  intros Hok. unfold raft.Tick. rewrite (rok_tick r Hok). unfold raft.tickElection.
  unfold raft.pastElectionTimeout. rewrite Z.geb_leb.
  set (e := i64 (raft.electionElapsed r + 1)).
  change (raft.promotable (r <| raft.electionElapsed := e |>)) with (raft.promotable r).
  simpl. destruct (raft.promotable r && _) eqn:E; [|done]. apply andb_true_iff in E as [Hp _].
  set (m := Message.zero <| Message.From := raft.id r |> <| Message.Type_ := MsgHup |>).
  set (r0 := _ <| raft.electionElapsed := 0 |>).
  assert (Hr0 : r0 = r <| raft.electionElapsed := 0 |>) by (by destruct r).
  assert (Hok0 : raft_ok r0) by (rewrite Hr0; by destruct Hok).
  rewrite Step_ok by done. simpl.
  replace (raft.promotable r0) with true by (by rewrite Hr0). simpl.
  rewrite Hr0, electionSpec_elapsed. done.
Qed.

(** *** Configuration changes *)

Lemma switchToConfig_ok cfg progress r :
  raft_ok r → ConfigInv cfg progress → joint cfg = false → (Config.Voters cfg).1 ≠ None →
  raft_ok (raft.switchToConfig cfg progress r).1.
Proof.
  intros [Hl Ht Hr Hs Hk Hd _ _ _ Hc Hf] Hinv Hj Hi. unfold raft.switchToConfig.
  assert (Hns : (raft.state r =? StateLeader) = false) by (destruct Hs as [->| ->]; done).
  simpl. rewrite Hns, andb_false_r. simpl. split; done.
Qed.

Lemma applyConfChange_ok cc r r' cs :
  raft_ok r → raft.applyConfChange cc r = Ret (r', cs) → raft_ok r'.
Proof.
  intros Hok HA. unfold raft.applyConfChange in HA.
  rewrite lastIndex_ok in HA by apply Hok. rewrite bind_Ret in HA.
  destruct (Simple _ _) as [[cfg progress]| | |] eqn:HS; try done.
  injection HA as HA. assert (r' = (raft.switchToConfig cfg progress r).1) as -> by (by rewrite HA).
  apply Simple_Ret in HS as (Hj & HP & Hinv & _); [|apply Hok].
  apply switchToConfig_ok; try done.
  - pose proof (promoted_outgoing _ _ _ _ HP) as Ho. unfold joint, outgoing. simpl in Ho.
    rewrite Ho. exact Hj.
  - intros Hn. apply (promoted_incoming_nil _ _ _ _ HP) in Hn. by apply (rok_incoming r Hok).
Qed.

(** *** Starting *)

Lemma newRaft_eq rnd (c : RaftConfig.t S) hs cs :
  RaftConfig.ID c ≠ None_ → 0 < RaftConfig.ElectionTick c →
  storage_ok (RaftConfig.Storage_ c) → InitialState (RaftConfig.Storage_ c) = Ret (hs, cs) →
  ∃ l, raftLog.newLogWithSize (RaftConfig.Storage_ c) (RaftConfig.MaxCommittedSizePerReady c) = Ret l ∧
    log_ok l ∧ log_abs l = storage_log (RaftConfig.Storage_ c) ∧
    raftLog.storage l = RaftConfig.Storage_ c ∧
    raftLog.committed l = sl_offset (storage_log (RaftConfig.Storage_ c)) ∧
    raft.newRaft rnd c =
    Ret ((resetSpec rnd 0 ((raft.initialRaft c l) <| raft.step := step_stepFollower |>))
           <| raft.tick := tick_tickElection |> <| raft.lead := None_ |>
           <| raft.state := StateFollower |>).
Proof.
  intros Hid Ht Hs Hi.
  destruct (newLog_ok (RaftConfig.Storage_ c) (RaftConfig.MaxCommittedSizePerReady c) Hs)
    as (l & Hnew & Hl & Habs & Hsto & Hcm & _).
  exists l. split_and!; try done. unfold raft.newRaft, RaftConfig.validate.
  destruct (_ =? None_) eqn:E; zify_bool; [done|]. rewrite bind_Ret, Hnew, bind_Ret, Hi.
  unfold must. rewrite bind_Ret. unfold raft.loadState.
  replace (if negb (raft.isHardStateEqual hs raft.emptyState) then raft.initialRaft c l
           else raft.initialRaft c l) with (raft.initialRaft c l) by (by case_match).
  rewrite becomeFollower_ok by done. rewrite bind_Ret.
  set (r := _ <| raft.state := StateFollower |>).
  assert (Hlr : raft.raftLog_ r = l).
  { unfold r. destruct (resetSpec_frame rnd (raft.Term (raft.initialRaft c l))
      ((raft.initialRaft c l) <| raft.step := step_stepFollower |>)) as (_ & HF & _).
    change (raft.raftLog_ (?x <| raft.tick := ?a |> <| raft.lead := ?b |> <| raft.state := ?d |>))
      with (raft.raftLog_ x). by rewrite HF. }
  rewrite Hlr, lastIndex_ok by done. rewrite bind_Ret.
  destruct (lastTerm_ok l Hl) as (t & -> & _). done.
Qed.

Lemma newRaft_ok rnd (c : RaftConfig.t S) hs cs :
  RaftConfig.ID c ≠ None_ → 0 < RaftConfig.ElectionTick c < 2 ^ 61 →
  storage_ok (RaftConfig.Storage_ c) → InitialState (RaftConfig.Storage_ c) = Ret (hs, cs) →
  ∃ r, raft.newRaft rnd c = Ret r ∧ raft_ok r ∧ raft.id r = RaftConfig.ID c ∧
    raft.Term r = 0 ∧ raft.Vote r = None_ ∧ raft.state r = StateFollower ∧
    raft.electionElapsed r = 0 ∧ raft.preVote r = RaftConfig.PreVote c ∧
    rlog r = storage_log (RaftConfig.Storage_ c) ∧
    raftLog.committed (raft.raftLog_ r) = sl_offset (storage_log (RaftConfig.Storage_ c)) ∧
    raftLog.storage (raft.raftLog_ r) = RaftConfig.Storage_ c.
Proof.
  intros Hid Ht Hs Hi. destruct (newRaft_eq rnd c hs cs) as (l & _ & Hl & Habs & Hsto & Hcm & ->);
    [done|lia|done|done|].
  set (rf := (raft.initialRaft c l) <| raft.step := step_stepFollower |>).
  destruct (resetSpec_frame rnd 0 rf) as (F1&F2&F3&F4&F5&F6&F7&F8&F9).
  destruct (resetSpec_sets rnd 0 rf) as (S1&S2&S3&S4&S5&S6).
  pose proof (resetSpec_isLearner rnd 0 rf) as HL.
  pose proof (drawTimeout_range rnd rf Ht) as Hdr.
  eexists. split; [done|].
  generalize dependent (resetSpec rnd 0 rf). intros r0 *. intros.
  assert (HlogE : rlog r0 = storage_log (RaftConfig.Storage_ c)) by (rewrite F2; exact Habs).
  assert (Hci : ConfigInv (rconfig r0) (rprogress r0)).
  { rewrite F9. eapply (ConfigInv_ext _ ∅); [intros id; by rewrite HL|].
    split; [| | |done]; unfold JointConfig.IDs; simpl; intros id; set_solver. }
  split_and!; [split; simpl; rewrite ?F2, ?F4, ?S5, ?S2 in *; try done|..]; simpl.
  - by left.
  - by rewrite F9.
  - by rewrite F9.
  - done.
  - done.
  - by rewrite S2.
  - done.
  - done.
  - done.
  - done.
  - by rewrite F2.
  - by rewrite F2.
Qed.
End Transitions.

(** ** The node as a transition system *)

Section System.
#[local] Opaque resetSpec electionSpec.
Context `{MO : !MapOrder}.
Context {S : Type} `{!Storage S, !StorageLaws S}.
Implicit Types (r : raft.t S).

(** What happens to a node: a tick, a message, an applied configuration
    change, and work on its log (appending, persisting, applying), which the
    methods of [raftLog] keep well-formed. *)
Inductive raft_step : raft.t S → raft.t S → Prop :=
  | raft_step_tick rnd r r' : raft.Tick rnd r = Ret r' → raft_step r r'
  | raft_step_msg rnd m r r' : raft.Step rnd m r = Ret r' → raft_step r r'
  | raft_step_conf cc r r' cs : raft.applyConfChange cc r = Ret (r', cs) → raft_step r r'
  | raft_step_log l r : log_ok l → raft_step r (r <| raft.raftLog_ := l |>).

Lemma raft_ok_log l r : log_ok l → raft_ok r → raft_ok (r <| raft.raftLog_ := l |>).
Proof. intros Hl []. by split. Qed.

Lemma raft_ok_elapsed x r : raft_ok r → raft_ok (r <| raft.electionElapsed := x |>).
Proof. intros []. by split. Qed.

(** The states an invariant-respecting node steps to. *)
Lemma raft_step_cases r r' :
  raft_step r r' → raft_ok r →
  raft_ok r' ∧ raft.id r' = raft.id r ∧
  ((raft.Term r' = raft.Term r ∧ raft.Vote r' = raft.Vote r ∧ raft.state r' = raft.state r) ∨
   (raft.Term r' = raft.Term r ⊕ 1 ∧ raft.Vote r' = raft.id r ∧ raft.state r' = StateCandidate ∧
    raft.promotable r = true)).
Proof.
  intros [rnd r0 r1 H|rnd m r0 r1 H|cc r0 r1 cs H|l r0 Hl] Hok.
  - rewrite Tick_ok in H by done. destruct (raft.promotable r0 && _) eqn:E.
    + destruct (raft.preVote r0); [done|]. injection H as <-. apply andb_true_iff in E as [Hp _].
      destruct (electionSpec_frame rnd r0) as (E1&_).
      destruct (electionSpec_sets rnd r0) as (E2&E3&E4&_).
      split; [by apply electionSpec_ok|]. split; [done|]. by right.
    + injection H as <-. split; [by apply raft_ok_elapsed|]. split; [done|]. by left.
  - rewrite Step_ok in H by done. destruct (_ && raft.promotable r0) eqn:E.
    + destruct (raft.preVote r0); [done|]. injection H as <-. apply andb_true_iff in E as [_ Hp].
      destruct (electionSpec_frame rnd r0) as (E1&_).
      destruct (electionSpec_sets rnd r0) as (E2&E3&E4&_).
      split; [by apply electionSpec_ok|]. split; [done|]. by right.
    + injection H as <-. split; [done|]. split; [done|]. by left.
  - split; [by eapply applyConfChange_ok|]. unfold raft.applyConfChange in H.
    apply outcome_bind_Ret in H as (last & _ & H).
    destruct (Simple _ _) as [[cfg progress]| | |]; try done. injection H as H.
    assert (Hns : (raft.state r0 =? StateLeader) = false)
      by (destruct (rok_state r0 Hok) as [->| ->]; done).
    unfold raft.switchToConfig in H. simpl in H. rewrite Hns, andb_false_r in H. simpl in H.
    injection H as <- _. split; [done|]. by left.
  - split; [by apply raft_ok_log|]. split; [done|]. by left.
Qed.


(** C2 (safety): a node votes at most once in a term.  In any step its term
    stays or grows by one, its vote changes only together with its term, and
    then it is its own: only a node that may become leader campaigns. *)
Theorem raft_one_vote_per_term r r' :
  raft_ok r → 0 ≤ raft.Term r < 2 ^ 64 - 1 → raft_step r r' →
  (raft.Term r' = raft.Term r ∧ raft.Vote r' = raft.Vote r) ∨
  (raft.Term r' = raft.Term r + 1 ∧ raft.Vote r' = raft.id r ∧
   raft.state r' = StateCandidate ∧ raft.promotable r = true).
Proof.
  intros Hok Ht Hs. destruct (raft_step_cases r r' Hs Hok) as (_ & _ & [(?&?&?)|(H&?&?&?)]).
  - by left.
  - right. unwrap. done.
Qed.

(** A run of ticks, with the random number each of them would draw. *)
Fixpoint ticks (rnds : list Z) (r : raft.t S) : outcome (raft.t S) :=
  match rnds with
  | [] => Ret r
  | rnd :: rnds => r ← raft.Tick rnd r; ticks rnds r
  end.

Lemma ticks_app rnds rnd r : ticks (rnds ++ [rnd]) r = r ← ticks rnds r; raft.Tick rnd r.
Proof.
  revert r. induction rnds as [|x rnds IH]; intros r; simpl.
  - by destruct (raft.Tick rnd r).
  - destruct (raft.Tick x r); [|done..]. simpl. apply IH.
Qed.

Lemma ticks_quiet rnds r :
  raft_ok r → 0 ≤ raft.electionElapsed r →
  raft.electionElapsed r + len rnds < raft.randomizedElectionTimeout r →
  ticks rnds r = Ret (r <| raft.electionElapsed := raft.electionElapsed r + len rnds |>).
Proof.
  revert r. induction rnds as [|rnd rnds IH]; intros r Hok He Hlt.
  - rewrite len_nil, Z.add_0_r. by destruct r.
  - rewrite len_cons in *. pose proof (len_nonneg rnds). cbn [ticks].
    pose proof (rok_randomized r Hok). pose proof (rok_timeout r Hok).
    rewrite Tick_ok by done. unwrap.
    destruct (raft.promotable r); simpl; [case_bool|]; rewrite ?bind_Ret;
      (rewrite IH; [|by apply raft_ok_elapsed|simpl; lia|simpl; lia]);
      destruct r; simpl; rewrite <- Z.add_assoc; done.
Qed.

(** C13 (liveness): a node that hears nothing campaigns when its randomized
    timeout expires, not earlier and not later.  From a state with [e] ticks
    on the clock and timeout [T], fewer than [T - e] ticks change nothing but
    the clock; with the next one the node (able to lead, without pre-vote) is
    a candidate in the next term that has voted for itself, its clock restarts
    and a new timeout between the election timeout and twice it is drawn. *)
Theorem election_at_timeout rnds rnd r :
  raft_ok r → raft.promotable r = true → raft.preVote r = false →
  0 ≤ raft.electionElapsed r → 0 ≤ raft.Term r < 2 ^ 64 - 1 →
  raft.electionElapsed r + len rnds + 1 = raft.randomizedElectionTimeout r →
  ticks rnds r = Ret (r <| raft.electionElapsed := raft.electionElapsed r + len rnds |>) ∧
  ∃ r', ticks (rnds ++ [rnd]) r = Ret r' ∧
    raft.state r' = StateCandidate ∧ raft.Term r' = raft.Term r + 1 ∧
    raft.Vote r' = raft.id r ∧ ProgressTracker.Votes_ (raft.prs r') = {[raft.id r := true]} ∧
    raft.electionElapsed r' = 0 ∧
    raft.electionTimeout r ≤ raft.randomizedElectionTimeout r' ≤ 2 * raft.electionTimeout r - 1.
Proof.
  intros Hok Hp Hv He Ht Heq. pose proof (len_nonneg rnds).
  assert (Hq : ticks rnds r =
    Ret (r <| raft.electionElapsed := raft.electionElapsed r + len rnds |>))
    by (apply ticks_quiet; (done || lia)).
  split; [done|]. exists (electionSpec rnd r).
  pose proof (rok_randomized r Hok). pose proof (rok_timeout r Hok).
  rewrite ticks_app, Hq, bind_Ret, Tick_ok by (by apply raft_ok_elapsed).
  rewrite electionSpec_elapsed.
  change (raft.promotable (r <| raft.electionElapsed := raft.electionElapsed r + len rnds |>))
    with (raft.promotable r).
  simpl. rewrite Hp, Hv. unwrap. simpl. case_bool.
  destruct (electionSpec_sets rnd r) as (E2&E3&E4&E5&E6&E7&E10&E13).
  rewrite E2, E3, E4, E6, E7, E13. unwrap. split_and!; try done; by apply drawTimeout_range.
Qed.

(** With [PreVote] configured the node crashes instead of
    campaigning.  [campaign(campaignPreElection)] leaves the vote message type
    at its zero value, so any node that may lead panics in [voteRespMsgType]
    as soon as it is told to campaign, or when its election timeout expires. *)
Theorem preVote_campaign_panics rnd m r :
  raft_ok r → raft.preVote r = true → raft.promotable r = true →
  (Message.Type_ m = MsgHup →
     raft.Step rnd m r = Panic (PanicString "not a vote message")) ∧
  (0 ≤ raft.electionElapsed r →
   raft.randomizedElectionTimeout r ≤ raft.electionElapsed r + 1 < 2 ^ 63 →
     raft.Tick rnd r = Panic (PanicString "not a vote message")).
Proof.
  intros Hok Hv Hp. split.
  - intros Hm. rewrite Step_ok by done. by rewrite Hm, Hp, Hv.
  - intros He Ht. rewrite Tick_ok by done. rewrite Hp, Hv. unwrap. simpl. by case_bool.
Qed.

(** A restart forgets the persisted state.  Whatever
    HardState the storage returns, the new node is a follower in term 0 that
    has not voted, and its commit index is the one before the first entry of
    the storage: [loadState] ignores the term, the vote and the commit index
    it is given. *)
Theorem newRaft_forgets_hardState rnd (c : RaftConfig.t S) hs cs :
  RaftConfig.ID c ≠ None_ → 0 < RaftConfig.ElectionTick c < 2 ^ 61 →
  storage_ok (RaftConfig.Storage_ c) → InitialState (RaftConfig.Storage_ c) = Ret (hs, cs) →
  ∃ r, raft.newRaft rnd c = Ret r ∧ raft.state r = StateFollower ∧
    raft.hardState r =
    HardState.mk 0 None_ (sl_offset (storage_log (RaftConfig.Storage_ c))) None.
Proof.
  intros Hid Ht Hs Hi.
  destruct (newRaft_ok rnd c hs cs Hid Ht Hs Hi) as (r & Hn & _ & _ & HT & HV & Hst & _ & _ & _ & Hc & _).
  exists r. split_and!; try done. unfold raft.hardState. by rewrite HT, HV, Hc.
Qed.

(** what [newRaft] refuses.  A zero id panics with the message of
    [validate]; an election tick that is not positive is not validated and
    panics inside the random number generator. *)
Theorem newRaft_rejects rnd (c : RaftConfig.t S) hs cs :
  storage_ok (RaftConfig.Storage_ c) → InitialState (RaftConfig.Storage_ c) = Ret (hs, cs) →
  (RaftConfig.ID c = None_ → raft.newRaft rnd c = Panic (PanicString "cannot use none as id")) ∧
  (RaftConfig.ID c ≠ None_ → RaftConfig.ElectionTick c ≤ 0 →
     raft.newRaft rnd c = Panic RandArgument).
Proof.
  intros Hs Hi. unfold raft.newRaft, RaftConfig.validate. split.
  - intros ->. done.
  - intros Hid Ht. destruct (_ =? None_) eqn:E; zify_bool; [done|]. rewrite bind_Ret.
    destruct (newLog_ok (RaftConfig.Storage_ c) (RaftConfig.MaxCommittedSizePerReady c) Hs)
      as (l & -> & _). rewrite bind_Ret, Hi. unfold must. rewrite bind_Ret.
    unfold raft.loadState, raft.becomeFollower, raft.reset, raft.resetRandomizedElectionTimeout, Intn.
    assert (He : ∀ r, RaftConfig.ElectionTick c = raft.electionTimeout r →
      (if raft.electionTimeout r <=? 0 then Panic RandArgument
       else Ret (rnd mod raft.electionTimeout r)) = @Panic Z RandArgument).
    { intros r <-. by case_bool. }
    rewrite He; [done|]. by repeat case_match.
Qed.

Lemma simple_start_raft r last :
  raft_ok r → simple_start (Changer.mk (raft.prs r) last) =
    (ProgressTracker.Config_ (raft.prs r), ProgressTracker.Progress_ (raft.prs r)).
Proof.
  intros Hok. unfold simple_start, changerConfig, changerProgress. simpl. f_equal.
  pose proof (inv_simple _ _ (rok_config r Hok)) as Hi.
  destruct Hi as (_ & _ & Ha); [by apply joint_false, Hok|].
  destruct (ProgressTracker.Config_ (raft.prs r)) as [v a l ln]. simpl in *. by subst.
Qed.

(** Applying the configuration change that adds a node: the voters become the
    old ones and the new one, the returned ConfState lists them, the invariant
    is kept, and a node that adds itself may campaign from then on. *)
Lemma applyConfChange_addNode (ctx : option bytes) (n ccid : Z) r :
  raft_ok r → n ≠ 0 →
  let cc := AsV2 (ConfChange.mk ConfChangeAddNode n ctx ccid None) in
  ∃ r' cs, raft.applyConfChange cc r = Ret (r', cs) ∧ raft_ok r' ∧
    raft.id r' = raft.id r ∧ raft.raftLog_ r' = raft.raftLog_ r ∧
    raft.state r' = raft.state r ∧ raft.msgs r' = raft.msgs r ∧
    raft.electionElapsed r' = raft.electionElapsed r ∧ raft.preVote r' = raft.preVote r ∧
    (∀ id, id ∈ keys (Config.Voters (ProgressTracker.Config_ (raft.prs r'))).1 ↔
       id = n ∨ id ∈ keys (Config.Voters (ProgressTracker.Config_ (raft.prs r))).1) ∧
    (∀ id, id ∈ ConfState.Voters cs ↔
       id = n ∨ id ∈ keys (Config.Voters (ProgressTracker.Config_ (raft.prs r))).1) ∧
    (∀ id, id ∈ ConfState.Voters cs ↔
       id ∈ keys (Config.Voters (ProgressTracker.Config_ (raft.prs r'))).1) ∧
    raft.Term r' = raft.Term r ∧ raft.Vote r' = raft.Vote r ∧
    (n = raft.id r ∨ raft.promotable r = true → raft.promotable r' = true).
Proof.
  intros Hok Hn cc. unfold raft.applyConfChange. rewrite lastIndex_ok by apply Hok.
  rewrite bind_Ret. set (last := sl_last (log_abs (raft.raftLog_ r))).
  set (c := Changer.mk (raft.prs r) last).
  assert (Hadd : addedIDs (ConfChangeV2.Changes cc) = {[n]}).
  { unfold cc. simpl. rewrite addedIDs_cons, decide_True by done. unfold addedIDs. simpl. set_solver. }
  pose proof (simple_start_raft r last Hok) as Hst. fold c in Hst.
  assert (Hsz : (size ({[n]} ∖ keys (Config.Voters (changerConfig c)).1 : gset Z) ≤ 1)%nat).
  { rewrite <- (size_singleton (C := gset Z) n). apply subseteq_size. set_solver. }
  destruct (Simple_succeeds c (ConfChangeV2.Changes cc)) as ([cfg prs] & HS & HP & Hinv).
  - rewrite Hst. apply Hok.
  - apply Hok.
  - apply Hok.
  - apply Forall_singleton. right. by left.
  - rewrite Hadd. set_solver.
  - by rewrite Hadd.
  - rewrite HS, Hst, Hadd in *. destruct HP as [Hi Hin Ho Ha Hle Hx Hp]. simpl in *.
    assert (Hok' : raft_ok (raft.switchToConfig cfg prs r).1).
    { apply switchToConfig_ok; try done.
      - unfold joint, outgoing. rewrite Ho. apply Hok.
      - intros Hnil. by apply (rok_incoming r Hok), Hin. }
    assert (Hns : (raft.state r =? StateLeader) = false)
      by (destruct (rok_state r Hok) as [->| ->]; done).
    eexists _, _. split; [by rewrite <- surjective_pairing|]. split; [done|].
    unfold raft.switchToConfig. simpl. rewrite Hns, andb_false_r. simpl.
    split_and!; try done.
    + intros id. rewrite Hi. set_solver.
    + intros id. rewrite elem_of_Slice, Hi. set_solver.
    + intros id. by rewrite elem_of_Slice.
    + unfold raft.promotable. simpl. rewrite Hp.
      assert (Hv : ∀ pr, Progress.IsLearner (voterProgress c pr) = false) by (by intros []).
      case_decide; [by rewrite Hv|]. intros [->|?]; [set_solver|done].
Qed.

(** a single-node cluster wins its election with its own
    vote, and stays a candidate: the tally after the campaign is one grant, no
    rejection, won, but the node does not become leader. *)
Theorem single_node_wins_but_stays_candidate rnd m r :
  raft_ok r → raft.promotable r = true → raft.preVote r = false → Message.Type_ m = MsgHup →
  Config.Voters (ProgressTracker.Config_ (raft.prs r)) = (Some {[raft.id r]}, None) →
  ∃ r', raft.Step rnd m r = Ret r' ∧
    ProgressTracker.TallyVotes (raft.prs r') = (1, 0, VoteWon) ∧
    raft.state r' = StateCandidate ∧ raft.hasLeader r' = false.
Proof.
  intros Hok Hp Hv Hm Hc. exists (electionSpec rnd r). rewrite Step_ok, Hm, Hp, Hv by done.
  destruct (electionSpec_frame rnd r) as (E1&E8&E9&E11&E12&E14).
  destruct (electionSpec_sets rnd r) as (E2&E3&E4&E5&E6&E7&E10&E13).
  split; [done|]. unfold raft.hasLeader. rewrite E4, E5. split_and!; try done.
  rewrite TallyVotes_spec, E12, Hc, JointVoteResult_nil, E13.
  assert (Hpr : Progress.IsLearner <$> ProgressTracker.Progress_ (raft.prs (electionSpec rnd r))
    !! raft.id r = Some false).
  { rewrite E14. unfold raft.promotable in Hp.
    destruct (ProgressTracker.Progress_ (raft.prs r) !! raft.id r) as [pr|]; [|done]. simpl.
    by destruct (Progress.IsLearner pr). }
  assert (Ht : tallied true (raft.prs (electionSpec rnd r)) = {[raft.id r]}).
  { apply set_eq. intros id. unfold tallied. rewrite elem_of_filter, E13, elem_of_dom.
    rewrite elem_of_singleton, lookup_singleton. case_decide; [subst|naive_solver].
    split; [done|]. intros _. split; [done|].
    eapply fmap_is_Some. rewrite Hpr. by eexists. }
  assert (Hf : tallied false (raft.prs (electionSpec rnd r)) = ∅).
  { apply set_eq. intros id. unfold tallied. rewrite elem_of_filter, E13.
    rewrite lookup_singleton. case_decide; set_solver. }
  assert (Hw : MajorityConfig.VoteResult (Some {[raft.id r]}) {[raft.id r := true]} = VoteWon).
  { apply VoteResult_Won. right. unfold majority, yes_set, keys, default, from_option, id.
    replace (filter _ _) with ({[raft.id r]} : gset Z).
    { rewrite !size_singleton. lia. }
    apply set_eq. intros id. rewrite elem_of_filter, elem_of_singleton, lookup_singleton.
    case_decide; naive_solver. }
  by rewrite Ht, Hf, Hw, size_singleton, size_empty.
Qed.
End System.

(** ** Instances at concrete inputs *)

(** A one-node configuration over the sample storage. *)
Definition sample_config (preVote : bool) : RaftConfig.t MemoryStorage.t :=
  RaftConfig.mk _ 1 [] [] 10 1 sample_storage 0 noLimit noLimit 0 256 true preVote
    ReadOnlySafe false.

#[local] Instance sample_order : MapOrder := elements_order.

(** A node that has added itself to its configuration. *)
Definition sample_raft (preVote : bool) : outcome (raft.t MemoryStorage.t) :=
  r ← raft.newRaft 3 (sample_config preVote);
  '(r, _) ← raft.applyConfChange (AsV2 (ConfChange.mk ConfChangeAddNode 1 None 0 None)) r;
  Ret r.

#[local] Strategy expand [sample_raft].

Lemma sample_newRaft preVote :
  ∃ r, raft.newRaft 3 (sample_config preVote) = Ret r ∧ raft_ok r.
Proof.
  destruct (newRaft_ok 3 (sample_config preVote) HardState.zero ConfState.zero)
    as (r & ? & ? & _); [done|done|apply sample_storage_ok|done|]. by exists r.
Qed.

Lemma start_and_join (m : outcome (raft.t MemoryStorage.t)) cc r0 r :
  m = Ret r0 → raft_ok r0 →
  (r ← m; '(r, _) ← raft.applyConfChange cc r; Ret r) = Ret r → raft_ok r ∧ raft_step r0 r.
Proof.
  intros -> Hok H. rewrite bind_Ret in H. apply outcome_bind_Ret in H as ([r' cs] & HA & H).
  injection H as <-. split; [by eapply applyConfChange_ok|by eapply raft_step_conf].
Qed.

Lemma sample_raft_returns preVote :
  match sample_raft preVote with Ret _ => true | _ => false end = true.
Proof. destruct preVote; vm_compute; reflexivity. Qed.

Lemma sample_raft_ok preVote :
  ∃ r0 r, raft.newRaft 3 (sample_config preVote) = Ret r0 ∧ sample_raft preVote = Ret r ∧
    raft_ok r ∧ raft_step r0 r.
Proof.
  pose proof (sample_raft_returns preVote) as Hr.
  destruct (sample_newRaft preVote) as (r0 & Hn & Hok). exists r0.
  destruct (sample_raft preVote) as [r| | |] eqn:E; try discriminate Hr.
  exists r. split; [exact Hn|]. split; [reflexivity|].
  exact (start_and_join _ _ r0 r Hn Hok E).
Qed.

(** What the witnesses read off the sample node. *)
Definition sample_facts (r : raft.t MemoryStorage.t) : Z * Z * Z * Z * bool * bool :=
  (raft.Term r, raft.id r, raft.electionElapsed r, raft.randomizedElectionTimeout r,
   raft.promotable r, raft.preVote r).

Lemma sample_raft_facts preVote r :
  sample_raft preVote = Ret r → sample_facts r = (0, 1, 0, 13, true, preVote).
Proof.
  intros H.
  assert (Hf : sample_facts <$> (match sample_raft preVote with Ret r => Some r | _ => None end)
    = Some (0, 1, 0, 13, true, preVote)) by (destruct preVote; vm_compute; reflexivity).
  rewrite H in Hf. exact (inj Some _ _ Hf).
Qed.


Lemma raft_one_vote_per_term_witness :
  ∃ r r', sample_raft false = Ret r ∧ raft_step r r' ∧
    ((raft.Term r' = raft.Term r ∧ raft.Vote r' = raft.Vote r) ∨
     (raft.Term r' = raft.Term r + 1 ∧ raft.Vote r' = raft.id r ∧
      raft.state r' = StateCandidate ∧ raft.promotable r = true)).
Proof.
  destruct (sample_raft_ok false) as (_ & r & _ & Hr & Hok & _).
  pose proof (sample_raft_facts _ _ Hr) as Hf. injection Hf as Ht _ _ _ Hp Hv.
  assert (Hs : raft_step r (electionSpec 5 r)).
  { apply (raft_step_msg 5 Message.zero). rewrite Step_ok by done. by rewrite Hp, Hv. }
  exists r, (electionSpec 5 r). split_and!; [done|done|].
  apply raft_one_vote_per_term; [done|lia|done].
Defined.

Lemma election_at_timeout_witness :
  ∃ r r', sample_raft false = Ret r ∧ ticks (replicate 12 0 ++ [4]) r = Ret r' ∧
    raft.state r' = StateCandidate ∧ raft.Term r' = 1.
Proof.
  destruct (sample_raft_ok false) as (_ & r & _ & Hr & Hok & _).
  pose proof (sample_raft_facts _ _ Hr) as Hf. injection Hf as Ht Hid He HT Hp Hv.
  destruct (election_at_timeout (replicate 12 0) 4 r) as (_ & r' & Htk & Hst & HT' & _);
    [done|done|done|lia|lia|rewrite He, HT; reflexivity|].
  exists r, r'. split_and!; [done|done|done|lia].
Defined.

Lemma preVote_campaign_panics_witness :
  ∃ r, sample_raft true = Ret r ∧
    raft.Step 0 Message.zero r = Panic (PanicString "not a vote message").
Proof.
  destruct (sample_raft_ok true) as (_ & r & _ & Hr & Hok & _).
  pose proof (sample_raft_facts _ _ Hr) as Hf. injection Hf as _ _ _ _ Hp Hv.
  exists r. split; [done|]. by apply preVote_campaign_panics.
Defined.

(** The sample storage with a persisted state: term 9, a vote, commit index 6. *)
Definition sample_persisted : RaftConfig.t MemoryStorage.t :=
  (sample_config false) <| RaftConfig.Storage_ :=
    sample_storage <| MemoryStorage.hardState := HardState.mk 9 2 6 None |> |>.

Lemma newRaft_forgets_hardState_witness :
  ∃ r, raft.newRaft 0 sample_persisted = Ret r ∧ raft.hardState r = HardState.mk 0 0 3 None.
Proof.
  destruct (newRaft_forgets_hardState 0 sample_persisted (HardState.mk 9 2 6 None) ConfState.zero)
    as (r & Hn & _ & Hh); [done|done|apply sample_storage_ok|done|].
  by exists r.
Defined.

Lemma newRaft_rejects_witness :
  raft.newRaft 7 ((sample_config false) <| RaftConfig.ElectionTick := 0 |>) = Panic RandArgument.
Proof.
  apply (newRaft_rejects 7 ((sample_config false) <| RaftConfig.ElectionTick := 0 |>)
    HardState.zero ConfState.zero); [apply sample_storage_ok|done|done|done].
Defined.

Lemma single_node_wins_but_stays_candidate_witness :
  ∃ r r', sample_raft false = Ret r ∧ raft.Step 0 Message.zero r = Ret r' ∧
    ProgressTracker.TallyVotes (raft.prs r') = (1, 0, VoteWon) ∧ raft.state r' = StateCandidate.
Proof.
  destruct (sample_raft_ok false) as (_ & r & _ & Hr & Hok & _).
  pose proof (sample_raft_facts _ _ Hr) as Hf. injection Hf as Ht Hid He HT Hp Hv.
  assert (Hc : Config.Voters (ProgressTracker.Config_ (raft.prs r)) = (Some {[1]}, None)).
  { assert (Hx : (λ r, Config.Voters (ProgressTracker.Config_ (raft.prs r))) <$>
      (match sample_raft false with Ret r => Some r | _ => None end) = Some (Some {[1]}, None))
      by (vm_compute; reflexivity).
    rewrite Hr in Hx. exact (inj Some _ _ Hx). }
  destruct (single_node_wins_but_stays_candidate 0 Message.zero r) as (r' & HS & HT' & Hst & _);
    [done|done|done|done|by rewrite Hc, Hid|].
  by exists r, r'.
Defined.
