(* ===== verification/Node.v ===== *)
(** * raft/rawnode.go, raft/bootstrap.go, raft/node.go: the node interface

    [RawNode] wraps a [raft] and tells the application what to do next
    ([Ready]); [Bootstrap] gives a new cluster its first entries; [node] is
    the loop that serves the channels.  The loop and the callers of its methods
    run concurrently: they are a labelled transition system. *)

From S2P Require Import Prelude Proto RaftPb RaftPbCodec Quorum Tracker ConfChanger Storage RaftLog Raft.

Definition IsEmptyHardState (st : HardState.t) : bool := raft.isHardStateEqual st raft.emptyState.
Definition IsEmptySnap (sp : Snapshot.t) : bool :=
  SnapshotMetadata.Index (Snapshot.Metadata sp) =? 0.

Definition MustSync (st prevst : HardState.t) (entsnum : Z) : bool :=
  negb (entsnum =? 0) || negb (HardState.Vote st =? HardState.Vote prevst)
  || negb (HardState.Term st =? HardState.Term prevst).

(** ** Ready *)
Module Ready.
Record t := mk {
  SoftState_ : option SoftState.t; HardState_ : HardState.t; ReadStates : list ReadState.t;
  Entries : list Entry.t; Snapshot_ : Snapshot.t; CommittedEntries : list Entry.t;
  Messages : list Message.t; MustSync_ : bool }.
Definition zero : t := mk None HardState.zero [] [] Snapshot.zero [] [] false.
End Ready.

Section Node.
Context `{MO : !MapOrder}.
Context {S : Type} `{!Storage S}.

Definition newReady (r : raft.t S) (prevSoftSt : SoftState.t) (prevHardSt : HardState.t)
    : outcome Ready.t :=
  committed ← raftLog.nextEnts (raft.raftLog_ r);
  let rd := Ready.zero <| Ready.Entries := raftLog.unstableEntries (raft.raftLog_ r) |>
              <| Ready.CommittedEntries := committed |> <| Ready.Messages := raft.msgs r |> in
  let rd := if negb (SoftState.equal (softState r) prevSoftSt)
            then rd <| Ready.SoftState_ := Some (softState r) |> else rd in
  let rd := if negb (raft.isHardStateEqual (raft.hardState r) prevHardSt)
            then rd <| Ready.HardState_ := raft.hardState r |> else rd in
  let rd := match unstable.snapshot (raftLog.unstable_ (raft.raftLog_ r)) with
            | Some s => rd <| Ready.Snapshot_ := s |> | None => rd end in
  let rd := if negb (len (raft.readStates r) =? 0)
            then rd <| Ready.ReadStates := raft.readStates r |> else rd in
  Ret (rd <| Ready.MustSync_ := MustSync (raft.hardState r) prevHardSt (len (Ready.Entries rd)) |>).
End Node.

(** ** rawnode.go *)
Module RawNode.
Record t {S : Type} := mk {
  raft_ : raft.t S; prevSoftSt : SoftState.t; prevHardSt : HardState.t }.
Arguments t S : clear implicits.

Section Ops.
Context `{MO : !MapOrder}.
Context {S : Type} `{!Storage S}.

Definition NewRawNode (rnd : Z) (config : RaftConfig.t S) : outcome (t S) :=
  if RaftConfig.ID config =? 0 then Panic (PanicString "config.ID must not be zero") else
  r ← raft.newRaft rnd config;
  Ret (mk S r (softState r) (raft.hardState r)).

Definition Tick (rnd : Z) (rn : t S) : outcome (t S) :=
  r ← raft.Tick rnd (raft_ rn); Ret (rn <| raft_ := r |>).

Definition readyWithoutAccept (rn : t S) : outcome Ready.t :=
  newReady (raft_ rn) (prevSoftSt rn) (prevHardSt rn).

Definition acceptReady (rd : Ready.t) (rn : t S) : t S :=
  let rn := match Ready.SoftState_ rd with
            | Some s => rn <| prevSoftSt := s |> | None => rn end in
  let rn := if negb (len (Ready.ReadStates rd) =? 0)
            then rn <| raft_ ::= (λ r, r <| raft.readStates := [] |>) |> else rn in
  rn <| raft_ ::= (λ r, r <| raft.msgs := [] |>) |>.

Definition Ready_ (rn : t S) : outcome (t S * Ready.t) :=
  rd ← readyWithoutAccept rn; Ret (acceptReady rd rn, rd).

Definition HasReady (rn : t S) : outcome bool :=
  let r := raft_ rn in
  if negb (SoftState.equal (softState r) (prevSoftSt rn)) then Ret true else
  let hardSt := raft.hardState r in
  if negb (IsEmptyHardState hardSt) && negb (raft.isHardStateEqual hardSt (prevHardSt rn))
  then Ret true else
  if match unstable.snapshot (raftLog.unstable_ (raft.raftLog_ r)) with
     | Some s => negb (IsEmptySnap s) | None => false end then Ret true else
  if (len (raft.msgs r) >? 0) || (len (raftLog.unstableEntries (raft.raftLog_ r)) >? 0)
  then Ret true else
  hn ← raftLog.hasNextEnts (raft.raftLog_ r);
  if (hn : bool) then Ret true else
  Ret (negb (len (raft.readStates r) =? 0)).

(** bootstrap.go *)
Record Peer := MkPeer { Peer_ID : Z; Peer_Context : option bytes }.

(** The entry that records the addition of the [i]-th peer. *)
Definition peerConfChange (p : Peer) : ConfChange.t :=
  ConfChange.zero <| ConfChange.Type_ := ConfChangeAddNode |> <| ConfChange.NodeID := Peer_ID p |>
    <| ConfChange.Context := Peer_Context p |>.

Fixpoint bootstrapEntries (i : Z) (peers : list Peer) : outcome (list Entry.t) :=
  match peers with
  | [] => Ret []
  | p :: peers =>
      data ← ConfChange.Marshal (peerConfChange p);
      rest ← bootstrapEntries (i + 1) peers;
      Ret (Entry.mk 1 (i + 1) EntryConfChange (Some data) None :: rest)
  end.

Fixpoint bootstrapApply (peers : list Peer) (r : raft.t S) : outcome (raft.t S) :=
  match peers with
  | [] => Ret r
  | p :: peers =>
      '(r, _) ← raft.applyConfChange
        (AsV2 (ConfChange.zero <| ConfChange.NodeID := Peer_ID p |>
                 <| ConfChange.Type_ := ConfChangeAddNode |>)) r;
      bootstrapApply peers r
  end.

Definition Bootstrap (rnd : Z) (peers : list Peer) (rn : t S) : outcome (t S) :=
  if len peers =? 0 then Err (Errorf "must provide at least one peer to Bootstrap") else
  lastIndex ← LastIndex (raftLog.storage (raft.raftLog_ (raft_ rn)));
  if negb (lastIndex =? 0) then Err (Errorf "can't bootstrap a nonempty Storage") else
  let rn := rn <| prevHardSt := raft.emptyState |> in
  r ← raft.becomeFollower rnd 1 None_ (raft_ rn);
  ents ← bootstrapEntries 0 peers;
  '(l, _) ← raftLog.append ents (raft.raftLog_ r);
  let l := l <| raftLog.committed := len ents |> in
  r ← bootstrapApply peers (r <| raft.raftLog_ := l |>);
  Ret (rn <| raft_ := r |>).
End Ops.
End RawNode.

(** ** node.go

    The channels that matter: [tickc], buffered with capacity 128, is the
    number of ticks in it; [propc] is unbuffered, so a proposer waits until
    the loop receives from it.  The loop's local variable [propc] is nil, which
    never becomes ready in a [select], or the channel.  Its other two locals,
    [readyc] and [advancec], are never assigned a channel, and nothing closes
    [done]. *)
Module node.
Record t {S : Type} := mk {
  rn : RawNode.t S;
  tickc : Z;              (** ticks buffered *)
  run_propc : bool;       (** run's local propc is not nil *)
  run_lead : Z            (** run's local lead *)
}.
Arguments t S : clear implicits.

Section Ops.
Context `{MO : !MapOrder}.
Context {S : Type} `{!Storage S}.

Definition newNode (rn : RawNode.t S) : t S := mk S rn 0 false None_.

(** The error of [Bootstrap] is dropped; it is returned before anything is
    changed. *)
Definition StartNode (rnd rnd' : Z) (c : RaftConfig.t S) (peers : list RawNode.Peer)
    : outcome (t S) :=
  if len peers =? 0 then Panic (PanicString "no peers given; use RestartNode instead") else
  rn ← must (RawNode.NewRawNode rnd c);
  rn ← match RawNode.Bootstrap rnd' peers rn with Err _ => Ret rn | o => o end;
  Ret (newNode rn).

Definition RestartNode (rnd : Z) (c : RaftConfig.t S) : outcome (t S) :=
  rn ← must (RawNode.NewRawNode rnd c); Ret (newNode rn).

(** [Tick()]: a tick is dropped when the buffer is full. *)
Definition Tick (n : t S) : t S :=
  if tickc n <? 128 then n <| tickc := tickc n + 1 |> else n.

(** One round of [run] up to the [select]. *)
Definition loopHead (n : t S) : outcome (t S) :=
  _ ← RawNode.HasReady (rn n);
  let r := RawNode.raft_ (rn n) in
  if negb (run_lead n =? raft.lead r) then
    Ret (n <| run_propc := raft.hasLeader r |> <| run_lead := raft.lead r |>)
  else Ret n.

(** [case <-n.tickc] *)
Definition runTick (rnd : Z) (n : t S) : outcome (t S) :=
  n ← loopHead n;
  rn' ← RawNode.Tick rnd (rn n);
  Ret (n <| rn := rn' |> <| tickc := tickc n - 1 |>).

(** [case pm := <-propc] *)
Definition runProp (rnd : Z) (m : Message.t) (n : t S) : outcome (t S) :=
  let r := RawNode.raft_ (rn n) in
  r ← raft.Step rnd (m <| Message.From := raft.id r |>) r;
  Ret (n <| rn := (rn n) <| RawNode.raft_ := r |> |>).

(** What [stepWait] returns once the loop has received its message: the result
    of [Step], which is never an error, or the error of a context that was done
    by then. *)
Definition waitResult (ctx_done : bool) : option error :=
  if ctx_done then Some ErrContextDone else None.

(** The message of [Propose]. *)
Definition proposal (data : option bytes) : Message.t :=
  Message.zero <| Message.Type_ := MsgProp |>
    <| Message.Entries := [Entry.zero <| Entry.Data := data |>] |>.

(** The node, the proposals that wait to be received, and the results that
    [Propose] has returned ([None] is a nil error). *)
Record system := System {
  sys_node : t S;
  sys_waiting : list (nat * Message.t);
  sys_results : list (nat * option error)
}.

Inductive node_step : system → system → Prop :=
  | node_tick n ws rs : node_step (System n ws rs) (System (Tick n) ws rs)
  | node_propose n ws rs k data :
      node_step (System n ws rs) (System n (ws ++ [(k, proposal data)]) rs)
  | node_cancel n ws1 ws2 rs k m :
      (** the caller's context is done *)
      node_step (System n (ws1 ++ (k, m) :: ws2) rs)
        (System n (ws1 ++ ws2) (rs ++ [(k, Some ErrContextDone)]))
  | node_run_tick n n' ws rs rnd :
      0 < tickc n → runTick rnd n = Ret n' → node_step (System n ws rs) (System n' ws rs)
  | node_run_prop n n1 n' ws1 ws2 rs k m rnd ctx_done :
      loopHead n = Ret n1 → run_propc n1 = true → runProp rnd m n1 = Ret n' →
      node_step (System n (ws1 ++ (k, m) :: ws2) rs)
        (System n' (ws1 ++ ws2) (rs ++ [(k, waitResult ctx_done)])).
End Ops.
End node.

(** ** What [Ready] reports *)

Section RawNodeProps.
Context `{MO : !MapOrder}.
Context {S : Type} `{!Storage S, !StorageLaws S}.
Implicit Types (rn : RawNode.t S) (r : raft.t S).

(** A Ready that asks for nothing. *)
Definition emptyReady (rd : Ready.t) : Prop :=
  Ready.SoftState_ rd = None ∧ Ready.HardState_ rd = HardState.zero ∧ Ready.ReadStates rd = [] ∧
  Ready.Entries rd = [] ∧ Ready.CommittedEntries rd = [] ∧ Ready.Messages rd = [].

Lemma unstableEntries_eq (l : raftLog.t S) : raftLog.unstableEntries l = uentries l.
Proof. unfold raftLog.unstableEntries. case_bool; [|done]. by apply len_0 in Heqb. Qed.

Lemma newReady_ok r ss hs :
  log_ok (raft.raftLog_ r) →
  ∃ ents, raftLog.nextEnts (raft.raftLog_ r) = Ret ents ∧
  newReady r ss hs = Ret
    {| Ready.SoftState_ := if SoftState.equal (softState r) ss then None else Some (softState r);
       Ready.HardState_ := if raft.isHardStateEqual (raft.hardState r) hs then HardState.zero
                           else raft.hardState r;
       Ready.ReadStates := raft.readStates r; Ready.Entries := uentries (raft.raftLog_ r);
       Ready.Snapshot_ := Snapshot.zero; Ready.CommittedEntries := ents;
       Ready.Messages := raft.msgs r;
       Ready.MustSync_ := MustSync (raft.hardState r) hs (len (uentries (raft.raftLog_ r))) |}.
Proof.
  intros Hl. unfold newReady. rewrite nextEnts_ok, unstableEntries_eq, (ok_snapshot _ Hl) by done.
  match goal with |- context [limitSize ?es ?n] =>
    destruct (limitSize_prefix es n) as (k & -> & _) end.
  eexists. split; [done|]. rewrite bind_Ret.
  destruct (SoftState.equal _ _), (raft.isHardStateEqual _ _); simpl;
    (case_bool; [done|apply len_0 in Heqb; by rewrite Heqb]).
Qed.

(** [HasReady] and [Ready] agree.  [HasReady] is true
    exactly when the Ready that would be produced asks for something (a state
    change, entries to persist or apply, messages or read states), except that
    a change of the hard state to the empty one is not announced. *)
Theorem hasReady_iff_ready rn :
  log_ok (raft.raftLog_ (RawNode.raft_ rn)) →
  IsEmptyHardState (raft.hardState (RawNode.raft_ rn)) = false →
  ∃ b rd, RawNode.HasReady rn = Ret b ∧ RawNode.readyWithoutAccept rn = Ret rd ∧
    (b = false ↔ emptyReady rd).
Proof.
  intros Hl Hne. set (r := RawNode.raft_ rn) in *.
  destruct (newReady_ok r (RawNode.prevSoftSt rn) (RawNode.prevHardSt rn) Hl) as (ents & Hn & HR).
  unfold RawNode.HasReady, RawNode.readyWithoutAccept. fold r. rewrite HR.
  rewrite unstableEntries_eq, (ok_snapshot _ Hl), hasNextEnts_ok, Hne by done.
  assert (Hents : ents = [] ↔ raftLog.applied (raft.raftLog_ r) = raftLog.committed (raft.raftLog_ r)).
  { pose proof (log_bounds _ Hl) as (H0&H1&H2&H3&H4&HL&H5&H6). rewrite nextEnts_ok in Hn by done.
    destruct (limitSize_prefix (slog_slice (log_abs (raft.raftLog_ r))
      (raftLog.applied (raft.raftLog_ r) + 1) (raftLog.committed (raft.raftLog_ r) + 1))
      (raftLog.maxNextEntsSize (raft.raftLog_ r))) as (k & Hk & _ & Hpos).
    rewrite Hn in Hk. injection Hk as ->.
    set (todo := slog_slice _ _ _) in *.
    assert (Hlen : len todo = raftLog.committed (raft.raftLog_ r) - raftLog.applied (raft.raftLog_ r)).
    { unfold todo. rewrite slog_slice_length; simpl; lia. }
    rewrite <- len_0, len_take. split.
    - intros Hz. destruct (decide (todo = [])) as [Ht|Ht].
      + rewrite Ht, len_nil in Hlen. lia.
      + specialize (Hpos Ht). rewrite <- len_0 in Ht. lia.
    - intros He. lia. }
  pose proof (log_bounds _ Hl) as (_&_&_&_&_&_&H5&_).
  do 2 eexists. split; [|split; [done|]].
  - instantiate (1 := negb (SoftState.equal (softState r) (RawNode.prevSoftSt rn))
      || negb (raft.isHardStateEqual (raft.hardState r) (RawNode.prevHardSt rn))
      || (len (raft.msgs r) >? 0) || (len (uentries (raft.raftLog_ r)) >? 0)
      || (raftLog.applied (raft.raftLog_ r) <? raftLog.committed (raft.raftLog_ r))
      || negb (len (raft.readStates r) =? 0)).
    destruct (SoftState.equal _ _), (raft.isHardStateEqual _ _); try done; simpl.
    destruct (_ >? 0), (_ >? 0); try done; simpl. by destruct (_ <? _).
  - unfold emptyReady. simpl. rewrite !orb_false_iff, !negb_false_iff, Z.ltb_ge, Z.eqb_eq, len_0.
    rewrite !Z.gtb_ltb, !Z.ltb_ge, Hents.
    pose proof (len_nonneg (raft.msgs r)). pose proof (len_nonneg (uentries (raft.raftLog_ r))).
    rewrite <- (len_0 (raft.msgs r)), <- (len_0 (uentries (raft.raftLog_ r))).
    assert (Hhs : raft.hardState r ≠ HardState.zero).
    { intros Hz. rewrite Hz in Hne. done. }
    destruct (SoftState.equal _ _), (raft.isHardStateEqual _ _); naive_solver lia.
Qed.
End RawNodeProps.

(** ** Bootstrap *)

Section BootstrapProps.
Context `{MO : !MapOrder}.
Context {S : Type} `{!Storage S, !StorageLaws S}.
Implicit Types (rn : RawNode.t S) (r : raft.t S) (p : RawNode.Peer).

Abbreviation voters r := (keys (Config.Voters (ProgressTracker.Config_ (raft.prs r))).1).

(** A peer whose configuration change can be encoded. *)
Definition peer_ok p : Prop :=
  RawNode.Peer_ID p ≠ 0 ∧ is_u64 (RawNode.Peer_ID p) ∧
  len (ConfChangeCodec.enc (RawNode.peerConfChange p)) < 2 ^ 63.

(** The entry of a peer: term 1, and the change that adds the peer. *)
Definition peer_entry p (e : Entry.t) : Prop :=
  Entry.Term e = 1 ∧ Entry.Type_ e = EntryConfChange ∧
  ∃ data, Entry.Data e = Some data ∧
    ConfChange.Unmarshal ConfChange.zero data = Ret (RawNode.peerConfChange p).

Lemma bootstrapEntries_ok i peers :
  Forall peer_ok peers →
  ∃ ents, RawNode.bootstrapEntries i peers = Ret ents ∧ contiguous (i + 1) ents ∧
    Forall2 peer_entry peers ents.
Proof.
  intros H. revert i. induction H as [|p peers (Hne & Hid & Hl) _ IH]; intros i.
  - exists []. split_and!; [done|by intros ???|constructor].
  - cbn [RawNode.bootstrapEntries].
    destruct (codec_roundtrip (Codec0 := ConfChangeCodec.codec) (RawNode.peerConfChange p))
      as (data & Hm & _ & Hu); [by split_and!|done|].
    unfold ConfChange.Marshal. rewrite Hm, bind_Ret.
    destruct (IH (i + 1)) as (ents & -> & Hc & Hf). rewrite bind_Ret.
    eexists. split_and!; [done| |].
    + by apply MemoryStorageOk.contiguous_cons.
    + constructor; [|done]. split_and!; try done. by exists data.
Qed.

Lemma bootstrapApply_ok peers r :
  raft_ok r → Forall peer_ok peers →
  ∃ r', RawNode.bootstrapApply peers r = Ret r' ∧ raft_ok r' ∧
    raft.raftLog_ r' = raft.raftLog_ r ∧ raft.Term r' = raft.Term r ∧
    raft.Vote r' = raft.Vote r ∧ raft.state r' = raft.state r ∧ raft.id r' = raft.id r ∧
    (∀ id, id ∈ voters r' ↔ id ∈ RawNode.Peer_ID <$> peers ∨ id ∈ voters r) ∧
    (raft.id r ∈ RawNode.Peer_ID <$> peers ∨ raft.promotable r = true → raft.promotable r' = true).
Proof.
  intros Hok H. revert r Hok. induction H as [|p peers (Hne & _) _ IH]; intros r Hok.
  - exists r. split_and!; try done; [set_solver|]. intros [?|?]; [set_solver|done].
  - cbn [RawNode.bootstrapApply].
    destruct (applyConfChange_addNode None (RawNode.Peer_ID p) 0 r Hok Hne)
      as (r1 & cs & HA & Hok1 & Hid & Hlog & Hst & _ & _ & _ & Hv & _ & _ & HT & HV & Hp).
    change (AsV2 (ConfChange.zero <| ConfChange.NodeID := RawNode.Peer_ID p |>
      <| ConfChange.Type_ := ConfChangeAddNode |>)) with
      (AsV2 (ConfChange.mk ConfChangeAddNode (RawNode.Peer_ID p) None 0 None)).
    rewrite HA, bind_Ret.
    destruct (IH r1 Hok1) as (r' & HB & Hok' & Hl' & HT' & HV' & Hst' & Hid' & Hv' & Hp').
    exists r'. split_and!; try done; try congruence.
    + intros id. rewrite Hv', Hv. set_solver.
    + rewrite Hid in Hp'. intros H. apply Hp'. rewrite fmap_cons, elem_of_cons in H. naive_solver.
Qed.

Lemma becomeFollower_fresh rnd r :
  raft_ok r → raft.Term r = 0 →
  ∃ r', raft.becomeFollower rnd 1 None_ r = Ret r' ∧ raft_ok r' ∧ raft.Term r' = 1 ∧
    raft.Vote r' = None_ ∧ raft.raftLog_ r' = raft.raftLog_ r ∧ raft.id r' = raft.id r ∧
    raft.state r' = StateFollower ∧ voters r' = voters r.
Proof.
  intros [Hl Ht _ _ _ _ Hc Hj Hi _ _] HT. rewrite becomeFollower_ok by (done || lia).
  set (rf := r <| raft.step := step_stepFollower |>).
  destruct (resetSpec_frame rnd 1 rf) as (F1&F2&F3&F4&F5&F6&F7&F8&F9).
  destruct (resetSpec_sets rnd 1 rf) as (S1&S2&S3&S4&S5&S6).
  pose proof (resetSpec_isLearner rnd 1 rf) as HL.
  pose proof (drawTimeout_range rnd rf Ht) as Hdr.
  eexists. split; [done|].
  generalize dependent (resetSpec rnd 1 rf). intros r0 *. intros.
  assert (HV : raft.Vote r0 = None_) by (rewrite S2; simpl; by rewrite HT).
  assert (Hci : ConfigInv (ProgressTracker.Config_ (raft.prs r0)) (ProgressTracker.Progress_ (raft.prs r0))).
  { rewrite F9. by eapply ConfigInv_ext. }
  split_and!; [split; simpl; rewrite ?F2, ?F4, ?F9, ?S5 in *; try done; by left|..]; simpl;
    try done; by rewrite ?F9, ?F2.
Qed.

Lemma bootstrapLog_ok (l : raftLog.t S) ents :
  log_ok l → sl_last (log_abs l) = 0 → uentries l = [] → ents ≠ [] → contiguous 1 ents →
  len ents < 2 ^ 63 - 2 →
  ∃ l' last, raftLog.append ents l = Ret (l', last) ∧
    log_ok (l' <| raftLog.committed := len ents |>) ∧ uentries l' = ents ∧
    raftLog.applied l' = 0.
Proof.
  intros Hok Hz Hu Hne Hc Hb. pose proof (log_bounds l Hok) as (H0&H1&H2&H3&H4&HL&H5&H6).
  destruct (append_ok l 1 ents) as (l' & HA & Hok' & Habs & Hst & Hcm & Hap & _); try (done || lia).
  exists l', (1 + len ents - 1).
  pose proof (log_bounds l' Hok') as (G0&G1&G2&G3&G4&GL&G5&G6).
  assert (Hlast : sl_last (log_abs l') = len ents).
  { rewrite Habs. unfold sl_last, MemoryStorageOk.appended in *. simpl in *.
    pose proof (len_nonneg ents). rewrite len_app, len_take, len_drop. rewrite Hu, app_nil_r in *. lia. }
  assert (Hue : uentries l' = ents).
  { revert HA. destruct ents as [|e es]; [done|].
    destruct (proj1 (MemoryStorageOk.contiguous_cons _ _ _) Hc) as [He _].
    unfold raftLog.append. rewrite He. unwrap. case_bool.
    destruct (truncateAndAppend_ok l 1 (e :: es)) as (u & -> & _ & _ & Hent);
      [done|done|done|simpl; lia|].
    rewrite bind_Ret. intros HA. apply outcome_bind_Ret in HA as (x & _ & HA).
    injection HA as <- _. simpl. rewrite Hent, Hu. by rewrite take_nil. }
  split_and!; try done; [|lia]. pose proof (len_nonneg ents).
  destruct Hok' as [K1 K2 K3 K4 K5 K6 K7]. split; simpl in *; try done.
  change (log_abs (l' <| raftLog.committed := len ents |>)) with (log_abs l'). lia.
Qed.

Lemma Bootstrap_nonempty rnd peers rn :
  let r := RawNode.raft_ rn in
  raft_ok r → peers ≠ [] → sl_last (storage_log (raftLog.storage (raft.raftLog_ r))) ≠ 0 →
  RawNode.Bootstrap rnd peers rn = Err (Errorf "can't bootstrap a nonempty Storage").
Proof.
  intros r Hok Hne Hst. rewrite <- len_0 in Hne. unfold RawNode.Bootstrap. fold r. case_bool.
  rewrite law_LastIndex, bind_Ret by apply Hok. by case_bool.
Qed.

(** What [Bootstrap] does to an empty log. *)
Lemma Bootstrap_ok rnd peers rn :
  let r := RawNode.raft_ rn in
  raft_ok r → raft.Term r = 0 →
  sl_last (storage_log (raftLog.storage (raft.raftLog_ r))) = 0 → uentries (raft.raftLog_ r) = [] →
  peers ≠ [] → Forall peer_ok peers → len peers < 2 ^ 63 - 2 →
  ∃ rn', RawNode.Bootstrap rnd peers rn = Ret rn' ∧
    let r' := RawNode.raft_ rn' in
    raft_ok r' ∧ raft.Term r' = 1 ∧ raft.state r' = StateFollower ∧
    Forall2 peer_entry peers (uentries (raft.raftLog_ r')) ∧
    contiguous 1 (uentries (raft.raftLog_ r')) ∧
    raftLog.committed (raft.raftLog_ r') = len peers ∧ raftLog.applied (raft.raftLog_ r') = 0 ∧
    (∀ id, id ∈ voters r' ↔ id ∈ RawNode.Peer_ID <$> peers ∨ id ∈ voters r) ∧
    (raft.id r ∈ RawNode.Peer_ID <$> peers → raft.promotable r' = true) ∧
    RawNode.HasReady rn' = Ret true.
Proof.
  intros r Hok HT Hst Hu Hne Hp Hb.
  pose proof (log_bounds _ (rok_log r Hok)) as (H0&H1&H2&H3&H4&HL&H5&H6).
  pose proof (ok_empty _ (rok_log r Hok) Hu) as Hoff.
  assert (Hlast : sl_last (log_abs (raft.raftLog_ r)) = 0).
  { rewrite HL, Hoff, Hst, Hu. done. }
  assert (len peers ≠ 0) by (by rewrite len_0).
  destruct (becomeFollower_fresh rnd r Hok HT)
    as (r1 & HF & Hok1 & HT1 & HV1 & Hl1 & Hid1 & Hs1 & Hv1).
  destruct (bootstrapEntries_ok 0 peers Hp) as (ents & HE & Hc & Hf).
  assert (Hlen : len ents = len peers) by (apply Forall2_length in Hf; unfold len; lia).
  destruct (bootstrapLog_ok (raft.raftLog_ r) ents) as (l & last & HA & Hl & Hul & Hap);
    [apply Hok|done|done|by intros ->|done|lia|].
  destruct (bootstrapApply_ok peers (r1 <| raft.raftLog_ := l <| raftLog.committed := len ents |> |>))
    as (r' & HB & Hok' & Hl' & HT' & _ & Hs' & Hid' & Hv' & Hp'); [by apply raft_ok_log|done|].
  exists (rn <| RawNode.prevHardSt := raft.emptyState |> <| RawNode.raft_ := r' |>). split.
  { unfold RawNode.Bootstrap. fold r. case_bool.
    rewrite law_LastIndex, Hst, bind_Ret by apply Hok. simpl.
    fold r. by rewrite HF, bind_Ret, HE, bind_Ret, Hl1, HA, bind_Ret, HB. }
  simpl. rewrite Hl'. simpl. rewrite Hul. split_and!; try done.
  - by rewrite HT'.
  - by rewrite Hs'.
  - intros id. rewrite Hv'. simpl. by rewrite Hv1.
  - intros Hin. apply Hp'. left. simpl. by rewrite Hid1.
  - unfold RawNode.HasReady. simpl. rewrite unstableEntries_eq, Hl'. simpl. rewrite Hul.
    rewrite (proj2 (Z.gtb_lt (len ents) 0)), orb_true_r by (pose proof (len_nonneg ents); lia).
    by repeat (case_match; [done|]).
Qed.

(** C21 (functional): bootstrapping a new node.  On an empty storage, with at
    least one peer and non-zero ids, [Bootstrap] succeeds: the node is a
    follower in term 1 whose log holds one configuration-change entry per
    peer, in order from index 1, all committed and none applied or persisted;
    each entry's data decodes to the addition of its peer; the configuration
    in force already has exactly the peers as voters; the node may campaign if
    it is among them; and there is something ready for the application.
    Without peers, or on a storage with entries, it fails and nothing has
    changed. *)
Theorem bootstrap_new_cluster rnd peers rn :
  let r := RawNode.raft_ rn in
  raft_ok r → raft.Term r = 0 → voters r = ∅ → uentries (raft.raftLog_ r) = [] →
  Forall peer_ok peers → len peers < 2 ^ 63 - 2 →
  if decide (peers = []) then
    RawNode.Bootstrap rnd peers rn = Err (Errorf "must provide at least one peer to Bootstrap")
  else if decide (sl_last (storage_log (raftLog.storage (raft.raftLog_ r))) = 0) then
  ∃ rn', RawNode.Bootstrap rnd peers rn = Ret rn' ∧
    let r' := RawNode.raft_ rn' in
    raft_ok r' ∧ raft.Term r' = 1 ∧ raft.state r' = StateFollower ∧
    Forall2 peer_entry peers (uentries (raft.raftLog_ r')) ∧
    contiguous 1 (uentries (raft.raftLog_ r')) ∧
    raftLog.committed (raft.raftLog_ r') = len peers ∧ raftLog.applied (raft.raftLog_ r') = 0 ∧
    (∀ id, id ∈ voters r' ↔ id ∈ RawNode.Peer_ID <$> peers) ∧
    (raft.id r ∈ RawNode.Peer_ID <$> peers → raft.promotable r' = true) ∧
    RawNode.HasReady rn' = Ret true
  else RawNode.Bootstrap rnd peers rn = Err (Errorf "can't bootstrap a nonempty Storage").
Proof.
  intros r Hok HT Hv Hu Hp Hb. case_decide as Hne; [by subst|]. case_decide as Hst.
  - destruct (Bootstrap_ok rnd peers rn Hok HT Hst Hu Hne Hp Hb)
      as (rn' & HB & ? & ? & ? & ? & ? & ? & ? & Hv' & ? & ?).
    exists rn'. split; [done|]. cbv zeta. split_and!; try done.
    intros id. rewrite Hv'. fold r. rewrite Hv. set_solver.
  - by apply Bootstrap_nonempty.
Qed.
End BootstrapProps.

(** ** The loop *)

Section LoopProps.
Context `{MO : !MapOrder}.
Context {S : Type} `{!Storage S, !StorageLaws S}.
Implicit Types (n : node.t S).

(** The invariant of the running node. *)
Record node_ok n : Prop := {
  nok_raft : raft_ok (RawNode.raft_ (node.rn n));
  nok_tickc : 0 ≤ node.tickc n ≤ 128;
  nok_propc : node.run_propc n = false;
  nok_lead : node.run_lead n = None_;
}.

Lemma HasReady_returns (rn : RawNode.t S) :
  log_ok (raft.raftLog_ (RawNode.raft_ rn)) → ∃ b, RawNode.HasReady rn = Ret b.
Proof.
  intros Hl. unfold RawNode.HasReady. rewrite hasNextEnts_ok, bind_Ret, (ok_snapshot _ Hl) by done.
  repeat match goal with |- ∃ _, (if ?b then _ else _) = _ => destruct b; [by eexists|] end.
  by eexists.
Qed.

(** A round of the loop never opens the proposal channel. *)
Lemma loopHead_ok n : node_ok n → node.loopHead n = Ret n.
Proof.
  intros [Hr _ Hp Hl]. unfold node.loopHead.
  destruct (HasReady_returns (node.rn n)) as (b & ->); [apply Hr|].
  by rewrite bind_Ret, Hl, (rok_lead _ Hr).
Qed.

Lemma node_step_ok n ws rs s :
  node_ok n → Forall (λ x, x.2 = Some ErrContextDone) rs → node.node_step (node.System n ws rs) s →
  node_ok (node.sys_node s) ∧ Forall (λ x, x.2 = Some ErrContextDone) (node.sys_results s).
Proof.
  intros Hok Hrs Hs. inversion Hs as [| | |n0 n' ws0 rs0 rnd Htk Hrun
    |n0 n1 n' ws1 ws2 rs0 k m rnd d Hhd Hpc Hrun]; subst; simpl.
  - split; [|done]. destruct Hok. unfold node.Tick. case_bool; split; simpl; (done || lia).
  - done.
  - split; [done|]. by apply Forall_app_2; [|constructor].
  - split; [|done]. revert Hrun. unfold node.runTick. rewrite loopHead_ok, bind_Ret by done.
    intros H. apply outcome_bind_Ret in H as (rn' & HT & H). injection H as <-.
    unfold RawNode.Tick in HT. apply outcome_bind_Ret in HT as (r' & HT & H). injection H as <-.
    apply raft_step_tick in HT. destruct Hok. split; simpl; try done; [|lia].
    by eapply raft_step_cases.
  - rewrite loopHead_ok in Hhd by done. injection Hhd as <-. destruct Hok. congruence.
Qed.

Lemma empty_unstable (l : raftLog.t S) :
  log_ok l → log_abs l = stored l → sl_last (stored l) = 0 → uentries l = [].
Proof.
  intros Hl Heq H0. pose proof (log_bounds l Hl) as (G0&_). unfold log_abs in Heq.
  unfold sl_last in H0. pose proof (len_nonneg (sl_ents (stored l))).
  assert (He : sl_ents (stored l) = []) by (apply len_0; lia).
  apply (f_equal sl_ents) in Heq. simpl in Heq. rewrite He, take_nil in Heq. done.
Qed.

(** The nodes that [StartNode] and [RestartNode] give. *)
Definition starts (c : RaftConfig.t S) n : Prop :=
  (∃ rnd, node.RestartNode rnd c = Ret n) ∨
  (∃ rnd rnd' peers, Forall peer_ok peers ∧ len peers < 2 ^ 63 - 2 ∧
     node.StartNode rnd rnd' c peers = Ret n).

Lemma newNode_ok (rn : RawNode.t S) : raft_ok (RawNode.raft_ rn) → node_ok (node.newNode rn).
Proof. by split. Qed.

Lemma starts_ok (c : RaftConfig.t S) hs cs n :
  0 < RaftConfig.ElectionTick c < 2 ^ 61 →
  storage_ok (RaftConfig.Storage_ c) → InitialState (RaftConfig.Storage_ c) = Ret (hs, cs) →
  starts c n → node_ok n.
Proof.
  intros Ht Hs Hi Hn.
  assert (HN : ∀ rnd rn, must (RawNode.NewRawNode rnd c) = Ret rn →
    ∃ r, rn = RawNode.mk S r (softState r) (raft.hardState r) ∧ raft_ok r ∧ raft.Term r = 0 ∧
      log_abs (raft.raftLog_ r) = storage_log (RaftConfig.Storage_ c) ∧
      raftLog.storage (raft.raftLog_ r) = RaftConfig.Storage_ c).
  { intros rnd rn. unfold RawNode.NewRawNode. case_bool; [done|].
    destruct (newRaft_ok rnd c hs cs Heqb Ht Hs Hi)
      as (r & -> & Hok & _ & HT & _ & _ & _ & _ & Hl & _ & Hst).
    intros H. injection H as <-. by exists r. }
  destruct Hn as [(rnd & H)|(rnd & rnd' & peers & Hp & Hb & H)].
  - apply outcome_bind_Ret in H as (rn & H & Hn). injection Hn as <-.
    apply HN in H as (r & -> & Hok & _). by apply newNode_ok.
  - unfold node.StartNode in H. destruct (len peers =? 0) eqn:Heqb; [done|].
    rewrite Z.eqb_neq, len_0 in Heqb.
    apply outcome_bind_Ret in H as (rn & H & Hn). apply outcome_bind_Ret in Hn as (rn' & HB & Hn).
    injection Hn as <-. apply newNode_ok. apply HN in H as (r & -> & Hok & HT & Hl & Hst).
    destruct (decide (sl_last (storage_log (RaftConfig.Storage_ c)) = 0)) as [H0|H0].
    + destruct (Bootstrap_ok rnd' peers (RawNode.mk S r (softState r) (raft.hardState r)))
        as (rn2 & HB2 & Hok2 & _); simpl; try done; [by rewrite Hst| |].
      { apply empty_unstable; [apply Hok|by rewrite Hst, <- Hl|by rewrite Hst]. }
      rewrite HB2 in HB. by injection HB as <-.
    + rewrite Bootstrap_nonempty in HB; simpl; try done; [|by rewrite Hst]. by injection HB as <-.
Qed.

Lemma SoftState_equal_refl s : SoftState.equal s s = true.
Proof. unfold SoftState.equal. by rewrite !Z.eqb_refl. Qed.

Lemma SoftState_equal_eq s s' : SoftState.equal s s' = true → s = s'.
Proof.
  destruct s, s'. unfold SoftState.equal. simpl. rewrite andb_true_iff, !Z.eqb_eq. by intros [-> ->].
Qed.

Lemma acceptReady_eq (rn : RawNode.t S) rd :
  let r := RawNode.raft_ rn in
  Ready.SoftState_ rd =
    (if SoftState.equal (softState r) (RawNode.prevSoftSt rn) then None else Some (softState r)) →
  Ready.ReadStates rd = raft.readStates r →
  RawNode.acceptReady rd rn =
  RawNode.mk S (r <| raft.readStates := [] |> <| raft.msgs := [] |>) (softState r)
    (RawNode.prevHardSt rn).
Proof.
  intros r HS HR. unfold RawNode.acceptReady. rewrite HS, HR. destruct rn as [r0 s0 h0]. subst r.
  simpl. assert (Hrs : raft.readStates r0 = [] → r0 <| raft.readStates := [] |> = r0)
    by (destruct r0; simpl; by intros ->).
  destruct (SoftState.equal (softState r0) s0) eqn:E.
  - apply SoftState_equal_eq in E as <-. case_bool; simpl; [done|].
    rewrite len_0 in Heqb. by rewrite Hrs.
  - case_bool; simpl; [done|]. rewrite len_0 in Heqb. by rewrite Hrs.
Qed.

(** C24 (safety): the running node.  From [StartNode] or [RestartNode], in
    every interleaving of ticks, proposals, cancellations and rounds of the
    loop, the raft state machine stays in its invariant, the tick channel
    holds between 0 and 128 ticks (a tick that finds it full is dropped, never
    waited for), and the loop never listens on the proposal channel: every
    [Propose] that returns does so with the error of its context. *)
Theorem node_reachable (c : RaftConfig.t S) hs cs n ws s :
  0 < RaftConfig.ElectionTick c < 2 ^ 61 →
  storage_ok (RaftConfig.Storage_ c) → InitialState (RaftConfig.Storage_ c) = Ret (hs, cs) →
  starts c n → rtc node.node_step (node.System n ws []) s →
  node_ok (node.sys_node s) ∧ Forall (λ x, x.2 = Some ErrContextDone) (node.sys_results s).
Proof.
  intros Ht Hs Hi Hn Hr. apply (starts_ok c hs cs n Ht Hs Hi) in Hn as Hok.
  revert Hr. apply (rtc_ind_r (λ s, node_ok (node.sys_node s) ∧
    Forall (λ x, x.2 = Some ErrContextDone) (node.sys_results s))); [done|].
  intros [n1 ws1 rs1] s2 _ Hs2 [H1 H2]. by eapply node_step_ok.
Qed.

(** [Ready] hands over each message and read state once.
    Accepting a Ready leaves the log, term, vote and configuration alone, empties the
    outbox and the read states, and records the soft state that was reported,
    so that an immediate second [Ready] carries no messages, no read states
    and no soft state, and the same entries. *)
Theorem ready_accepted_once (rn : RawNode.t S) :
  log_ok (raft.raftLog_ (RawNode.raft_ rn)) →
  ∃ rn1 rd1 rn2 rd2, RawNode.Ready_ rn = Ret (rn1, rd1) ∧ RawNode.Ready_ rn1 = Ret (rn2, rd2) ∧
    Ready.Messages rd1 = raft.msgs (RawNode.raft_ rn) ∧
    Ready.ReadStates rd1 = raft.readStates (RawNode.raft_ rn) ∧
    Ready.Messages rd2 = [] ∧ Ready.ReadStates rd2 = [] ∧ Ready.SoftState_ rd2 = None ∧
    Ready.Entries rd2 = Ready.Entries rd1 ∧
    Ready.CommittedEntries rd2 = Ready.CommittedEntries rd1 ∧
    RawNode.raft_ rn1 = (RawNode.raft_ rn) <| raft.readStates := [] |> <| raft.msgs := [] |>.
Proof.
  intros Hl. set (r := RawNode.raft_ rn) in *.
  destruct (newReady_ok r (RawNode.prevSoftSt rn) (RawNode.prevHardSt rn) Hl) as (ents & Hn & HR).
  set (r1 := r <| raft.readStates := [] |> <| raft.msgs := [] |>).
  set (ss := softState r).
  destruct (newReady_ok r1 ss (RawNode.prevHardSt rn) Hl) as (ents1 & Hn1 & HR1).
  change (raftLog.nextEnts (raft.raftLog_ r1)) with (raftLog.nextEnts (raft.raftLog_ r)) in Hn1.
  rewrite Hn in Hn1. injection Hn1 as <-.
  assert (HA : ∀ rd, newReady r (RawNode.prevSoftSt rn) (RawNode.prevHardSt rn) = Ret rd →
    RawNode.acceptReady rd rn = RawNode.mk S r1 ss (RawNode.prevHardSt rn)).
  { intros rd Hrd. rewrite HR in Hrd. injection Hrd as <-. unfold r1, ss. by apply acceptReady_eq. }
  specialize (HA _ HR). unfold RawNode.Ready_, RawNode.readyWithoutAccept. fold r.
  rewrite HR, bind_Ret, HA. do 4 eexists. split; [done|]. split; [simpl; by rewrite HR1|].
  split_and!; try done. simpl. by rewrite SoftState_equal_refl.
Qed.
End LoopProps.

(** ** Instances at concrete inputs *)

#[local] Instance sample_order : MapOrder := elements_order.

Definition sample_rawnode (r : raft.t MemoryStorage.t) : RawNode.t MemoryStorage.t :=
  RawNode.mk _ r (softState r) (raft.hardState r).

Lemma hasReady_iff_ready_witness :
  ∃ r b rd, sample_raft false = Ret r ∧ RawNode.HasReady (sample_rawnode r) = Ret b ∧
    RawNode.readyWithoutAccept (sample_rawnode r) = Ret rd ∧ (b = false ↔ emptyReady rd).
Proof.
  destruct (sample_raft_ok false) as (_ & r & _ & Hr & Hok & _).
  assert (Hh : IsEmptyHardState (raft.hardState r) = false).
  { assert (Hx : (λ r, IsEmptyHardState (raft.hardState r)) <$>
      (match sample_raft false with Ret r => Some r | _ => None end) = Some false)
      by (vm_compute; reflexivity).
    rewrite Hr in Hx. exact (inj Some _ _ Hx). }
  destruct (hasReady_iff_ready (sample_rawnode r)) as (b & rd & ? & ? & ?); [apply Hok|exact Hh|].
  by exists r, b, rd.
Defined.

Lemma ready_accepted_once_witness :
  ∃ r rn1 rd1, sample_raft false = Ret r ∧ RawNode.Ready_ (sample_rawnode r) = Ret (rn1, rd1) ∧
    raft.msgs (RawNode.raft_ rn1) = [].
Proof.
  destruct (sample_raft_ok false) as (_ & r & _ & Hr & Hok & _).
  destruct (ready_accepted_once (sample_rawnode r))
    as (rn1 & rd1 & rn2 & rd2 & H1 & _ & _ & _ & _ & _ & _ & _ & _ & H2); [apply Hok|].
  exists r, rn1, rd1. split_and!; [done|done|by rewrite H2].
Defined.

(** A new node on an empty storage, and three peers. *)
Definition fresh_config : RaftConfig.t MemoryStorage.t :=
  (sample_config false) <| RaftConfig.Storage_ := MemoryStorage.NewMemoryStorage |>.
Definition sample_peers : list RawNode.Peer :=
  [RawNode.MkPeer 1 None; RawNode.MkPeer 2 (Some [97]); RawNode.MkPeer 3 None].

Lemma sample_peers_ok : Forall peer_ok sample_peers.
Proof. repeat constructor; vm_compute; done. Qed.

Lemma fresh_raft_ok :
  ∃ r, raft.newRaft 3 fresh_config = Ret r ∧ raft_ok r ∧ raft.Term r = 0 ∧
    uentries (raft.raftLog_ r) = [] ∧ raftLog.storage (raft.raftLog_ r) = MemoryStorage.NewMemoryStorage ∧
    keys (Config.Voters (ProgressTracker.Config_ (raft.prs r))).1 = ∅.
Proof.
  destruct (newRaft_ok 3 fresh_config HardState.zero ConfState.zero)
    as (r & Hn & Hok & _ & HT & _ & _ & _ & _ & Hl & _ & Hst);
    [done|done|apply MemoryStorageOk.NewMemoryStorage_ok|done|].
  exists r. split_and!; try done.
  - apply empty_unstable; [apply Hok|by rewrite Hst, <- Hl|by rewrite Hst].
  - assert (Hx : (λ r, keys (Config.Voters (ProgressTracker.Config_ (raft.prs r))).1) <$>
      (match raft.newRaft 3 fresh_config with Ret r => Some r | _ => None end) = Some ∅)
      by (vm_compute; reflexivity).
    rewrite Hn in Hx. exact (inj Some _ _ Hx).
Qed.

Lemma bootstrap_new_cluster_witness :
  ∃ r rn', raft.newRaft 3 fresh_config = Ret r ∧
    RawNode.Bootstrap 5 sample_peers (sample_rawnode r) = Ret rn' ∧
    raftLog.committed (raft.raftLog_ (RawNode.raft_ rn')) = 3.
Proof.
  destruct fresh_raft_ok as (r & Hn & Hok & HT & Hu & Hst & Hv).
  pose proof (bootstrap_new_cluster 5 sample_peers (sample_rawnode r) Hok HT Hv Hu sample_peers_ok)
    as H. specialize (H ltac:(vm_compute; done)). simpl in H. rewrite Hst in H.
  destruct H as (rn' & HB & _ & _ & _ & _ & _ & Hc & _). by exists r, rn'.
Defined.

Lemma node_reachable_witness :
  ∃ n s, node.StartNode 3 5 fresh_config sample_peers = Ret n ∧
    rtc node.node_step (node.System n [] []) s ∧
    node.sys_results s = [(7%nat, Some ErrContextDone)] ∧ node_ok (node.sys_node s).
Proof.
  destruct fresh_raft_ok as (r & Hn & Hok & HT & Hu & Hst & Hv).
  assert (H0 : sl_last (storage_log (raftLog.storage (raft.raftLog_ r))) = 0) by (by rewrite Hst).
  assert (Hl : len sample_peers < 2 ^ 63 - 2) by (vm_compute; done).
  destruct (Bootstrap_ok 5 sample_peers (sample_rawnode r) Hok HT H0 Hu ltac:(discriminate)
    sample_peers_ok Hl) as (rn' & HB & _).
  assert (HS : node.StartNode 3 5 fresh_config sample_peers = Ret (node.newNode rn')).
  { unfold node.StartNode, RawNode.NewRawNode. simpl. rewrite Hn. simpl.
    unfold sample_rawnode in HB. by rewrite HB. }
  set (n := node.newNode rn').
  exists n, (node.System (node.Tick n) [] [(7%nat, Some ErrContextDone)]).
  assert (Hr : rtc node.node_step (node.System n [] [])
    (node.System (node.Tick n) [] [(7%nat, Some ErrContextDone)])).
  { eapply rtc_l; [apply node.node_tick|]. eapply rtc_l; [apply (node.node_propose _ _ _ 7 None)|].
    apply rtc_once, (node.node_cancel _ [] [] []). }
  assert (Hn' : starts fresh_config n).
  { right. exists 3, 5, sample_peers. split; [apply sample_peers_ok|]. by split. }
  assert (Ht : 0 < RaftConfig.ElectionTick fresh_config < 2 ^ 61) by (split; reflexivity).
  assert (Hso : storage_ok (RaftConfig.Storage_ fresh_config))
    by apply MemoryStorageOk.NewMemoryStorage_ok.
  destruct (node_reachable fresh_config HardState.zero ConfState.zero n [] _ Ht Hso eq_refl Hn' Hr)
    as [Hf _].
  split; [exact HS|]. split; [exact Hr|]. split; [reflexivity|exact Hf].
Defined.
