(* ===== verification/GoStd.v ===== *)
(** * The parts of Go's standard library the server packages use

    Byte strings and their order, [strconv]'s base-16 conversions, [path]'s
    [Clean], [Join], [Base] and [Dir], [encoding/binary]'s big-endian words,
    [crypto/sha1] and [encoding/json]'s [Marshal].  A Go string is a list of bytes, each a [Z] below 256. *)

From stdpp Require Import pretty.
From S2P Require Import Prelude.

(** A string literal. *)
Definition bs (s : string) : list Z :=
  (λ a, Z.of_N (Ascii.N_of_ascii a)) <$> String.list_ascii_of_string s.

(** ** Byte-wise order: [<] on strings, [sort.Strings] *)

Fixpoint bytes_leb (a b : list Z) : bool :=
  match a, b with
  | [], _ => true
  | _ :: _, [] => false
  | x :: a, y :: b => (x <? y) || ((x =? y) && bytes_leb a b)
  end.
Definition bytes_le (a b : list Z) : Prop := bytes_leb a b = true.
#[global] Instance bytes_le_dec : RelDecision bytes_le.
Proof. intros a b. unfold bytes_le. apply _. Defined.
Definition sort_Strings (l : list (list Z)) : list (list Z) := merge_sort bytes_le l.

#[global] Instance bytes_le_total : Total bytes_le.
Proof.
  intros a. unfold bytes_le. induction a as [|x a IH]; intros [|y b]; simpl; auto.
  destruct (IH b) as [H|H]; rewrite H; destruct (x <? y) eqn:?, (y <? x) eqn:?, (x =? y) eqn:?,
    (y =? x) eqn:?; zify_bool; simpl; auto; lia.
Qed.

#[global] Instance bytes_le_trans : Transitive bytes_le.
Proof.
  intros a. unfold bytes_le. induction a as [|x a IH]; intros [|y b] [|z c]; simpl; try done.
  rewrite !orb_true_iff, !andb_true_iff, !Z.ltb_lt, !Z.eqb_eq.
  intros [H|[-> H]] [G|[-> G]]; [left; lia|by left|by left|right]. split; [done|]. by eapply IH.
Qed.

#[global] Instance bytes_le_antisymm : AntiSymm (=) bytes_le.
Proof.
  intros a. unfold bytes_le. induction a as [|x a IH]; intros [|y b]; simpl; try done.
  rewrite !orb_true_iff, !andb_true_iff, !Z.ltb_lt, !Z.eqb_eq.
  intros [H|[-> H]] [G|[G1 G]]; try lia. f_equal. by apply IH.
Qed.

Lemma sort_Strings_perm l : sort_Strings l ≡ₚ l.
Proof. apply merge_sort_Permutation. Qed.

Lemma sort_Strings_unique l k : l ≡ₚ k → sort_Strings l = sort_Strings k.
Proof.
  intros H. apply (Sorted_unique bytes_le); [apply Sorted_merge_sort; apply _..|].
  by rewrite !sort_Strings_perm.
Qed.

(** ** strconv: base 16 *)

Definition hex_digit (d : Z) : Z := if d <? 10 then 48 + d else 87 + d.

(** The digits of [x], the least significant first in time. *)
Fixpoint format_loop (fuel : nat) (x : Z) (acc : list Z) : list Z :=
  match fuel with
  | O => acc
  | S fuel =>
      let acc := hex_digit (x mod 16) :: acc in
      if x / 16 =? 0 then acc else format_loop fuel (x / 16) acc
  end.
(** [strconv.FormatUint(x, 16)]: a 64-bit number has at most 16 digits. *)
Definition FormatUint16 (x : Z) : list Z := format_loop 16 x [].

(** The value of a digit in base 16, if it is one. *)
Definition hex_value (c : Z) : option Z :=
  if (48 <=? c) && (c <=? 57) then Some (c - 48)
  else if (97 <=? c) && (c <=? 102) then Some (c - 87)
  else if (65 <=? c) && (c <=? 70) then Some (c - 55)
  else None.

(** [strconv.ParseUint(s, 16, 64)]: the value and the error. *)
Fixpoint parse_loop (s : list Z) (n : Z) : Z * option error :=
  match s with
  | [] => (n, None)
  | c :: s =>
      match hex_value c with
      | None => (0, Some (Errorf "invalid syntax"))
      | Some d =>
          if n >=? 2 ^ 60 then (2 ^ 64 - 1, Some (Errorf "value out of range"))
          else parse_loop s (16 * n + d)
      end
  end.
Definition ParseUint16 (s : list Z) : Z * option error :=
  match s with
  | [] => (0, Some (Errorf "invalid syntax"))
  | _ => parse_loop s 0
  end.

Lemma hex_value_digit d : 0 ≤ d < 16 → hex_value (hex_digit d) = Some d.
Proof.
  intros H. unfold hex_value, hex_digit. destruct (d <? 10) eqn:E; zify_bool.
  - rewrite (proj2 (Z.leb_le 48 (48 + d))), (proj2 (Z.leb_le (48 + d) 57)) by lia.
    simpl. f_equal. lia.
  - rewrite (proj2 (Z.leb_gt (87 + d) 57)), andb_false_r by lia.
    rewrite (proj2 (Z.leb_le 97 (87 + d))), (proj2 (Z.leb_le (87 + d) 102)) by lia.
    simpl. f_equal. lia.
Qed.

Lemma format_loop_app fuel x acc : format_loop fuel x acc = format_loop fuel x [] ++ acc.
Proof.
  revert x acc. induction fuel as [|fuel IH]; intros x acc; [done|]. cbn [format_loop].
  destruct (_ =? 0); [done|]. rewrite IH, (IH _ [_]). by rewrite <- app_assoc.
Qed.

Lemma parse_loop_app s k n m :
  parse_loop s n = (m, None) → parse_loop (s ++ k) n = parse_loop k m.
Proof.
  revert n. induction s as [|c s IH]; intros n; simpl; [by intros [= ->]|].
  destruct (hex_value c) as [d|]; [|done]. destruct (n >=? _); [done|]. apply IH.
Qed.

Lemma format_loop_parses fuel x :
  0 ≤ x < 16 ^ Z.of_nat fuel → 0 ≤ x < 2 ^ 64 → parse_loop (format_loop fuel x []) 0 = (x, None).
Proof.
  revert x. induction fuel as [|fuel IH]; intros x Hx Hb.
  - simpl in *. by replace x with 0 by lia.
  - cbn [format_loop]. pose proof (Z.div_mod x 16 ltac:(lia)) as Hd.
    pose proof (Z.mod_pos_bound x 16 ltac:(lia)) as Hm.
    destruct (x / 16 =? 0) eqn:E; zify_bool.
    + cbn [parse_loop]. rewrite hex_value_digit by lia. case_bool. f_equal. lia.
    + rewrite format_loop_app, (parse_loop_app _ _ _ (x / 16)).
      * cbn [parse_loop]. rewrite hex_value_digit by lia.
        assert (x / 16 < 2 ^ 60) by (apply Z.div_lt_upper_bound; lia).
        case_bool. f_equal. lia.
      * apply IH; [|split; [apply Z.div_pos; lia|apply Z.div_lt_upper_bound; lia]].
        split; [apply Z.div_pos; lia|]. apply Z.div_lt_upper_bound; [lia|].
        rewrite Nat2Z.inj_succ, Z.pow_succ_r in Hx by lia. lia.
Qed.

Lemma format_loop_nonempty fuel x : format_loop (S fuel) x [] ≠ [].
Proof.
  cbn [format_loop]. destruct (_ =? 0); [done|]. rewrite format_loop_app.
  intros H. by apply app_eq_nil in H as [_ H].
Qed.

Lemma format_loop_digits fuel x acc :
  0 ≤ x → Forall (λ c, is_Some (hex_value c)) acc →
  Forall (λ c, is_Some (hex_value c)) (format_loop fuel x acc).
Proof.
  revert x acc. induction fuel as [|fuel IH]; intros x acc Hx Ha; [done|]. cbn [format_loop].
  pose proof (Z.mod_pos_bound x 16 ltac:(lia)).
  assert (Forall (λ c, is_Some (hex_value c)) (hex_digit (x mod 16) :: acc)).
  { constructor; [|done]. rewrite hex_value_digit by lia. by eexists. }
  destruct (_ =? 0); [done|]. apply IH; [apply Z.div_pos; lia|done].
Qed.

(** Printing and parsing are inverse. *)
Lemma ParseUint16_FormatUint16 x : is_u64 x → ParseUint16 (FormatUint16 x) = (x, None).
Proof.
  intros H. unfold ParseUint16, FormatUint16.
  destruct (format_loop 16 x []) eqn:E; [by apply format_loop_nonempty in E|].
  rewrite <- E. unfold is_u64 in H. by apply format_loop_parses.
Qed.

(** ** path

    [/] separates the elements of a path; [path/filepath] is the same on
    Unix. *)

Definition slash : Z := 47.

(** [s] as the elements between its slashes: n slashes give n + 1 elements. *)
Fixpoint split_slash (s : list Z) : list (list Z) :=
  match s with
  | [] => [[]]
  | c :: s =>
      if c =? slash then [] :: split_slash s
      else match split_slash s with
           | [] => [[c]]
           | e :: es => (c :: e) :: es
           end
  end.

Fixpoint join_slash (es : list (list Z)) : list Z :=
  match es with
  | [] => []
  | [e] => e
  | e :: es => e ++ slash :: join_slash es
  end.

(** The elements [Clean] keeps, the last one first: empty elements and [.]
    disappear, [..] removes the element before it; at the root there is none,
    and in a relative path [..] stays when there is nothing left to remove. *)
Definition clean_step (rooted : bool) (out : list (list Z)) (e : list Z) : list (list Z) :=
  if bool_decide (e = []) || bool_decide (e = bs ".") then out
  else if bool_decide (e = bs "..") then
    match out with
    | o :: out' => if bool_decide (o = bs "..") then e :: out else out'
    | [] => if rooted then [] else [e]
    end
  else e :: out.

Definition is_rooted (s : list Z) : bool := match s with c :: _ => c =? slash | [] => false end.

Definition Clean (s : list Z) : list Z :=
  let es := rev (foldl (clean_step (is_rooted s)) [] (split_slash s)) in
  if is_rooted s then slash :: join_slash es
  else match es with [] => bs "." | _ => join_slash es end.

(** [Join] ignores empty elements. *)
Definition Join (es : list (list Z)) : list Z :=
  match filter (λ e, e ≠ []) es with
  | [] => []
  | es => Clean (join_slash es)
  end.

(** [Base]: the last element, trailing slashes removed first. *)
Fixpoint drop_slashes (s : list Z) : list Z :=
  match s with c :: s' => if c =? slash then drop_slashes s' else s | [] => [] end.
Fixpoint take_element (s : list Z) : list Z :=
  match s with c :: s => if c =? slash then [] else c :: take_element s | [] => [] end.
Definition Base (s : list Z) : list Z :=
  match s with
  | [] => bs "."
  | _ => match rev (take_element (drop_slashes (rev s))) with
         | [] => [slash]
         | e => e
         end
  end.

(** [Dir]: all but the last element, cleaned. *)
Fixpoint drop_element (s : list Z) : list Z :=
  match s with c :: s' => if c =? slash then s else drop_element s' | [] => [] end.
Definition Dir (s : list Z) : list Z := Clean (rev (drop_element (rev s))).

(** *** Absolute paths in normal form *)

Definition plain (e : list Z) : Prop :=
  e ≠ [] ∧ (slash ∉ e) ∧ e ≠ bs "." ∧ e ≠ bs "..".

(** [/e1/e2/.../en] *)
Definition absPath (es : list (list Z)) : list Z := concat ((slash ::.) <$> es).

Lemma split_slash_element e : slash ∉ e → split_slash e = [e].
Proof.
  induction e as [|c e IH]; intros H; [done|]. apply not_elem_of_cons in H as [Hc H].
  cbn [split_slash]. destruct (c =? slash) eqn:E; zify_bool; [congruence|]. by rewrite IH.
Qed.

Lemma split_slash_app e s :
  slash ∉ e → split_slash (e ++ slash :: s) = e :: split_slash s.
Proof.
  induction e as [|c e IH]; intros H; [done|]. apply not_elem_of_cons in H as [Hc H].
  cbn [split_slash app]. destruct (c =? slash) eqn:E; zify_bool; [congruence|]. by rewrite IH.
Qed.

Lemma split_slash_absPath es e :
  Forall plain es → slash ∉ e → split_slash (e ++ absPath es) = e :: es.
Proof.
  intros H. revert e. induction H as [|x es (_ & Hx & _) _ IH]; intros e He.
  - unfold absPath. simpl. rewrite app_nil_r. by apply split_slash_element.
  - change (absPath (x :: es)) with (slash :: (x ++ absPath es)).
    rewrite split_slash_app by done. by rewrite IH.
Qed.

Lemma join_slash_absPath es : es ≠ [] → slash :: join_slash es = absPath es.
Proof.
  induction es as [|e es IH]; intros H; [done|]. destruct es as [|e' es].
  - unfold absPath. simpl. by rewrite app_nil_r.
  - change (join_slash (e :: e' :: es)) with (e ++ slash :: join_slash (e' :: es)).
    rewrite IH by done. done.
Qed.

Lemma clean_plain rooted es out :
  Forall plain es → foldl (clean_step rooted) out es = rev es ++ out.
Proof.
  intros H. revert out. induction H as [|e es (H1 & _ & H2 & H3) _ IH]; intros out; [done|].
  cbn [foldl]. unfold clean_step at 2. rewrite !bool_decide_eq_false_2 by done. simpl.
  rewrite IH. by rewrite <- app_assoc.
Qed.

Lemma Clean_absPath es : Forall plain es → es ≠ [] → Clean (absPath es) = absPath es.
Proof.
  intros H Hne. unfold Clean.
  assert (Hr : is_rooted (absPath es) = true) by (by destruct es).
  pose proof (split_slash_absPath es [] H ltac:(set_solver)) as Hs. simpl in Hs.
  rewrite Hr, Hs. cbn [foldl]. unfold clean_step at 2. rewrite bool_decide_eq_true_2 by done. simpl.
  rewrite clean_plain, app_nil_r, rev_involutive by done. by apply join_slash_absPath.
Qed.

Lemma absPath_app es fs : absPath (es ++ fs) = absPath es ++ absPath fs.
Proof. unfold absPath. by rewrite fmap_app, concat_app. Qed.

Lemma Join_absPath es e :
  Forall plain es → es ≠ [] → plain e → Join [absPath es; e] = absPath (es ++ [e]).
Proof.
  intros H Hne He. unfold Join. destruct He as (H1 & H2 & H3 & H4).
  assert (Hn : absPath es ≠ []) by (by destruct es).
  rewrite !filter_cons_True, filter_nil by done.
  change (join_slash [absPath es; e]) with (absPath es ++ slash :: e).
  replace (slash :: e) with (absPath [e]) by (unfold absPath; simpl; by rewrite app_nil_r).
  rewrite <- absPath_app. apply Clean_absPath; [|by destruct es].
  apply Forall_app. split; [done|]. by repeat constructor.
Qed.

Lemma take_element_app e s : slash ∉ e → take_element (e ++ slash :: s) = e.
Proof.
  induction e as [|c e IH]; intros H; [done|]. apply not_elem_of_cons in H as [Hc H].
  cbn [take_element app]. destruct (c =? slash) eqn:E; zify_bool; [congruence|]. by rewrite IH.
Qed.

Lemma drop_element_app e s : slash ∉ e → drop_element (e ++ slash :: s) = slash :: s.
Proof.
  induction e as [|c e IH]; intros H; [done|]. apply not_elem_of_cons in H as [Hc H].
  cbn [drop_element app]. destruct (c =? slash) eqn:E; zify_bool; [congruence|]. by apply IH.
Qed.

Lemma absPath_snoc_rev es e : rev (absPath (es ++ [e])) = rev e ++ slash :: rev (absPath es).
Proof.
  rewrite absPath_app, rev_app_distr. unfold absPath at 1. simpl.
  by rewrite app_nil_r, <- app_assoc.
Qed.

Lemma not_elem_of_rev (x : Z) l : x ∉ l → x ∉ rev l.
Proof. by rewrite !list_elem_of_In, <- in_rev. Qed.

Lemma Base_absPath es e : plain e → Base (absPath (es ++ [e])) = e.
Proof.
  intros (H1 & H2 & _). unfold Base.
  destruct (absPath (es ++ [e])) eqn:E; [by destruct es|]. rewrite <- E, absPath_snoc_rev.
  apply not_elem_of_rev in H2 as Hr.
  assert (Hd : drop_slashes (rev e ++ slash :: rev (absPath es)) = rev e ++ slash :: rev (absPath es)).
  { destruct (rev e) as [|c r] eqn:Er.
    - apply (f_equal (@rev Z)) in Er. by rewrite rev_involutive in Er.
    - apply not_elem_of_cons in Hr as [Hc _]. cbn [drop_slashes app].
      destruct (c =? slash) eqn:Ec; zify_bool; [congruence|done]. }
  rewrite Hd, take_element_app, rev_involutive by done. by destruct e.
Qed.

Lemma Dir_absPath es e : Forall plain es → es ≠ [] → plain e → Dir (absPath (es ++ [e])) = absPath es.
Proof.
  intros H Hne (H1 & H2 & _). unfold Dir. apply not_elem_of_rev in H2 as Hr.
  rewrite absPath_snoc_rev, drop_element_app by done. cbn [rev]. rewrite rev_involutive.
  assert (Hs : ∀ e, slash ∉ e → split_slash (e ++ absPath es ++ [slash]) = e :: es ++ [[]]).
  { clear Hne. induction H as [|x es (_ & Hx & _) _ IH]; intros e' He'.
    - change (absPath [] ++ [slash]) with [slash]. by rewrite split_slash_app.
    - change (absPath (x :: es)) with (slash :: (x ++ absPath es)).
      rewrite <- app_comm_cons, split_slash_app, <- app_assoc, IH by done. done. }
  specialize (Hs [] ltac:(set_solver)). rewrite app_nil_l in Hs.
  unfold Clean.
  assert (Hrt : is_rooted (absPath es ++ [slash]) = true) by (by destruct es).
  rewrite Hrt.
  rewrite Hs. cbn [foldl]. unfold clean_step at 2. rewrite bool_decide_eq_true_2 by done. simpl.
  rewrite foldl_app, (clean_plain _ es), app_nil_r by done. simpl. unfold clean_step.
  rewrite bool_decide_eq_true_2 by done. simpl. rewrite rev_involutive.
  by apply join_slash_absPath.
Qed.

(** The hexadecimal form of a number is a plain path element. *)
Lemma FormatUint16_plain x : is_u64 x → plain (FormatUint16 x).
Proof.
  intros [Hx _]. pose proof (format_loop_digits 16 x [] Hx ltac:(constructor)) as Hd.
  assert (Hbad : ∀ c l, hex_value c = None → Forall (λ c, is_Some (hex_value c)) l → c ∉ l).
  { intros c l Hc Hl Hin. rewrite Forall_forall in Hl. apply Hl in Hin.
    rewrite Hc in Hin. by destruct Hin. }
  split_and!.
  - apply format_loop_nonempty.
  - by apply Hbad.
  - unfold FormatUint16. intros H. rewrite H in Hd. change (bs ".") with [46] in Hd.
    apply (Hbad 46) in Hd; [set_solver|done].
  - unfold FormatUint16. intros H. rewrite H in Hd. change (bs "..") with [46; 46] in Hd.
    apply (Hbad 46) in Hd; [set_solver|done].
Qed.

(** ** encoding/binary: 64-bit big-endian words *)

Fixpoint be_bytes (n : nat) (x : Z) : list Z :=
  match n with
  | O => []
  | S n => x / 256 ^ Z.of_nat n mod 256 :: be_bytes n x
  end.
(** [PutUint64] *)
Definition be64 (x : Z) : list Z := be_bytes 8 x.
(** [Uint64] of the first [n] bytes *)
Definition be_value (l : list Z) : Z := foldl (λ a b, a * 256 + b) 0 l.

Lemma be_value_app l k : be_value (l ++ k) = be_value l * 256 ^ len k + be_value k.
Proof.
  unfold be_value. rewrite foldl_app. generalize (foldl (λ a b, a * 256 + b) 0 l). intros a.
  revert a. induction k as [|b k IH] using rev_ind; intros a.
  - rewrite len_nil. simpl. lia.
  - rewrite !foldl_app, len_app. simpl. rewrite IH, Z.pow_add_r by (apply len_nonneg || done).
    change (256 ^ len [b]) with 256. lia.
Qed.

Lemma be_bytes_value n x : 0 ≤ x → be_value (be_bytes n x) = x mod 256 ^ Z.of_nat n.
Proof.
  intros Hx. revert x Hx. induction n as [|n IH]; intros x Hx.
  - simpl. by rewrite Z.mod_1_r.
  - cbn [be_bytes].
    assert (Hl : ∀ m y, len (be_bytes m y) = Z.of_nat m).
    { clear. unfold len. induction m; intros y; [done|]. cbn [be_bytes length]. specialize (IHm y). lia. }
    change (?b :: be_bytes n x) with ([b] ++ be_bytes n x).
    rewrite be_value_app, Hl, IH by done.
    rewrite Nat2Z.inj_succ, Z.pow_succ_r by lia.
    pose proof (Z.pow_pos_nonneg 256 (Z.of_nat n) ltac:(lia) ltac:(lia)) as Hp.
    rewrite (Z.mul_comm 256), (Z.rem_mul_r x (256 ^ Z.of_nat n) 256) by lia.
    unfold be_value. simpl. lia.
Qed.

Lemma be64_value x : is_u64 x → be_value (be64 x) = x.
Proof. intros [H1 H2]. unfold be64. rewrite be_bytes_value by done. apply Z.mod_small. done. Qed.

(** ** crypto/sha1 *)

Definition u32 (z : Z) : Z := z mod 2 ^ 32.
Definition rotl32 (n x : Z) : Z := Z.lor (u32 (Z.shiftl x n)) (Z.shiftr x (32 - n)).

(** The message schedule, the latest word first. *)
Fixpoint sha1_schedule (n : nat) (w : list Z) : list Z :=
  match n with
  | O => w
  | S n =>
      let x := Z.lxor (Z.lxor (nth 2 w 0) (nth 7 w 0)) (Z.lxor (nth 13 w 0) (nth 15 w 0)) in
      sha1_schedule n (rotl32 1 x :: w)
  end.

Definition sha1_fk (t : nat) (b c d : Z) : Z * Z :=
  if (t <? 20)%nat then (Z.lor (Z.land b c) (Z.land (Z.lxor b (2 ^ 32 - 1)) d), 0x5A827999)
  else if (t <? 40)%nat then (Z.lxor (Z.lxor b c) d, 0x6ED9EBA1)
  else if (t <? 60)%nat then (Z.lor (Z.lor (Z.land b c) (Z.land b d)) (Z.land c d), 0x8F1BBCDC)
  else (Z.lxor (Z.lxor b c) d, 0xCA62C1D6).

Fixpoint sha1_rounds (t : nat) (w : list Z) (h : Z * Z * Z * Z * Z) : Z * Z * Z * Z * Z :=
  match w with
  | [] => h
  | x :: w =>
      let '(a, b, c, d, e) := h in
      let '(f, k) := sha1_fk t b c d in
      sha1_rounds (S t) w (u32 (rotl32 5 a + f + e + k + x), a, rotl32 30 b, c, d)
  end.

Fixpoint words32 (l : list Z) : list Z :=
  match l with
  | a :: b :: c :: d :: l => be_value [a; b; c; d] :: words32 l
  | _ => []
  end.

Fixpoint sha1_blocks (n : nat) (msg : list Z) (h : Z * Z * Z * Z * Z) : Z * Z * Z * Z * Z :=
  match n with
  | O => h
  | S n =>
      let '(h0, h1, h2, h3, h4) := h in
      let w := rev (sha1_schedule 64 (rev (words32 (take 64 msg)))) in
      let '(a, b, c, d, e) := sha1_rounds 0 w h in
      sha1_blocks n (drop 64 msg)
        (u32 (h0 + a), u32 (h1 + b), u32 (h2 + c), u32 (h3 + d), u32 (h4 + e))
  end.

Definition sha1_pad (msg : list Z) : list Z :=
  msg ++ 128 :: replicate (Z.to_nat ((55 - len msg) mod 64)) 0 ++ be64 (8 * len msg).

Definition sha1_Sum (msg : list Z) : list Z :=
  let m := sha1_pad msg in
  let '(h0, h1, h2, h3, h4) := sha1_blocks (length m / 64) m
    (0x67452301, 0xEFCDAB89, 0x98BADCFE, 0x10325476, 0xC3D2E1F0) in
  concat (be_bytes 4 <$> [h0; h1; h2; h3; h4]).

Definition is_byte (b : Z) : Prop := 0 ≤ b < 256.

Lemma be_bytes_range n x : Forall is_byte (be_bytes n x).
Proof.
  induction n; cbn [be_bytes]; constructor; [|done]. apply Z.mod_pos_bound. lia.
Qed.

Lemma be_value_range l : Forall is_byte l → 0 ≤ be_value l < 256 ^ len l.
Proof.
  induction l as [|b l IH] using rev_ind; intros H; [done|]. apply Forall_app in H as [H Hb].
  rewrite (Forall_singleton is_byte b) in Hb. rewrite be_value_app, len_app. specialize (IH H).
  unfold is_byte in Hb. rewrite Z.pow_add_r by (apply len_nonneg || done).
  change (256 ^ len [b]) with 256. change (be_value [b]) with (0 * 256 + b).
  set (P := 256 ^ len l) in *. set (a := be_value l) in *. lia.
Qed.

Lemma sha1_Sum_range msg : Forall is_byte (sha1_Sum msg).
Proof.
  unfold sha1_Sum. destruct (sha1_blocks _ _ _) as [[[[h0 h1] h2] h3] h4].
  apply Forall_concat, Forall_fmap, Forall_forall. intros x _. apply be_bytes_range.
Qed.

Lemma sha1_id_u64 msg : is_u64 (be_value (take 8 (sha1_Sum msg))).
Proof.
  pose proof (be_value_range (take 8 (sha1_Sum msg)) (Forall_take _ _ _ (sha1_Sum_range msg))) as H.
  rewrite len_take in H. pose proof (len_nonneg (sha1_Sum msg)). unfold is_u64.
  pose proof (Z.pow_le_mono_r 256 (Z.min (Z.of_nat 8) (len (sha1_Sum msg))) 8). lia.
Qed.

(** The test vector of the standard. *)
Example sha1_abc :
  be_value (sha1_Sum (bs "abc")) = 0xa9993e364706816aba3e25717850c26c9cd0d89d.
Proof. vm_compute. reflexivity. Qed.

(** ** encoding/json, as far as [json.Marshal] of structs with strings, string
    lists, booleans and integers goes *)
Module Json.
Definition hex (n : Z) : Z := if n <? 10 then 48 + n else 87 + n.

(** [htmlSafeSet]: the ASCII characters that stand for themselves. *)
Definition htmlSafe (b : Z) : bool :=
  (32 <=? b) && (b <? 128) &&
  negb ((b =? 34) || (b =? 38) || (b =? 60) || (b =? 62) || (b =? 92)).

Definition continuation (lo hi : Z) (b : option Z) : bool :=
  match b with Some b => (lo <=? b) && (b <=? hi) | None => false end.

(** The length of the UTF-8 sequence that starts with [b], a byte from 128 on,
    followed by [s]; 1 when there is no valid one. *)
Definition runeLength (b : Z) (s : list Z) : nat :=
  let c1 := head s in
  let c2 := s !! 1%nat in
  let c3 := s !! 2%nat in
  let c := continuation 128 191 in
  if (194 <=? b) && (b <=? 223) then if c c1 then 2 else 1
  else if (224 <=? b) && (b <=? 239) then
    let lo := if b =? 224 then 160 else 128 in
    let hi := if b =? 237 then 159 else 191 in
    if continuation lo hi c1 && c c2 then 3 else 1
  else if (240 <=? b) && (b <=? 244) then
    let lo := if b =? 240 then 144 else 128 in
    let hi := if b =? 244 then 143 else 191 in
    if continuation lo hi c1 && c c2 && c c3 then 4 else 1
  else 1.

(** The characters between the quotes; [keep] bytes of a valid sequence are
    still to be copied, [skip] bytes to be left out. *)
Fixpoint chars (keep skip : nat) (s : list Z) : list Z :=
  match s with
  | [] => []
  | b :: s =>
      match keep, skip with
      | S keep, _ => b :: chars keep 0 s
      | O, S skip => chars 0 skip s
      | O, O =>
          if b <? 128 then
            (if htmlSafe b then [b]
             else if (b =? 92) || (b =? 34) then [92; b]
             else if b =? 10 then bs "\n" else if b =? 13 then bs "\r" else if b =? 9 then bs "\t"
             else bs "\u00" ++ [hex (b / 16); hex (b mod 16)]) ++ chars 0 0 s
          else
            match runeLength b s with
            | 1%nat => bs "\ufffd" ++ chars 0 0 s
            | n =>
                if (b =? 226) && bool_decide (head s = Some 128) &&
                   continuation 168 169 (s !! 1%nat)
                then bs "\u202" ++ [hex (default 0 (s !! 1%nat) mod 16)] ++ chars 0 2 s
                else b :: chars (n - 1) 0 s
            end
      end
  end.
Definition str (s : list Z) : list Z := [34] ++ chars 0 0 s ++ [34].

(** The parts, separated by commas. *)
Fixpoint commas (l : list (list Z)) : list Z :=
  match l with
  | [] => []
  | [x] => x
  | x :: l => x ++ [44] ++ commas l
  end.
Definition array (l : list (list Z)) : list Z := [91] ++ commas l ++ [93].
(** A nil slice is null. *)
Definition strings (l : option (list (list Z))) : list Z :=
  match l with None => bs "null" | Some l => array (str <$> l) end.
Definition object (fields : list (list Z * list Z)) : list Z :=
  [123] ++ commas ((λ f, str f.1 ++ [58] ++ f.2) <$> fields) ++ [125].
Definition number (n : Z) : list Z := bs (pretty n).
End Json.
