(* ===== verification/RaftPbEnum.v ===== *)
(** * raft/raftpb: the names of the enumerations

    The tables of raft.pb.go between numbers and names, [String] and [UnmarshalJSON].
    [EnumName] and [UnmarshalJSONEnum] of the protobuf library are a class with their
    documented laws. *)

From stdpp Require Import pretty.
From S2P Require Import Prelude RaftPb GoStd.

Definition EntryType_name : list (Z * string) :=
  [(0, "EntryNormal"); (1, "EntryConfChange"); (2, "EntryConfChangeV2")]%string.
Definition EntryType_value : list (string * Z) :=
  [("EntryNormal", 0); ("EntryConfChange", 1); ("EntryConfChangeV2", 2)]%string.
Definition MessageType_name : list (Z * string) :=
  [(0, "MsgHup"); (1, "MsgBeat"); (2, "MsgProp"); (3, "MsgApp"); (4, "MsgAppResp"); (5, "MsgVote"); (6, "MsgVoteResp"); (7, "MsgSnap"); (8, "MsgHeartbeat"); (9, "MsgHeartbeatResp"); (10, "MsgUnreachable"); (11, "MsgSnapStatus"); (12, "MsgCheckQuorum"); (13, "MsgTransferLeader"); (14, "MsgTimeoutNow"); (15, "MsgReadIndex"); (16, "MsgReadIndexResp"); (17, "MsgPreVote"); (18, "MsgPreVoteResp")]%string.
Definition MessageType_value : list (string * Z) :=
  [("MsgHup", 0); ("MsgBeat", 1); ("MsgProp", 2); ("MsgApp", 3); ("MsgAppResp", 4); ("MsgVote", 5); ("MsgVoteResp", 6); ("MsgSnap", 7); ("MsgHeartbeat", 8); ("MsgHeartbeatResp", 9); ("MsgUnreachable", 10); ("MsgSnapStatus", 11); ("MsgCheckQuorum", 12); ("MsgTransferLeader", 13); ("MsgTimeoutNow", 14); ("MsgReadIndex", 15); ("MsgReadIndexResp", 16); ("MsgPreVote", 17); ("MsgPreVoteResp", 18)]%string.
Definition ConfChangeTransition_name : list (Z * string) :=
  [(0, "ConfChangeTransitionAuto"); (1, "ConfChangeTransitionJointImplicit"); (2, "ConfChangeTransitionJointExplicit")]%string.
Definition ConfChangeTransition_value : list (string * Z) :=
  [("ConfChangeTransitionAuto", 0); ("ConfChangeTransitionJointImplicit", 1); ("ConfChangeTransitionJointExplicit", 2)]%string.
Definition ConfChangeType_name : list (Z * string) :=
  [(0, "ConfChangeAddNode"); (1, "ConfChangeRemoveNode"); (2, "ConfChangeUpdateNode"); (3, "ConfChangeAddLearnerNode")]%string.
Definition ConfChangeType_value : list (string * Z) :=
  [("ConfChangeAddNode", 0); ("ConfChangeRemoveNode", 1); ("ConfChangeUpdateNode", 2); ("ConfChangeAddLearnerNode", 3)]%string.

Definition nameOf (names : list (Z * string)) (x : Z) : option string := (list_to_map names : gmap Z string) !! x.
Definition valueOf (values : list (string * Z)) (s : string) : option Z := (list_to_map values : gmap string Z) !! s.

(** A name in quotes. *)
Definition quoted (s : string) : list Z := [34] ++ bs s ++ [34].

(** [EnumName] gives the name, or the number in decimal; [UnmarshalJSONEnum] reads both
    forms. *)
Class EnumLib := {
  EnumName : list (Z * string) → Z → list Z;
  EnumName_known names x s : nameOf names x = Some s → EnumName names x = bs s;
  EnumName_other names x : nameOf names x = None → EnumName names x = bs (pretty x);
  UnmarshalJSONEnum : list (string * Z) → list Z → outcome Z;
  UnmarshalJSONEnum_name values s v : valueOf values s = Some v → UnmarshalJSONEnum values (quoted s) = Ret v;
  UnmarshalJSONEnum_number values x : - 2 ^ 31 ≤ x < 2 ^ 31 → UnmarshalJSONEnum values (bs (pretty x)) = Ret x
}.

Section Enums.
Context `{!EnumLib}.
Definition EntryType_String (x : Z) : list Z := EnumName EntryType_name x.
Definition MessageType_String (x : Z) : list Z := EnumName MessageType_name x.
Definition ConfChangeTransition_String (x : Z) : list Z := EnumName ConfChangeTransition_name x.
Definition ConfChangeType_String (x : Z) : list Z := EnumName ConfChangeType_name x.

(** The number afterwards; it stays on an error. *)
Definition setEnum (x : Z) (o : outcome Z) : Z * option error :=
  match o with Ret v => (v, None) | Err e => (x, Some e) | _ => (x, None) end.
Definition EntryType_UnmarshalJSON (x : Z) (data : list Z) : Z * option error :=
  setEnum x (UnmarshalJSONEnum EntryType_value data).
Definition MessageType_UnmarshalJSON (x : Z) (data : list Z) : Z * option error :=
  setEnum x (UnmarshalJSONEnum MessageType_value data).
Definition ConfChangeTransition_UnmarshalJSON (x : Z) (data : list Z) : Z * option error :=
  setEnum x (UnmarshalJSONEnum ConfChangeTransition_value data).
Definition ConfChangeType_UnmarshalJSON (x : Z) (data : list Z) : Z * option error :=
  setEnum x (UnmarshalJSONEnum ConfChangeType_value data).

(** ** The tables are inverse to each other *)

Definition inverse (names : list (Z * string)) (values : list (string * Z)) : bool :=
  bool_decide (NoDup names.*1) && bool_decide (NoDup names.*2) && bool_decide (values = (λ x, (x.2, x.1)) <$> names).
Lemma inverse_lookup names values x s :
  inverse names values = true → nameOf names x = Some s → valueOf values s = Some x.
Proof.
  unfold inverse. rewrite !andb_true_iff. intros [[H1 H2] H3] Hx.
  apply bool_decide_eq_true in H1, H2, H3. subst values. unfold nameOf, valueOf in *.
  apply elem_of_list_to_map_2 in Hx. apply elem_of_list_to_map_1.
  - rewrite <- list_fmap_compose. exact H2.
  - apply list_elem_of_fmap. by exists (x, s).
Qed.

(** What JSON has for a number: its name in quotes, or the number. *)
Definition jsonForm (names : list (Z * string)) (x : Z) : list Z :=
  match nameOf names x with Some s => quoted s | None => bs (pretty x) end.
Lemma enum_json names values x y :
  inverse names values = true → - 2 ^ 31 ≤ x < 2 ^ 31 →
  setEnum y (UnmarshalJSONEnum values (jsonForm names x)) = (x, None).
Proof.
  intros Hi Hx. unfold jsonForm. destruct (nameOf names x) as [s|] eqn:E.
  - by rewrite (UnmarshalJSONEnum_name _ _ x) by (by eapply inverse_lookup).
  - by rewrite UnmarshalJSONEnum_number.
Qed.

(** Every value of the four enumerations, named or not, comes back from its JSON
    form, whatever was there before. *)
Theorem enums_roundtrip x y :
  - 2 ^ 31 ≤ x < 2 ^ 31 →
  EntryType_UnmarshalJSON y (jsonForm EntryType_name x) = (x, None) ∧
  MessageType_UnmarshalJSON y (jsonForm MessageType_name x) = (x, None) ∧
  ConfChangeTransition_UnmarshalJSON y (jsonForm ConfChangeTransition_name x) = (x, None) ∧
  ConfChangeType_UnmarshalJSON y (jsonForm ConfChangeType_name x) = (x, None).
Proof. intros Hx. split_and!; apply enum_json; done. Qed.

(** The constants have the names they are declared with. *)
Theorem enums_named :
  MessageType_String <$> [MsgHup; MsgBeat; MsgProp; MsgApp; MsgAppResp; MsgVote; MsgVoteResp; MsgSnap; MsgHeartbeat;
    MsgHeartbeatResp; MsgUnreachable; MsgSnapStatus; MsgCheckQuorum; MsgTransferLeader; MsgTimeoutNow; MsgReadIndex;
    MsgReadIndexResp; MsgPreVote; MsgPreVoteResp] =
  bs <$> ["MsgHup"; "MsgBeat"; "MsgProp"; "MsgApp"; "MsgAppResp"; "MsgVote"; "MsgVoteResp"; "MsgSnap"; "MsgHeartbeat";
    "MsgHeartbeatResp"; "MsgUnreachable"; "MsgSnapStatus"; "MsgCheckQuorum"; "MsgTransferLeader"; "MsgTimeoutNow";
    "MsgReadIndex"; "MsgReadIndexResp"; "MsgPreVote"; "MsgPreVoteResp"]%string ∧
  EntryType_String <$> [EntryNormal; EntryConfChange; EntryConfChangeV2] =
  bs <$> ["EntryNormal"; "EntryConfChange"; "EntryConfChangeV2"]%string ∧
  ConfChangeTransition_String <$>
    [ConfChangeTransitionAuto; ConfChangeTransitionJointImplicit; ConfChangeTransitionJointExplicit] =
  bs <$> ["ConfChangeTransitionAuto"; "ConfChangeTransitionJointImplicit"; "ConfChangeTransitionJointExplicit"]%string ∧
  ConfChangeType_String <$> [ConfChangeAddNode; ConfChangeRemoveNode; ConfChangeUpdateNode; ConfChangeAddLearnerNode] =
  bs <$> ["ConfChangeAddNode"; "ConfChangeRemoveNode"; "ConfChangeUpdateNode"; "ConfChangeAddLearnerNode"]%string.
Proof.
  unfold EntryType_String, MessageType_String, ConfChangeTransition_String, ConfChangeType_String.
  split_and!; cbn [fmap list_fmap];
    repeat match goal with |- context [EnumName ?n ?x] =>
      let s := eval vm_compute in (nameOf n x) in
      match s with Some ?s => rewrite (EnumName_known n x s eq_refl) end
    end; reflexivity.
Qed.
End Enums.
