(* ===== verification/Logging.v ===== *)
(** * Loggers

    raft/logger.go and pkg/logutil/zap_raft.go: the interface through which raft
    logs, and its two implementations.  Raft relies on a part of it: a function
    that calls [Panicf] does not go on (the panics of [Raft], [RaftLog] and [Node]
    are such calls), and one that calls [Fatalf] ends the process.  That is what
    [LoggerLaws] says.  Arguments are formatted: a call gets the text that [Sprint]
    or [Sprintf] makes. *)

From S2P Require Import Prelude GoStd.

Inductive level := DEBUG | INFO | WARN | ERROR | FATAL | PANIC.
Definition levelText (l : level) : list Z :=
  match l with
  | DEBUG => bs "DEBUG" | INFO => bs "INFO" | WARN => bs "WARN" | ERROR => bs "ERROR" | FATAL => bs "FATAL"
  | PANIC => bs "PANIC"
  end.

(** How a call ends: it returns, ends the process, or panics with a value. *)
Inductive ending := Returns | Exits (code : Z) | Panics (msg : list Z).
#[global] Instance ending_eq_dec : EqDecision ending.
Proof. solve_decision. Defined.

(** ** The interface *)

(** What a call writes, and how it ends. *)
Class Logger (L line : Type) := {
  Debugf : L → list Z → list line * ending;
  Infof : L → list Z → list line * ending;
  Warningf : L → list Z → list line * ending;
  Errorf_ : L → list Z → list line * ending;
  Fatalf : L → list Z → list line * ending;
  Panicf : L → list Z → list line * ending
}.
Class LoggerLaws (L line : Type) `{!Logger L line} := {
  logs_return l m : (Debugf l m).2 = Returns ∧ (Infof l m).2 = Returns ∧ (Warningf l m).2 = Returns ∧
    (Errorf_ l m).2 = Returns;
  logs_written l m : (Infof l m).1 ≠ [] ∧ (Warningf l m).1 ≠ [] ∧ (Errorf_ l m).1 ≠ [];
  fatal_exits l m : (Fatalf l m).2 = Exits 1;
  panic_panics l m : (Panicf l m).2 = Panics m
}.

(** ** raft/logger.go *)
Module DefaultLogger.
Definition Ldate : Z := 1.
Definition Ltime : Z := 2.
Definition LstdFlags : Z := Z.lor Ldate Ltime.
Definition calldepth : Z := 2.

(** The standard logger inside: its prefix, its flags, and whether its output is
    discarded. *)
Record t := mk { prefix : list Z; flags : Z; discard : bool; debug : bool }.
Definition defaultLogger : t := mk (bs "raft") LstdFlags false false.
Definition discardLogger : t := mk [] 0 true false.

(** A line: the prefix, the flags that decide on the time stamp, and the text, which
    ends in a newline. *)
Definition line : Type := list Z * Z * list Z.
Definition newline : Z := 10.
Definition Output (l : t) (s : list Z) : list line :=
  let s := match last s with Some c => if c =? newline then s else s ++ [newline] | None => [newline] end in
  if discard l then [] else [(prefix l, flags l, s)].

Definition header (lvl msg : list Z) : list Z := lvl ++ bs ": " ++ msg.

Definition EnableTimestamps (l : t) : t := l <| flags := Z.lor (Z.lor (flags l) Ldate) Ltime |>.
Definition EnableDebug (l : t) : t := l <| debug := true |>.

Definition log (lvl : level) (l : t) (msg : list Z) : list line := Output l (header (levelText lvl) msg).
Definition Debug (l : t) (msg : list Z) : list line * ending := (if debug l then log DEBUG l msg else [], Returns).
Definition Info (l : t) (msg : list Z) : list line * ending := (log INFO l msg, Returns).
Definition Error (l : t) (msg : list Z) : list line * ending := (log ERROR l msg, Returns).
Definition Warning (l : t) (msg : list Z) : list line * ending := (log WARN l msg, Returns).
Definition Fatal (l : t) (msg : list Z) : list line * ending := (log FATAL l msg, Exits 1).
(** [Logger.Panic] of the standard library writes the text and panics with it. *)
Definition Panic (l : t) (msg : list Z) : list line * ending := (Output l msg, Panics msg).

#[global] Instance logger : Logger t line :=
  {| Debugf := Debug; Infof := Info; Warningf := Warning; Errorf_ := Error; Fatalf := Fatal; Panicf := Panic |}.
End DefaultLogger.

(** [SetLogger] replaces the package's logger. *)
Definition SetLogger {L} (l : L) (raftLogger : L) : L := l.

(** ** logutil/zap_raft.go *)

(** What the code relies on of zap's sugared logger: the core decides what is
    written, [Fatal] ends the process with code 1, [Panic] panics with the text. *)
Class Sugar (S line : Type) := {
  sugarLog : S → level → list Z → list line;
  sugarEnd : S → level → list Z → ending;
  sugar_fatal s m : sugarEnd s FATAL m = Exits 1;
  sugar_panic s m : sugarEnd s PANIC m = Panics m;
  sugar_returns s lvl m : lvl ≠ FATAL → lvl ≠ PANIC → sugarEnd s lvl m = Returns
}.

Module zapRaftLogger.
Section Zap.
Context {S line : Type} `{!Sugar S line}.
(** The logger and its sugared form. *)
Record t := mk { lg : Z; sugar : S }.

(** [build] is what [lcfg.Build] gives, [sugarOf] the sugared form of a logger. *)
Definition NewRaftLogger (sugarOf : Z → S) (lcfg : option (outcome Z)) : outcome t :=
  match lcfg with
  | None => Err (Prelude.Errorf "nil zap.Config")
  | Some build => lg ← build; Ret (mk lg (sugarOf lg))
  end.
Definition NewRaftLoggerZap (sugarOf : Z → S) (lg : Z) : t := mk lg (sugarOf lg).
(** [new] is [zap.New] with its options. *)
Definition NewRaftLoggerFromZapCore (sugarOf : Z → S) (new : Z → Z → Z) (cr syncer : Z) : t :=
  let lg := new cr syncer in mk lg (sugarOf lg).

Definition call (lvl : level) (zl : t) (msg : list Z) : list line * ending :=
  (sugarLog (sugar zl) lvl msg, sugarEnd (sugar zl) lvl msg).
#[global] Instance logger : Logger t line :=
  {| Debugf := call DEBUG; Infof := call INFO; Warningf := call WARN; Errorf_ := call ERROR;
     Fatalf := call FATAL; Panicf := call PANIC |}.
End Zap.
End zapRaftLogger.

(** ** The laws *)

(** Lines are written unless the output is discarded. *)
Lemma Output_written l s : DefaultLogger.discard l = false → DefaultLogger.Output l s ≠ [].
Proof. unfold DefaultLogger.Output. by intros ->. Qed.

(** The default logger with an output keeps the laws, and its debug messages appear
    exactly after [EnableDebug]. *)
Record visible := Visible { vis : DefaultLogger.t; vis_ok : DefaultLogger.discard vis = false }.
#[global] Instance visible_logger : Logger visible DefaultLogger.line :=
  {| Debugf l := Debugf (vis l); Infof l := Infof (vis l); Warningf l := Warningf (vis l);
     Errorf_ l := Errorf_ (vis l); Fatalf l := Fatalf (vis l); Panicf l := Panicf (vis l) |}.
#[global] Instance default_laws : LoggerLaws visible DefaultLogger.line.
Proof.
  split; intros [l Hl] m; cbn; try done.
  split_and!; by apply Output_written.
Qed.
Lemma debug_shown l m :
  DefaultLogger.discard l = false → ((Debugf l m).1 ≠ [] ↔ DefaultLogger.debug l = true) ∧
  (Debugf (DefaultLogger.EnableDebug l) m).1 ≠ [].
Proof.
  intros Hl. cbn. split; [|by apply Output_written].
  destruct (DefaultLogger.debug l); [|done]. split; [done|]. intros _. by apply Output_written.
Qed.

(** After [EnableTimestamps] a line has a date and a time. *)
Lemma timestamps_enabled l :
  Z.land (DefaultLogger.flags (DefaultLogger.EnableTimestamps l)) DefaultLogger.LstdFlags = DefaultLogger.LstdFlags.
Proof.
  apply Z.bits_inj'. intros n Hn. unfold DefaultLogger.LstdFlags.
  change (DefaultLogger.flags _) with (Z.lor (Z.lor (DefaultLogger.flags l) DefaultLogger.Ldate) DefaultLogger.Ltime).
  rewrite Z.land_spec, !Z.lor_spec.
  by destruct (Z.testbit (DefaultLogger.flags l) n), (Z.testbit DefaultLogger.Ldate n), (Z.testbit DefaultLogger.Ltime n).
Qed.
(** A zap logger whose core drops nothing above debug keeps them too. *)
Section ZapLaws.
Context {S line : Type} `{!Sugar S line}.
Context (Hcore : ∀ (s : S) lvl m, lvl ≠ DEBUG → sugarLog s lvl m ≠ []).
Lemma zap_laws : LoggerLaws (@zapRaftLogger.t S) line.
Proof using Hcore.
  split; intros l m; cbn.
  - split_and!; by apply sugar_returns.
  - split_and!; by apply Hcore.
  - apply sugar_fatal.
  - apply sugar_panic.
Qed.
End ZapLaws.
