(* ===== verification/GoFloat.v ===== *)
(** * float64

    IEEE 754 binary64 as the Standard Library specifies it ([SpecFloat]: sign,
    mantissa and exponent, rounded to nearest, ties to even), with the conversions
    of Go. *)

From S2P Require Import Prelude.
From Stdlib Require Import SpecFloat.

Abbreviation float64 := spec_float.

Module float64.
Definition prec : Z := 53.
Definition emax : Z := 1024.

(** [float64(n)] of an integer. *)
Definition of_int (n : Z) : float64 := binary_normalize prec emax n 0 false.
Definition add : float64 → float64 → float64 := SFadd prec emax.
Definition mul : float64 → float64 → float64 := SFmul prec emax.
Definition div : float64 → float64 → float64 := SFdiv prec emax.

(** [int64(f)] drops the fraction; for a value that an int64 cannot hold the
    language leaves the result to the machine, amd64 gives the smallest int64. *)
Definition trunc (f : float64) : option Z :=
  match f with
  | S754_zero _ => Some 0
  | S754_finite s m e =>
      let a := if 0 <=? e then Z.pos m * 2 ^ e else Z.pos m / 2 ^ (- e) in
      Some (if s then - a else a)
  | _ => None
  end.
Definition to_int64 (f : float64) : Z :=
  match trunc f with
  | Some n => if (- 2 ^ 63 <=? n) && (n <? 2 ^ 63) then n else - 2 ^ 63
  | None => - 2 ^ 63
  end.
End float64.

Lemma to_int64_range f : is_i64 (float64.to_int64 f).
Proof.
  unfold float64.to_int64, is_i64. destruct (float64.trunc f) as [n|]; [|lia].
  destruct (_ && _) eqn:E; [|lia]. apply andb_prop in E. lia.
Qed.

(** Exact up to 53 bits, rounded to even beyond. *)
Lemma of_int_examples :
  float64.trunc (float64.of_int (2 ^ 53 - 1)) = Some (2 ^ 53 - 1) ∧
  float64.trunc (float64.of_int (2 ^ 53 + 1)) = Some (2 ^ 53) ∧
  float64.trunc (float64.of_int (- (2 ^ 53 + 3))) = Some (- (2 ^ 53 + 4)) ∧
  float64.to_int64 (float64.div (float64.of_int 7) (float64.of_int (-2))) = -3.
Proof. by vm_compute. Qed.

(** A small positive number divided by zero is infinite, and stays so. *)
Lemma div_zero n :
  0 < n ≤ 200 →
  float64.mul (float64.div (float64.of_int n) (float64.of_int 0)) (float64.of_int 1000000000) = S754_infinity false.
Proof.
  intros Hn.
  assert (H : forallb (λ n, match float64.mul (float64.div (float64.of_int n) (float64.of_int 0))
    (float64.of_int 1000000000) with S754_infinity false => true | _ => false end) (seqZ 1 200) = true)
    by (vm_compute; reflexivity).
  rewrite forallb_forall in H. specialize (H n). revert H.
  destruct (float64.mul _ _) as [| [] | |]; intros H; try done; exfalso; apply diff_false_true, H;
    apply list_elem_of_In, elem_of_seqZ; lia.
Qed.
