(* ===== verification/Membership.v ===== *)
(** * pkg/types/id.go, etcdserver/api/membership: the members of a cluster

    A member's id is the first 8 bytes of the SHA-1 of its sorted peer URLs and
    the cluster token; the cluster's id is computed from the sorted member ids
    in the same way.  A Go map is its lookup function ([gmap]); the order in
    which [range] visits it is that of [MapOrder], and a map that is only ever
    ranged over is the list of its entries in that order. *)

From stdpp Require Import pretty.
From S2P Require Import Prelude GoStd Quorum.

(** ** types.ID *)
Module ID.
Definition String_ (i : Z) : list Z := FormatUint16 i.
Definition IDFromString (s : list Z) : Z * option error := ParseUint16 s.
End ID.

(** ** member.go *)
Module Member.
Record t := mk {
  ID : Z;
  PeerURLs : option (list (list Z)); IsLearner : bool;   (** RaftAttributes *)
  Name : list Z; ClientURLs : option (list (list Z))     (** Attributes *)
}.

(** [peerURLs] are the strings of the URLs, [now] is a time's [Unix()]. *)
Definition newMember (name : list Z) (peerURLs : list (list Z)) (clusterName : list Z)
    (now : option Z) (isLearner : bool) : t :=
  let sorted := sort_Strings peerURLs in
  let b := concat sorted in
  let b := b ++ clusterName in
  let b := match now with Some n => b ++ bs (pretty n) | None => b end in
  let hash := sha1_Sum b in
  mk (be_value (take 8 hash)) (Some sorted) isLearner name None.

Definition NewMember (name : list Z) (peerURLs : list (list Z)) (clusterName : list Z)
    (now : option Z) : t :=
  newMember name peerURLs clusterName now false.

(** [make] and [copy]. *)
Definition copyStrings (l : list (list Z)) : list (list Z) :=
  take (length l) l.
(** [nil] clones to [nil]. *)
Definition Clone (m : option t) : option t :=
  match m with
  | None => None
  | Some m => Some (mk (ID m) (copyStrings <$> PeerURLs m) (IsLearner m) (Name m)
                      (copyStrings <$> ClientURLs m))
  end.

Definition IsStarted (m : t) : bool := negb (len (Name m) =? 0).
End Member.

(** ** cluster.go *)
Module RaftCluster.
Record t := mk {
  lg : bool;                    (** the logger is not nil *)
  localID : Z; cid : Z; token : list Z;
  be : option Z;                (** the backend, by a handle *)
  members : gmap Z Member.t;
  removed : gmap Z bool
}.

Section Ops.
Context `{!MapOrder}.

(** The members in the order of [range c.members]. *)
Definition ranged (c : t) : list Member.t :=
  omap (λ id, members c !! id) (range_order (dom (members c))).

Definition NewCluster (lg : bool) (token : list Z) : t := mk lg 0 0 token None ∅ ∅.

(** [sort.Sort(types.IDSlice(ids))] *)
Definition MemberIDs (c : t) : list Z := sortIDs (Member.ID <$> ranged c).

Definition genID (c : t) : t :=
  let mIDs := MemberIDs c in
  let b := concat (be64 <$> mIDs) in
  let hash := sha1_Sum b in
  c <| cid := be_value (take 8 hash) |>.

Fixpoint addMembers (urlsmap : list (list Z * list (list Z))) (c : t) : outcome t :=
  match urlsmap with
  | [] => Ret c
  | (name, urls) :: urlsmap =>
      let m := Member.NewMember name urls (token c) None in
      if bool_decide (is_Some (members c !! Member.ID m))
      then Err (Errorf "member exists with identical ID") else
      if Member.ID m =? 0 then Err (Errorf "cannot use 0 as member id") else
      addMembers urlsmap (c <| members := <[Member.ID m := m]> (members c) |>)
  end.

Definition NewClusterFromURLsMap (lg : bool) (token : list Z)
    (urlsmap : list (list Z * list (list Z))) : outcome t :=
  let c := NewCluster lg token in
  c ← addMembers urlsmap c;
  Ret (genID c).

Definition member_le (a b : Member.t) : Prop := Member.ID a ≤ Member.ID b.
#[global] Instance member_le_dec : RelDecision member_le.
Proof. intros a b. unfold member_le. apply _. Defined.

(** [sort.Sort(MembersByID)] *)
Definition Members (c : t) : list Member.t :=
  merge_sort member_le (omap (λ m, Member.Clone (Some m)) (ranged c)).

(** A nil member clones to nil. *)
Definition Member_ (c : t) (id : Z) : option Member.t := Member.Clone (members c !! id).

Fixpoint byName_loop (lg : bool) (name : list Z) (ms : list Member.t) (memb : option Member.t)
    : outcome (option Member.t) :=
  match ms with
  | [] => Ret memb
  | m :: ms =>
      if bool_decide (Member.Name m = name) then
        if lg && bool_decide (is_Some memb)
        then Panic (PanicString "two member with same name found")
        else byName_loop lg name ms (Some m)
      else byName_loop lg name ms memb
  end.
Definition MemberByName (c : t) (name : list Z) : outcome (option Member.t) :=
  memb ← byName_loop (lg c) name (ranged c) None;
  Ret (Member.Clone memb).

Definition IsIDRemoved (c : t) (id : Z) : bool := default false (removed c !! id).

Definition SetID (lid id : Z) (c : t) : t := c <| localID := lid |> <| cid := id |>.
Definition SetStore (c : t) : t := c.
Definition SetBackend (b : Z) (c : t) : t := c <| be := Some b |>.
(** The body is commented out. *)
Definition UpdateAttributes (id : Z) (name : list Z) (clientURLs : list (list Z)) (c : t) : t := c.

(** cluster_util.go *)
Definition getRemotePeerURLs (c : t) (local : list Z) : list (list Z) :=
  sort_Strings (concat (omap (λ m,
    if bool_decide (Member.Name m = local) then None
    else Some (default [] (Member.PeerURLs m))) (Members c))).
End Ops.
End RaftCluster.

(** ** store.go *)
Definition attributesSuffix : list Z := bs "attributes".
Definition storePrefix : list Z := bs "/0".
Definition StoreMembersPrefix : list Z := Join [storePrefix; bs "members"].
Definition storeRemovedMembersPrefix : list Z := Join [storePrefix; bs "removed_members"].
Definition MemberStoreKey (id : Z) : list Z := Join [StoreMembersPrefix; ID.String_ id].
Definition StoreClusterVersionKey : list Z := Join [storePrefix; bs "version"].
Definition MemberAttributesStorePath (id : Z) : list Z := Join [MemberStoreKey id; attributesSuffix].
(** A parse error is printed, and the value [ParseUint] gives with it returned. *)
Definition MustParseMemberIDFromKey (key : list Z) : Z := (ID.IDFromString (Base key)).1.

(** ** Identifiers and keys *)

Lemma newMember_perm name us us' token now l :
  us ≡ₚ us' → Member.newMember name us token now l = Member.newMember name us' token now l.
Proof. intros H. unfold Member.newMember. by rewrite (sort_Strings_unique us us' H). Qed.

Lemma copyStrings_id l : Member.copyStrings l = l.
Proof. apply take_ge. done. Qed.

Lemma Clone_id m : Member.Clone m = m.
Proof.
  destruct m as [[i us b n cs]|]; [|done]. unfold Member.Clone. simpl.
  by destruct us, cs; simpl; rewrite ?copyStrings_id.
Qed.

Lemma storeMembers_plain : Forall plain [bs "0"; bs "members"].
Proof. repeat constructor; (discriminate || (vm_compute; set_solver)). Qed.

Lemma attributes_plain : plain attributesSuffix.
Proof. split_and!; try discriminate. vm_compute. set_solver. Qed.

Lemma MemberStoreKey_path id :
  is_u64 id → MemberStoreKey id = absPath ([bs "0"; bs "members"] ++ [ID.String_ id]).
Proof.
  intros H. unfold MemberStoreKey. change StoreMembersPrefix with (absPath [bs "0"; bs "members"]).
  apply Join_absPath; [apply storeMembers_plain|done|by apply FormatUint16_plain].
Qed.

Lemma MemberStoreKey_elements id :
  is_u64 id → Forall plain ([bs "0"; bs "members"] ++ [ID.String_ id]).
Proof.
  intros H. apply Forall_app. split; [apply storeMembers_plain|].
  repeat constructor; by apply FormatUint16_plain.
Qed.

(** The keys of the v2 store.  For every member id, the id can
    be read back from the member's key and from the directory of its
    attributes key, which is the member's key; different members have
    different keys. *)
Theorem memberKey_roundtrip id id' :
  is_u64 id → is_u64 id' →
  MustParseMemberIDFromKey (MemberStoreKey id) = id ∧
  Dir (MemberAttributesStorePath id) = MemberStoreKey id ∧
  MustParseMemberIDFromKey (Dir (MemberAttributesStorePath id)) = id ∧
  (MemberAttributesStorePath id = MemberAttributesStorePath id' → id = id').
Proof.
  assert (HA : ∀ i, is_u64 i → MustParseMemberIDFromKey (MemberStoreKey i) = i).
  { intros i Hi. unfold MustParseMemberIDFromKey. rewrite MemberStoreKey_path, Base_absPath.
    - unfold ID.IDFromString, ID.String_. by rewrite ParseUint16_FormatUint16.
    - by apply FormatUint16_plain.
    - done. }
  assert (HD : ∀ i, is_u64 i → Dir (MemberAttributesStorePath i) = MemberStoreKey i).
  { intros i Hi. unfold MemberAttributesStorePath. rewrite MemberStoreKey_path by done.
    pose proof (MemberStoreKey_elements i Hi) as Hp.
    rewrite Join_absPath, Dir_absPath; try done; apply attributes_plain. }
  intros H H'. split_and!; [by apply HA|by apply HD|by rewrite HD, HA|].
  intros He. apply (f_equal (λ p, MustParseMemberIDFromKey (Dir p))) in He.
  by rewrite !HD, !HA in He.
Qed.

(** ** Clusters *)

Section ClusterProps.
#[local] Opaque Member.newMember.
Implicit Types (c : RaftCluster.t) (es : list (list Z * list (list Z))).

(** The member of an entry of the initial cluster. *)
Definition entryMember (token : list Z) (e : list Z * list (list Z)) : Member.t :=
  Member.NewMember e.1 e.2 token None.
Definition entryIDs (token : list Z) es : list Z := (λ e, Member.ID (entryMember token e)) <$> es.
Definition entryMap (token : list Z) es : gmap Z Member.t :=
  list_to_map ((λ e, (Member.ID (entryMember token e), entryMember token e)) <$> es).

Lemma entryMember_Name token e : Member.Name (entryMember token e) = e.1.
Proof. with_strategy transparent [Member.newMember] reflexivity. Qed.

(** The initial clusters that are accepted. *)
Definition validURLsMap (token : list Z) es : Prop :=
  NoDup (entryIDs token es) ∧ 0 ∉ entryIDs token es.
#[global] Instance validURLsMap_dec token es : Decision (validURLsMap token es).
Proof. unfold validURLsMap. apply _. Defined.

Lemma entryMap_fst token es :
  ((λ e, (Member.ID (entryMember token e), entryMember token e)) <$> es).*1 = entryIDs token es.
Proof. unfold entryIDs. rewrite <- list_fmap_compose. by apply list_fmap_ext. Qed.

Lemma addMembers_ok es c :
  validURLsMap (RaftCluster.token c) es →
  (∀ id, id ∈ entryIDs (RaftCluster.token c) es → RaftCluster.members c !! id = None) →
  RaftCluster.addMembers es c =
  Ret (c <| RaftCluster.members :=
    entryMap (RaftCluster.token c) es ∪ RaftCluster.members c |>).
Proof.
  revert c. induction es as [|[name urls] es IH]; intros c [Hnd H0] Hf.
  - simpl. unfold entryMap. simpl. rewrite (left_id_L ∅ (∪)). by destruct c.
  - unfold entryIDs in *. rewrite fmap_cons in *. apply NoDup_cons in Hnd as [Hn Hnd].
    cbn [RaftCluster.addMembers].
    set (m := Member.NewMember name urls (RaftCluster.token c) None).
    change (Member.ID (entryMember (RaftCluster.token c) (name, urls))) with (Member.ID m) in *.
    rewrite bool_decide_eq_false_2 by (rewrite Hf by set_solver; by intros [? ?]).
    destruct (Member.ID m =? 0) eqn:E; zify_bool; [set_solver|].
    rewrite IH; simpl.
    + f_equal. unfold entryMap. rewrite fmap_cons. simpl.
      change (entryMember (RaftCluster.token c) (name, urls)) with m.
      rewrite <- insert_union_l, insert_union_r; [done|].
      apply not_elem_of_list_to_map_1. by rewrite entryMap_fst.
    + split; [done|set_solver].
    + intros id Hid. rewrite lookup_insert_ne by (intros <-; done). apply Hf. set_solver.
Qed.

Lemma addMembers_rejects es c :
  ¬ (validURLsMap (RaftCluster.token c) es ∧
     ∀ id, id ∈ entryIDs (RaftCluster.token c) es → RaftCluster.members c !! id = None) →
  ∃ e, RaftCluster.addMembers es c = Err e.
Proof.
  revert c. induction es as [|[name urls] es IH]; intros c H.
  - destruct H. split; [split; [constructor|]|]; set_solver.
  - cbn [RaftCluster.addMembers].
    set (m := Member.NewMember name urls (RaftCluster.token c) None).
    case_bool_decide as Hin; [by eexists|]. rewrite <- eq_None_not_Some in Hin.
    destruct (Member.ID m =? 0) eqn:E; zify_bool; [by eexists|].
    apply IH. simpl. intros [[Hnd H0] Hf]. apply H. clear H.
    unfold validURLsMap, entryIDs in *. rewrite fmap_cons.
    change (Member.ID (entryMember (RaftCluster.token c) (name, urls))) with (Member.ID m).
    split; [split|].
    + apply NoDup_cons. split; [|done]. intros Hm. apply Hf in Hm. by rewrite lookup_insert_eq in Hm.
    + set_solver.
    + intros id [->|Hid]%elem_of_cons; [done|]. apply Hf in Hid.
      destruct (decide (id = Member.ID m)) as [->|]; [by rewrite lookup_insert_eq in Hid|].
      by rewrite lookup_insert_ne in Hid.
Qed.

(** What [NewClusterFromURLsMap] builds. *)
Definition clusterOf `{!MapOrder} (lg : bool) (token : list Z) es : RaftCluster.t :=
  RaftCluster.genID ((RaftCluster.NewCluster lg token) <| RaftCluster.members := entryMap token es |>).

Lemma NewCluster_spec `{!MapOrder} lg token es :
  (validURLsMap token es ∧
   RaftCluster.NewClusterFromURLsMap lg token es = Ret (clusterOf lg token es)) ∨
  (¬ validURLsMap token es ∧ ∃ e, RaftCluster.NewClusterFromURLsMap lg token es = Err e).
Proof.
  destruct (decide (validURLsMap token es)) as [Hv|Hv]; [left|right]; (split; [done|]);
    unfold RaftCluster.NewClusterFromURLsMap.
  - rewrite addMembers_ok by (try done; by intros; apply lookup_empty). rewrite bind_Ret.
    unfold clusterOf. simpl. by rewrite (right_id_L ∅ (∪)).
  - destruct (addMembers_rejects es (RaftCluster.NewCluster lg token)) as (e & ->); [|by eexists].
    by intros [? _].
Qed.

Lemma entryMap_perm token es es' :
  NoDup (entryIDs token es) → es ≡ₚ es' → entryMap token es = entryMap token es'.
Proof.
  intros Hnd Hp. unfold entryMap. apply list_to_map_proper; [by rewrite entryMap_fst|].
  by apply fmap_Permutation.
Qed.

Lemma lookup_entryMap token es id m :
  NoDup (entryIDs token es) →
  entryMap token es !! id = Some m ↔
  ∃ e, e ∈ es ∧ m = entryMember token e ∧ id = Member.ID m.
Proof.
  intros Hnd. unfold entryMap. rewrite <- elem_of_list_to_map by (by rewrite entryMap_fst).
  rewrite list_elem_of_fmap. naive_solver.
Qed.

Lemma omap_lookup_fst (m : gmap Z Member.t) (l : list (Z * Member.t)) :
  (∀ k v, (k, v) ∈ l → m !! k = Some v) → omap (λ id, m !! id) l.*1 = l.*2.
Proof.
  induction l as [|[k v] l IH]; intros H; [done|]. csimpl.
  rewrite (H k v) by set_solver. rewrite IH; [done|]. set_solver.
Qed.

(** The members, whatever the order they are visited in. *)
Lemma ranged_perm `{!MapOrder} c :
  RaftCluster.ranged c ≡ₚ (map_to_list (RaftCluster.members c)).*2.
Proof.
  unfold RaftCluster.ranged. set (m := RaftCluster.members c).
  assert (Hd : range_order (dom m) ≡ₚ (map_to_list m).*1).
  { rewrite range_order_perm. apply NoDup_Permutation; [apply NoDup_elements|apply NoDup_fst_map_to_list|].
    intros k. rewrite elem_of_elements, elem_of_dom, list_elem_of_fmap. split.
    - intros [v Hv]. exists (k, v). split; [done|]. by apply elem_of_map_to_list.
    - intros ([k' v] & -> & Hv). apply elem_of_map_to_list in Hv. by eexists. }
  rewrite Hd, omap_lookup_fst; [done|]. intros k v. by rewrite elem_of_map_to_list.
Qed.

Lemma elem_of_ranged `{!MapOrder} c m :
  m ∈ RaftCluster.ranged c ↔ ∃ id, RaftCluster.members c !! id = Some m.
Proof.
  rewrite ranged_perm, list_elem_of_fmap. split.
  - intros ([k v] & -> & Hv). exists k. by apply elem_of_map_to_list.
  - intros [id Hv]. exists (id, m). split; [done|]. by apply elem_of_map_to_list.
Qed.

Lemma ranged_order (O1 O2 : MapOrder) c : @RaftCluster.ranged O1 c ≡ₚ @RaftCluster.ranged O2 c.
Proof. by rewrite (@ranged_perm O1 c), (@ranged_perm O2 c). Qed.

Lemma ranged_entryMap `{!MapOrder} token es c :
  NoDup (entryIDs token es) → RaftCluster.members c = entryMap token es →
  RaftCluster.ranged c ≡ₚ entryMember token <$> es.
Proof.
  intros Hnd Hc. rewrite ranged_perm, Hc. unfold entryMap.
  rewrite map_to_list_to_map by (by rewrite entryMap_fst).
  by rewrite <- list_fmap_compose.
Qed.

Lemma MemberIDs_entryMap `{!MapOrder} token es c :
  NoDup (entryIDs token es) → RaftCluster.members c = entryMap token es →
  RaftCluster.MemberIDs c = sortIDs (entryIDs token es).
Proof.
  intros Hnd Hc. apply sortIDs_unique. rewrite (ranged_entryMap token es) by done.
  unfold entryIDs. by rewrite <- list_fmap_compose.
Qed.

Lemma byName_loop_none lg name ms memb :
  name ∉ Member.Name <$> ms → RaftCluster.byName_loop lg name ms memb = Ret memb.
Proof.
  induction ms as [|m ms IH]; intros H; [done|]. cbn [RaftCluster.byName_loop].
  rewrite fmap_cons, not_elem_of_cons in H. rewrite bool_decide_eq_false_2 by naive_solver.
  apply IH. naive_solver.
Qed.

Lemma byName_loop_unique lg ms m :
  NoDup (Member.Name <$> ms) → m ∈ ms →
  RaftCluster.byName_loop lg (Member.Name m) ms None = Ret (Some m).
Proof.
  induction ms as [|x ms IH]; intros Hnd Hm; [set_solver|].
  rewrite fmap_cons, NoDup_cons in Hnd. destruct Hnd as [Hx Hnd]. cbn [RaftCluster.byName_loop].
  apply elem_of_cons in Hm as [->|Hm].
  - rewrite bool_decide_eq_true_2 by done. rewrite (bool_decide_eq_false_2 (is_Some None))
      by (by intros [? ?]). rewrite andb_false_r. by apply byName_loop_none.
  - rewrite bool_decide_eq_false_2; [by apply IH|]. intros He. apply Hx. rewrite He.
    by apply list_elem_of_fmap_2.
Qed.

Lemma ranged_names `{!MapOrder} token es c :
  NoDup (entryIDs token es) → RaftCluster.members c = entryMap token es →
  Member.Name <$> RaftCluster.ranged c ≡ₚ es.*1.
Proof.
  intros Hnd Hm. rewrite (ranged_entryMap token es c Hnd Hm), <- list_fmap_compose. unfold compose.
  rewrite (list_fmap_ext _ fst); [done|]. intros ? e _. apply entryMember_Name.
Qed.

Lemma MemberByName_entry `{!MapOrder} token es c e :
  NoDup (entryIDs token es) → RaftCluster.members c = entryMap token es → NoDup es.*1 → e ∈ es →
  RaftCluster.MemberByName c e.1 = Ret (Some (entryMember token e)).
Proof.
  intros Hnd Hm Hnames He. pose proof (ranged_names token es c Hnd Hm) as Hn.
  unfold RaftCluster.MemberByName. rewrite <- (entryMember_Name token e).
  rewrite byName_loop_unique; [by rewrite bind_Ret, Clone_id|by rewrite Hn|].
  rewrite (ranged_entryMap token es c Hnd Hm). by apply list_elem_of_fmap_2.
Qed.

Lemma entryIDs_u64 token es id : id ∈ entryIDs token es → is_u64 id.
Proof.
  intros (e & -> & _)%list_elem_of_fmap.
  with_strategy transparent [Member.newMember] exact (sha1_id_u64 _).
Qed.

(** C26 (functional): building the initial cluster.  The cluster is accepted
    exactly when the ids of its members are pairwise different and none is 0;
    then it has one member per name and URLs given, found under its id;
    [MemberIDs] lists the ids in increasing order, each once; the cluster id is
    the hash of that list; and when the names differ, [MemberByName] finds each
    member by its name, finds nothing under other names, and does not panic.
    Otherwise an error is returned. *)
Theorem newCluster_behaviour `{!MapOrder} lg token es :
  if decide (validURLsMap token es) then
    ∃ c, RaftCluster.NewClusterFromURLsMap lg token es = Ret c ∧
      (∀ id m, RaftCluster.members c !! id = Some m ↔
         ∃ e, e ∈ es ∧ m = entryMember token e ∧ id = Member.ID m) ∧
      StronglySorted Z.lt (RaftCluster.MemberIDs c) ∧
      (∀ id, id ∈ RaftCluster.MemberIDs c ↔ id ∈ entryIDs token es) ∧
      (0 ∉ RaftCluster.MemberIDs c) ∧
      RaftCluster.cid c
        = be_value (take 8 (sha1_Sum (concat (be64 <$> RaftCluster.MemberIDs c)))) ∧
      (NoDup es.*1 →
       (∀ e, e ∈ es → RaftCluster.MemberByName c e.1 = Ret (Some (entryMember token e))) ∧
       (∀ name, name ∉ es.*1 → RaftCluster.MemberByName c name = Ret None))
  else ∃ e, RaftCluster.NewClusterFromURLsMap lg token es = Err e.
Proof.
  case_decide as Hv; destruct (NewCluster_spec lg token es) as [[Hv' ->]|[Hv' Hr]]; try done.
  destruct Hv as [Hnd H0]. set (c0 := clusterOf lg token es). exists c0. split; [done|].
  assert (Hm : RaftCluster.members c0 = entryMap token es) by done.
  pose proof (MemberIDs_entryMap token es c0 Hnd Hm) as Hids.
  assert (Hin : ∀ id, id ∈ RaftCluster.MemberIDs c0 ↔ id ∈ entryIDs token es)
    by (intros id; by rewrite Hids, sortIDs_perm).
  split_and!; try done.
  - intros id m. rewrite Hm. by apply lookup_entryMap.
  - rewrite Hids. by apply sortIDs_increasing.
  - by rewrite Hin.
  - intros Hnames. split; [intros e; by apply MemberByName_entry|].
    intros name Hname. unfold RaftCluster.MemberByName.
    by rewrite byName_loop_none by (by rewrite (ranged_names token es c0 Hnd Hm)).
Qed.

(** C27 (equivalence): Go's map order does not matter.  Whatever order the
    initial cluster, and then the members, are visited in, and in whatever
    order each member's URLs are given, the same cluster with the same ids is
    built, or none. *)
Theorem newCluster_order_irrelevant (O1 O2 : MapOrder) lg token es es' es'' c :
  Forall2 (λ e e', e.1 = e'.1 ∧ e.2 ≡ₚ e'.2) es es' → es' ≡ₚ es'' →
  @RaftCluster.NewClusterFromURLsMap O1 lg token es = Ret c →
  @RaftCluster.NewClusterFromURLsMap O2 lg token es'' = Ret c.
Proof.
  intros HU HP H.
  assert (HM : ∀ A (f : Member.t → A), (f ∘ entryMember token) <$> es = (f ∘ entryMember token) <$> es').
  { intros A f. clear HP H. induction HU as [|[n us] [n' us'] l l' [Hn Hus] _ IH]; [done|].
    rewrite !fmap_cons, IH. f_equal. unfold compose. f_equal. simpl in Hn. subst n'.
    by apply newMember_perm. }
  destruct (@NewCluster_spec O1 lg token es) as [[[Hnd H0] HR]|[_ [e HR]]]; rewrite HR in H; [|done].
  injection H as <-.
  assert (Hid : entryIDs token es ≡ₚ entryIDs token es'').
  { change (entryIDs token es) with ((Member.ID ∘ entryMember token) <$> es).
    rewrite (HM _ Member.ID). by apply fmap_Permutation. }
  assert (Hmap : entryMap token es = entryMap token es'').
  { rewrite (entryMap_perm token es'' es'); [|by rewrite <- Hid|done].
    unfold entryMap. f_equal. exact (HM _ (λ m, (Member.ID m, m))). }
  destruct (@NewCluster_spec O2 lg token es'') as [[_ ->]|[Hn _]].
  - f_equal. unfold clusterOf. rewrite <- Hmap. unfold RaftCluster.genID.
    by rewrite !(MemberIDs_entryMap token es).
  - destruct Hn. split; by rewrite <- Hid.
Qed.
End ClusterProps.

(** ** Instances at concrete inputs *)

(** The cluster of a node started with the default flags: the ids a running
    etcd prints. *)
Definition default_urls : list (list Z * list (list Z)) :=
  [(bs "default", [bs "http://localhost:2380"])].

Example default_cluster_ids :
  (c ← @RaftCluster.NewClusterFromURLsMap elements_order true (bs "etcd-cluster") default_urls;
   Ret (@RaftCluster.MemberIDs elements_order c, RaftCluster.cid c))
  = Ret ([0x8e9e05c52164694d], 0xcdf818194e3a8c32).
Proof. vm_compute. reflexivity. Qed.

Lemma memberKey_roundtrip_witness :
  MustParseMemberIDFromKey (bs "/0/members/8e9e05c52164694d") = 0x8e9e05c52164694d ∧
  Dir (bs "/0/members/8e9e05c52164694d/attributes") = bs "/0/members/8e9e05c52164694d".
Proof.
  destruct (memberKey_roundtrip 0x8e9e05c52164694d 1) as (H1 & H2 & _);
    [vm_compute; done|vm_compute; done|].
  split; [exact H1|exact H2].
Defined.

Definition two_urls : list (list Z * list (list Z)) :=
  [(bs "a", [bs "http://h1:1"; bs "http://h2:2"]); (bs "b", [bs "http://h3:3"])].
Definition two_urls' : list (list Z * list (list Z)) :=
  [(bs "a", [bs "http://h2:2"; bs "http://h1:1"]); (bs "b", [bs "http://h3:3"])].

(** An order that is not the one of [elements]. *)
Definition reverse_order : MapOrder :=
  {| range_order := λ s, rev (elements s);
     range_order_perm := λ s, symmetry (Permutation_rev (elements s)) |}.

Lemma newCluster_order_irrelevant_witness :
  ∃ c, @RaftCluster.NewClusterFromURLsMap elements_order true (bs "t") two_urls = Ret c ∧
    @RaftCluster.NewClusterFromURLsMap reverse_order true (bs "t") (rev two_urls') = Ret c.
Proof.
  assert (H : match @RaftCluster.NewClusterFromURLsMap elements_order true (bs "t") two_urls with
              | Ret _ => true | _ => false end = true) by (vm_compute; reflexivity).
  destruct (@RaftCluster.NewClusterFromURLsMap elements_order true (bs "t") two_urls)
    as [c| | |] eqn:E; try discriminate H.
  exists c. split; [reflexivity|].
  apply (newCluster_order_irrelevant elements_order reverse_order true (bs "t")
    two_urls two_urls' (rev two_urls') c); [|apply Permutation_rev|exact E].
  repeat constructor.
Defined.
