(* ===== verification/EtcdPb.v ===== *)
(** * etcdserver/etcdserverpb and mvcc/mvccpb: requests, responses and events

    The messages of rpc.pb.go, etcdserver.pb.go, raft_internal.pb.go and kv.pb.go
    with their size, their encoding and their decoding.  A proto3 field is written
    when it is not zero; the fields of [Request] and [Metadata] (proto2) always
    are.  A [[]byte] field is its bytes: nothing distinguishes nil from empty. *)

From S2P Require Import Prelude Proto RaftPb ProtoChecked.

(** [if cond { ... }] around a field. *)
Definition when (b : bool) (op : writer) : writer := λ w, if b then op w else Ret w.
Definition sizeWhen (b : bool) (n : Z) : Z := if b then n else 0.

(** A tag of two bytes. *)
Definition putBoolField2 (n tag1 tag2 : Z) (b : bool) : writer := λ w,
  w ← putByte n tag1 w; putBoolField n tag2 b w.
Definition putMessageField2 (n tag1 tag2 size : Z) (marshalTo : Z → outcome (list Z)) : writer :=
  λ w, w ← putByte n tag1 w; putMessageField n tag2 size marshalTo w.

Definition stringSize (s : bytes) : Z := 1 + len s + sovRaft (len s).

(** A message behind a pointer is written when it is not nil. *)
Definition subSize {M} (k : Z) (size : M → Z) (m : option M) : Z :=
  match m with Some m => k + size m + sovRaft (size m) | None => 0 end.
Definition putSub {M} (put : Z → (Z → outcome bytes) → writer) (size : M → Z)
    (marshalTo : M → Z → outcome bytes) (m : option M) : writer :=
  match m with Some m => put (size m) (marshalTo m) | None => λ w, Ret w end.

(** ** kv.pb.go *)
Definition Event_PUT : Z := 0.
Definition Event_DELETE : Z := 1.

Module KeyValue.
Record t := mk {
  Key : bytes; CreateRevision : Z; ModRevision : Z; Version : Z; Value : bytes; Lease : Z;
  XXX_unrecognized : option bytes }.
Definition zero : t := mk [] 0 0 0 [] 0 None.

Definition Size (m : t) : Z :=
  sizeWhen (len (Key m) >? 0) (stringSize (Key m))
  + sizeWhen (negb (CreateRevision m =? 0)) (1 + sovRaft (u64 (CreateRevision m)))
  + sizeWhen (negb (ModRevision m =? 0)) (1 + sovRaft (u64 (ModRevision m)))
  + sizeWhen (negb (Version m =? 0)) (1 + sovRaft (u64 (Version m)))
  + sizeWhen (len (Value m) >? 0) (stringSize (Value m))
  + sizeWhen (negb (Lease m =? 0)) (1 + sovRaft (u64 (Lease m)))
  + unrecognizedSize (XXX_unrecognized m).

Definition MarshalTo (m : t) (n : Z) : outcome bytes :=
  writeAll [
    when (len (Key m) >? 0) (putBytesField n 0xa (Some (Key m)));
    when (negb (CreateRevision m =? 0)) (putVarintField n 0x10 (u64 (CreateRevision m)));
    when (negb (ModRevision m =? 0)) (putVarintField n 0x18 (u64 (ModRevision m)));
    when (negb (Version m =? 0)) (putVarintField n 0x20 (u64 (Version m)));
    when (len (Value m) >? 0) (putBytesField n 0x2a (Some (Value m)));
    when (negb (Lease m =? 0)) (putVarintField n 0x30 (u64 (Lease m)));
    putUnrecognized n (XXX_unrecognized m)] [].

Definition Marshal (m : t) : outcome bytes := MarshalTo m (Size m).

Definition field (fieldNum wireType : Z) (d : bytes) (i : Z) (m : t) : outcome (option (t * Z)) :=
  if fieldNum =? 1 then checked.bytesCase (λ p m, m <| Key := p |>) wireType d i m
  else if fieldNum =? 2 then checked.int64Case (λ v m, m <| CreateRevision := v |>) wireType d i m
  else if fieldNum =? 3 then checked.int64Case (λ v m, m <| ModRevision := v |>) wireType d i m
  else if fieldNum =? 4 then checked.int64Case (λ v m, m <| Version := v |>) wireType d i m
  else if fieldNum =? 5 then checked.bytesCase (λ p m, m <| Value := p |>) wireType d i m
  else if fieldNum =? 6 then checked.int64Case (λ v m, m <| Lease := v |>) wireType d i m
  else Ret None.

Definition Unmarshal (m : t) (d : bytes) : outcome t :=
  checked.unmarshal field (λ u m, m <| XXX_unrecognized ::= appendUnrecognized u |>) m d.
End KeyValue.

Module Event.
Record t := mk {
  Type_ : Z; Kv : option KeyValue.t; PrevKv : option KeyValue.t; XXX_unrecognized : option bytes }.
Definition zero : t := mk Event_PUT None None None.

Definition Size (m : t) : Z :=
  sizeWhen (negb (Type_ m =? 0)) (1 + sovRaft (u64 (Type_ m)))
  + subSize 1 KeyValue.Size (Kv m) + subSize 1 KeyValue.Size (PrevKv m)
  + unrecognizedSize (XXX_unrecognized m).

Definition MarshalTo (m : t) (n : Z) : outcome bytes :=
  writeAll [
    when (negb (Type_ m =? 0)) (putVarintField n 0x8 (u64 (Type_ m)));
    putSub (putMessageField n 0x12) KeyValue.Size KeyValue.MarshalTo (Kv m);
    putSub (putMessageField n 0x1a) KeyValue.Size KeyValue.MarshalTo (PrevKv m);
    putUnrecognized n (XXX_unrecognized m)] [].

Definition Marshal (m : t) : outcome bytes := MarshalTo m (Size m).

Definition field (fieldNum wireType : Z) (d : bytes) (i : Z) (m : t) : outcome (option (t * Z)) :=
  if fieldNum =? 1 then enumCase (λ v m, m <| Type_ := v |>) wireType d i m
  else if fieldNum =? 2 then checked.pointerCase KeyValue.zero KeyValue.Unmarshal Kv (λ x m, m <| Kv := Some x |>) wireType d i m
  else if fieldNum =? 3 then checked.pointerCase KeyValue.zero KeyValue.Unmarshal PrevKv (λ x m, m <| PrevKv := Some x |>) wireType d i m
  else Ret None.

Definition Unmarshal (m : t) (d : bytes) : outcome t :=
  checked.unmarshal field (λ u m, m <| XXX_unrecognized ::= appendUnrecognized u |>) m d.
End Event.

(** ** rpc.pb.go *)
Module ResponseHeader.
Record t := mk {
  ClusterId : Z; MemberId : Z; Revision : Z; RaftTerm : Z; XXX_unrecognized : option bytes }.
Definition zero : t := mk 0 0 0 0 None.

Definition Size (m : t) : Z :=
  sizeWhen (negb (ClusterId m =? 0)) (1 + sovRaft (ClusterId m))
  + sizeWhen (negb (MemberId m =? 0)) (1 + sovRaft (MemberId m))
  + sizeWhen (negb (Revision m =? 0)) (1 + sovRaft (u64 (Revision m)))
  + sizeWhen (negb (RaftTerm m =? 0)) (1 + sovRaft (RaftTerm m))
  + unrecognizedSize (XXX_unrecognized m).

Definition MarshalTo (m : t) (n : Z) : outcome bytes :=
  writeAll [
    when (negb (ClusterId m =? 0)) (putVarintField n 0x8 (ClusterId m));
    when (negb (MemberId m =? 0)) (putVarintField n 0x10 (MemberId m));
    when (negb (Revision m =? 0)) (putVarintField n 0x18 (u64 (Revision m)));
    when (negb (RaftTerm m =? 0)) (putVarintField n 0x20 (RaftTerm m));
    putUnrecognized n (XXX_unrecognized m)] [].

Definition Marshal (m : t) : outcome bytes := MarshalTo m (Size m).

Definition field (fieldNum wireType : Z) (d : bytes) (i : Z) (m : t) : outcome (option (t * Z)) :=
  if fieldNum =? 1 then uint64Case (λ v m, m <| ClusterId := v |>) wireType d i m
  else if fieldNum =? 2 then uint64Case (λ v m, m <| MemberId := v |>) wireType d i m
  else if fieldNum =? 3 then checked.int64Case (λ v m, m <| Revision := v |>) wireType d i m
  else if fieldNum =? 4 then uint64Case (λ v m, m <| RaftTerm := v |>) wireType d i m
  else Ret None.

Definition Unmarshal (m : t) (d : bytes) : outcome t :=
  checked.unmarshal field (λ u m, m <| XXX_unrecognized ::= appendUnrecognized u |>) m d.
End ResponseHeader.

Definition RangeRequest_NONE : Z := 0.
Definition RangeRequest_ASCEND : Z := 1.
Definition RangeRequest_DESCEND : Z := 2.
Definition RangeRequest_KEY : Z := 0.
Definition RangeRequest_VERSION : Z := 1.
Definition RangeRequest_CREATE : Z := 2.
Definition RangeRequest_MOD : Z := 3.
Definition RangeRequest_VALUE : Z := 4.

Module RangeRequest.
Record t := mk {
  Key : bytes; RangeEnd : bytes; Limit : Z; Revision : Z; SortOrder : Z; SortTarget : Z;
  Serializable : bool; KeysOnly : bool; CountOnly : bool; MinModRevision : Z; MaxModRevision : Z;
  MinCreateRevision : Z; MaxCreateRevision : Z; XXX_unrecognized : option bytes }.
Definition zero : t :=
  mk [] [] 0 0 RangeRequest_NONE RangeRequest_KEY false false false 0 0 0 0 None.

Definition Size (m : t) : Z :=
  sizeWhen (len (Key m) >? 0) (stringSize (Key m))
  + sizeWhen (len (RangeEnd m) >? 0) (stringSize (RangeEnd m))
  + sizeWhen (negb (Limit m =? 0)) (1 + sovRaft (u64 (Limit m)))
  + sizeWhen (negb (Revision m =? 0)) (1 + sovRaft (u64 (Revision m)))
  + sizeWhen (negb (SortOrder m =? 0)) (1 + sovRaft (u64 (SortOrder m)))
  + sizeWhen (negb (SortTarget m =? 0)) (1 + sovRaft (u64 (SortTarget m)))
  + sizeWhen (Serializable m) 2 + sizeWhen (KeysOnly m) 2 + sizeWhen (CountOnly m) 2
  + sizeWhen (negb (MinModRevision m =? 0)) (1 + sovRaft (u64 (MinModRevision m)))
  + sizeWhen (negb (MaxModRevision m =? 0)) (1 + sovRaft (u64 (MaxModRevision m)))
  + sizeWhen (negb (MinCreateRevision m =? 0)) (1 + sovRaft (u64 (MinCreateRevision m)))
  + sizeWhen (negb (MaxCreateRevision m =? 0)) (1 + sovRaft (u64 (MaxCreateRevision m)))
  + unrecognizedSize (XXX_unrecognized m).

Definition MarshalTo (m : t) (n : Z) : outcome bytes :=
  writeAll [
    when (len (Key m) >? 0) (putBytesField n 0xa (Some (Key m)));
    when (len (RangeEnd m) >? 0) (putBytesField n 0x12 (Some (RangeEnd m)));
    when (negb (Limit m =? 0)) (putVarintField n 0x18 (u64 (Limit m)));
    when (negb (Revision m =? 0)) (putVarintField n 0x20 (u64 (Revision m)));
    when (negb (SortOrder m =? 0)) (putVarintField n 0x28 (u64 (SortOrder m)));
    when (negb (SortTarget m =? 0)) (putVarintField n 0x30 (u64 (SortTarget m)));
    when (Serializable m) (putBoolField n 0x38 (Serializable m));
    when (KeysOnly m) (putBoolField n 0x40 (KeysOnly m));
    when (CountOnly m) (putBoolField n 0x48 (CountOnly m));
    when (negb (MinModRevision m =? 0)) (putVarintField n 0x50 (u64 (MinModRevision m)));
    when (negb (MaxModRevision m =? 0)) (putVarintField n 0x58 (u64 (MaxModRevision m)));
    when (negb (MinCreateRevision m =? 0)) (putVarintField n 0x60 (u64 (MinCreateRevision m)));
    when (negb (MaxCreateRevision m =? 0)) (putVarintField n 0x68 (u64 (MaxCreateRevision m)));
    putUnrecognized n (XXX_unrecognized m)] [].

Definition Marshal (m : t) : outcome bytes := MarshalTo m (Size m).

Definition field (fieldNum wireType : Z) (d : bytes) (i : Z) (m : t) : outcome (option (t * Z)) :=
  if fieldNum =? 1 then checked.bytesCase (λ p m, m <| Key := p |>) wireType d i m
  else if fieldNum =? 2 then checked.bytesCase (λ p m, m <| RangeEnd := p |>) wireType d i m
  else if fieldNum =? 3 then checked.int64Case (λ v m, m <| Limit := v |>) wireType d i m
  else if fieldNum =? 4 then checked.int64Case (λ v m, m <| Revision := v |>) wireType d i m
  else if fieldNum =? 5 then enumCase (λ v m, m <| SortOrder := v |>) wireType d i m
  else if fieldNum =? 6 then enumCase (λ v m, m <| SortTarget := v |>) wireType d i m
  else if fieldNum =? 7 then boolCase (λ b m, m <| Serializable := b |>) wireType d i m
  else if fieldNum =? 8 then boolCase (λ b m, m <| KeysOnly := b |>) wireType d i m
  else if fieldNum =? 9 then boolCase (λ b m, m <| CountOnly := b |>) wireType d i m
  else if fieldNum =? 10 then checked.int64Case (λ v m, m <| MinModRevision := v |>) wireType d i m
  else if fieldNum =? 11 then checked.int64Case (λ v m, m <| MaxModRevision := v |>) wireType d i m
  else if fieldNum =? 12 then checked.int64Case (λ v m, m <| MinCreateRevision := v |>) wireType d i m
  else if fieldNum =? 13 then checked.int64Case (λ v m, m <| MaxCreateRevision := v |>) wireType d i m
  else Ret None.

Definition Unmarshal (m : t) (d : bytes) : outcome t :=
  checked.unmarshal field (λ u m, m <| XXX_unrecognized ::= appendUnrecognized u |>) m d.
End RangeRequest.

Module RangeResponse.
Record t := mk {
  Header : option ResponseHeader.t; More : bool; Count : Z; XXX_unrecognized : option bytes }.
Definition zero : t := mk None false 0 None.

Definition Size (m : t) : Z :=
  subSize 1 ResponseHeader.Size (Header m) + sizeWhen (More m) 2
  + sizeWhen (negb (Count m =? 0)) (1 + sovRaft (u64 (Count m)))
  + unrecognizedSize (XXX_unrecognized m).

Definition MarshalTo (m : t) (n : Z) : outcome bytes :=
  writeAll [
    putSub (putMessageField n 0xa) ResponseHeader.Size ResponseHeader.MarshalTo (Header m);
    when (More m) (putBoolField n 0x18 (More m));
    when (negb (Count m =? 0)) (putVarintField n 0x20 (u64 (Count m)));
    putUnrecognized n (XXX_unrecognized m)] [].

Definition Marshal (m : t) : outcome bytes := MarshalTo m (Size m).

Definition field (fieldNum wireType : Z) (d : bytes) (i : Z) (m : t) : outcome (option (t * Z)) :=
  if fieldNum =? 1 then checked.pointerCase ResponseHeader.zero ResponseHeader.Unmarshal Header (λ x m, m <| Header := Some x |>) wireType d i m
  else if fieldNum =? 3 then boolCase (λ b m, m <| More := b |>) wireType d i m
  else if fieldNum =? 4 then checked.int64Case (λ v m, m <| Count := v |>) wireType d i m
  else Ret None.

Definition Unmarshal (m : t) (d : bytes) : outcome t :=
  checked.unmarshal field (λ u m, m <| XXX_unrecognized ::= appendUnrecognized u |>) m d.
End RangeResponse.

Module PutResponse.
Record t := mk {
  Header : option ResponseHeader.t; PrevKv : option KeyValue.t; XXX_unrecognized : option bytes }.
Definition zero : t := mk None None None.

Definition Size (m : t) : Z :=
  subSize 1 ResponseHeader.Size (Header m) + subSize 1 KeyValue.Size (PrevKv m)
  + unrecognizedSize (XXX_unrecognized m).

Definition MarshalTo (m : t) (n : Z) : outcome bytes :=
  writeAll [
    putSub (putMessageField n 0xa) ResponseHeader.Size ResponseHeader.MarshalTo (Header m);
    putSub (putMessageField n 0x12) KeyValue.Size KeyValue.MarshalTo (PrevKv m);
    putUnrecognized n (XXX_unrecognized m)] [].

Definition Marshal (m : t) : outcome bytes := MarshalTo m (Size m).

Definition field (fieldNum wireType : Z) (d : bytes) (i : Z) (m : t) : outcome (option (t * Z)) :=
  if fieldNum =? 1 then checked.pointerCase ResponseHeader.zero ResponseHeader.Unmarshal Header (λ x m, m <| Header := Some x |>) wireType d i m
  else if fieldNum =? 2 then checked.pointerCase KeyValue.zero KeyValue.Unmarshal PrevKv (λ x m, m <| PrevKv := Some x |>) wireType d i m
  else Ret None.

Definition Unmarshal (m : t) (d : bytes) : outcome t :=
  checked.unmarshal field (λ u m, m <| XXX_unrecognized ::= appendUnrecognized u |>) m d.
End PutResponse.

Module PutRequest.
Record t := mk {
  Key : bytes; Value : bytes; Lease : Z; PrevKv : bool; IgnoreValue : bool; IgnoreLease : bool;
  XXX_unrecognized : option bytes }.
Definition zero : t := mk [] [] 0 false false false None.

Definition Size (m : t) : Z :=
  sizeWhen (len (Key m) >? 0) (stringSize (Key m))
  + sizeWhen (len (Value m) >? 0) (stringSize (Value m))
  + sizeWhen (negb (Lease m =? 0)) (1 + sovRaft (u64 (Lease m)))
  + sizeWhen (PrevKv m) 2 + sizeWhen (IgnoreValue m) 2 + sizeWhen (IgnoreLease m) 2
  + unrecognizedSize (XXX_unrecognized m).

Definition MarshalTo (m : t) (n : Z) : outcome bytes :=
  writeAll [
    when (len (Key m) >? 0) (putBytesField n 0xa (Some (Key m)));
    when (len (Value m) >? 0) (putBytesField n 0x12 (Some (Value m)));
    when (negb (Lease m =? 0)) (putVarintField n 0x18 (u64 (Lease m)));
    when (PrevKv m) (putBoolField n 0x20 (PrevKv m));
    when (IgnoreValue m) (putBoolField n 0x28 (IgnoreValue m));
    when (IgnoreLease m) (putBoolField n 0x30 (IgnoreLease m));
    putUnrecognized n (XXX_unrecognized m)] [].

Definition Marshal (m : t) : outcome bytes := MarshalTo m (Size m).

Definition field (fieldNum wireType : Z) (d : bytes) (i : Z) (m : t) : outcome (option (t * Z)) :=
  if fieldNum =? 1 then checked.bytesCase (λ p m, m <| Key := p |>) wireType d i m
  else if fieldNum =? 2 then checked.bytesCase (λ p m, m <| Value := p |>) wireType d i m
  else if fieldNum =? 3 then checked.int64Case (λ v m, m <| Lease := v |>) wireType d i m
  else if fieldNum =? 4 then boolCase (λ b m, m <| PrevKv := b |>) wireType d i m
  else if fieldNum =? 5 then boolCase (λ b m, m <| IgnoreValue := b |>) wireType d i m
  else if fieldNum =? 6 then boolCase (λ b m, m <| IgnoreLease := b |>) wireType d i m
  else Ret None.

Definition Unmarshal (m : t) (d : bytes) : outcome t :=
  checked.unmarshal field (λ u m, m <| XXX_unrecognized ::= appendUnrecognized u |>) m d.
End PutRequest.

(** ** etcdserver.pb.go *)
Module Request.
Record t := mk {
  ID : Z; Method : bytes; Path : bytes; Val : bytes; Dir : bool; PrevValue : bytes;
  PrevIndex : Z; PrevExist : option bool; Expiration : Z; Wait : bool; Since : Z;
  Recursive : bool; Sorted : bool; Quorum : bool; Time : Z; Stream : bool; Refresh : option bool;
  XXX_unrecognized : option bytes }.
Definition zero : t :=
  mk 0 [] [] [] false [] 0 None 0 false 0 false false false 0 false None None.

Definition Size (m : t) : Z :=
  (1 + sovRaft (ID m)) + stringSize (Method m) + stringSize (Path m) + stringSize (Val m) + 2
  + stringSize (PrevValue m) + (1 + sovRaft (PrevIndex m))
  + sizeWhen (bool_decide (is_Some (PrevExist m))) 2 + (1 + sovRaft (u64 (Expiration m))) + 2
  + (1 + sovRaft (Since m)) + 2 + 2 + 2 + (1 + sovRaft (u64 (Time m))) + 3
  + sizeWhen (bool_decide (is_Some (Refresh m))) 3 + unrecognizedSize (XXX_unrecognized m).

Definition MarshalTo (m : t) (n : Z) : outcome bytes :=
  writeAll [
    putVarintField n 0x8 (ID m);
    putBytesField n 0x12 (Some (Method m));
    putBytesField n 0x1a (Some (Path m));
    putBytesField n 0x22 (Some (Val m));
    putBoolField n 0x28 (Dir m);
    putBytesField n 0x32 (Some (PrevValue m));
    putVarintField n 0x38 (PrevIndex m);
    when (bool_decide (is_Some (PrevExist m))) (putBoolField n 0x40 (default false (PrevExist m)));
    putVarintField n 0x48 (u64 (Expiration m));
    putBoolField n 0x50 (Wait m);
    putVarintField n 0x58 (Since m);
    putBoolField n 0x60 (Recursive m);
    putBoolField n 0x68 (Sorted m);
    putBoolField n 0x70 (Quorum m);
    putVarintField n 0x78 (u64 (Time m));
    putBoolField2 n 0x80 0x1 (Stream m);
    when (bool_decide (is_Some (Refresh m)))
      (putBoolField2 n 0x88 0x1 (default false (Refresh m)));
    putUnrecognized n (XXX_unrecognized m)] [].

Definition Marshal (m : t) : outcome bytes := MarshalTo m (Size m).

Definition field (fieldNum wireType : Z) (d : bytes) (i : Z) (m : t) : outcome (option (t * Z)) :=
  if fieldNum =? 1 then uint64Case (λ v m, m <| ID := v |>) wireType d i m
  else if fieldNum =? 2 then checked.stringCase (λ p m, m <| Method := p |>) wireType d i m
  else if fieldNum =? 3 then checked.stringCase (λ p m, m <| Path := p |>) wireType d i m
  else if fieldNum =? 4 then checked.stringCase (λ p m, m <| Val := p |>) wireType d i m
  else if fieldNum =? 5 then boolCase (λ b m, m <| Dir := b |>) wireType d i m
  else if fieldNum =? 6 then checked.stringCase (λ p m, m <| PrevValue := p |>) wireType d i m
  else if fieldNum =? 7 then uint64Case (λ v m, m <| PrevIndex := v |>) wireType d i m
  else if fieldNum =? 8 then boolCase (λ b m, m <| PrevExist := Some b |>) wireType d i m
  else if fieldNum =? 9 then checked.int64Case (λ v m, m <| Expiration := v |>) wireType d i m
  else if fieldNum =? 10 then boolCase (λ b m, m <| Wait := b |>) wireType d i m
  else if fieldNum =? 11 then uint64Case (λ v m, m <| Since := v |>) wireType d i m
  else if fieldNum =? 12 then boolCase (λ b m, m <| Recursive := b |>) wireType d i m
  else if fieldNum =? 13 then boolCase (λ b m, m <| Sorted := b |>) wireType d i m
  else if fieldNum =? 14 then boolCase (λ b m, m <| Quorum := b |>) wireType d i m
  else if fieldNum =? 15 then checked.int64Case (λ v m, m <| Time := v |>) wireType d i m
  else if fieldNum =? 16 then boolCase (λ b m, m <| Stream := b |>) wireType d i m
  else if fieldNum =? 17 then boolCase (λ b m, m <| Refresh := Some b |>) wireType d i m
  else Ret None.

Definition Unmarshal (m : t) (d : bytes) : outcome t :=
  checked.unmarshal field (λ u m, m <| XXX_unrecognized ::= appendUnrecognized u |>) m d.
End Request.

Module Metadata.
Record t := mk { NodeID : Z; ClusterID : Z; XXX_unrecognized : option bytes }.
Definition zero : t := mk 0 0 None.

Definition Size (m : t) : Z :=
  (1 + sovRaft (NodeID m)) + (1 + sovRaft (ClusterID m)) + unrecognizedSize (XXX_unrecognized m).

Definition MarshalTo (m : t) (n : Z) : outcome bytes :=
  writeAll [
    putVarintField n 0x8 (NodeID m);
    putVarintField n 0x10 (ClusterID m);
    putUnrecognized n (XXX_unrecognized m)] [].

Definition Marshal (m : t) : outcome bytes := MarshalTo m (Size m).

Definition field (fieldNum wireType : Z) (d : bytes) (i : Z) (m : t) : outcome (option (t * Z)) :=
  if fieldNum =? 1 then uint64Case (λ v m, m <| NodeID := v |>) wireType d i m
  else if fieldNum =? 2 then uint64Case (λ v m, m <| ClusterID := v |>) wireType d i m
  else Ret None.

Definition Unmarshal (m : t) (d : bytes) : outcome t :=
  checked.unmarshal field (λ u m, m <| XXX_unrecognized ::= appendUnrecognized u |>) m d.
End Metadata.

(** ** raft_internal.pb.go *)
Module RequestHeader.
Record t := mk {
  ID : Z; Username : bytes; AuthRevision : Z; XXX_unrecognized : option bytes }.
Definition zero : t := mk 0 [] 0 None.

Definition Size (m : t) : Z :=
  sizeWhen (negb (ID m =? 0)) (1 + sovRaft (ID m))
  + sizeWhen (len (Username m) >? 0) (stringSize (Username m))
  + sizeWhen (negb (AuthRevision m =? 0)) (1 + sovRaft (AuthRevision m))
  + unrecognizedSize (XXX_unrecognized m).

Definition MarshalTo (m : t) (n : Z) : outcome bytes :=
  writeAll [
    when (negb (ID m =? 0)) (putVarintField n 0x8 (ID m));
    when (len (Username m) >? 0) (putBytesField n 0x12 (Some (Username m)));
    when (negb (AuthRevision m =? 0)) (putVarintField n 0x18 (AuthRevision m));
    putUnrecognized n (XXX_unrecognized m)] [].

Definition Marshal (m : t) : outcome bytes := MarshalTo m (Size m).

Definition field (fieldNum wireType : Z) (d : bytes) (i : Z) (m : t) : outcome (option (t * Z)) :=
  if fieldNum =? 1 then uint64Case (λ v m, m <| ID := v |>) wireType d i m
  else if fieldNum =? 2 then checked.stringCase (λ p m, m <| Username := p |>) wireType d i m
  else if fieldNum =? 3 then uint64Case (λ v m, m <| AuthRevision := v |>) wireType d i m
  else Ret None.

Definition Unmarshal (m : t) (d : bytes) : outcome t :=
  checked.unmarshal field (λ u m, m <| XXX_unrecognized ::= appendUnrecognized u |>) m d.
End RequestHeader.

Module InternalRaftRequest.
Record t := mk {
  Header : option RequestHeader.t; ID : Z; V2 : option Request.t; Put : option PutRequest.t;
  XXX_unrecognized : option bytes }.
Definition zero : t := mk None 0 None None None.

Definition Size (m : t) : Z :=
  sizeWhen (negb (ID m =? 0)) (1 + sovRaft (ID m))
  + subSize 1 Request.Size (V2 m) + subSize 1 PutRequest.Size (Put m)
  + subSize 2 RequestHeader.Size (Header m) + unrecognizedSize (XXX_unrecognized m).

Definition MarshalTo (m : t) (n : Z) : outcome bytes :=
  writeAll [
    when (negb (ID m =? 0)) (putVarintField n 0x8 (ID m));
    putSub (putMessageField n 0x12) Request.Size Request.MarshalTo (V2 m);
    putSub (putMessageField n 0x22) PutRequest.Size PutRequest.MarshalTo (Put m);
    putSub (putMessageField2 n 0xa2 0x6) RequestHeader.Size RequestHeader.MarshalTo (Header m);
    putUnrecognized n (XXX_unrecognized m)] [].

Definition Marshal (m : t) : outcome bytes := MarshalTo m (Size m).

Definition field (fieldNum wireType : Z) (d : bytes) (i : Z) (m : t) : outcome (option (t * Z)) :=
  if fieldNum =? 1 then uint64Case (λ v m, m <| ID := v |>) wireType d i m
  else if fieldNum =? 2 then checked.pointerCase Request.zero Request.Unmarshal V2 (λ x m, m <| V2 := Some x |>) wireType d i m
  else if fieldNum =? 4 then checked.pointerCase PutRequest.zero PutRequest.Unmarshal Put (λ x m, m <| Put := Some x |>) wireType d i m
  else if fieldNum =? 100 then checked.pointerCase RequestHeader.zero RequestHeader.Unmarshal Header (λ x m, m <| Header := Some x |>) wireType d i m
  else Ret None.

Definition Unmarshal (m : t) (d : bytes) : outcome t :=
  checked.unmarshal field (λ u m, m <| XXX_unrecognized ::= appendUnrecognized u |>) m d.
End InternalRaftRequest.

(** ** Encoding succeeds and fills the buffer exactly *)

(** [op] fills exactly [k] more bytes of a buffer of [n]. *)
Definition Fills (n : Z) (op : writer) (k : Z) : Prop :=
  0 ≤ k ∧ ∀ w, len w + k ≤ n → ∃ w', op w = Ret w' ∧ len w' = len w + k.

Lemma Writes_Fills n op bs k : Writes n op bs → len bs = k → Fills n op k.
Proof.
  intros H <-. split; [apply len_nonneg|]. intros w Hw. exists (w ++ bs).
  split; [by apply H|apply len_app].
Qed.

Lemma Fills_when n b op k : Fills n op k → Fills n (when b op) (sizeWhen b k).
Proof.
  intros H. unfold when, sizeWhen. destruct b; [done|].
  split; [done|]. intros w _. exists w. split; [done|lia].
Qed.

Lemma Fills_nil n : Fills n (writeAll []) 0.
Proof. split; [done|]. intros w _. exists w. split; [done|lia]. Qed.

Lemma Fills_cons n op ops k ks :
  Fills n op k → Fills n (writeAll ops) ks → Fills n (writeAll (op :: ops)) (k + ks).
Proof.
  intros [Hk H1] [Hks H2]. split; [lia|]. intros w Hw. cbn [writeAll].
  destruct (H1 w) as (w1 & -> & Hw1); [lia|]. rewrite bind_Ret.
  destruct (H2 w1) as (w2 & -> & Hw2); [lia|]. exists w2. split; [done|lia].
Qed.

Lemma Fills_varint n tag v : is_u64 v → Fills n (putVarintField n tag v) (1 + sovRaft v).
Proof. intros. eapply Writes_Fills; [by apply putVarintField_ok|by apply len_varintFieldBytes]. Qed.

Lemma Fills_bytes n tag p : is_u64 (len p) → Fills n (putBytesField n tag (Some p)) (stringSize p).
Proof.
  intros. eapply Writes_Fills; [by apply putBytesField_ok|by apply (len_bytesFieldBytes _ (Some p))].
Qed.

Lemma Fills_bool n tag b : Fills n (putBoolField n tag b) 2.
Proof. eapply Writes_Fills; [apply putBoolField_ok|done]. Qed.

Lemma Fills_byte_then n tag op k :
  Fills n op k → Fills n (λ w, w ← putByte n tag w; op w) (1 + k).
Proof.
  intros [Hk H]. split; [lia|]. intros w Hw. rewrite putByte_ok by lia. rewrite bind_Ret.
  destruct (H (w ++ [tag])) as (w' & -> & Hl); rewrite len_app, len_cons, len_nil in *; [lia|].
  exists w'. split; [done|lia].
Qed.

Lemma Fills_unrecognized n p : Fills n (putUnrecognized n p) (unrecognizedSize p).
Proof. eapply Writes_Fills; [apply putUnrecognized_ok|apply len_default]. Qed.

(** A message that fills a buffer of its size, whatever room there is. *)
Definition Encodes {M} (size : M → Z) (marshalTo : M → Z → outcome bytes) (m : M) : Prop :=
  0 ≤ size m ∧ ∀ n, size m ≤ n → ∃ bs, marshalTo m n = Ret bs ∧ len bs = size m.

Lemma Fills_Encodes {M} (size : M → Z) (ops : M → Z → list writer) m :
  (∀ n, Fills n (writeAll (ops m n)) (size m)) → Encodes size (λ m n, writeAll (ops m n) []) m.
Proof.
  intros H. split; [apply (H 0)|]. intros n Hn.
  destruct (H n) as [_ Hf]. destruct (Hf []) as (w' & -> & Hw); rewrite len_nil in *; [lia|].
  exists w'. split; [done|lia].
Qed.

Lemma Fills_message {M} n tag (size : M → Z) marshalTo m :
  Encodes size marshalTo m → is_u64 (size m) →
  Fills n (putMessageField n tag (size m) (marshalTo m)) (1 + size m + sovRaft (size m)).
Proof.
  intros [H0 H] Hu. replace (1 + size m + sovRaft (size m)) with (1 + (sovRaft (size m) + size m)) by lia.
  apply Fills_byte_then. rewrite sovRaft_ok by done.
  pose proof (len_nonneg (varint_bytes (size m))).
  split; [lia|]. intros w Hw. rewrite encodeVarintRaft_ok by (done || lia). rewrite bind_Ret.
  destruct (H (n - len (w ++ varint_bytes (size m)))) as (r & Hr & Hl); [rewrite len_app; lia|].
  rewrite (putMessage_ok _ _ _ r Hr). eexists. split; [done|]. rewrite !len_app. lia.
Qed.

Lemma Fills_sub {M} n (put : Z → (Z → outcome bytes) → writer) k (size : M → Z) marshalTo m :
  (∀ m, Encodes size marshalTo m → is_u64 (size m) →
     Fills n (put (size m) (marshalTo m)) (k + size m + sovRaft (size m))) →
  (∀ x, m = Some x → Encodes size marshalTo x ∧ is_u64 (size x)) →
  Fills n (putSub put size marshalTo m) (subSize k size m).
Proof.
  intros Hp H. destruct m as [x|]; simpl.
  - destruct (H x eq_refl). by apply Hp.
  - split; [done|]. intros w _. exists w. split; [done|lia].
Qed.

Lemma Fills_eq n op k k' : Fills n op k → k = k' → Fills n op k'.
Proof. by intros H <-. Qed.

Lemma is_u64_u64 v : is_u64 (u64 v).
Proof. apply u64_range. Qed.

Create HintDb fills.
#[local] Hint Resolve is_u64_u64 Fills_varint Fills_bytes Fills_bool
  Fills_unrecognized : fills.

(** Prove [Fills] for a list of writers, one goal per field that is left. *)
Ltac fills :=
  intros ?; eapply Fills_eq;
  [repeat (apply Fills_cons; [first
     [ solve [auto with fills] | solve [apply Fills_when; auto with fills] | idtac ]|]);
   try apply Fills_nil|].

(** The messages whose encoding fits in memory. *)
Definition put_ok (m : PutRequest.t) : Prop :=
  is_u64 (len (PutRequest.Key m)) ∧ is_u64 (len (PutRequest.Value m)) ∧ is_u64 (PutRequest.Size m).
Definition request_ok (m : Request.t) : Prop :=
  is_u64 (Request.ID m) ∧ is_u64 (len (Request.Method m)) ∧ is_u64 (len (Request.Path m)) ∧
  is_u64 (len (Request.Val m)) ∧ is_u64 (len (Request.PrevValue m)) ∧
  is_u64 (Request.PrevIndex m) ∧ is_u64 (Request.Since m) ∧ is_u64 (Request.Size m).
Definition header_ok (m : RequestHeader.t) : Prop :=
  is_u64 (RequestHeader.ID m) ∧ is_u64 (len (RequestHeader.Username m)) ∧
  is_u64 (RequestHeader.AuthRevision m) ∧ is_u64 (RequestHeader.Size m).
Definition internal_ok (m : InternalRaftRequest.t) : Prop :=
  is_u64 (InternalRaftRequest.ID m) ∧
  (∀ x, InternalRaftRequest.V2 m = Some x → request_ok x) ∧
  (∀ x, InternalRaftRequest.Put m = Some x → put_ok x) ∧
  (∀ x, InternalRaftRequest.Header m = Some x → header_ok x).

Lemma put_Encodes m : put_ok m → Encodes PutRequest.Size PutRequest.MarshalTo m.
Proof.
  intros (H1 & H2 & H3). apply (Fills_Encodes PutRequest.Size). fills.
  unfold PutRequest.Size. lia.
Qed.

Lemma request_Encodes m : request_ok m → Encodes Request.Size Request.MarshalTo m.
Proof.
  intros (H1 & H2 & H3 & H4 & H5 & H6 & H7 & H8). apply (Fills_Encodes Request.Size). fills.
  - apply Fills_byte_then; auto with fills.
  - apply Fills_when, Fills_byte_then; auto with fills.
  - unfold Request.Size. change (1 + 2) with 3. lia.
Qed.

Lemma header_Encodes m : header_ok m → Encodes RequestHeader.Size RequestHeader.MarshalTo m.
Proof.
  intros (H1 & H2 & H3 & H4). apply (Fills_Encodes RequestHeader.Size). fills.
  unfold RequestHeader.Size. lia.
Qed.

(** The encoding of a request succeeds and has [Size] bytes. *)
Lemma internal_Marshal m :
  internal_ok m → ∃ data, InternalRaftRequest.Marshal m = Ret data ∧
    len data = InternalRaftRequest.Size m.
Proof.
  intros (H1 & H2 & H3 & H4).
  assert (HE : Encodes InternalRaftRequest.Size InternalRaftRequest.MarshalTo m).
  { apply (Fills_Encodes InternalRaftRequest.Size). fills.
    - apply (Fills_sub _ _ 1); [intros; by apply Fills_message|].
      intros x Hx. split; [by apply request_Encodes, H2|by apply H2].
    - apply (Fills_sub _ _ 1); [intros; by apply Fills_message|].
      intros x Hx. split; [by apply put_Encodes, H3|by apply H3].
    - apply (Fills_sub _ _ 2).
      + intros. eapply Fills_eq; [apply Fills_byte_then; by apply Fills_message|lia].
      + intros x Hx. split; [by apply header_Encodes, H4|by apply H4].
    - unfold InternalRaftRequest.Size. lia. }
  destruct HE as [_ HE]. apply (HE (InternalRaftRequest.Size m)). done.
Qed.
