(* ===== verification/EtcdPbCodec.v ===== *)
(** * etcdserverpb and mvccpb: the codec is correct

    The laws of [Codec] for the messages of [EtcdPb]: [Size] is the length of the
    encoding, [Marshal] writes it, [Unmarshal] reads the message back; and
    [Unmarshal] answers every input with a message or an error. *)

From S2P Require Import Prelude Proto RaftPb RaftPbCodec ProtoChecked EtcdPb.

(** ** Fields *)

(** [op] writes the [k] bytes [bs]. *)
Definition Fld (op : Z → writer) (k : Z) (bs : bytes) : Prop :=
  len bs < 2 ^ 63 → k = len bs ∧ ∀ n, Writes n (op n) bs.

Lemma Fld_varint tag v : is_u64 v → Fld (λ n, putVarintField n tag v) (1 + sovRaft v) (varintFieldBytes tag v).
Proof. intros Hv _. split; [by rewrite len_varintFieldBytes|]. intros n. by apply putVarintField_ok. Qed.

Lemma Fld_bytes tag p : Fld (λ n, putBytesField n tag (Some p)) (stringSize p) (delimitedBytes tag p).
Proof.
  intros Hl. assert (is_u64 (len p)) by (apply (is_u64_payload tag (Some p) Hl)).
  split; [by rewrite len_delimitedBytes|]. intros n. by apply (putBytesField_ok n tag (Some p)).
Qed.

Lemma Fld_bool tag b : Fld (λ n, putBoolField n tag b) 2 (boolFieldBytes tag b).
Proof. intros _. split; [done|]. intros n. apply putBoolField_ok. Qed.

Lemma Fld_byte tag op k bs : Fld op k bs → Fld (λ n w, w ← putByte n tag w; op n w) (1 + k) (tag :: bs).
Proof.
  intros H Hl. rewrite len_cons in Hl. destruct H as [-> H]; [lia|]. split; [rewrite len_cons; lia|].
  intros n w Hw. rewrite len_cons in Hw. pose proof (len_nonneg bs). rewrite putByte_ok by lia. rewrite bind_Ret.
  rewrite H by (rewrite len_app, len_cons, len_nil; lia). by rewrite <- app_assoc.
Qed.

Lemma Fld_bool2 tag1 tag2 b : Fld (λ n, putBoolField2 n tag1 tag2 b) 3 (tag1 :: boolFieldBytes tag2 b).
Proof. apply (Fld_byte tag1 (λ n, putBoolField n tag2 b) 2), Fld_bool. Qed.

Lemma Fld_when b op k bs : Fld op k bs → Fld (λ n, when b (op n)) (sizeWhen b k) (opt b bs).
Proof.
  intros H. unfold when, sizeWhen, opt. destruct b; [done|]. intros _. split; [done|].
  intros n w _. by rewrite app_nil_r.
Qed.

Lemma Fld_unrecognized p : Fld (λ n, putUnrecognized n p) (unrecognizedSize p) (default [] p).
Proof. intros _. split; [by rewrite len_default|]. intros n. apply putUnrecognized_ok. Qed.

(** Fields one after the other. *)
Definition Flds (ops : Z → list writer) (k : Z) (bs : bytes) : Prop :=
  len bs < 2 ^ 63 → k = len bs ∧ ∀ n, Writes n (writeAll (ops n)) bs.

Lemma Flds_nil : Flds (λ _, []) 0 [].
Proof. intros _. split; [done|]. intros n. apply writeAll_nil. Qed.
Lemma Flds_cons op ops k ks bs bss :
  Fld op k bs → Flds ops ks bss → Flds (λ n, op n :: ops n) (k + ks) (bs ++ bss).
Proof.
  intros H Hs Hl. rewrite len_app in Hl. pose proof (len_nonneg bs). pose proof (len_nonneg bss).
  destruct H as [-> H]; [lia|]. destruct Hs as [-> Hs]; [lia|]. split; [by rewrite len_app|].
  intros n. by apply writeAll_cons.
Qed.
Lemma Flds_last op k bs : Fld op k bs → Flds (λ n, [op n]) k bs.
Proof.
  intros H Hl. destruct (Flds_cons op (λ _, []) k 0 bs [] H Flds_nil) as [Hk Hw]; rewrite app_nil_r in *; [done|].
  split; [lia|done].
Qed.

(** A message behind a pointer. *)
Section Sub.
Context {X : Type} {zero : X} {Size : X → Z} {MarshalTo : X → Z → outcome bytes}.
Context (Unmarshal : X → bytes → outcome X) `{!Codec zero Size MarshalTo Unmarshal}.

Definition subBytes (tag : Z) (x : option X) : bytes :=
  match x with Some x => messageFieldBytes Unmarshal tag x | None => [] end.
Definition sub2Bytes (tag1 tag2 : Z) (x : option X) : bytes :=
  match x with Some x => tag1 :: messageFieldBytes Unmarshal tag2 x | None => [] end.
Definition sub_wf (x : option X) : Prop := match x with Some x => codec_wf Unmarshal x | None => True end.

Lemma Fld_message tag x :
  codec_wf Unmarshal x →
  Fld (λ n, putMessageField n tag (Size x) (MarshalTo x)) (1 + Size x + sovRaft (Size x)) (messageFieldBytes Unmarshal tag x).
Proof.
  intros Hx Hl. split; [by apply messageFieldSize|]. intros n. by apply putMessageField_codec.
Qed.
Lemma Fld_sub tag x :
  sub_wf x →
  Fld (λ n, putSub (putMessageField n tag) Size MarshalTo x) (subSize 1 Size x) (subBytes tag x).
Proof.
  intros Hx. destruct x as [x|]; [by apply Fld_message|]. intros _. split; [done|].
  intros n w _. by rewrite app_nil_r.
Qed.
Lemma Fld_sub2 tag1 tag2 x :
  sub_wf x →
  Fld (λ n, putSub (putMessageField2 n tag1 tag2) Size MarshalTo x) (subSize 2 Size x)
    (sub2Bytes tag1 tag2 x).
Proof.
  intros Hx. destruct x as [x|].
  - simpl. replace (2 + Size x + sovRaft (Size x)) with (1 + (1 + Size x + sovRaft (Size x))) by lia.
    by apply (Fld_byte tag1 (λ n, putMessageField n tag2 (Size x) (MarshalTo x))), Fld_message.
  - intros _. split; [done|]. intros n w _. by rewrite app_nil_r.
Qed.

(** Decoding it: the pointer was nil. *)
Lemma Consumes_sub {M} field fn (m : M) get x upd :
  (∀ d i, field fn 2 d i m = checked.pointerCase zero Unmarshal get upd 2 d i m) →
  get m = None → codec_wf Unmarshal x →
  Consumes field fn 2 m (varint_bytes (len (encode Unmarshal x)) ++ encode Unmarshal x) (upd x m).
Proof. intros Hf Hg Hx. eapply Consumes_pointer; [done..|]. intros. by apply codec_Unmarshal. Qed.
Lemma Reads_sub {M} field unrecognized tag fn (m : M) get x upd :
  tag_ok tag fn 2 → (∀ d i, field fn 2 d i m = checked.pointerCase zero Unmarshal get upd 2 d i m) →
  get m = None → sub_wf x →
  Reads field unrecognized m (subBytes tag x) (from_option (λ x, upd x m) m x).
Proof.
  intros Ht Hf Hg Hx. destruct x as [x|]; [|apply Reads_nil]. eapply Reads_tag; [done|].
  by apply (Consumes_sub field fn m get x upd).
Qed.
Lemma Reads_sub2 {M} field unrecognized tag1 tag2 fn (m : M) get x upd :
  tag2_ok tag1 tag2 fn 2 → (∀ d i, field fn 2 d i m = checked.pointerCase zero Unmarshal get upd 2 d i m) →
  get m = None → sub_wf x →
  Reads field unrecognized m (sub2Bytes tag1 tag2 x) (from_option (λ x, upd x m) m x).
Proof.
  intros Ht Hf Hg Hx. destruct x as [x|]; [|apply Reads_nil]. eapply Reads_tag2; [done|].
  by apply (Consumes_sub field fn m get x upd).
Qed.
End Sub.

(** What a message needs for the laws of its encoding. *)
Definition Marshals (marshalTo : Z → outcome bytes) (k : Z) (bs : bytes) : Prop :=
  len bs < 2 ^ 63 → k = len bs ∧ ∀ n, len bs ≤ n → marshalTo n = Ret bs.
Lemma Flds_Marshals ops k k' bs : Flds ops k bs → k = k' → Marshals (λ n, writeAll (ops n) []) k' bs.
Proof.
  intros H <- Hl. destruct (H Hl) as [Hk Hw]. split; [done|]. intros n Hn.
  rewrite (Hw n []); [done|]. rewrite len_nil. lia.
Qed.

(** A pointer to a bool that is written when it is not nil. *)
Lemma Reads_optional {M} field unrecognized (m : M) (x : option bool) (bs : bool → bytes) upd :
  (∀ b, Reads field unrecognized m (bs b) (upd b)) →
  Reads field unrecognized m (opt (bool_decide (is_Some x)) (bs (default false x))) (from_option upd m x).
Proof.
  intros H. destruct x as [b|]; [rewrite bool_decide_eq_true_2 by done; apply H|].
  rewrite bool_decide_eq_false_2 by (by intros []). apply Reads_nil.
Qed.

Lemma Reads_boolPtr {M} field unrecognized tag fn (m : M) x upd :
  tag_ok tag fn 0 → (∀ d i, field fn 0 d i m = boolCase upd 0 d i m) →
  Reads field unrecognized m (opt (bool_decide (is_Some x)) (boolFieldBytes tag (default false x)))
    (from_option (λ b, upd b m) m x).
Proof. intros Ht Hf. apply Reads_optional. intros b. eapply Reads_tag; [done|]. by apply Consumes_bool. Qed.
Lemma Reads_boolPtr2 {M} field unrecognized tag1 tag2 fn (m : M) x upd :
  tag2_ok tag1 tag2 fn 0 → (∀ d i, field fn 0 d i m = boolCase upd 0 d i m) →
  Reads field unrecognized m (opt (bool_decide (is_Some x)) (tag1 :: boolFieldBytes tag2 (default false x)))
    (from_option (λ b, upd b m) m x).
Proof.
  intros Ht Hf. apply (Reads_optional field unrecognized m x (λ b, tag1 :: boolFieldBytes tag2 b)).
  intros b. eapply Reads_tag2; [done|]. by apply Consumes_bool.
Qed.

(** [Unmarshal] answers every input: a message or an error. *)
Class Answers {M} (unmarshal : M → bytes → outcome M) : Prop :=
  answers m d : len d < 2 ^ 62 → total (λ _, True) (unmarshal m d).

Section CodecOf.
Context {M : Type} {zero : M} {Size : M → Z} {MarshalTo : M → Z → outcome bytes} (enc : M → bytes) (wf : M → Prop).
Context {field : Z → Z → bytes → Z → M → outcome (option (M * Z))} {unrecognized : bytes → M → M}.
Context (Hm : ∀ m, wf m → Marshals (MarshalTo m) (Size m) (enc m)).
Context (Hr : ∀ m, wf m → Reads field unrecognized zero (enc m) m).
Context (Ha : Answers (checked.unmarshal field unrecognized)).

Definition codec_of : Codec zero Size MarshalTo (checked.unmarshal field unrecognized).
Proof using Hm Hr Ha.
  refine {| encode := enc; codec_wf := wf |}.
  - intros m Hwf Hl. by apply (Hm m Hwf).
  - intros m n Hwf Hl Hn. by apply (Hm m Hwf).
  - intros m Hwf Hl. apply Reads_checked; [|done]. by apply Hr.
  - intros m d Hd. pose proof (Ha m d Hd). by destruct (checked.unmarshal _ _ _ _).
Defined.
End CodecOf.

(** ** Automation *)
Create HintDb fld.
#[local] Hint Resolve Fld_varint Fld_bytes Fld_bool Fld_bool2 Fld_unrecognized Fld_sub Fld_sub2 is_u64_u64 : fld.
(** The fields of a message, and the sum of their sizes. *)
Ltac flds :=
  eapply Flds_Marshals;
  [repeat (apply Flds_cons; [first [solve [auto with fld] | apply Fld_when; solve [auto with fld]]|]);
   apply Flds_last; solve [auto with fld]|].

(** A field that was not written is zero already. *)
Ltac unwritten :=
  let H := fresh in intros H; zify_bool;
  repeat match goal with
  | H : len ?l <= 0 |- _ => destruct l; [|rewrite len_cons in H; pose proof (len_nonneg l); lia]
  end; by subst.

Ltac open_enc enc :=
  unfold enc; cbn -[varintFieldBytes delimitedBytes boolFieldBytes subBytes sub2Bytes sub_wf opt app] in *; subst.
Ltac tag2_ok v := exists v; vm_compute; done.

(** One field of the message read back: always written ([rd]), written when it is
    not zero ([rd_opt]), or behind a pointer ([rd_ptr], [rd_sub]). *)
Ltac rd_state :=
  lazymatch goal with |- Reads _ _ ?st _ _ => let st' := eval cbv in st in change st with st' end.
Ltac rd lem := eapply Reads_app; [eapply Reads_tag; [tag_ok|eapply lem; done]|]; rd_state.
Ltac rd_opt lem :=
  eapply Reads_app; [eapply Reads_opt; [eapply Reads_tag; [tag_ok|eapply lem; done]|unwritten]|]; rd_state.
Ltac rd_split := match goal with |- Reads _ _ (from_option _ _ ?x) _ _ => destruct x end; rd_state.
Ltac rd_sub := eapply Reads_app; [eapply Reads_sub; [tag_ok|done..]|]; rd_split.
Ltac rd_ptr := eapply Reads_app; [eapply Reads_boolPtr; [tag_ok|done]|]; rd_split.

(** The [switch] answers. *)
Ltac switch_total :=
  intros m d Hd; apply total_unmarshal; [|done]; intros fn wt d' i m' Hi Hd';
  lazymatch goal with |- total _ (?f fn wt d' i m') => unfold f end;
  repeat match goal with |- total _ (if ?b then _ else _) => apply total_if; intros _ end;
  lazymatch goal with
  | |- total _ (uint64Case _ _ _ _ _) => by apply total_uint64Case
  | |- total _ (enumCase _ _ _ _ _) => by apply total_enumCase
  | |- total _ (boolCase _ _ _ _ _) => by apply total_boolCase
  | |- total _ (checked.int64Case _ _ _ _ _) => by apply total_int64Case
  | |- total _ (checked.bytesCase _ _ _ _ _) => by apply total_bytesCase
  | |- total _ (checked.stringCase _ _ _ _ _) => by apply total_stringCase
  | |- total _ (checked.pointerCase _ _ _ _ _ _ _ _) =>
      apply total_pointerCase; [done..|]; intros ? ? ?; by apply answers
  | |- total _ (Ret None) => done
  end.

(** ** KeyValue *)
Module KeyValueCodec.
Import KeyValue.

Definition wf (m : t) : Prop :=
  is_i64 (CreateRevision m) ∧ is_i64 (ModRevision m) ∧ is_i64 (Version m) ∧ is_i64 (Lease m) ∧
  XXX_unrecognized m = None.

Definition enc (m : t) : bytes :=
  opt (len (Key m) >? 0) (delimitedBytes 0xa (Key m)) ++
  opt (negb (CreateRevision m =? 0)) (varintFieldBytes 0x10 (u64 (CreateRevision m))) ++
  opt (negb (ModRevision m =? 0)) (varintFieldBytes 0x18 (u64 (ModRevision m))) ++
  opt (negb (Version m =? 0)) (varintFieldBytes 0x20 (u64 (Version m))) ++
  opt (len (Value m) >? 0) (delimitedBytes 0x2a (Value m)) ++
  opt (negb (Lease m =? 0)) (varintFieldBytes 0x30 (u64 (Lease m))) ++
  default [] (XXX_unrecognized m).

Lemma KeyValue_marshals m : wf m → Marshals (MarshalTo m) (Size m) (enc m).
Proof. unfold wf. intros Hwf. destruct_and?. unfold MarshalTo, enc. flds. unfold Size. lia. Qed.
Lemma KeyValue_reads m : wf m → Reads field (λ u m, m <| XXX_unrecognized ::= appendUnrecognized u |>) zero (enc m) m.
Proof.
  unfold wf. destruct m. intros Hwf. destruct_and?. open_enc enc.
  rd_opt @Consumes_bytes; do 3 rd_opt @Consumes_int64; rd_opt @Consumes_bytes;
  rd_opt @Consumes_int64;
  apply Reads_nil.
Qed.
#[global] Instance safe : Answers Unmarshal.
Proof. switch_total. Qed.
#[global] Instance codec : Codec zero Size MarshalTo Unmarshal := codec_of enc wf KeyValue_marshals KeyValue_reads safe.
End KeyValueCodec.

(** ** Event *)
Module EventCodec.
Import Event.

Definition wf (m : t) : Prop :=
  is_i32 (Type_ m) ∧ sub_wf KeyValue.Unmarshal (Kv m) ∧ sub_wf KeyValue.Unmarshal (PrevKv m) ∧
  XXX_unrecognized m = None.

Definition enc (m : t) : bytes :=
  opt (negb (Type_ m =? 0)) (varintFieldBytes 0x8 (u64 (Type_ m))) ++
  subBytes KeyValue.Unmarshal 0x12 (Kv m) ++ subBytes KeyValue.Unmarshal 0x1a (PrevKv m) ++
  default [] (XXX_unrecognized m).

Lemma Event_marshals m : wf m → Marshals (MarshalTo m) (Size m) (enc m).
Proof. unfold wf. intros Hwf. destruct_and?. unfold MarshalTo, enc. flds. unfold Size. lia. Qed.
Lemma Event_reads m : wf m → Reads field (λ u m, m <| XXX_unrecognized ::= appendUnrecognized u |>) zero (enc m) m.
Proof.
  unfold wf. destruct m. intros Hwf. destruct_and?. open_enc enc.
  rd_opt @Consumes_enum; do 2 rd_sub;
  apply Reads_nil.
Qed.
#[global] Instance safe : Answers Unmarshal.
Proof. switch_total. Qed.
#[global] Instance codec : Codec zero Size MarshalTo Unmarshal := codec_of enc wf Event_marshals Event_reads safe.
End EventCodec.

(** ** ResponseHeader *)
Module ResponseHeaderCodec.
Import ResponseHeader.

Definition wf (m : t) : Prop :=
  is_u64 (ClusterId m) ∧ is_u64 (MemberId m) ∧ is_i64 (Revision m) ∧ is_u64 (RaftTerm m) ∧
  XXX_unrecognized m = None.

Definition enc (m : t) : bytes :=
  opt (negb (ClusterId m =? 0)) (varintFieldBytes 0x8 (ClusterId m)) ++
  opt (negb (MemberId m =? 0)) (varintFieldBytes 0x10 (MemberId m)) ++
  opt (negb (Revision m =? 0)) (varintFieldBytes 0x18 (u64 (Revision m))) ++
  opt (negb (RaftTerm m =? 0)) (varintFieldBytes 0x20 (RaftTerm m)) ++
  default [] (XXX_unrecognized m).

Lemma ResponseHeader_marshals m : wf m → Marshals (MarshalTo m) (Size m) (enc m).
Proof. unfold wf. intros Hwf. destruct_and?. unfold MarshalTo, enc. flds. unfold Size. lia. Qed.
Lemma ResponseHeader_reads m : wf m → Reads field (λ u m, m <| XXX_unrecognized ::= appendUnrecognized u |>) zero (enc m) m.
Proof.
  unfold wf. destruct m. intros Hwf. destruct_and?. open_enc enc.
  do 2 rd_opt @Consumes_uint64; rd_opt @Consumes_int64; rd_opt @Consumes_uint64;
  apply Reads_nil.
Qed.
#[global] Instance safe : Answers Unmarshal.
Proof. switch_total. Qed.
#[global] Instance codec : Codec zero Size MarshalTo Unmarshal := codec_of enc wf ResponseHeader_marshals ResponseHeader_reads safe.
End ResponseHeaderCodec.

(** ** RangeRequest *)
Module RangeRequestCodec.
Import RangeRequest.

Definition wf (m : t) : Prop :=
  is_i64 (Limit m) ∧ is_i64 (Revision m) ∧ is_i32 (SortOrder m) ∧ is_i32 (SortTarget m) ∧
  is_i64 (MinModRevision m) ∧ is_i64 (MaxModRevision m) ∧ is_i64 (MinCreateRevision m) ∧
  is_i64 (MaxCreateRevision m) ∧ XXX_unrecognized m = None.

Definition enc (m : t) : bytes :=
  opt (len (Key m) >? 0) (delimitedBytes 0xa (Key m)) ++
  opt (len (RangeEnd m) >? 0) (delimitedBytes 0x12 (RangeEnd m)) ++
  opt (negb (Limit m =? 0)) (varintFieldBytes 0x18 (u64 (Limit m))) ++
  opt (negb (Revision m =? 0)) (varintFieldBytes 0x20 (u64 (Revision m))) ++
  opt (negb (SortOrder m =? 0)) (varintFieldBytes 0x28 (u64 (SortOrder m))) ++
  opt (negb (SortTarget m =? 0)) (varintFieldBytes 0x30 (u64 (SortTarget m))) ++
  opt (Serializable m) (boolFieldBytes 0x38 (Serializable m)) ++
  opt (KeysOnly m) (boolFieldBytes 0x40 (KeysOnly m)) ++
  opt (CountOnly m) (boolFieldBytes 0x48 (CountOnly m)) ++
  opt (negb (MinModRevision m =? 0)) (varintFieldBytes 0x50 (u64 (MinModRevision m))) ++
  opt (negb (MaxModRevision m =? 0)) (varintFieldBytes 0x58 (u64 (MaxModRevision m))) ++
  opt (negb (MinCreateRevision m =? 0)) (varintFieldBytes 0x60 (u64 (MinCreateRevision m))) ++
  opt (negb (MaxCreateRevision m =? 0)) (varintFieldBytes 0x68 (u64 (MaxCreateRevision m))) ++
  default [] (XXX_unrecognized m).

Lemma RangeRequest_marshals m : wf m → Marshals (MarshalTo m) (Size m) (enc m).
Proof. unfold wf. intros Hwf. destruct_and?. unfold MarshalTo, enc. flds. unfold Size. lia. Qed.
Lemma RangeRequest_reads m : wf m → Reads field (λ u m, m <| XXX_unrecognized ::= appendUnrecognized u |>) zero (enc m) m.
Proof.
  unfold wf. destruct m. intros Hwf. destruct_and?. open_enc enc.
  do 2 rd_opt @Consumes_bytes; do 2 rd_opt @Consumes_int64; do 2 rd_opt @Consumes_enum;
  do 3 rd_opt @Consumes_bool; do 4 rd_opt @Consumes_int64;
  apply Reads_nil.
Qed.
#[global] Instance safe : Answers Unmarshal.
Proof. switch_total. Qed.
#[global] Instance codec : Codec zero Size MarshalTo Unmarshal := codec_of enc wf RangeRequest_marshals RangeRequest_reads safe.
End RangeRequestCodec.

(** ** RangeResponse *)
Module RangeResponseCodec.
Import RangeResponse.

Definition wf (m : t) : Prop :=
  sub_wf ResponseHeader.Unmarshal (Header m) ∧ is_i64 (Count m) ∧ XXX_unrecognized m = None.

Definition enc (m : t) : bytes :=
  subBytes ResponseHeader.Unmarshal 0xa (Header m) ++
  opt (More m) (boolFieldBytes 0x18 (More m)) ++
  opt (negb (Count m =? 0)) (varintFieldBytes 0x20 (u64 (Count m))) ++
  default [] (XXX_unrecognized m).

Lemma RangeResponse_marshals m : wf m → Marshals (MarshalTo m) (Size m) (enc m).
Proof. unfold wf. intros Hwf. destruct_and?. unfold MarshalTo, enc. flds. unfold Size. lia. Qed.
Lemma RangeResponse_reads m : wf m → Reads field (λ u m, m <| XXX_unrecognized ::= appendUnrecognized u |>) zero (enc m) m.
Proof.
  unfold wf. destruct m. intros Hwf. destruct_and?. open_enc enc.
  rd_sub; rd_opt @Consumes_bool; rd_opt @Consumes_int64;
  apply Reads_nil.
Qed.
#[global] Instance safe : Answers Unmarshal.
Proof. switch_total. Qed.
#[global] Instance codec : Codec zero Size MarshalTo Unmarshal := codec_of enc wf RangeResponse_marshals RangeResponse_reads safe.
End RangeResponseCodec.

(** ** PutRequest *)
Module PutRequestCodec.
Import PutRequest.

Definition wf (m : t) : Prop :=
  is_i64 (Lease m) ∧ XXX_unrecognized m = None.

Definition enc (m : t) : bytes :=
  opt (len (Key m) >? 0) (delimitedBytes 0xa (Key m)) ++
  opt (len (Value m) >? 0) (delimitedBytes 0x12 (Value m)) ++
  opt (negb (Lease m =? 0)) (varintFieldBytes 0x18 (u64 (Lease m))) ++
  opt (PrevKv m) (boolFieldBytes 0x20 (PrevKv m)) ++
  opt (IgnoreValue m) (boolFieldBytes 0x28 (IgnoreValue m)) ++
  opt (IgnoreLease m) (boolFieldBytes 0x30 (IgnoreLease m)) ++ default [] (XXX_unrecognized m).

Lemma PutRequest_marshals m : wf m → Marshals (MarshalTo m) (Size m) (enc m).
Proof. unfold wf. intros Hwf. destruct_and?. unfold MarshalTo, enc. flds. unfold Size. lia. Qed.
Lemma PutRequest_reads m : wf m → Reads field (λ u m, m <| XXX_unrecognized ::= appendUnrecognized u |>) zero (enc m) m.
Proof.
  unfold wf. destruct m. intros Hwf. destruct_and?. open_enc enc.
  do 2 rd_opt @Consumes_bytes; rd_opt @Consumes_int64; do 3 rd_opt @Consumes_bool;
  apply Reads_nil.
Qed.
#[global] Instance safe : Answers Unmarshal.
Proof. switch_total. Qed.
#[global] Instance codec : Codec zero Size MarshalTo Unmarshal := codec_of enc wf PutRequest_marshals PutRequest_reads safe.
End PutRequestCodec.

(** ** PutResponse *)
Module PutResponseCodec.
Import PutResponse.

Definition wf (m : t) : Prop :=
  sub_wf ResponseHeader.Unmarshal (Header m) ∧ sub_wf KeyValue.Unmarshal (PrevKv m) ∧
  XXX_unrecognized m = None.

Definition enc (m : t) : bytes :=
  subBytes ResponseHeader.Unmarshal 0xa (Header m) ++
  subBytes KeyValue.Unmarshal 0x12 (PrevKv m) ++ default [] (XXX_unrecognized m).

Lemma PutResponse_marshals m : wf m → Marshals (MarshalTo m) (Size m) (enc m).
Proof. unfold wf. intros Hwf. destruct_and?. unfold MarshalTo, enc. flds. unfold Size. lia. Qed.
Lemma PutResponse_reads m : wf m → Reads field (λ u m, m <| XXX_unrecognized ::= appendUnrecognized u |>) zero (enc m) m.
Proof.
  unfold wf. destruct m. intros Hwf. destruct_and?. open_enc enc.
  do 2 rd_sub;
  apply Reads_nil.
Qed.
#[global] Instance safe : Answers Unmarshal.
Proof. switch_total. Qed.
#[global] Instance codec : Codec zero Size MarshalTo Unmarshal := codec_of enc wf PutResponse_marshals PutResponse_reads safe.
End PutResponseCodec.

(** ** Metadata *)
Module MetadataCodec.
Import Metadata.

Definition wf (m : t) : Prop :=
  is_u64 (NodeID m) ∧ is_u64 (ClusterID m) ∧ XXX_unrecognized m = None.

Definition enc (m : t) : bytes :=
  varintFieldBytes 0x8 (NodeID m) ++ varintFieldBytes 0x10 (ClusterID m) ++
  default [] (XXX_unrecognized m).

Lemma Metadata_marshals m : wf m → Marshals (MarshalTo m) (Size m) (enc m).
Proof. unfold wf. intros Hwf. destruct_and?. unfold MarshalTo, enc. flds. unfold Size. lia. Qed.
Lemma Metadata_reads m : wf m → Reads field (λ u m, m <| XXX_unrecognized ::= appendUnrecognized u |>) zero (enc m) m.
Proof.
  unfold wf. destruct m. intros Hwf. destruct_and?. open_enc enc.
  do 2 rd @Consumes_uint64;
  apply Reads_nil.
Qed.
#[global] Instance safe : Answers Unmarshal.
Proof. switch_total. Qed.
#[global] Instance codec : Codec zero Size MarshalTo Unmarshal := codec_of enc wf Metadata_marshals Metadata_reads safe.
End MetadataCodec.

(** ** Request *)
Module RequestCodec.
Import Request.

Definition wf (m : t) : Prop :=
  is_u64 (ID m) ∧ is_u64 (PrevIndex m) ∧ is_i64 (Expiration m) ∧ is_u64 (Since m) ∧ is_i64 (Time m) ∧
  XXX_unrecognized m = None.

Definition enc (m : t) : bytes :=
  varintFieldBytes 0x8 (ID m) ++ delimitedBytes 0x12 (Method m) ++ delimitedBytes 0x1a (Path m) ++
  delimitedBytes 0x22 (Val m) ++ boolFieldBytes 0x28 (Dir m) ++ delimitedBytes 0x32 (PrevValue m) ++
  varintFieldBytes 0x38 (PrevIndex m) ++
  opt (bool_decide (is_Some (PrevExist m))) (boolFieldBytes 0x40 (default false (PrevExist m))) ++
  varintFieldBytes 0x48 (u64 (Expiration m)) ++ boolFieldBytes 0x50 (Wait m) ++
  varintFieldBytes 0x58 (Since m) ++ boolFieldBytes 0x60 (Recursive m) ++ boolFieldBytes 0x68 (Sorted m) ++
  boolFieldBytes 0x70 (Quorum m) ++ varintFieldBytes 0x78 (u64 (Time m)) ++
  (0x80 :: boolFieldBytes 0x1 (Stream m)) ++
  opt (bool_decide (is_Some (Refresh m))) (0x88 :: boolFieldBytes 0x1 (default false (Refresh m))) ++
  default [] (XXX_unrecognized m).

Lemma Request_marshals m : wf m → Marshals (MarshalTo m) (Size m) (enc m).
Proof. unfold wf. intros Hwf. destruct_and?. unfold MarshalTo, enc. flds. unfold Size. lia. Qed.
Lemma Request_reads m : wf m → Reads field (λ u m, m <| XXX_unrecognized ::= appendUnrecognized u |>) zero (enc m) m.
Proof.
  unfold wf. destruct m. intros Hwf. destruct_and?. open_enc enc.
  rd @Consumes_uint64. do 3 rd @Consumes_string. rd @Consumes_bool. rd @Consumes_string. rd @Consumes_uint64.
  rd_ptr;
    (rd @Consumes_int64; rd @Consumes_bool; rd @Consumes_uint64; do 3 rd @Consumes_bool; rd @Consumes_int64;
     eapply Reads_app; [eapply Reads_tag2; [tag2_ok 128|eapply Consumes_bool; done]|]; rd_state;
     eapply Reads_app; [eapply Reads_boolPtr2; [tag2_ok 136|done]|]; rd_split; apply Reads_nil).
Qed.
#[global] Instance safe : Answers Unmarshal.
Proof. switch_total. Qed.
#[global] Instance codec : Codec zero Size MarshalTo Unmarshal := codec_of enc wf Request_marshals Request_reads safe.
End RequestCodec.

(** ** RequestHeader *)
Module RequestHeaderCodec.
Import RequestHeader.

Definition wf (m : t) : Prop :=
  is_u64 (ID m) ∧ is_u64 (AuthRevision m) ∧ XXX_unrecognized m = None.

Definition enc (m : t) : bytes :=
  opt (negb (ID m =? 0)) (varintFieldBytes 0x8 (ID m)) ++
  opt (len (Username m) >? 0) (delimitedBytes 0x12 (Username m)) ++
  opt (negb (AuthRevision m =? 0)) (varintFieldBytes 0x18 (AuthRevision m)) ++
  default [] (XXX_unrecognized m).

Lemma RequestHeader_marshals m : wf m → Marshals (MarshalTo m) (Size m) (enc m).
Proof. unfold wf. intros Hwf. destruct_and?. unfold MarshalTo, enc. flds. unfold Size. lia. Qed.
Lemma RequestHeader_reads m : wf m → Reads field (λ u m, m <| XXX_unrecognized ::= appendUnrecognized u |>) zero (enc m) m.
Proof.
  unfold wf. destruct m. intros Hwf. destruct_and?. open_enc enc.
  rd_opt @Consumes_uint64; rd_opt @Consumes_string; rd_opt @Consumes_uint64;
  apply Reads_nil.
Qed.
#[global] Instance safe : Answers Unmarshal.
Proof. switch_total. Qed.
#[global] Instance codec : Codec zero Size MarshalTo Unmarshal := codec_of enc wf RequestHeader_marshals RequestHeader_reads safe.
End RequestHeaderCodec.

(** ** InternalRaftRequest *)
Module InternalRaftRequestCodec.
Import InternalRaftRequest.

Definition wf (m : t) : Prop :=
  is_u64 (ID m) ∧ sub_wf Request.Unmarshal (V2 m) ∧ sub_wf PutRequest.Unmarshal (Put m) ∧
  sub_wf RequestHeader.Unmarshal (Header m) ∧ XXX_unrecognized m = None.

Definition enc (m : t) : bytes :=
  opt (negb (ID m =? 0)) (varintFieldBytes 0x8 (ID m)) ++ subBytes Request.Unmarshal 0x12 (V2 m) ++
  subBytes PutRequest.Unmarshal 0x22 (Put m) ++
  sub2Bytes RequestHeader.Unmarshal 0xa2 0x6 (Header m) ++ default [] (XXX_unrecognized m).

Lemma InternalRaftRequest_marshals m : wf m → Marshals (MarshalTo m) (Size m) (enc m).
Proof. unfold wf. intros Hwf. destruct_and?. unfold MarshalTo, enc. flds. unfold Size. lia. Qed.
Lemma InternalRaftRequest_reads m : wf m → Reads field (λ u m, m <| XXX_unrecognized ::= appendUnrecognized u |>) zero (enc m) m.
Proof.
  unfold wf. destruct m. intros Hwf. destruct_and?. open_enc enc.
  rd_opt @Consumes_uint64; do 2 rd_sub;
    (eapply Reads_app; [eapply Reads_sub2; [tag2_ok 802|done..]|]; rd_split; apply Reads_nil).
Qed.
#[global] Instance safe : Answers Unmarshal.
Proof. switch_total. Qed.
#[global] Instance codec : Codec zero Size MarshalTo Unmarshal := codec_of enc wf InternalRaftRequest_marshals InternalRaftRequest_reads safe.
End InternalRaftRequestCodec.

(** ** The laws *)

(** Encoded and decoded, a message is what it was. *)
Definition roundtrips {M} (zero : M) (Size : M → Z) (MarshalTo : M → Z → outcome bytes)
    (Unmarshal : M → bytes → outcome M) `{!Codec zero Size MarshalTo Unmarshal} : Prop :=
  ∀ m, codec_wf Unmarshal m → len (encode Unmarshal m) < 2 ^ 63 →
    ∃ d, MarshalTo m (Size m) = Ret d ∧ len d = Size m ∧ Unmarshal zero d = Ret m.

(** The messages of the key-value service, the requests in the log, the metadata
    and the events all survive their encoding. *)
Theorem rpc_roundtrip :
  roundtrips _ _ _ RangeRequest.Unmarshal ∧ roundtrips _ _ _ RangeResponse.Unmarshal ∧
  roundtrips _ _ _ PutRequest.Unmarshal ∧ roundtrips _ _ _ PutResponse.Unmarshal ∧
  roundtrips _ _ _ InternalRaftRequest.Unmarshal ∧ roundtrips _ _ _ Request.Unmarshal ∧
  roundtrips _ _ _ Metadata.Unmarshal ∧ roundtrips _ _ _ Event.Unmarshal.
Proof. split_and!; intros m Hwf Hl; by apply codec_roundtrip. Qed.

(** The result is a message or an error. *)
Definition answered {A} (o : outcome A) : Prop := (∃ a, o = Ret a) ∨ ∃ e, o = Err e.
Lemma answers_answered {M} (unmarshal : M → bytes → outcome M) `{!Answers unmarshal} m d :
  len d < 2 ^ 62 → answered (unmarshal m d).
Proof. intros Hd. pose proof (answers m d Hd). destruct (unmarshal m d); [left|right|..]; by eauto. Qed.

(** C33 (termination): decoding a request, a response, an event or an entry's
    payload always ends, and ends well.  For every buffer shorter than 2^62 bytes,
    whatever its bytes, and every starting value, each [Unmarshal] of etcdserverpb
    and mvccpb returns a message or an error: it does not loop, and a hostile
    length, tag or nested group does not make it panic.  (The decoders of raftpb,
    from an older generator, return too, but can panic.)  Where the older field
    loop returns a message, the newer one returns the same. *)
Theorem unmarshal_answers d :
  len d < 2 ^ 62 →
  (∀ m, answered (InternalRaftRequest.Unmarshal m d)) ∧ (∀ m, answered (Request.Unmarshal m d)) ∧
  (∀ m, answered (RequestHeader.Unmarshal m d)) ∧ (∀ m, answered (Metadata.Unmarshal m d)) ∧
  (∀ m, answered (RangeRequest.Unmarshal m d)) ∧ (∀ m, answered (RangeResponse.Unmarshal m d)) ∧
  (∀ m, answered (PutRequest.Unmarshal m d)) ∧ (∀ m, answered (PutResponse.Unmarshal m d)) ∧
  (∀ m, answered (ResponseHeader.Unmarshal m d)) ∧
  (∀ m, answered (KeyValue.Unmarshal m d)) ∧ (∀ m, answered (Event.Unmarshal m d)) ∧
  (∀ m, Message.Unmarshal m d ≠ OutOfFuel) ∧
  ∀ M field unrecognized (m m' : M), unmarshal field unrecognized m d = Ret m' →
    checked.unmarshal field unrecognized m d = Ret m'.
Proof.
  intros Hd. split_and!; try (intros m; by apply (answers_answered _)).
  - intros m. by apply (codec_terminates (Codec := MessageCodec.codec)).
  - intros M field unrecognized m m'. apply unmarshal_agrees. lia.
Qed.

(** The bytes that make the decoder of an entry panic ([unmarshal_length_overflow_panics]). *)
Lemma unmarshal_answers_witness :
  answered (KeyValue.Unmarshal KeyValue.zero [0x2a; 0xff; 0xff; 0xff; 0xff; 0xff; 0xff; 0xff; 0xff; 0x7f]) ∧
  KeyValue.Unmarshal KeyValue.zero [0x2a; 0xff; 0xff; 0xff; 0xff; 0xff; 0xff; 0xff; 0xff; 0x7f]
    = Err (Errorf "proto: negative length found during unmarshaling").
Proof.
  split; [|by vm_compute].
  apply (unmarshal_answers [0x2a; 0xff; 0xff; 0xff; 0xff; 0xff; 0xff; 0xff; 0xff; 0x7f]). by vm_compute.
Defined.
