(* ===== verification/Requests.v ===== *)
(** * pkg/idutil, pkg/wait, etcdserver/v3_server.go: client requests

    A request gets an id from the generator, registers a channel under it,
    proposes its encoding and waits on the channel.  The generator and the
    channels are shared by all requests, which run concurrently: the requests
    are a transition system whose steps are the atomic parts of
    [processInternalRaftRequestOnce]. *)

From S2P Require Import Prelude Proto RaftPb RaftPbCodec ProtoChecked EtcdPb EtcdPbCodec.

(** ** pkg/idutil/id.go *)
Module Generator.
Definition tsLen : Z := 5 * 8.
Definition cntLen : Z := 8.
Definition suffixLen : Z := tsLen + cntLen.
Record t := mk { prefix : Z; suffix : Z }.

Definition lowbit (x n : Z) : Z := Z.land x (Z.shiftr (2 ^ 64 - 1) (64 - n)).

(** [nowNano] is [now.UnixNano()]. *)
Definition NewGenerator (memberID nowNano : Z) : t :=
  let prefix := u64 (Z.shiftl memberID suffixLen) in
  let unixMilli := u64 nowNano / 1000000 in
  let suffix := u64 (Z.shiftl (lowbit unixMilli tsLen) cntLen) in
  mk prefix suffix.

Definition Next (g : t) : t * Z :=
  let suffix := suffix g ⊕ 1 in
  (g <| Generator.suffix := suffix |>, Z.lor (prefix g) (lowbit suffix suffixLen)).
End Generator.

(** The id of the [k]-th call of [Next] on a generator of [memberID] whose
    suffix was [s]. *)
Definition genID (memberID s : Z) (k : Z) : Z := memberID * 2 ^ 48 + (s + k) mod 2 ^ 48.

Lemma lowbit_mod x n : 0 ≤ n ≤ 64 → Generator.lowbit x n = x mod 2 ^ n.
Proof.
  intros Hn. unfold Generator.lowbit.
  assert (He : Z.shiftr (2 ^ 64 - 1) (64 - n) = Z.ones n).
  { rewrite Z.shiftr_div_pow2 by lia. rewrite Z.ones_equiv.
    replace (2 ^ 64) with (2 ^ (64 - n) * 2 ^ n) by (rewrite <- Z.pow_add_r by lia; f_equal; lia).
    pose proof (Z.pow_pos_nonneg 2 (64 - n) ltac:(lia) ltac:(lia)).
    pose proof (Z.pow_pos_nonneg 2 n ltac:(lia) ltac:(lia)).
    symmetry. apply (Z.div_unique _ _ _ (2 ^ (64 - n) - 1)); lia. }
  rewrite He. apply Z.land_ones. lia.
Qed.

Lemma lor_disjoint a b : 0 ≤ a → 0 ≤ b < 2 ^ 48 → Z.lor (a * 2 ^ 48) b = a * 2 ^ 48 + b.
Proof.
  intros Ha Hb. rewrite <- Z.lxor_lor, Z.add_nocarry_lxor; try done.
  all: apply Z.bits_inj'; intros i Hi; rewrite Z.land_spec, Z.bits_0.
  all: rewrite <- Z.shiftl_mul_pow2 by lia; rewrite Z.shiftl_spec by lia.
  all: destruct (decide (i < 48)); [by rewrite (Z.testbit_neg_r _ (i - 48)) by lia|].
  all: rewrite (Z.bits_above_log2 b i), andb_false_r; [done|lia|].
  all: destruct (decide (b = 0)) as [->|]; [simpl; lia|].
  all: assert (Z.log2 b < 48) by (apply Z.log2_lt_pow2; lia); lia.
Qed.

Lemma Next_id g memberID :
  0 ≤ memberID < 2 ^ 16 → Generator.prefix g = memberID * 2 ^ 48 →
  (Generator.Next g).2 = memberID * 2 ^ 48 + (Generator.suffix g + 1) mod 2 ^ 48 ∧
  Generator.prefix (Generator.Next g).1 = memberID * 2 ^ 48 ∧
  Generator.suffix (Generator.Next g).1 = Generator.suffix g ⊕ 1.
Proof.
  intros Hm Hp. unfold Generator.Next. simpl. split_and!; try done.
  rewrite lowbit_mod by done. unfold u64. change Generator.suffixLen with 48.
  rewrite Z.mod_mod_divide by (by exists (2 ^ 16)).
  rewrite Hp. apply lor_disjoint; [lia|]. by apply Z.mod_pos_bound.
Qed.

Lemma NewGenerator_prefix memberID now :
  0 ≤ memberID < 2 ^ 16 →
  Generator.prefix (Generator.NewGenerator memberID now) = memberID * 2 ^ 48.
Proof.
  intros Hm. unfold Generator.NewGenerator. simpl. change Generator.suffixLen with 48.
  rewrite Z.shiftl_mul_pow2 by lia. apply u64_id. unfold is_u64. lia.
Qed.

(** ** pkg/wait/wait.go

    Channels are addresses in a heap.  Their buffer holds one value. *)
Module wait.
Record chan {V : Type} := Chan { buf : list V; closed : bool }.
Arguments chan V : clear implicits.
Arguments Chan {V} buf closed.
Record list_ {V : Type} := mk { m : gmap Z nat; heap : list (chan V) }.
Arguments list_ V : clear implicits.

Section Ops.
Context {V : Type}.

Definition New : list_ V := mk V ∅ [].

Definition Register (id : Z) (w : list_ V) : outcome (list_ V * nat) :=
  match m w !! id with
  | None =>
      let ch := length (heap w) in
      Ret (w <| m := <[id := ch]> (m w) |> <| heap := heap w ++ [Chan [] false] |>, ch)
  | Some _ => Panic (PanicString "dup id")
  end.

(** [ch <- x; close(ch)]: [Ret None] when the send blocks. *)
Definition sendAndClose (ch : nat) (x : V) (h : list (chan V)) : outcome (option (list (chan V))) :=
  match h !! ch with
  | None => Ret None   (** a nil channel *)
  | Some c =>
      if closed c then Panic (PanicString "send on closed channel")
      else if len (buf c) >=? 1 then Ret None
      else Ret (Some (<[ch := Chan (buf c ++ [x]) true]> h))
  end.

Definition Trigger (id : Z) (x : V) (w : list_ V) : outcome (option (list_ V)) :=
  match m w !! id with
  | None => Ret (Some (w <| m := delete id (m w) |>))
  | Some ch =>
      h ← sendAndClose ch x (heap w);
      Ret (option_map (λ h, w <| m := delete id (m w) |> <| heap := h |>) h)
  end.

(** [<-ch]: the value, [Some None] for the zero value of a closed channel, or
    nothing while there is nothing to receive. *)
Definition recv (ch : nat) (h : list (chan V)) : option (option V * list (chan V)) :=
  match h !! ch with
  | Some (Chan (x :: b) cl) => Some (Some x, <[ch := Chan b cl]> h)
  | Some (Chan [] true) => Some (None, h)
  | _ => None
  end.
End Ops.
End wait.

(** ** etcdserver/v3_server.go *)

Definition maxGapBetweenApplyAndCommitIndex : Z := 5000.

(** [applyResult]: the response, by a handle, and the error. *)
Module applyResult.
Record t := mk { resp : option Z; err : option error }.
End applyResult.

Module EtcdServerV3.
(** What the request path reads and writes of the server.  The values on the
    channels are [interface{}]: [None] is nil. *)
Record t := mk {
  appliedIndex : Z; committedIndex : Z;
  reqIDGen : Generator.t;
  w : wait.list_ (option applyResult.t);
  MaxRequestBytes : Z;
  ElectionTicks : Z; TickMs : Z;
  leadElectedTime : Z           (** in nanoseconds *)
}.

(** [processInternalRaftRequestOnce] up to the proposal: the id and the channel
    registered, and the bytes to propose. *)
Definition processBegin (r : InternalRaftRequest.t) (s : t) : t * outcome (Z * nat * bytes) :=
  let ai := appliedIndex s in
  let ci := committedIndex s in
  if ci >? ai ⊕ maxGapBetweenApplyAndCommitIndex then (s, Err ErrTooManyRequests) else
  let '(g, hid) := Generator.Next (reqIDGen s) in
  let s := s <| reqIDGen := g |> in
  let r := r <| InternalRaftRequest.Header := Some (RequestHeader.mk hid [] 0 None) |> in
  match InternalRaftRequest.Marshal r with
  | Ret data =>
      if len data >? i64 (MaxRequestBytes s) then (s, Err ErrRequestTooLarge) else
      let id := if InternalRaftRequest.ID r =? 0 then hid else InternalRaftRequest.ID r in
      match wait.Register id (w s) with
      | Ret (w', ch) => (s <| w := w' |>, Ret (id, ch, data))
      | Err e => (s, Err e)
      | Panic p => (s, Panic p)
      | OutOfFuel => (s, OutOfFuel)
      end
  | Err e => (s, Err e)
  | Panic p => (s, Panic p)
  | OutOfFuel => (s, OutOfFuel)
  end.

(** [case x := <-ch: return x.( *applyResult), nil]: the assertion fails on nil. *)
Definition assertResult (x : option (option applyResult.t)) : outcome applyResult.t :=
  match x with
  | Some (Some ar) => Ret ar
  | _ => Panic (PanicString "interface conversion: interface {} is nil, not *applyResult")
  end.

(** [start] and the lead's election are times in nanoseconds. *)
Definition parseProposeCtxErr (s : t) (err : error) (start : Z) : error :=
  match err with
  | ContextCanceled => ErrCanceled
  | ContextDeadlineExceeded =>
      let curLeadElected := leadElectedTime s in
      let prevLeadLost := curLeadElected + i64 (-2 * ElectionTicks s * TickMs s * 1000000) in
      if (start >? prevLeadLost) && (start <? curLeadElected) then ErrTimeoutDueToLeaderFail
      else ErrTimeout
  | e => e
  end.

(** [raftRequestOnce] and [raftRequest], whose loop returns in its first round,
    on what [processInternalRaftRequestOnce] returned. *)
Definition raftRequest (result : outcome applyResult.t) : outcome (option Z) :=
  ar ← result;
  match applyResult.err ar with
  | Some e => Err e
  | None => Ret (applyResult.resp ar)
  end.

(** [Put] discards the response. *)
Definition putRequest (r : PutRequest.t) : InternalRaftRequest.t :=
  InternalRaftRequest.mk None 0 None (Some r) None.
Definition Put (result : outcome applyResult.t) : outcome (option Z) :=
  _ ← raftRequest result; Ret None.
End EtcdServerV3.

(** ** The requests as a transition system *)

Module requests.
(** The server, the requests that wait (by number: id and channel), the number
    of requests received, the results that were triggered by the appliers, and
    what the requests returned. *)
Record system := System {
  server : EtcdServerV3.t;
  waiting : gmap nat (Z * nat);
  started : nat;
  applied : list (Z * applyResult.t);
  returned : list (nat * Z * outcome applyResult.t)
}.

Inductive action :=
  | Start (r : PutRequest.t)                     (** a client calls [Put] *)
  | Apply (id : Z) (ar : applyResult.t)          (** an applier calls [Trigger(id, ar)] *)
  | Receive (k : nat)                            (** [case x := <-ch] *)
  | CtxDone (k : nat) (err : error) (start : Z)  (** [case <-cctx.Done()] *)
  | Stopped (k : nat).                           (** [case <-s.done] *)

Definition ret (k : nat) (id : Z) (o : outcome applyResult.t) (s : system) : system :=
  s <| waiting := delete k (waiting s) |> <| returned := returned s ++ [(k, id, o)] |>.

(** [Ret None]: the action cannot happen now. *)
Definition step (a : action) (s : system) : outcome (option system) :=
  match a with
  | Start r =>
      let '(srv, o) := EtcdServerV3.processBegin (EtcdServerV3.putRequest r) (server s) in
      let k := started s in
      let s := s <| server := srv |> <| started := S k |> in
      match o with
      | Ret (id, ch, _) => Ret (Some (s <| waiting := <[k := (id, ch)]> (waiting s) |>))
      | Err e => Ret (Some (s <| returned := returned s ++ [(k, 0, Err e)] |>))
      | Panic p => Panic p
      | OutOfFuel => OutOfFuel
      end
  | Apply id ar =>
      w ← wait.Trigger id (Some ar) (EtcdServerV3.w (server s));
      Ret (option_map (λ w, s <| server := (server s) <| EtcdServerV3.w := w |> |>
                              <| applied := applied s ++ [(id, ar)] |>) w)
  | Receive k =>
      match waiting s !! k with
      | None => Ret None
      | Some (id, ch) =>
          match wait.recv ch (wait.heap (EtcdServerV3.w (server s))) with
          | None => Ret None
          | Some (x, h) =>
              ar ← EtcdServerV3.assertResult x;
              Ret (Some (ret k id (Ret ar)
                (s <| server := (server s)
                        <| EtcdServerV3.w := (EtcdServerV3.w (server s)) <| wait.heap := h |> |> |>)))
          end
      end
  | CtxDone k err start =>
      match waiting s !! k with
      | None => Ret None
      | Some (id, ch) =>
          w ← wait.Trigger id None (EtcdServerV3.w (server s));
          Ret (option_map (λ w, ret k id (Err (EtcdServerV3.parseProposeCtxErr (server s) err start))
                 (s <| server := (server s) <| EtcdServerV3.w := w |> |>)) w)
      end
  | Stopped k =>
      match waiting s !! k with
      | None => Ret None
      | Some (id, _) => Ret (Some (ret k id (Err ErrStopped) s))
      end
  end.

(** A run of actions. *)
Fixpoint run (l : list action) (s : system) : outcome (option system) :=
  match l with
  | [] => Ret (Some s)
  | a :: l => s' ← step a s; match s' with Some s' => run l s' | None => Ret None end
  end.
End requests.

(** ** The invariant of the requests *)

Section RequestProps.
Context (memberID sfx : Z) (Hmember : 0 ≤ memberID < 2 ^ 16).
Implicit Types (s : requests.system).

Abbreviation gid := (genID memberID sfx).
Abbreviation wm s := (wait.m (EtcdServerV3.w (requests.server s))).
Abbreviation wheap s := (wait.heap (EtcdServerV3.w (requests.server s))).

Lemma genID_inj j k : 1 ≤ j < 2 ^ 48 → 1 ≤ k < 2 ^ 48 → gid j = gid k → j = k.
Proof.
  intros Hj Hk. unfold genID. intros H.
  assert (Hm : (sfx + j) mod 2 ^ 48 = (sfx + k) mod 2 ^ 48) by lia.
  pose proof (Z.div_mod (sfx + j) (2 ^ 48) ltac:(lia)).
  pose proof (Z.div_mod (sfx + k) (2 ^ 48) ltac:(lia)).
  set (a := (sfx + j) / 2 ^ 48) in *. set (b := (sfx + k) / 2 ^ 48) in *.
  assert (a = b) by nia. nia.
Qed.

Lemma genID_u64 j : is_u64 (gid j).
Proof. unfold genID, is_u64. pose proof (Z.mod_pos_bound (sfx + j) (2 ^ 48)). lia. Qed.

(** [n] calls of the generator have been made. *)
Record req_inv (n : Z) s : Prop := {
  ri_count : 0 ≤ n ≤ Z.of_nat (requests.started s);
  ri_prefix : Generator.prefix (EtcdServerV3.reqIDGen (requests.server s)) = memberID * 2 ^ 48;
  ri_suffix : Generator.suffix (EtcdServerV3.reqIDGen (requests.server s)) = u64 (sfx + n);
  ri_fresh : ∀ t, (requests.started s ≤ t)%nat → requests.waiting s !! t = None;
  ri_map : ∀ id ch, wm s !! id = Some ch →
    (∃ j, 1 ≤ j ≤ n ∧ id = gid j) ∧ wheap s !! ch = Some (wait.Chan [] false);
  ri_map_inj : ∀ id id' ch, wm s !! id = Some ch → wm s !! id' = Some ch → id = id';
  ri_waiting : ∀ t id ch, requests.waiting s !! t = Some (id, ch) →
    (∃ j, 1 ≤ j ≤ n ∧ id = gid j) ∧
    (wm s !! id = Some ch ∨
     wm s !! id = None ∧ ∃ ar, wheap s !! ch = Some (wait.Chan [Some ar] true) ∧
       (id, ar) ∈ requests.applied s);
  ri_distinct : ∀ t t' id id' ch ch',
    requests.waiting s !! t = Some (id, ch) → requests.waiting s !! t' = Some (id', ch') →
    id = id' ∨ ch = ch' → t = t';
  ri_kept : ∀ id ch, wm s !! id = Some ch →
    (∃ t, requests.waiting s !! t = Some (id, ch)) ∨
    (∃ t, (t, id, Err ErrStopped) ∈ requests.returned s);
  ri_returned : ∀ t id ar, (t, id, Ret ar) ∈ requests.returned s → (id, ar) ∈ requests.applied s;
}.

(** A channel a waiting request has been sent its result on is not registered. *)
Lemma triggered_unregistered n s ch ar id :
  req_inv n s → wheap s !! ch = Some (wait.Chan [Some ar] true) → wm s !! id ≠ Some ch.
Proof. intros H Hh Hm. apply (ri_map n s H) in Hm as [_ Hm]. congruence. Qed.

Lemma Trigger_registered {V} (w : wait.list_ V) id ch x :
  wait.m w !! id = Some ch → wait.heap w !! ch = Some (wait.Chan [] false) →
  wait.Trigger id x w =
  Ret (Some (wait.mk V (delete id (wait.m w)) (<[ch := wait.Chan [x] true]> (wait.heap w)))).
Proof.
  intros Hm Hh. unfold wait.Trigger. rewrite Hm. unfold wait.sendAndClose. rewrite Hh. done.
Qed.

Lemma Trigger_absent {V} (w : wait.list_ V) id x :
  wait.m w !! id = None → wait.Trigger id x w = Ret (Some w).
Proof.
  intros Hm. unfold wait.Trigger. rewrite Hm. do 2 f_equal. destruct w. simpl in *.
  by rewrite delete_id.
Qed.

Lemma apply_ok n s id ar :
  req_inv n s → ∃ s', requests.step (requests.Apply id ar) s = Ret (Some s') ∧ req_inv n s'.
Proof.
  intros H. cbn [requests.step]. destruct (wm s !! id) as [ch|] eqn:E.
  - destruct (ri_map n s H _ _ E) as [Hj Hh]. rewrite (Trigger_registered _ _ ch) by done.
    eexists. split; [done|]. destruct H. split; simpl; try done.
    + intros id' ch' Hd. apply lookup_delete_Some in Hd as [Hne Hd].
      destruct (ri_map0 _ _ Hd) as [? ?]. split; [done|].
      rewrite list_lookup_insert_ne; [done|]. intros <-. by apply Hne, (ri_map_inj0 _ _ ch).
    + intros id1 id2 ch'. rewrite !lookup_delete_Some. intros [_ ?] [_ ?]. eauto.
    + intros t id' ch' Hw. destruct (ri_waiting0 _ _ _ Hw) as [? Hc]. split; [done|].
      destruct (decide (id = id')) as [<-|Hne].
      * right. destruct Hc as [Hc|[Hc _]]; [|congruence]. simplify_eq.
        rewrite lookup_delete_eq. split; [done|]. exists ar.
        rewrite list_lookup_insert_eq by (by eapply lookup_lt_Some). set_solver.
      * rewrite lookup_delete_ne by done. destruct Hc as [Hc|(Hc & ar' & Hh' & Ha)]; [by left|].
        right. split; [done|]. exists ar'. rewrite list_lookup_insert_ne by congruence. set_solver.
    + intros id' ch' Hd. apply lookup_delete_Some in Hd as [_ Hd]. by apply ri_kept0.
    + intros t id' ar' Hr. apply elem_of_app. left. by eapply ri_returned0.
  - rewrite Trigger_absent by done. eexists. split; [done|]. destruct H. split; simpl; try done.
    + intros t id' ch' Hw. destruct (ri_waiting0 _ _ _ Hw) as [? Hc]. split; [done|].
      destruct Hc as [Hc|(Hc & ar' & Hh' & Ha)]; [by left|]. right. split; [done|]. exists ar'. set_solver.
    + intros t id' ar' Hr. apply elem_of_app. left. by eapply ri_returned0.
Qed.

(** A waiting request leaves with a result that its id was triggered with, or
    with an error. *)
Lemma leave_ok n s k id ch o :
  req_inv n s → requests.waiting s !! k = Some (id, ch) →
  (∀ ar, o = Ret ar → (id, ar) ∈ requests.applied s) →
  (wm s !! id = None ∨ o = Err ErrStopped) →
  req_inv n (requests.ret k id o s).
Proof.
  intros H Hk Ho Hm. destruct H. unfold requests.ret. split; simpl; try done.
  - intros t Ht. rewrite lookup_delete_None. right. by apply ri_fresh0.
  - intros t id' ch' Hw. apply lookup_delete_Some in Hw as [_ Hw]. by apply (ri_waiting0 t).
  - intros t t' id1 id2 ch1 ch2. rewrite !lookup_delete_Some. intros [_ ?] [_ ?]. eauto.
  - intros id' ch' Hid. destruct (ri_kept0 _ _ Hid) as [[t Ht]|[t Ht]]; [|right; exists t; set_solver].
    destruct (decide (t = k)) as [->|].
    + simplify_eq. destruct Hm as [Hm| ->]; [congruence|]. right. exists k. set_solver.
    + left. exists t. by rewrite lookup_delete_ne.
  - intros t id' ar. rewrite elem_of_app, list_elem_of_singleton.
    intros [Hr|[= -> -> Hr]]; [by eapply ri_returned0|by apply Ho].
Qed.

(** The state after a request's channel was used and its registration removed:
    nothing of the other requests has changed. *)
Lemma used_ok n s k id ch c o :
  req_inv n s → requests.waiting s !! k = Some (id, ch) →
  (∀ ar, o = Ret ar → (id, ar) ∈ requests.applied s) →
  req_inv n (requests.ret k id o (s <| requests.server := (requests.server s)
    <| EtcdServerV3.w := wait.mk _ (delete id (wm s)) (<[ch := c]> (wheap s)) |> |>)).
Proof.
  intros H Hk Ho. pose proof (ri_waiting n s H _ _ _ Hk) as [_ Hc]. destruct H.
  assert (Hne : ∀ id' ch', id' ≠ id → wm s !! id' = Some ch' → ch' ≠ ch).
  { intros id' ch' Hid Hm ->. destruct Hc as [Hc|(_ & ar & Hh & _)].
    - by apply Hid, (ri_map_inj0 _ _ ch).
    - destruct (ri_map0 _ _ Hm). congruence. }
  unfold requests.ret. split; simpl; try done.
  - intros t Ht. rewrite lookup_delete_None. right. by apply ri_fresh0.
  - intros id' ch' [Hid Hm]%lookup_delete_Some. destruct (ri_map0 _ _ Hm). split; [done|].
    rewrite list_lookup_insert_ne; [done|]. apply not_eq_sym. by eapply Hne.
  - intros id1 id2 ch'. rewrite !lookup_delete_Some. intros [_ ?] [_ ?]. eauto.
  - intros t id' ch' [Ht Hw]%lookup_delete_Some.
    destruct (ri_waiting0 _ _ _ Hw) as [? Hc']. split; [done|].
    assert (Hid : id' ≠ id) by (intros ->; by apply Ht, (ri_distinct0 _ _ _ _ _ _ Hk Hw); left).
    assert (Hch : ch' ≠ ch) by (intros ->; by apply Ht, (ri_distinct0 _ _ _ _ _ _ Hk Hw); right).
    rewrite lookup_delete_ne, list_lookup_insert_ne by done. done.
  - intros t t' id1 id2 ch1 ch2. rewrite !lookup_delete_Some. intros [_ ?] [_ ?]. eauto.
  - intros id' ch' [Hid Hm]%lookup_delete_Some.
    destruct (ri_kept0 _ _ Hm) as [[t Ht]|[t Ht]]; [|right; exists t; set_solver].
    left. exists t. rewrite lookup_delete_ne by (intros ->; congruence). done.
  - intros t id' ar. rewrite elem_of_app, list_elem_of_singleton.
    intros [Hr|[= -> -> Hr]]; [by eapply ri_returned0|by apply Ho].
Qed.

Lemma receive_ok n s k :
  req_inv n s → ∃ o, requests.step (requests.Receive k) s = Ret o ∧ ∀ s', o = Some s' → req_inv n s'.
Proof.
  intros H. cbn [requests.step]. destruct (requests.waiting s !! k) as [[id ch]|] eqn:Hk; [|by eexists].
  destruct (ri_waiting n s H _ _ _ Hk) as [_ [Hm|(Hm & ar & Hh & Ha)]].
  - destruct (ri_map n s H _ _ Hm) as [_ Hh]. unfold wait.recv. rewrite Hh. by eexists.
  - unfold wait.recv. rewrite Hh. cbn [EtcdServerV3.assertResult]. rewrite bind_Ret.
    eexists. split; [done|]. intros s' [= <-].
    pose proof (used_ok n s k id ch (wait.Chan [] true) (Ret ar) H Hk) as Hu.
    rewrite delete_id in Hu by done. apply Hu. by intros ar' [= <-].
Qed.

Lemma ctxDone_ok n s k err start :
  req_inv n s → ∃ o, requests.step (requests.CtxDone k err start) s = Ret o ∧
    (is_Some (requests.waiting s !! k) → is_Some o) ∧ ∀ s', o = Some s' → req_inv n s'.
Proof.
  intros H. cbn [requests.step]. destruct (requests.waiting s !! k) as [[id ch]|] eqn:Hk.
  2:{ eexists. split; [done|]. split; [by intros [? ?]|done]. }
  destruct (ri_waiting n s H _ _ _ Hk) as [_ [Hm|(Hm & ar & Hh & Ha)]].
  - destruct (ri_map n s H _ _ Hm) as [_ Hh]. rewrite (Trigger_registered _ _ ch) by done.
    rewrite bind_Ret. eexists. split; [done|]. split; [by eexists|]. intros s' [= <-].
    by apply used_ok.
  - rewrite Trigger_absent, bind_Ret by done. eexists. split; [done|]. split; [by eexists|].
    intros s' [= <-]. replace (s <| requests.server := _ |>) with s by (by destruct s as [[] ? ? ? ?]).
    eapply leave_ok; [done|done|done|by left].
Qed.

Lemma stopped_ok n s k :
  req_inv n s → ∃ o, requests.step (requests.Stopped k) s = Ret o ∧ ∀ s', o = Some s' → req_inv n s'.
Proof.
  intros H. cbn [requests.step]. destruct (requests.waiting s !! k) as [[id ch]|] eqn:Hk; [|by eexists].
  eexists. split; [done|]. intros s' [= <-]. eapply leave_ok; [done|done|done|by right].
Qed.

Lemma varint_groups_len fuel v : (length (varint_groups fuel v) ≤ fuel)%nat.
Proof.
  revert v. induction fuel as [|fuel IH]; intros v; [done|]. cbn [varint_groups].
  destruct (_ <? _); cbn [length]; [lia|]. specialize (IH (Z.shiftr v 7)). lia.
Qed.

Lemma sov_bound v : is_u64 v → 0 ≤ sovRaft v ≤ 11.
Proof.
  intros H. rewrite sovRaft_ok by done. pose proof (varint_groups_len varint_fuel v).
  unfold len, varint_bytes, varint_fuel in *. lia.
Qed.

(** The request that is proposed for a put. *)
Definition proposed (r : PutRequest.t) (id : Z) : InternalRaftRequest.t :=
  (EtcdServerV3.putRequest r)
    <| InternalRaftRequest.Header := Some (RequestHeader.mk id [] 0 None) |>.

Lemma proposed_ok r id : put_ok r → is_u64 id → internal_ok (proposed r id).
Proof.
  intros Hr Hid. split_and!; simpl; try done; [by intros x [= <-]|].
  intros x [= <-]. split_and!; simpl; try done. unfold RequestHeader.Size. simpl.
  pose proof (sov_bound id Hid). change (len []) with 0. unfold sizeWhen, is_u64.
  destruct (negb _); simpl; lia.
Qed.

Lemma next_suffix n : (u64 (sfx + n) + 1) mod 2 ^ 48 = (sfx + (n + 1)) mod 2 ^ 48.
Proof.
  rewrite <- Z.add_mod_idemp_l by done. unfold u64.
  rewrite Z.mod_mod_divide by (by exists (2 ^ 16)). rewrite Z.add_mod_idemp_l by done. f_equal. lia.
Qed.

(** Accepting a request: the test of the apply lag and of the size, and the
    next id. *)
Lemma processBegin_ok n s r :
  req_inv n s → n < 2 ^ 48 - 1 → put_ok r →
  let srv := requests.server s in
  let srv' := srv <| EtcdServerV3.reqIDGen := (Generator.Next (EtcdServerV3.reqIDGen srv)).1 |> in
  ∃ data, InternalRaftRequest.Marshal (proposed r (gid (n + 1))) = Ret data ∧
  EtcdServerV3.processBegin (EtcdServerV3.putRequest r) srv =
  if EtcdServerV3.committedIndex srv >?
     EtcdServerV3.appliedIndex srv ⊕ maxGapBetweenApplyAndCommitIndex
  then (srv, Err ErrTooManyRequests)
  else if len data >? i64 (EtcdServerV3.MaxRequestBytes srv)
       then (srv', Err ErrRequestTooLarge)
       else (srv' <| EtcdServerV3.w := wait.mk _ (<[gid (n + 1) := length (wheap s)]> (wm s))
                       (wheap s ++ [wait.Chan [] false]) |>,
             Ret (gid (n + 1), length (wheap s), data)).
Proof.
  intros H Hn Hr srv srv'.
  destruct (internal_Marshal (proposed r (gid (n + 1)))) as (data & Hd & _).
  { apply proposed_ok; [done|apply genID_u64]. }
  exists data. split; [done|]. unfold EtcdServerV3.processBegin. fold srv.
  destruct (_ >? _); [done|].
  destruct (Next_id (EtcdServerV3.reqIDGen srv) memberID Hmember (ri_prefix n s H)) as (Hid & _ & _).
  rewrite (ri_suffix n s H : Generator.suffix (EtcdServerV3.reqIDGen srv) = _) in Hid.
  rewrite next_suffix in Hid. fold (gid (n + 1)) in Hid.
  subst srv'. destruct (Generator.Next (EtcdServerV3.reqIDGen srv)) as [g hid]. simpl in Hid. subst hid.
  fold (proposed r (gid (n + 1))). rewrite Hd. destruct (_ >? _); [done|].
  cbn [InternalRaftRequest.ID EtcdServerV3.putRequest]. unfold wait.Register.
  assert (Hnone : wm s !! gid (n + 1) = None).
  { destruct (wm s !! gid (n + 1)) as [ch|] eqn:E; [|done].
    apply (ri_map n s H) in E as [(j & Hj & Hg) _]. pose proof (ri_count n s H).
    apply genID_inj in Hg; lia. }
  simpl. subst srv. by rewrite Hnone.
Qed.

Lemma generator_next n s :
  req_inv n s →
  let g := (Generator.Next (EtcdServerV3.reqIDGen (requests.server s))).1 in
  Generator.prefix g = memberID * 2 ^ 48 ∧ Generator.suffix g = u64 (sfx + (n + 1)).
Proof.
  intros H. destruct (Next_id (EtcdServerV3.reqIDGen (requests.server s)) memberID Hmember
    (ri_prefix n s H)) as (_ & Hp & Hs).
  split; [done|]. rewrite Hs, (ri_suffix n s H). unfold u64.
  rewrite Z.add_mod_idemp_l by done. f_equal. lia.
Qed.

(** A request that is refused leaves the others alone. *)
Lemma refused_ok n n' s g e :
  req_inv n s → n ≤ n' ≤ n + 1 →
  Generator.prefix g = memberID * 2 ^ 48 → Generator.suffix g = u64 (sfx + n') →
  req_inv n' (s <| requests.server := (requests.server s) <| EtcdServerV3.reqIDGen := g |> |>
    <| requests.started := S (requests.started s) |>
    <| requests.returned := requests.returned s ++ [(requests.started s, 0, Err e)] |>).
Proof.
  intros [] Hn' Hp Hs. split; simpl; try done.
  - lia.
  - intros t Ht. apply ri_fresh0. lia.
  - intros id ch Hm. destruct (ri_map0 _ _ Hm) as [(j & ? & ?) ?]. split; [|done].
    exists j. split; [lia|done].
  - intros t id ch Hw. destruct (ri_waiting0 _ _ _ Hw) as [(j & ? & ?) ?]. split; [|done].
    exists j. split; [lia|done].
  - intros id ch Hm. destruct (ri_kept0 _ _ Hm) as [?|[t Ht]]; [by left|]. right. exists t. set_solver.
  - intros t id ar. rewrite elem_of_app, list_elem_of_singleton. intros [Hr|?]; [|done].
    by eapply ri_returned0.
Qed.

(** A request that is accepted waits under a new id on a new channel. *)
Lemma accepted_ok n s g :
  req_inv n s → n < 2 ^ 48 - 1 →
  Generator.prefix g = memberID * 2 ^ 48 → Generator.suffix g = u64 (sfx + (n + 1)) →
  req_inv (n + 1) (s <| requests.server := (requests.server s) <| EtcdServerV3.reqIDGen := g |>
      <| EtcdServerV3.w := wait.mk _ (<[gid (n + 1) := length (wheap s)]> (wm s))
           (wheap s ++ [wait.Chan [] false]) |> |>
    <| requests.started := S (requests.started s) |>
    <| requests.waiting := <[requests.started s := (gid (n + 1), length (wheap s))]>
         (requests.waiting s) |>).
Proof.
  intros [] Hn Hp Hs.
  assert (Hold : ∀ id, (∃ j, 1 ≤ j ≤ n ∧ id = gid j) → id ≠ gid (n + 1)).
  { intros id (j & Hj & ->) He. apply genID_inj in He; lia. }
  assert (Hup : ∀ id, (∃ j, 1 ≤ j ≤ n ∧ id = gid j) → ∃ j, 1 ≤ j ≤ n + 1 ∧ id = gid j).
  { intros id (j & Hj & ->). exists j. split; [lia|done]. }
  assert (Hlt : ∀ ch c, wheap s !! ch = Some c → ch ≠ length (wheap s)).
  { intros ch c Hc. apply lookup_lt_Some in Hc. lia. }
  assert (Hkeep : ∀ ch c, wheap s !! ch = Some c → (wheap s ++ [wait.Chan [] false]) !! ch = Some c).
  { intros ch c Hc. by apply lookup_app_l_Some. }
  assert (Hnew : (wheap s ++ [wait.Chan [] false]) !! length (wheap s) = Some (wait.Chan [] false)).
  { by apply list_lookup_middle. }
  assert (Hcur : ∀ t id ch, requests.waiting s !! t = Some (id, ch) →
    id ≠ gid (n + 1) ∧ ch ≠ length (wheap s)).
  { intros t id ch Hw. destruct (ri_waiting0 _ _ _ Hw) as [Hj Hc]. split; [by apply Hold|].
    destruct Hc as [Hc|(_ & ar & Hc & _)]; [destruct (ri_map0 _ _ Hc)|]; by eapply Hlt. }
  split; simpl; try done.
  - lia.
  - intros t Ht. rewrite lookup_insert_ne by lia. apply ri_fresh0. lia.
  - intros id ch [[<- <-]|[Hne Hm]]%lookup_insert_Some; [|destruct (ri_map0 _ _ Hm); eauto].
    split; [|done]. exists (n + 1). split; [lia|done].
  - intros id id' ch [[<- <-]|[Hne Hm]]%lookup_insert_Some [[<- Hch]|[Hne' Hm']]%lookup_insert_Some;
      [done|..|by eapply ri_map_inj0].
    + destruct (ri_map0 _ _ Hm') as [_ Hh]. by apply Hlt in Hh.
    + subst ch. destruct (ri_map0 _ _ Hm) as [_ Hh]. by apply Hlt in Hh.
  - intros t id ch [[<- [= <- <-]]|[Hne Hw]]%lookup_insert_Some.
    + split; [exists (n + 1); split; [lia|done]|]. left. apply lookup_insert_eq.
    + destruct (ri_waiting0 _ _ _ Hw) as [Hj Hc]. split; [by apply Hup|].
      rewrite lookup_insert_ne by (apply not_eq_sym; by apply Hold).
      destruct Hc as [Hc|(Hc & ar & Hh & Ha)]; [by left|right]. split; [done|]. exists ar. eauto.
  - intros t t' id id' ch ch' [[<- [= <- <-]]|[Hne Hw]]%lookup_insert_Some
      [[<- [= <- <-]]|[Hne' Hw']]%lookup_insert_Some Hor; [done|..|by eapply ri_distinct0].
    + apply Hcur in Hw'. naive_solver.
    + apply Hcur in Hw. naive_solver.
  - intros id ch [[<- <-]|[Hne Hm]]%lookup_insert_Some.
    + left. exists (requests.started s). apply lookup_insert_eq.
    + destruct (ri_kept0 _ _ Hm) as [[t Ht]|?]; [left|by right]. exists t.
      rewrite lookup_insert_ne; [done|]. intros <-. by rewrite ri_fresh0 in Ht.
Qed.

Lemma start_ok n s r :
  req_inv n s → n < 2 ^ 48 - 1 → put_ok r →
  ∃ s' n', requests.step (requests.Start r) s = Ret (Some s') ∧ req_inv n' s' ∧ n ≤ n' ≤ n + 1.
Proof.
  intros H Hn Hr. destruct (processBegin_ok n s r H Hn Hr) as (data & _ & HB).
  destruct (generator_next n s H) as [Hp Hs].
  cbn [requests.step]. rewrite HB. clear HB. destruct (_ >? _); [|destruct (_ >? _)].
  - eexists _, n. split; [done|]. split; [|lia].
    pose proof (refused_ok n n s (EtcdServerV3.reqIDGen (requests.server s)) ErrTooManyRequests H
      ltac:(lia) (ri_prefix n s H) (ri_suffix n s H)) as HR.
    by destruct s as [[] ? ? ? ?].
  - eexists _, (n + 1). split; [done|]. split; [|lia].
    pose proof (refused_ok n (n + 1) s _ ErrRequestTooLarge H ltac:(lia) Hp Hs) as HR.
    destruct s as [[] ? ? ? ?]. exact HR.
  - eexists _, (n + 1). split; [done|]. split; [|lia].
    pose proof (accepted_ok n s _ H Hn Hp Hs) as HR. destruct s as [[] ? ? ? ?]. exact HR.
Qed.

Definition start_put_ok (a : requests.action) : Prop :=
  match a with requests.Start r => put_ok r | _ => True end.

Lemma step_ok n s a :
  req_inv n s → n < 2 ^ 48 - 1 → start_put_ok a →
  ∃ o, requests.step a s = Ret o ∧ ∀ s', o = Some s' → ∃ n', req_inv n' s' ∧ n ≤ n' ≤ n + 1.
Proof.
  intros H Hn Ha. destruct a as [r|id ar|k|k e start|k].
  - destruct (start_ok n s r H Hn Ha) as (s' & n' & -> & Hs & Hb). eexists. split; [done|].
    intros ? [= <-]. by exists n'.
  - destruct (apply_ok n s id ar H) as (s' & -> & Hs). eexists. split; [done|].
    intros ? [= <-]. exists n. split; [done|lia].
  - destruct (receive_ok n s k H) as (o & -> & Hs). exists o. split; [done|].
    intros s' He. exists n. split; [by apply Hs|lia].
  - destruct (ctxDone_ok n s k e start H) as (o & -> & _ & Hs). exists o. split; [done|].
    intros s' He. exists n. split; [by apply Hs|lia].
  - destruct (stopped_ok n s k H) as (o & -> & Hs). exists o. split; [done|].
    intros s' He. exists n. split; [by apply Hs|lia].
Qed.

Lemma run_ok l : ∀ n s,
  req_inv n s → n + len l < 2 ^ 48 - 1 → Forall start_put_ok l →
  ∃ o, requests.run l s = Ret o ∧ ∀ s', o = Some s' → ∃ n', req_inv n' s'.
Proof.
  induction l as [|a l IH]; intros n s H Hn Hl.
  { eexists. split; [done|]. intros s' [= <-]. by exists n. }
  apply Forall_cons in Hl as [Ha Hl]. rewrite len_cons in Hn. pose proof (len_nonneg l).
  destruct (step_ok n s a H ltac:(lia) Ha) as (o & Hs & Ho). cbn [requests.run]. rewrite Hs, bind_Ret.
  destruct o as [s'|]; [|by eexists]. destruct (Ho s' eq_refl) as (n' & Hi & Hb).
  apply (IH n'); [done|lia|done].
Qed.

(** After an applier has triggered the id of a waiting request, the request can
    receive. *)
Lemma apply_receive n s k id ch ar :
  req_inv n s → requests.waiting s !! k = Some (id, ch) →
  ∃ s' s'', requests.run [requests.Apply id ar; requests.Receive k] s = Ret (Some s'') ∧
    requests.step (requests.Apply id ar) s = Ret (Some s').
Proof.
  intros H Hk. destruct (apply_ok n s id ar H) as (s' & Ha & Hi).
  cbn [requests.run]. rewrite Ha, bind_Ret.
  assert (Hm : wm s' !! id = None ∧ requests.waiting s' = requests.waiting s).
  { revert Ha. cbn [requests.step]. destruct (wm s !! id) as [ch'|] eqn:E.
    - destruct (ri_map n s H _ _ E) as [_ Hh]. rewrite (Trigger_registered _ _ ch') by done.
      intros [= <-]. simpl. by rewrite lookup_delete_eq.
    - rewrite Trigger_absent by done. by intros [= <-]. }
  destruct Hm as [Hm Hw]. rewrite <- Hw in Hk.
  destruct (ri_waiting n s' Hi _ _ _ Hk) as [_ [Hm'|(_ & ar' & Hh & _)]]; [congruence|].
  cbn [requests.step]. rewrite Hk. unfold wait.recv. rewrite Hh. by repeat eexists.
Qed.
End RequestProps.

(** The system when the server starts. *)
Definition initial (srv : EtcdServerV3.t) : requests.system := requests.System srv ∅ 0 [] [].

Lemma initial_ok memberID srv :
  Generator.prefix (EtcdServerV3.reqIDGen srv) = memberID * 2 ^ 48 →
  is_u64 (Generator.suffix (EtcdServerV3.reqIDGen srv)) → EtcdServerV3.w srv = wait.New →
  req_inv memberID (Generator.suffix (EtcdServerV3.reqIDGen srv)) 0 (initial srv).
Proof.
  intros Hg Hs Hw. split; simpl; rewrite ?Hw; try done; try lia.
  - by rewrite Z.add_0_r, u64_id.
  - by intros t id ar ?%elem_of_nil.
Qed.

(** C8 (safety): whatever the interleaving of up to 2^48 - 2 steps of clients,
    appliers, expiring contexts and the server's stop, no request panics (no
    duplicate id, no send on a closed channel, no failed type assertion); a
    request only returns results that were triggered for its own id; waiting
    requests have distinct ids; an applier's [Trigger] and a request's timeout
    never block, and a request whose id was triggered can receive; the map of
    channels holds only waiting requests and requests that left because the
    server stopped. *)
Theorem requests_safe memberID srv l :
  0 ≤ memberID < 2 ^ 16 →
  Generator.prefix (EtcdServerV3.reqIDGen srv) = memberID * 2 ^ 48 →
  is_u64 (Generator.suffix (EtcdServerV3.reqIDGen srv)) →
  EtcdServerV3.w srv = wait.New →
  Forall start_put_ok l → len l < 2 ^ 48 - 1 →
  ∃ o, requests.run l (initial srv) = Ret o ∧ ∀ s, o = Some s →
    (∀ k id ar, (k, id, Ret ar) ∈ requests.returned s → (id, ar) ∈ requests.applied s) ∧
    (∀ k k' id ch ch', requests.waiting s !! k = Some (id, ch) →
      requests.waiting s !! k' = Some (id, ch') → k = k') ∧
    (∀ id ar, ∃ s', requests.step (requests.Apply id ar) s = Ret (Some s')) ∧
    (∀ k e start, is_Some (requests.waiting s !! k) →
      ∃ s', requests.step (requests.CtxDone k e start) s = Ret (Some s')) ∧
    (∀ k id ch ar, requests.waiting s !! k = Some (id, ch) →
      ∃ s', requests.run [requests.Apply id ar; requests.Receive k] s = Ret (Some s')) ∧
    (∀ id ch, wait.m (EtcdServerV3.w (requests.server s)) !! id = Some ch →
      (∃ k, requests.waiting s !! k = Some (id, ch)) ∨
      (∃ k, (k, id, Err ErrStopped) ∈ requests.returned s)).
Proof.
  intros Hm Hg Hs Hw Hl Hn. pose proof (initial_ok memberID srv Hg Hs Hw) as Hi.
  destruct (run_ok memberID _ Hm l 0 _ Hi ltac:(lia) Hl) as (o & Hr & Ho).
  exists o. split; [done|]. intros s He. destruct (Ho s He) as (n & H). split_and!.
  - apply (ri_returned _ _ n s H).
  - intros k k' id ch ch' H1 H2. eapply (ri_distinct _ _ n s H); eauto.
  - intros id ar. edestruct (apply_ok memberID) as (s' & ? & _); [done..|]. eauto.
  - intros k e start Hk. edestruct (ctxDone_ok memberID) as (o' & ? & Hb & _); [done..|].
    destruct (Hb Hk) as [s' ->]. eauto.
  - intros k id ch ar Hk. edestruct (apply_receive memberID) as (_ & s' & ? & _); [done..|]. eauto.
  - apply (ri_kept _ _ n s H).
Qed.

Lemma requests_safe_witness :
  ∃ o, requests.run
    [requests.Start (PutRequest.mk [97] [98] 0 false false false None);
     requests.Start (PutRequest.mk [97] [99] 0 false false false None);
     requests.Apply (genID 3 0 2) (applyResult.mk (Some 7) None);
     requests.CtxDone 0 ContextDeadlineExceeded 0; requests.Receive 1]
    (initial (EtcdServerV3.mk 0 0 (Generator.NewGenerator 3 0) wait.New 1000 10 100 0)) = Ret o ∧
    ∀ s, o = Some s → ∀ k id ar,
      (k, id, Ret ar) ∈ requests.returned s → (id, ar) ∈ requests.applied s.
Proof.
  edestruct (requests_safe 3) as (o & Hr & Ho); [| | | | | |exists o; split; [exact Hr|]].
  - lia.
  - reflexivity.
  - split; vm_compute; congruence.
  - reflexivity.
  - repeat constructor; vm_compute; congruence.
  - vm_compute. reflexivity.
  - intros s Hs. apply Ho, Hs.
Defined.

(** ** The proposal *)

Lemma delimited_bound tag p : len p < 2 ^ 62 → len (delimitedBytes tag p) ≤ len p + 12.
Proof.
  intros Hp. pose proof (len_nonneg p). rewrite len_delimitedBytes by (unfold is_u64; lia).
  pose proof (sov_bound (len p)). unfold is_u64 in *. lia.
Qed.

Lemma proposed_wf r id :
  PutRequestCodec.wf r → len (PutRequestCodec.enc r) < 2 ^ 62 → is_u64 id →
  InternalRaftRequestCodec.wf (proposed r id) ∧ len (InternalRaftRequestCodec.enc (proposed r id)) < 2 ^ 63.
Proof.
  intros Hr Hl Hid. split.
  { split_and!; [done|done|exact Hr| |done]. by split_and!. }
  unfold InternalRaftRequestCodec.enc, proposed, EtcdServerV3.putRequest. cbn -[len delimitedBytes].
  unfold messageFieldBytes. cbn [encode PutRequestCodec.codec RequestHeaderCodec.codec codec_of].
  change (opt (negb (0 =? 0)) _) with (@nil Z). rewrite app_nil_l, len_app, len_cons, app_nil_r.
  pose proof (delimited_bound 0x22 _ Hl).
  set (h := RequestHeaderCodec.enc _).
  assert (Hh : len h ≤ 12).
  { subst h. unfold RequestHeaderCodec.enc, opt. cbn -[len varintFieldBytes]. rewrite app_nil_r.
    destruct (negb _); [|done]. rewrite len_varintFieldBytes by done. pose proof (sov_bound id Hid). lia. }
  pose proof (delimited_bound 0x6 h). lia.
Qed.

(** C14 (roundtrip): what a client's [Put] proposes is what a member reads from the
    log.  When [processInternalRaftRequestOnce] gets as far as the proposal of a
    request whose fields have their declared widths, the bytes it proposes have the
    size that [Size] computes, at most [MaxRequestBytes] of them, and [Unmarshal]
    reads from them exactly the client's request, with no other request beside it,
    under a header with the id whose channel was registered. *)
Theorem proposal_roundtrip memberID r s s' id ch data :
  0 ≤ memberID < 2 ^ 16 →
  Generator.prefix (EtcdServerV3.reqIDGen s) = memberID * 2 ^ 48 →
  PutRequestCodec.wf r → len (PutRequestCodec.enc r) < 2 ^ 62 →
  EtcdServerV3.processBegin (EtcdServerV3.putRequest r) s = (s', Ret (id, ch, data)) →
  len data ≤ i64 (EtcdServerV3.MaxRequestBytes s) ∧
  wait.m (EtcdServerV3.w s') !! id = Some ch ∧
  ∃ m, InternalRaftRequest.Unmarshal InternalRaftRequest.zero data = Ret m ∧
    len data = InternalRaftRequest.Size m ∧
    InternalRaftRequest.Put m = Some r ∧ InternalRaftRequest.V2 m = None ∧
    RequestHeader.ID <$> InternalRaftRequest.Header m = Some id.
Proof.
  intros Hm Hp Hr Hl. unfold EtcdServerV3.processBegin.
  destruct (_ >? _ ⊕ _); [done|].
  destruct (Next_id _ _ Hm Hp) as (Hid & _ & _).
  destruct (Generator.Next (EtcdServerV3.reqIDGen s)) as [g hid]. cbn [snd] in Hid.
  assert (Hu : is_u64 hid).
  { rewrite Hid. pose proof (Z.mod_pos_bound (Generator.suffix (EtcdServerV3.reqIDGen s) + 1) (2 ^ 48)).
    unfold is_u64. lia. }
  fold (proposed r hid). destruct (proposed_wf r hid Hr Hl Hu) as [Hw Hb].
  destruct (codec_roundtrip (Codec0 := InternalRaftRequestCodec.codec) _ Hw Hb) as (d & HM & HS & HU).
  unfold InternalRaftRequest.Marshal. rewrite HM.
  destruct (len d >? _) eqn:El; [done|]. unfold wait.Register. cbn.
  change (if 0 =? 0 then hid else 0) with hid. destruct (wait.m (EtcdServerV3.w s) !! hid) eqn:E; [done|].
  intros [= <- <- <- <-]. split; [zify_bool; done|]. split; [apply lookup_insert_eq|].
  by exists (proposed r hid).
Qed.

(** A put of one key. *)
Definition sample_server : EtcdServerV3.t :=
  EtcdServerV3.mk 7 7 (Generator.NewGenerator 5 0) wait.New 1000 10 100 0.
Definition sample_put : PutRequest.t := PutRequest.mk [107] [118; 0; 255] (-2) true false true None.
Definition sample_bytes : bytes :=
  [34; 23; 10; 1; 107; 18; 3; 118; 0; 255; 24; 254; 255; 255; 255; 255; 255; 255; 255; 255; 1; 32; 1; 48; 1;
   162; 6; 9; 8; 129; 128; 128; 128; 128; 128; 192; 2].
Lemma proposal_roundtrip_witness :
  (EtcdServerV3.processBegin (EtcdServerV3.putRequest sample_put) sample_server).2
    = Ret (5 * 2 ^ 48 + 1, 0%nat, sample_bytes) ∧
  ∃ m, InternalRaftRequest.Unmarshal InternalRaftRequest.zero sample_bytes = Ret m ∧
    InternalRaftRequest.Put m = Some sample_put.
Proof.
  assert (H : (EtcdServerV3.processBegin (EtcdServerV3.putRequest sample_put) sample_server).2
            = Ret (5 * 2 ^ 48 + 1, 0%nat, sample_bytes)) by (vm_compute; reflexivity).
  split; [exact H|].
  destruct (proposal_roundtrip 5 sample_put sample_server
    (EtcdServerV3.processBegin (EtcdServerV3.putRequest sample_put) sample_server).1
    (5 * 2 ^ 48 + 1) 0%nat sample_bytes) as (_ & _ & m & Hm & _ & HP & _).
  - lia.
  - vm_compute. reflexivity.
  - unfold PutRequestCodec.wf, is_i64. cbn [PutRequest.Lease PutRequest.XXX_unrecognized sample_put].
    split; [lia|reflexivity].
  - vm_compute. reflexivity.
  - rewrite <- H. apply surjective_pairing.
  - exists m. split; [exact Hm|exact HP].
Defined.

(** ** Uniqueness of the ids *)

(** The ids of [n] successive calls of [Next]. *)
Fixpoint nexts (n : nat) (g : Generator.t) : list Z :=
  match n with
  | O => []
  | S n => let '(g, id) := Generator.Next g in id :: nexts n g
  end.

Lemma nexts_ids memberID n : ∀ g,
  0 ≤ memberID < 2 ^ 16 → Generator.prefix g = memberID * 2 ^ 48 →
  nexts n g = (λ k, genID memberID (Generator.suffix g) (Z.of_nat k)) <$> seq 1 n.
Proof.
  induction n as [|n IH]; intros g Hm Hp; [done|].
  destruct (Next_id g memberID Hm Hp) as (Hid & Hp' & Hs'). cbn [nexts seq].
  destruct (Generator.Next g) as [g' id]. simpl in Hid, Hp', Hs'. subst id.
  rewrite (IH g' Hm Hp'), fmap_cons. f_equal. rewrite <- (fmap_S_seq 1 n), <- list_fmap_compose.
  apply list_fmap_ext. intros i k _. unfold compose, genID. f_equal. rewrite Hs'. unfold u64.
  rewrite <- (Z.mod_mod_divide _ (2 ^ 64) (2 ^ 48)) by (by exists (2 ^ 16)).
  rewrite Z.add_mod_idemp_l, Z.mod_mod_divide by (by exists (2 ^ 16) || lia). f_equal. lia.
Qed.

Lemma NewGenerator_suffix memberID now :
  is_u64 now → (Generator.suffix (Generator.NewGenerator memberID now)) = now / 1000000 * 256 mod 2 ^ 48.
Proof.
  intros Hnow. unfold Generator.NewGenerator. simpl. rewrite lowbit_mod by done.
  rewrite (u64_id now) by done. unfold Generator.tsLen, Generator.cntLen.
  rewrite Z.shiftl_mul_pow2 by lia. change (2 ^ (5 * 8)) with (2 ^ 40). change (2 ^ 8) with 256.
  replace (2 ^ 48) with (2 ^ 40 * 256) by done. rewrite Z.mul_mod_distr_r by lia. apply u64_id.
  pose proof (Z.mod_pos_bound (now / 1000000) (2 ^ 40)). unfold is_u64. lia.
Qed.

Lemma genID_mod memberID s k : genID memberID (s mod 2 ^ 48) k = genID memberID s k.
Proof. unfold genID. by rewrite Z.add_mod_idemp_l by lia. Qed.

(** Two generators of one member give ids of one window. *)
Lemma genID_shift memberID s d k : genID memberID (s + d) k = genID memberID s (d + k).
Proof. unfold genID. do 2 f_equal. lia. Qed.

(** C28 (bounds): every id carries the member's number in its high 16 bits; a
    member's ids are pairwise distinct, also across a restart: if the first
    generator was created in an earlier millisecond than the second, and gave
    at most 256 ids per millisecond in between on average, then no id is given
    twice before 2^48 ids' worth of time and calls have passed (about 35
    years). *)
Theorem generated_ids_unique memberID now1 now2 n1 n2 :
  0 ≤ memberID < 2 ^ 16 → is_u64 now1 → is_u64 now2 →
  let d := now2 / 1000000 - now1 / 1000000 in
  Z.of_nat n1 ≤ 256 * d → 256 * d + Z.of_nat n2 < 2 ^ 48 →
  let ids := nexts n1 (Generator.NewGenerator memberID now1)
             ++ nexts n2 (Generator.NewGenerator memberID now2) in
  NoDup ids ∧ Forall (λ id, id / 2 ^ 48 = memberID) ids.
Proof.
  intros Hm H1 H2 d Hn1 Hn2 ids.
  set (s := now1 / 1000000 * 256).
  assert (Hids : ids = genID memberID s <$>
    ((Z.of_nat <$> seq 1 n1) ++ ((λ k, 256 * d + Z.of_nat k) <$> seq 1 n2))).
  { unfold ids. rewrite !(nexts_ids memberID) by (done || by apply NewGenerator_prefix).
    rewrite !NewGenerator_suffix, fmap_app, <- !list_fmap_compose by done. f_equal.
    - apply list_fmap_ext. intros i k _. unfold compose. apply genID_mod.
    - apply list_fmap_ext. intros i k _. unfold compose.
      rewrite genID_mod, <- genID_shift. f_equal. unfold s, d. lia. }
  rewrite Hids. split.
  - apply NoDup_fmap_2_strong.
    + intros x y Hx Hy. apply genID_inj.
      * apply elem_of_app in Hx as [(k & -> & Hk%elem_of_seq)%list_elem_of_fmap|(k & -> & Hk%elem_of_seq)%list_elem_of_fmap]; lia.
      * apply elem_of_app in Hy as [(k & -> & Hk%elem_of_seq)%list_elem_of_fmap|(k & -> & Hk%elem_of_seq)%list_elem_of_fmap]; lia.
    + apply NoDup_app. split_and!.
      * apply NoDup_fmap_2; [|apply NoDup_seq]. intros x y. lia.
      * intros x (k & -> & Hk%elem_of_seq)%list_elem_of_fmap (j & Hj & Hk'%elem_of_seq)%list_elem_of_fmap. lia.
      * apply NoDup_fmap_2; [|apply NoDup_seq]. intros x y. lia.
  - apply Forall_fmap, Forall_forall. intros k _. unfold compose, genID.
    pose proof (Z.mod_pos_bound (s + k) (2 ^ 48) ltac:(lia)).
    symmetry. apply (Z.div_unique _ _ _ ((s + k) mod 2 ^ 48)); lia.
Qed.

Lemma generated_ids_unique_witness :
  NoDup (nexts 3 (Generator.NewGenerator 7 1000000) ++ nexts 2 (Generator.NewGenerator 7 2000000)).
Proof.
  apply (generated_ids_unique 7 1000000 2000000 3 2); unfold is_u64; vm_compute; intuition congruence.
Defined.

(** ** pkg/wait/wait_time.go

    The channels carry no value: the heap records which are closed.  Address 0
    is the closed channel [closec]. *)
Module timeList.
Record t := mk { lastTriggerDeadline : Z; m : gmap Z nat; heap : list bool }.

Definition closec : nat := 0.
Definition NewTimeList : t := mk 0 ∅ [true].

Definition Wait (deadline : Z) (tl : t) : t * nat :=
  if lastTriggerDeadline tl >=? deadline then (tl, closec) else
  match m tl !! deadline with
  | Some ch => (tl, ch)
  | None =>
      let ch := length (heap tl) in
      (tl <| m := <[deadline := ch]> (m tl) |> <| heap := heap tl ++ [false] |>, ch)
  end.

Definition close (ch : nat) (h : list bool) : outcome (list bool) :=
  match h !! ch with
  | Some false => Ret (<[ch := true]> h)
  | Some true => Panic (PanicString "close of closed channel")
  | None => Panic (PanicString "close of nil channel")
  end.

Fixpoint triggerLoop (l : list (Z * nat)) (deadline : Z) (tl : t) : outcome t :=
  match l with
  | [] => Ret tl
  | (t, ch) :: l =>
      if t <=? deadline then
        h ← close ch (heap tl);
        triggerLoop l deadline (tl <| m := delete t (m tl) |> <| heap := h |>)
      else triggerLoop l deadline tl
  end.

Definition Trigger (deadline : Z) (tl : t) : outcome t :=
  triggerLoop (map_to_list (m tl)) deadline (tl <| lastTriggerDeadline := deadline |>).

(** What a caller sees: the deadlines waited for, each with its channel and
    whether it has been reached. *)
Inductive call := CallWait (deadline : Z) | CallTrigger (deadline : Z).
Record waiter := Waiter { w_deadline : Z; w_ch : nat; w_fired : bool }.

Definition fire (deadline : Z) (w : waiter) : waiter :=
  w <| w_fired := w_fired w || (w_deadline w <=? deadline) |>.

Fixpoint run (l : list call) (tl : t) (ws : list waiter) : outcome (t * list waiter) :=
  match l with
  | [] => Ret (tl, ws)
  | CallWait d :: l =>
      let '(tl', ch) := Wait d tl in
      run l tl' (Waiter d ch (d <=? lastTriggerDeadline tl) :: ws)
  | CallTrigger d :: l => tl' ← Trigger d tl; run l tl' (fire d <$> ws)
  end.
End timeList.

Section TimeListProps.
Import timeList.
Implicit Types (tl : timeList.t) (ws : list waiter).

Record time_inv tl ws : Prop := {
  ti_closec : heap tl !! 0%nat = Some true;
  ti_open : ∀ d ch, m tl !! d = Some ch → heap tl !! ch = Some false;
  ti_inj : ∀ d d' ch, m tl !! d = Some ch → m tl !! d' = Some ch → d = d';
  ti_waits : ∀ w, w ∈ ws → heap tl !! w_ch w = Some (w_fired w) ∧
    (w_fired w = false → m tl !! w_deadline w = Some (w_ch w))
}.

Lemma triggerLoop_ok d l : ∀ tl,
  NoDup l.*1 → (∀ t ch, (t, ch) ∈ l → m tl !! t = Some ch) →
  (∀ t ch, m tl !! t = Some ch → heap tl !! ch = Some false) →
  (∀ t t' ch, m tl !! t = Some ch → m tl !! t' = Some ch → t = t') →
  ∃ tl', triggerLoop l d tl = Ret tl' ∧
    (∀ t ch, m tl' !! t = Some ch ↔ m tl !! t = Some ch ∧ ¬ ((t, ch) ∈ l ∧ t ≤ d)) ∧
    (∀ t ch, (t, ch) ∈ l → t ≤ d → heap tl' !! ch = Some true) ∧
    (∀ ch, (∀ t, (t, ch) ∈ l → d < t) → heap tl' !! ch = heap tl !! ch).
Proof.
  induction l as [|[t ch] l IH]; intros tl Hnd Hin Hopen Hinj.
  { exists tl. split_and!; try done. - set_solver. - by intros ? ? ?%elem_of_nil. }
  rewrite fmap_cons in Hnd. apply NoDup_cons in Hnd as [Ht Hnd].
  assert (Hl : ∀ ch', (t, ch') ∉ l) by (intros ch' Hl; apply Ht; apply list_elem_of_fmap; by exists (t, ch')).
  pose proof (Hin t ch ltac:(set_solver)) as Hm. cbn [triggerLoop].
  destruct (t <=? d) eqn:E; zify_bool.
  - unfold close at 1. rewrite (Hopen t ch Hm), bind_Ret.
    edestruct IH as (tl' & -> & Hm' & Hc & Hh); cycle -1; [exists tl'; split; [done|]|..]; simpl in *.
    + split_and!.
      * intros t' ch'. rewrite Hm', lookup_delete_Some, elem_of_cons. naive_solver.
      * intros t' ch' [[= -> ->]|Hi]%elem_of_cons Hd; [|by eapply Hc].
        destruct (decide (Exists (λ p, p.2 = ch) l)) as [(p & Hp & Hpc)%Exists_exists|Hno].
        -- destruct p as [t' ch']. simpl in Hpc. subst ch'. exfalso. apply (Hl ch).
           by rewrite (Hinj t t' ch) by (done || apply Hin; set_solver).
        -- rewrite Hh, list_lookup_insert_eq; [done|by eapply lookup_lt_Some, Hopen|].
           intros t' Hi. exfalso. apply Hno, Exists_exists. by exists (t', ch).
      * intros ch' Hd. rewrite Hh by set_solver. apply list_lookup_insert_ne. intros <-.
        specialize (Hd t ltac:(set_solver)). lia.
    + done.
    + intros t' ch' Hi. apply lookup_delete_Some. split; [|apply Hin; set_solver].
      intros <-. by apply (Hl ch').
    + intros t' ch' [Hne Hm']%lookup_delete_Some. rewrite list_lookup_insert_ne; [by eapply Hopen|].
      intros <-. by apply Hne, (Hinj _ _ ch).
    + intros t1 t2 ch'. rewrite !lookup_delete_Some. intros [_ ?] [_ ?]. eauto.
  - destruct (IH tl Hnd ltac:(set_solver) Hopen Hinj) as (tl' & -> & Hm' & Hc & Hh).
    exists tl'. split; [done|]. split_and!.
    + intros t' ch'. rewrite Hm', elem_of_cons. naive_solver lia.
    + intros t' ch' [[= -> ->]|Hi]%elem_of_cons Hd; [lia|by eapply Hc].
    + intros ch' Hd. apply Hh. set_solver.
Qed.

Lemma Trigger_ok d tl ws :
  time_inv tl ws → ∃ tl', Trigger d tl = Ret tl' ∧ time_inv tl' (fire d <$> ws).
Proof.
  intros []. unfold Trigger.
  destruct (triggerLoop_ok d (map_to_list (m tl)) (tl <| lastTriggerDeadline := d |>))
    as (tl' & Hr & Hm & Hc & Hh); simpl.
  { apply NoDup_fst_map_to_list. }
  { intros t ch. by rewrite elem_of_map_to_list. }
  { done. }
  { done. }
  simpl in *. setoid_rewrite elem_of_map_to_list in Hm.
  setoid_rewrite elem_of_map_to_list in Hc. setoid_rewrite elem_of_map_to_list in Hh.
  exists tl'. split; [done|]. split.
  - rewrite Hh; [done|]. intros t Ht. apply ti_open0 in Ht. congruence.
  - intros t ch [Ht Hn]%Hm. rewrite Hh; [by eapply ti_open0|].
    intros t' Ht'. rewrite (ti_inj0 _ _ _ Ht' Ht). destruct (decide (t ≤ d)); [naive_solver|lia].
  - intros t t' ch [Ht _]%Hm [Ht' _]%Hm. eauto.
  - intros w' (w & -> & Hw)%list_elem_of_fmap. destruct (ti_waits0 w Hw) as [Hh1 Hm1].
    unfold fire. simpl. destruct (w_fired w) eqn:Ef; simpl.
    + split; [|done]. rewrite Hh; [done|]. intros t Ht. apply ti_open0 in Ht. congruence.
    + specialize (Hm1 eq_refl). destruct (w_deadline w <=? d) eqn:Ed; zify_bool.
      * split; [|done]. by apply (Hc (w_deadline w)).
      * split; [|by intros _; apply Hm; split; [done|lia]].
        rewrite Hh; [done|]. intros t Ht. rewrite (ti_inj0 _ _ _ Ht Hm1). lia.
Qed.

Lemma Wait_ok d tl ws :
  time_inv tl ws →
  time_inv (Wait d tl).1 (Waiter d (Wait d tl).2 (d <=? lastTriggerDeadline tl) :: ws).
Proof.
  intros []. unfold Wait. destruct (lastTriggerDeadline tl >=? d) eqn:E; zify_bool.
  { simpl. replace (d <=? _) with true by lia. split; try done.
    by intros w [->|Hw]%elem_of_cons; [|apply ti_waits0]. }
  replace (d <=? _) with false by lia. destruct (m tl !! d) as [ch|] eqn:Em; simpl.
  { split; try done. intros w [->|Hw]%elem_of_cons; [|by apply ti_waits0]. simpl.
    split; [by eapply ti_open0|done]. }
  assert (Hk : ∀ ch b, heap tl !! ch = Some b → (heap tl ++ [false]) !! ch = Some b)
    by (intros; by apply lookup_app_l_Some).
  assert (Hn : ∀ d' ch, m tl !! d' = Some ch → ch ≠ length (heap tl)).
  { intros d' ch Hd%ti_open0%lookup_lt_Some. lia. }
  split; simpl.
  - by apply Hk.
  - intros d' ch [[<- <-]|[_ Hd]]%lookup_insert_Some; [by apply list_lookup_middle|eauto].
  - intros d1 d2 ch [[<- <-]|[_ Hd]]%lookup_insert_Some [[<- He]|[_ Hd']]%lookup_insert_Some;
      naive_solver.
  - intros w [->|Hw]%elem_of_cons; simpl.
    + split; [by apply list_lookup_middle|by rewrite lookup_insert_eq].
    + destruct (ti_waits0 w Hw) as [? Hm]. split; [by apply Hk|]. intros Hf.
      rewrite lookup_insert_ne; [by apply Hm|]. intros ->. specialize (Hm Hf). congruence.
Qed.

Lemma run_time_inv l : ∀ tl ws,
  time_inv tl ws → ∃ tl' ws', timeList.run l tl ws = Ret (tl', ws') ∧ time_inv tl' ws'.
Proof.
  induction l as [|[d|d] l IH]; intros tl ws H; cbn [timeList.run]; [by eexists _, _| |].
  - pose proof (Wait_ok d tl ws H) as HW. destruct (Wait d tl) as [tl' ch]. by apply IH.
  - destruct (Trigger_ok d tl ws H) as (tl' & -> & H'). rewrite bind_Ret. by apply IH.
Qed.
End TimeListProps.

