(* ===== verification/Stats.v ===== *)
(** * etcdserver/api/v2stats: request statistics

    The server keeps the last 200 requests it sent and received in a ring.
    Times are nanoseconds; pointers to request records, which are never
    written after they were made, are the records. *)

From S2P Require Import Prelude Raft GoFloat.
From Stdlib Require Import SpecFloat.

Definition queueCapacity : Z := 200.

Module RequestStats.
Record t := mk { SendingTime : Z; Size : Z }.
End RequestStats.

(** ** queue.go *)
Module statsQueue.
Record t := mk {
  items : list (option RequestStats.t);   (** an array of [queueCapacity] pointers *)
  size : Z; front : Z; back : Z; totalReqSize : Z
}.

(** [&statsQueue{back: -1}] *)
Definition new : t := mk (replicate (Z.to_nat queueCapacity) None) 0 0 (-1) 0.

Definition Len (q : t) : Z := size q.
Definition ReqSize (q : t) : Z := totalReqSize q.

Definition frontAndBack (q : t) : outcome (option RequestStats.t * option RequestStats.t) :=
  if negb (size q =? 0) then
    f ← go_index (items q) (front q);
    b ← go_index (items q) (back q);
    Ret (f, b)
  else Ret (None, None).

(** [q.items[i].Size] *)
Definition sizeAt (q : t) (i : Z) : outcome Z :=
  p ← go_index (items q) i;
  match p with Some p => Ret (RequestStats.Size p) | None => Panic NilDereference end.

(** [q.items[i] = p] *)
Definition setItem (i : Z) (p : option RequestStats.t) (q : t) : outcome t :=
  _ ← go_index (items q) i;
  Ret (q <| items := <[Z.to_nat i := p]> (items q) |>).

Definition Insert (p : RequestStats.t) (q : t) : outcome t :=
  let q := q <| back := Z.rem (back q + 1) queueCapacity |> in
  q ← (if size q =? queueCapacity then
         s ← sizeAt q (front q);
         Ret (q <| totalReqSize := i64 (totalReqSize q - s) |>
                <| front := Z.rem (back q + 1) queueCapacity |>)
       else Ret (q <| size := size q + 1 |>));
  q ← setItem (back q) (Some p) q;
  s ← sizeAt q (back q);
  Ret (q <| totalReqSize := i64 (totalReqSize q + s) |>).

Definition Clear (q : t) : t :=
  q <| back := -1 |> <| front := 0 |> <| size := 0 |> <| totalReqSize := 0 |>.

(** The difference of two times saturates. *)
Definition timeSub (a b : Z) : Z := Z.max (- 2 ^ 63) (Z.min (2 ^ 63 - 1) (a - b)).

(** Requests and bytes per second. *)
Definition Rate (now : Z) (q : t) : outcome (t * (float64 * float64)) :=
  let zero := float64.of_int 0 in
  '(f, b) ← frontAndBack q;
  match f, b with
  | Some f, Some b =>
      if timeSub now (RequestStats.SendingTime b) >? 1000000000 then Ret (Clear q, (zero, zero))
      else
        let sampleDuration := timeSub (RequestStats.SendingTime b) (RequestStats.SendingTime f) in
        let rate n := float64.mul (float64.div (float64.of_int n) (float64.of_int sampleDuration))
                        (float64.of_int 1000000000) in
        Ret (q, (rate (Len q), rate (ReqSize q)))
  | _, _ => Ret (q, (zero, zero))
  end.
End statsQueue.

(** ** server.go, leader.go *)
Module ServerStats.
(** The rates are only ever written as 0.  [Uptime] is a string, [State] a raft
    state. *)
Record t := mk {
  Name : list Z; ID : list Z; State : Z; StartTime : Z;
  LeaderName : list Z; LeaderUptime : list Z; LeaderStartTime : Z;
  RecvAppendRequestCnt : Z; SendAppendRequestCnt : Z;
  sendRateQueue : statsQueue.t; recvRateQueue : statsQueue.t
}.

Definition NewServerStats (now : Z) (name id : list Z) : t :=
  mk name id StateFollower now [] [] now 0 0 statsQueue.new statsQueue.new.
End ServerStats.

Module LeaderStats.
Record CountsStats := Counts { Fail : Z; Success : Z }.
Record t := mk { Leader : list Z; Followers : gmap (list Z) CountsStats }.
Definition NewLeaderStats (id : list Z) : t := mk id ∅.
End LeaderStats.

(** ** The ring is a bounded queue *)

(** The specification: the requests in order, oldest first; inserting into a
    full queue drops the oldest. *)
Module QueueSpec.
Definition Insert (p : RequestStats.t) (l : list RequestStats.t) : list RequestStats.t :=
  drop (Z.to_nat (len l + 1 - queueCapacity)) (l ++ [p]).
Definition total (l : list RequestStats.t) : Z := foldr (λ p s, RequestStats.Size p + s) 0 l.

Inductive op := OpInsert (p : RequestStats.t) | OpRate (now : Z) | OpClear.

(** [Rate] empties a queue whose last request is more than a second old. *)
Definition step (o : op) (l : list RequestStats.t) : list RequestStats.t :=
  match o with
  | OpInsert p => Insert p l
  | OpRate now =>
      match last l with
      | Some b => if statsQueue.timeSub now (RequestStats.SendingTime b) >? 1000000000 then [] else l
      | None => l
      end
  | OpClear => []
  end.
End QueueSpec.

Definition queue_step (o : QueueSpec.op) (q : statsQueue.t) : outcome statsQueue.t :=
  match o with
  | QueueSpec.OpInsert p => statsQueue.Insert p q
  | QueueSpec.OpRate now => r ← statsQueue.Rate now q; Ret r.1
  | QueueSpec.OpClear => Ret (statsQueue.Clear q)
  end.
Fixpoint queue_run (os : list QueueSpec.op) (q : statsQueue.t) : outcome statsQueue.t :=
  match os with
  | [] => Ret q
  | o :: os => q ← queue_step o q; queue_run os q
  end.

Section QueueProps.
Import statsQueue.
Implicit Types (q : statsQueue.t) (l : list RequestStats.t).

(** The element at distance [i] from the front is the [i]-th of the queue.
    Until the ring is full it is not rotated. *)
Record queue_inv q l : Prop := {
  qi_items : len (items q) = 200;
  qi_size : size q = len l;
  qi_cap : len l ≤ 200;
  qi_partial : len l < 200 → front q = 0 ∧ back q = len l - 1;
  qi_full : len l = 200 → 0 ≤ back q < 200 ∧ front q = (back q + 1) mod 200;
  qi_elem : ∀ i p, l !! i = Some p →
    items q !! Z.to_nat ((front q + Z.of_nat i) mod 200) = Some (Some p);
  qi_total : totalReqSize q = i64 (QueueSpec.total l)
}.

Lemma i64_add_l a b : i64 (i64 a + b) = i64 (a + b).
Proof.
  unfold i64. f_equal.
  replace ((a + 2 ^ 63) mod 2 ^ 64 - 2 ^ 63 + b + 2 ^ 63) with ((a + 2 ^ 63) mod 2 ^ 64 + b) by lia.
  rewrite Zplus_mod_idemp_l. f_equal. lia.
Qed.

Lemma total_app l k : QueueSpec.total (l ++ k) = QueueSpec.total l + QueueSpec.total k.
Proof. induction l as [|p l IH]; simpl; [done|]. unfold QueueSpec.total in *. simpl. lia. Qed.

Lemma sizeAt_ok q i p :
  0 ≤ i → items q !! Z.to_nat i = Some (Some p) → sizeAt q i = Ret (RequestStats.Size p).
Proof. intros Hi Hp. unfold sizeAt. by rewrite (proj2 (go_index_Ret _ _ _) (conj Hi Hp)). Qed.

Lemma setItem_ok q i p :
  0 ≤ i < len (items q) → setItem i p q = Ret (q <| items := <[Z.to_nat i := p]> (items q) |>).
Proof. intros Hi. unfold setItem. by destruct (go_index_in_range (items q) i Hi) as (x & -> & _). Qed.

Lemma new_inv : queue_inv new [].
Proof. split; try done. Qed.

Lemma Clear_inv q l : queue_inv q l → queue_inv (Clear q) [].
Proof. intros []. split; try done. Qed.

Lemma Insert_inv q l p :
  queue_inv q l → ∃ q', statsQueue.Insert p q = Ret q' ∧ queue_inv q' (QueueSpec.Insert p l).
Proof.
  intros [Hit Hsz Hcap Hpart Hfull Hel Htot]. pose proof (len_nonneg l).
  unfold statsQueue.Insert, QueueSpec.Insert, queueCapacity. simpl. rewrite Hsz.
  destruct (len l =? 200) eqn:E; zify_bool.
  - destruct (Hfull E) as [Hb Hf]. destruct l as [|p0 l]; [done|]. rewrite len_cons in *.
    rewrite (Z.rem_mod_nonneg (back q + 1)) by lia.
    pose proof (Z.mod_pos_bound (back q + 1) 200 ltac:(lia)) as Hb'.
    set (b' := (back q + 1) mod 200) in *.
    pose proof (Hel 0%nat p0 eq_refl) as H0. rewrite Z.add_0_r, Hf in H0.
    rewrite Z.mod_small in H0 by lia.
    rewrite (sizeAt_ok _ _ p0) by (simpl; (lia || by rewrite Hf)). rewrite bind_Ret. simpl.
    rewrite setItem_ok by (simpl; lia). rewrite bind_Ret. simpl.
    rewrite (sizeAt_ok _ _ p) by (simpl; (lia || (apply list_lookup_insert_eq; unfold len in *; lia))).
    rewrite bind_Ret, Z.rem_mod_nonneg by lia. eexists. split; [done|].
    replace (Z.to_nat (1 + len l + 1 - 200)) with 1%nat by lia. simpl. rewrite drop_0.
    assert (Hl : len (l ++ [p]) = 200) by (rewrite len_app, len_cons, len_nil; lia).
    split; simpl; rewrite ?Hl; try lia.
    + unfold len. rewrite length_insert. apply Hit.
    + intros i p' Hi. destruct (decide (i = length l)) as [->|Hne].
      * rewrite list_lookup_middle in Hi by done. injection Hi as <-.
        replace (((b' + 1) mod 200 + Z.of_nat (length l)) mod 200) with b'.
        { apply list_lookup_insert_eq. unfold len in *. lia. }
        unfold len in *. rewrite Zplus_mod_idemp_l.
        replace (b' + 1 + Z.of_nat (length l)) with (b' + 1 * 200) by lia.
        rewrite Z.mod_add, Z.mod_small; lia.
      * apply lookup_app_Some in Hi as [Hi|[Hge Hi]].
        2:{ pose proof (lookup_lt_Some _ _ _ Hi). simpl in *. lia. }
        pose proof (lookup_lt_Some _ _ _ Hi). specialize (Hel (S i) p' Hi).
        assert (Hp : ((b' + 1) mod 200 + Z.of_nat i) mod 200 = (front q + Z.of_nat (S i)) mod 200).
        { rewrite Hf, Zplus_mod_idemp_l. f_equal. lia. }
        rewrite Hp. rewrite list_lookup_insert_ne; [done|]. rewrite Hf.
        unfold len in *. pose proof (Z.mod_pos_bound (b' + Z.of_nat (S i)) 200 ltac:(lia)).
        intros He. apply Z2Nat.inj in He; try lia.
        pose proof (Z.div_mod (b' + Z.of_nat (S i)) 200 ltac:(lia)). nia.
    + rewrite total_app, Htot, <- Z.add_opp_r, i64_add_l, <- Z.add_assoc, i64_add_l. f_equal.
      unfold QueueSpec.total. simpl. lia.
  - destruct (Hpart ltac:(lia)) as [Hf Hb]. rewrite bind_Ret. simpl. rewrite Hb, (Z.rem_mod_nonneg (len l - 1 + 1)), Z.mod_small by lia.
    rewrite setItem_ok by (simpl; lia). rewrite bind_Ret. simpl.
    rewrite (sizeAt_ok _ _ p) by (simpl; (lia || (apply list_lookup_insert_eq; unfold len in *; lia))).
    rewrite bind_Ret. eexists. split; [done|].
    replace (Z.to_nat (len l + 1 - 200)) with 0%nat by lia. rewrite drop_0.
    assert (Hl : len (l ++ [p]) = len l + 1) by (rewrite len_app, len_cons, len_nil; lia).
    split; simpl; rewrite ?Hl; try lia.
    + unfold len. rewrite length_insert. apply Hit.
    + intros Hn. rewrite Hf. split; [lia|]. by replace (len l - 1 + 1 + 1) with 200 by lia.
    + intros i p' Hi. pose proof (lookup_lt_Some _ _ _ Hi) as Hlt. rewrite length_app in Hlt. simpl in Hlt.
      unfold len in *. rewrite Hf, Z.mod_small by lia. apply lookup_app_Some in Hi as [Hi|[Hge Hi]].
      * pose proof (lookup_lt_Some _ _ _ Hi). rewrite list_lookup_insert_ne by lia.
        rewrite <- (Hel i p' Hi), Hf. by rewrite Z.mod_small by lia.
      * replace i with (length l) in * by lia. rewrite Nat.sub_diag in Hi. injection Hi as <-.
        replace (Z.to_nat (0 + Z.of_nat (length l))) with (Z.to_nat (Z.of_nat (length l) - 1 + 1)) by lia.
        apply list_lookup_insert_eq. lia.
    + rewrite total_app, Htot, i64_add_l. f_equal. unfold QueueSpec.total. simpl. lia.
Qed.

Lemma frontAndBack_ok q l : queue_inv q l → frontAndBack q = Ret (head l, last l).
Proof.
  intros [Hit Hsz Hcap Hpart Hfull Hel Htot]. pose proof (len_nonneg l).
  unfold frontAndBack. rewrite Hsz. destruct (len l =? 0) eqn:E; zify_bool; simpl.
  { apply len_0 in E as ->. done. }
  destruct l as [|p0 l _] using rev_ind; [done|].
  assert (Hlast : (l ++ [p0]) !! length l = Some p0) by (by apply list_lookup_middle).
  assert (Hhead : ∃ p1, head (l ++ [p0]) = Some p1 ∧ (l ++ [p0]) !! 0%nat = Some p1)
    by (destruct l; by eexists).
  destruct Hhead as (p1 & Hh & Hhead). rewrite Hh, last_snoc.
  rewrite len_app, len_cons, len_nil in *.
  assert (HF : 0 ≤ front q < 200).
  { destruct (decide (len l + 1 = 200)) as [Hn|Hn].
    - destruct (Hfull ltac:(lia)) as [_ ->]. apply Z.mod_pos_bound. lia.
    - destruct (Hpart ltac:(lia)) as [-> _]. lia. }
  assert (HB : 0 ≤ back q ∧ (front q + Z.of_nat (length l)) mod 200 = back q).
  { unfold len in *. destruct (decide (Z.of_nat (length l) + 1 = 200)) as [Hn|Hn].
    - destruct (Hfull ltac:(lia)) as [? ->]. split; [lia|]. rewrite Zplus_mod_idemp_l.
      replace (back q + 1 + Z.of_nat (length l)) with (back q + 1 * 200) by lia.
      rewrite Z.mod_add, Z.mod_small; lia.
    - destruct (Hpart ltac:(lia)) as [-> ->]. split; [lia|]. rewrite Z.mod_small; lia. }
  apply Hel in Hlast, Hhead. destruct HB as [HB Hmod]. rewrite Hmod in Hlast.
  rewrite Z.add_0_r, Z.mod_small in Hhead by lia.
  rewrite (proj2 (go_index_Ret _ _ _) (conj (proj1 HF) Hhead)), bind_Ret.
  by rewrite (proj2 (go_index_Ret _ _ _) (conj HB Hlast)).
Qed.

Lemma queue_step_ok o q l :
  queue_inv q l → ∃ q', queue_step o q = Ret q' ∧ queue_inv q' (QueueSpec.step o l).
Proof.
  intros H. destruct o as [p|now|]; cbn [queue_step QueueSpec.step].
  - by apply Insert_inv.
  - unfold Rate. rewrite (frontAndBack_ok q l H), bind_Ret.
    destruct l as [|p0 l _] using rev_ind; [by eexists|]. rewrite last_snoc.
    assert (Hh : ∃ p1, head (l ++ [p0]) = Some p1) by (destruct l; by eexists).
    destruct Hh as [p1 ->]. destruct (_ >? _); rewrite bind_Ret; eexists; (split; [done|]); [|done].
    by eapply Clear_inv.
  - eexists. split; [done|]. by eapply Clear_inv.
Qed.

(** The rate of a single request: its sample has no duration, and the quotient is
    infinite. *)
Lemma Rate_single now q p :
  queue_inv q [p] → timeSub now (RequestStats.SendingTime p) ≤ 1000000000 →
  ∃ br, Rate now q = Ret (q, (S754_infinity false, br)).
Proof.
  intros H Ht. unfold Rate. rewrite (frontAndBack_ok q [p] H), bind_Ret. cbn [head last].
  case_bool. destruct H as [_ Hsz _ _ _ _ _]. unfold Len. rewrite Hsz.
  replace (timeSub _ _) with 0 by (unfold timeSub; lia). rewrite div_zero by done. by eexists.
Qed.

Lemma queue_run_ok os : ∀ q l,
  queue_inv q l →
  ∃ q', queue_run os q = Ret q' ∧ queue_inv q' (foldl (λ l o, QueueSpec.step o l) l os).
Proof.
  induction os as [|o os IH]; intros q l H; cbn [queue_run foldl]; [by eexists|].
  destruct (queue_step_ok o q l H) as (q' & -> & H'). rewrite bind_Ret. by apply IH.
Qed.
End QueueProps.

(** C31 (refinement): the ring of request statistics implements a queue of the
    last 200 requests.  For every sequence of inserts, rate queries and clears
    no index is out of range and no nil entry is read, and the length, the total
    size (as an [int]), the oldest and the newest request that the ring reports
    are those of the queue. *)
Theorem statsQueue_refines os :
  let l := foldl (λ l o, QueueSpec.step o l) [] os in
  ∃ q, queue_run os statsQueue.new = Ret q ∧
    statsQueue.Len q = len l ∧ len l ≤ queueCapacity ∧
    statsQueue.ReqSize q = i64 (QueueSpec.total l) ∧
    statsQueue.frontAndBack q = Ret (head l, last l).
Proof.
  intros l. destruct (queue_run_ok os _ _ new_inv) as (q & Hr & Hi). fold l in Hi.
  exists q. split; [done|]. pose proof (frontAndBack_ok q l Hi). by destruct Hi.
Qed.
