(* ===== verification/Lease.v ===== *)
(** * lease: the lessor and its queue

    [LeaseQueue] is a heap of pointers: the records live in a store, and each
    carries its position in the queue. *)

From S2P Require Import Prelude.

(** ** lease_queue.go *)
Module LeaseWithTime.
Record t := mk { id : Z; time : Z; index : Z }.
End LeaseWithTime.

Module LeaseQueue.
(** The records by address, and the slice of pointers. *)
Record t := mk { mem : gmap nat LeaseWithTime.t; pq : list nat }.

(** [pq[i]], dereferenced. *)
Definition at_ (q : t) (i : Z) : outcome (nat * LeaseWithTime.t) :=
  p ← go_index (pq q) i;
  match mem q !! p with Some x => Ret (p, x) | None => Panic NilDereference end.

(** [pq[i].index = k] *)
Definition setIndex (i k : Z) (q : t) : outcome t :=
  '(p, x) ← at_ q i;
  Ret (q <| mem := <[p := x <| LeaseWithTime.index := k |>]> (mem q) |>).

Definition Len (q : t) : Z := len (pq q).

Definition Less (i j : Z) (q : t) : outcome bool :=
  '(_, a) ← at_ q i;
  '(_, b) ← at_ q j;
  Ret (LeaseWithTime.time a <? LeaseWithTime.time b).

Definition Swap (i j : Z) (q : t) : outcome t :=
  pi ← go_index (pq q) i;
  pj ← go_index (pq q) j;
  let q := q <| pq := <[Z.to_nat j := pi]> (<[Z.to_nat i := pj]> (pq q)) |> in
  q ← setIndex i i q;
  setIndex j j q.

(** [item] is the address of the record that is pushed. *)
Definition Push (item : nat) (q : t) : outcome t :=
  let n := len (pq q) in
  match mem q !! item with
  | None => Panic NilDereference
  | Some x =>
      let q := q <| mem := <[item := x <| LeaseWithTime.index := n |>]> (mem q) |> in
      Ret (q <| pq := pq q ++ [item] |>)
  end.

Definition Pop (q : t) : outcome (t * nat) :=
  let n := len (pq q) in
  '(item, x) ← at_ q (n - 1);
  let q := q <| mem := <[item := x <| LeaseWithTime.index := -1 |>]> (mem q) |> in
  old ← go_slice (pq q) 0 (n - 1);
  Ret (q <| pq := old |>, item).

Definition empty : t := mk ∅ [].
End LeaseQueue.

Module LeaseExpiredNotifier.
Record t := mk { m : gmap Z nat; queue : LeaseQueue.t }.
Definition newLeaseExpiredNotifier : t := mk ∅ LeaseQueue.empty.
End LeaseExpiredNotifier.

(** ** lessor.go

    Durations are nanoseconds.  The channels are the leases in them and their
    capacity, the backend a handle. *)
Definition NoLease : Z := 0.
Definition MaxLeaseTTL : Z := 9000000000.
Definition defaultLeaseCheckpointInterval : Z := 5 * 60 * 1000000000.
Definition defaultExpiredleaseRetryInterval : Z := 3 * 1000000000.

Module Lease.
Record t := mk {
  ID : Z; ttl : Z; remainingTTL : Z; expiry : Z;
  itemSet : gset (list Z);
  revokec : bool   (** closed *)
}.
End Lease.

Module LessorConfig.
Record t := mk { MinLeaseTTL : Z; CheckpointInterval : Z; ExpiredLeasesRetryInterval : Z }.
End LessorConfig.

Module lessor.
Record t := mk {
  leaseMap : gmap Z Lease.t;
  leaseExpiredNotifier : LeaseExpiredNotifier.t;
  leaseCheckpointHeap : LeaseQueue.t;
  itemMap : gmap (list Z) Z;
  b : Z;
  minLeaseTTL : Z;
  expiredC : list (list Lease.t); expiredC_cap : Z;
  lg : bool;
  checkpointInterval : Z; expiredLeaseRetryInterval : Z
}.

Definition newLessor (lg : bool) (b : Z) (cfg : LessorConfig.t) : t :=
  let checkpointInterval := LessorConfig.CheckpointInterval cfg in
  let expiredLeaseRetryInterval := LessorConfig.ExpiredLeasesRetryInterval cfg in
  let checkpointInterval :=
    if checkpointInterval =? 0 then defaultLeaseCheckpointInterval else checkpointInterval in
  let expiredLeaseRetryInterval :=
    if expiredLeaseRetryInterval =? 0 then defaultExpiredleaseRetryInterval
    else expiredLeaseRetryInterval in
  mk ∅ LeaseExpiredNotifier.newLeaseExpiredNotifier LeaseQueue.empty ∅ b
    (LessorConfig.MinLeaseTTL cfg) [] 16 lg checkpointInterval expiredLeaseRetryInterval.

Definition NewLessor : bool → Z → LessorConfig.t → t := newLessor.
Definition ExpiredLeasesC (l : t) : list (list Lease.t) := expiredC l.
End lessor.

(** ** The queue's records know their positions *)

Section QueueProps.
Import LeaseQueue.
Implicit Types (q : LeaseQueue.t).

Definition lease_inv q : Prop :=
  NoDup (pq q) ∧
  ∀ i p, pq q !! i = Some p → ∃ x, mem q !! p = Some x ∧ LeaseWithTime.index x = Z.of_nat i.

(** The lease and time of every record of the store. *)
Definition payload q : gmap nat (Z * Z) :=
  (λ x, (LeaseWithTime.id x, LeaseWithTime.time x)) <$> mem q.

Inductive op := OpSwap (i j : Z) | OpPush (item : nat) | OpPop.
Definition queue_op (o : op) q : outcome LeaseQueue.t :=
  match o with
  | OpSwap i j => Swap i j q
  | OpPush item => Push item q
  | OpPop => r ← Pop q; Ret r.1
  end.

(** What [container/heap] may ask for: positions of the queue, records that are
    not in it, and no removal from an empty queue. *)
Definition op_ok (o : op) q : Prop :=
  match o with
  | OpSwap i j => 0 ≤ i < Len q ∧ 0 ≤ j < Len q
  | OpPush item => is_Some (mem q !! item) ∧ item ∉ pq q
  | OpPop => 0 < Len q
  end.

(** The slice after the operation. *)
Definition pq_after (o : op) q : list nat :=
  match o with
  | OpSwap i j =>
      match pq q !! Z.to_nat i, pq q !! Z.to_nat j with
      | Some a, Some b => <[Z.to_nat j := a]> (<[Z.to_nat i := b]> (pq q))
      | _, _ => pq q
      end
  | OpPush item => pq q ++ [item]
  | OpPop => take (length (pq q) - 1) (pq q)
  end.

Lemma setIndex_ok q i k p x :
  0 ≤ i → pq q !! Z.to_nat i = Some p → mem q !! p = Some x →
  setIndex i k q = Ret (q <| mem := <[p := x <| LeaseWithTime.index := k |>]> (mem q) |>).
Proof.
  intros Hi Hp Hx. unfold setIndex, at_.
  by rewrite (proj2 (go_index_Ret _ _ _) (conj Hi Hp)), bind_Ret, Hx.
Qed.

Lemma payload_set q p x k :
  mem q !! p = Some x →
  payload (q <| mem := <[p := x <| LeaseWithTime.index := k |>]> (mem q) |>) = payload q.
Proof.
  intros Hx. unfold payload. simpl. rewrite fmap_insert. simpl.
  apply insert_id. by rewrite lookup_fmap, Hx.
Qed.

Lemma swap_lookup (l : list nat) i j a b k :
  l !! i = Some a → l !! j = Some b →
  <[j := a]> (<[i := b]> l) !! k =
  if decide (k = j) then Some a else if decide (k = i) then Some b else l !! k.
Proof.
  intros Hi Hj. apply lookup_lt_Some in Hi as Li. apply lookup_lt_Some in Hj as Lj.
  case_decide; [subst; apply list_lookup_insert_eq; by rewrite length_insert|].
  rewrite list_lookup_insert_ne by done.
  case_decide; [subst; by apply list_lookup_insert_eq|by apply list_lookup_insert_ne].
Qed.

Lemma swap_ok q i j :
  lease_inv q → 0 ≤ i < Len q → 0 ≤ j < Len q →
  ∃ q', Swap i j q = Ret q' ∧ lease_inv q' ∧ payload q' = payload q ∧
    pq q' = pq_after (OpSwap i j) q.
Proof.
  intros [Hnd Hix] Hi Hj. unfold Len in *. unfold Swap. cbn [pq_after].
  destruct (go_index_in_range _ _ Hi) as (pi & -> & Hpi).
  destruct (go_index_in_range _ _ Hj) as (pj & -> & Hpj). rewrite !bind_Ret, Hpi, Hpj.
  set (l := <[Z.to_nat j := pi]> (<[Z.to_nat i := pj]> (pq q))).
  assert (Hl : ∀ k, l !! k = if decide (k = Z.to_nat j) then Some pi
    else if decide (k = Z.to_nat i) then Some pj else pq q !! k).
  { intros k. by apply swap_lookup. }
  destruct (Hix _ _ Hpi) as (xi & Hxi & Ii). destruct (Hix _ _ Hpj) as (xj & Hxj & Ij).
  assert (Hat : l !! Z.to_nat i = Some pj).
  { rewrite Hl. case_decide as He; [|by rewrite decide_True]. rewrite He in Hpi. congruence. }
  assert (Hbt : l !! Z.to_nat j = Some pi) by (rewrite Hl; by rewrite decide_True).
  rewrite (setIndex_ok _ _ _ pj xj) by (done || lia). rewrite bind_Ret.
  set (q1 := (q <| pq := l |>) <| mem := <[pj := xj <| LeaseWithTime.index := i |>]> (mem q) |>).
  assert (Hx1 : ∃ x1, mem q1 !! pi = Some x1).
  { unfold q1. simpl. destruct (decide (pj = pi)) as [->|]; [rewrite lookup_insert_eq; by eexists|].
    rewrite lookup_insert_ne by done. by eexists. }
  destruct Hx1 as (x1 & Hx1).
  change (mem (q <| pq := l |>)) with (mem q). fold q1.
  rewrite (setIndex_ok q1 j j pi x1) by (done || lia).
  eexists. split; [done|]. split; [|split; [|done]].
  - split; simpl.
    + assert (Hu : ∀ k k' p, pq q !! k = Some p → pq q !! k' = Some p → k = k')
        by (intros; by eapply NoDup_lookup).
      apply NoDup_alt. intros k k' p. rewrite !Hl. repeat case_decide; intros; simplify_eq; naive_solver.
    + intros k p Hk. rewrite Hl in Hk. destruct (decide (k = Z.to_nat j)) as [->|Hkj].
      { injection Hk as <-. eexists. rewrite lookup_insert_eq. split; [done|]. simpl. lia. }
      destruct (decide (k = Z.to_nat i)) as [->|Hki].
      { injection Hk as <-. rewrite lookup_insert_ne.
        - eexists. rewrite lookup_insert_eq. split; [done|]. simpl. lia.
        - intros ->. apply Hkj. by eapply NoDup_lookup. }
      rewrite !lookup_insert_ne; [by apply Hix| |].
      * intros ->. apply Hkj. by eapply NoDup_lookup.
      * intros ->. apply Hki. by eapply NoDup_lookup.
  - rewrite payload_set by done. exact (payload_set (mk (mem q) l) pj xj i Hxj).
Qed.

Lemma push_ok q item :
  lease_inv q → is_Some (mem q !! item) → item ∉ pq q →
  ∃ q', Push item q = Ret q' ∧ lease_inv q' ∧ payload q' = payload q ∧ pq q' = pq q ++ [item].
Proof.
  intros [Hnd Hix] [x Hx] Hni. unfold Push. rewrite Hx. eexists. split; [done|]. split; [|split; [|done]].
  - split; simpl.
    + apply NoDup_app. split_and!; [done|set_solver|apply NoDup_singleton].
    + intros i p [Hi|[Hge Hi]]%lookup_app_Some.
      * rewrite lookup_insert_ne; [by apply Hix|]. intros ->.
        apply Hni. by eapply list_elem_of_lookup_2.
      * apply list_lookup_singleton_Some in Hi as [Hi <-]. rewrite lookup_insert_eq.
        eexists. split; [done|]. simpl. unfold len. lia.
  - change (payload (_ <| pq := _ |>)) with
      (payload (q <| mem := <[item := x <| LeaseWithTime.index := len (pq q) |>]> (mem q) |>)).
    by apply payload_set.
Qed.

Lemma pop_ok q :
  lease_inv q → 0 < Len q →
  ∃ q' item, Pop q = Ret (q', item) ∧ lease_inv q' ∧ payload q' = payload q ∧
    pq q = pq q' ++ [item] ∧ LeaseWithTime.index <$> mem q' !! item = Some (-1).
Proof.
  intros [Hnd Hix] Hn. unfold Len in Hn. unfold Pop, at_.
  destruct (pq q) as [|item l _] eqn:Hq using rev_ind; [done|].
  assert (Hl : len (l ++ [item]) - 1 = len l) by (rewrite len_app, len_cons, len_nil; lia).
  rewrite Hl. pose proof (len_nonneg l).
  assert (Hlast : (l ++ [item]) !! Z.to_nat (len l) = Some item).
  { unfold len. rewrite Nat2Z.id. by apply list_lookup_middle. }
  rewrite (proj2 (go_index_Ret _ _ _) (conj (len_nonneg l) Hlast)), bind_Ret.
  destruct (Hix _ _ Hlast) as (x & Hx & Ix). rewrite Hx, bind_Ret. simpl. rewrite Hq.
  rewrite go_slice_prefix by (rewrite len_app; pose proof (len_nonneg [item]); lia).
  unfold len at 1. rewrite Nat2Z.id, take_app_length, bind_Ret.
  apply NoDup_app in Hnd as (Hnd & Hd & _).
  do 2 eexists. split; [done|]. split_and!; try done.
  - split; simpl; [done|]. intros i p Hi. rewrite lookup_insert_ne.
    + apply Hix. by apply lookup_app_l_Some.
    + intros ->. apply (Hd p); [by eapply list_elem_of_lookup_2|set_solver].
  - change (payload (_ <| pq := _ |>)) with
      (payload (q <| mem := <[item := x <| LeaseWithTime.index := -1 |>]> (mem q) |>)).
    by apply payload_set.
  - simpl. by rewrite lookup_insert_eq.
Qed.
End QueueProps.

(** C34 (invariant): the operations that [container/heap] calls on a
    [LeaseQueue] never panic within the interface's rules, and keep that the
    queue's pointers are distinct and that every record in the queue stores its
    own position; they rearrange the slice as the interface asks (exchange two
    positions, append, remove the last) and change no record's lease or time.
    A record that is popped has position -1. *)
Theorem leaseQueue_positions o q :
  lease_inv q → op_ok o q →
  ∃ q', queue_op o q = Ret q' ∧ lease_inv q' ∧ payload q' = payload q ∧
    LeaseQueue.pq q' = pq_after o q ∧
    (∀ p, p ∈ LeaseQueue.pq q → p ∉ LeaseQueue.pq q' →
      LeaseWithTime.index <$> LeaseQueue.mem q' !! p = Some (-1)).
Proof.
  intros Hi Ho. destruct o as [i j|item|]; cbn [queue_op op_ok pq_after] in *.
  - destruct Ho as [H1 H2]. destruct (swap_ok q i j Hi H1 H2) as (q' & -> & Hi' & Hp & Hq).
    exists q'. split_and!; try done. intros p Hin Hout. exfalso. apply Hout. clear Hout.
    rewrite Hq. cbn [pq_after]. unfold LeaseQueue.Len in *.
    destruct (go_index_in_range _ _ H1) as (a & _ & Ha).
    destruct (go_index_in_range _ _ H2) as (b & _ & Hb). rewrite Ha, Hb.
    apply list_elem_of_lookup_1 in Hin as [k Hk]. apply list_elem_of_lookup.
    exists (if decide (k = Z.to_nat i) then Z.to_nat j
            else if decide (k = Z.to_nat j) then Z.to_nat i else k).
    rewrite (swap_lookup _ _ _ a b) by done. repeat case_decide; congruence.
  - destruct Ho as [H1 H2]. destruct (push_ok q item Hi H1 H2) as (q' & -> & Hi' & Hp & Hq).
    exists q'. split_and!; try done. intros p Hin Hout. rewrite Hq in Hout. set_solver.
  - destruct (pop_ok q Hi Ho) as (q' & item & -> & Hi' & Hp & Hq & Hx).
    exists q'. split_and!; try done.
    + rewrite Hq, length_app. simpl. by rewrite Nat.add_sub, take_app_length.
    + intros p. rewrite Hq. intros [?|?]%elem_of_app ?; [done|]. by set_solver.
Qed.

Definition sample_queue : LeaseQueue.t :=
  LeaseQueue.mk {[ 4%nat := LeaseWithTime.mk 7 50 0; 9%nat := LeaseWithTime.mk 8 20 1;
                   2%nat := LeaseWithTime.mk 9 30 5 ]} [4%nat; 9%nat].

Lemma leaseQueue_positions_witness :
  ∃ q', queue_op (OpPush 2) sample_queue = Ret q' ∧ LeaseQueue.pq q' = [4%nat; 9%nat; 2%nat].
Proof.
  destruct (leaseQueue_positions (OpPush 2) sample_queue) as (q' & H & _ & _ & Hq & _).
  - split; [repeat constructor; set_solver|].
    intros [|[|i]] p Hp; simpl in Hp; inversion Hp; subst; by eexists.
  - split; [by eexists|simpl; set_solver].
  - by exists q'.
Defined.
