(* ===== verification/Backend.v ===== *)
(** * mvcc/backend: the storage backend

    The bolt database and its transactions are handles; what [bolt.Open],
    [Begin] and [CreateBucket] answer is an argument.  The mutexes are part of
    the state: an operation that would wait for one that is held gives [None]. *)

From S2P Require Import Prelude GoFloat.

Module BackendConfig.
Record t := mk {
  Path : list Z; BatchInterval : Z; BatchLimit : Z; BackendFreelistType : list Z;
  MmapSize : Z; Logger : bool
}.
Definition defaultBatchLimit : Z := 10000.
Definition defaultBatchInterval : Z := 100 * 1000000.
Definition initialMmapSize : Z := 10 * 1024 * 1024 * 1024.

Definition DefaultBackendConfig : t :=
  mk [] defaultBatchInterval defaultBatchLimit [] initialMmapSize false.

(** config_linux.go: [int(bcfg.MmapSize)] *)
Definition mmapSize (c : t) : Z := i64 (MmapSize c).
End BackendConfig.

(** ** tx_buffer.go *)
Module txBuffer.
Record bucketBuffer := BucketBuffer { buf : list (list Z * list Z); used : Z }.
Abbreviation t := (gmap (list Z) bucketBuffer).

(** One round of the loop on the entry of [k]: [v] is a pointer to the value in the
    map.  Deleting during [range] is safe in Go. *)
Definition resetEntry (k : list Z) (txb : t) : t :=
  match txb !! k with
  | None => txb
  | Some v => if used v =? 0 then delete k txb else <[k := BucketBuffer (buf v) 0]> txb
  end.

(** [ks] are the keys in the order [range] visits them. *)
Definition reset (ks : list (list Z)) (txb : t) : t := foldl (λ m k, resetEntry k m) txb ks.
End txBuffer.

(** ** read_tx.go *)
Module readTx.
(** [mu] is [None] when locked for writing, otherwise the number of readers. *)
Record t := mk {
  mu : option Z; buf : txBuffer.t; tx : option Z; buckets : gmap (list Z) Z; txWg : Z
}.

Definition Lock (rt : t) : option t :=
  if decide (mu rt = Some 0) then Some (rt <| mu := None |>) else None.
Definition Unlock (rt : t) : outcome t :=
  match mu rt with
  | None => Ret (rt <| mu := Some 0 |>)
  | Some _ => Panic (PanicString "sync: Unlock of unlocked RWMutex")
  end.
Definition RLock (rt : t) : option t :=
  match mu rt with Some n => Some (rt <| mu := Some (n + 1) |>) | None => None end.
Definition RUnlock (rt : t) : outcome t :=
  match mu rt with
  | Some n => if 0 <? n then Ret (rt <| mu := Some (n - 1) |>)
              else Panic (PanicString "sync: RUnlock of unlocked RWMutex")
  | None => Panic (PanicString "sync: RUnlock of unlocked RWMutex")
  end.

Definition reset (ks : list (list Z)) (rt : t) : t :=
  rt <| buf := txBuffer.reset ks (buf rt) |> <| buckets := ∅ |> <| tx := None |> <| txWg := 0 |>.
End readTx.

(** ** batch_tx.go, backend.go *)
Module batchTx.
Record t := mk { mutex : bool; tx : option Z; pending : Z; buf : txBuffer.t; seq : bool }.
End batchTx.

Module backend.
(** [rollbacks] are the read transactions that a goroutine rolls back once the
    readers of their wait group are gone. *)
Record t := mk {
  size : Z; sizeInUse : Z; commits : Z; openReadTxN : Z;
  db : option Z; batchInterval : Z; batchLimit : Z;
  batchTx_ : batchTx.t; readTx_ : readTx.t;
  stopc : signal; donec : signal; lg : bool;
  rollbacks : list (Z * Z)
}.

(** [batchTxBuffered.Lock] *)
Definition Lock (b : t) : option t :=
  if batchTx.mutex (batchTx_ b) then None
  else Some (b <| batchTx_ ::= (λ x, x <| batchTx.mutex := true |>) |>).
Definition Unlock (b : t) : outcome t :=
  if batchTx.mutex (batchTx_ b)
  then Ret (b <| batchTx_ ::= (λ x, x <| batchTx.mutex := false |>) |>)
  else Panic (PanicString "sync: unlock of unlocked mutex").
Definition RLock (b : t) : outcome t := Panic (PanicString "unexpected RLock").
Definition RUnlock (b : t) : outcome t := Panic (PanicString "unexpected RUnlock").

Definition unsafeCommit (ks : list (list Z)) (b : t) : t :=
  match readTx.tx (readTx_ b) with
  | None => b
  | Some tx => b <| rollbacks := rollbacks b ++ [(tx, readTx.txWg (readTx_ b))] |>
                 <| readTx_ ::= readTx.reset ks |>
  end.

(** [commit(false)]: [Ret None] when the lock of the read transaction is held. *)
Definition commit (ks : list (list Z)) (b : t) : outcome (option t) :=
  match readTx.Lock (readTx_ b) with
  | None => Ret None
  | Some rt =>
      let b := unsafeCommit ks (b <| readTx_ := rt |>) in
      rt ← readTx.Unlock (readTx_ b);
      Ret (Some (b <| readTx_ := rt |>))
  end.

Definition Commit (ks : list (list Z)) (b : t) : outcome (option t) :=
  match Lock b with
  | None => Ret None
  | Some b =>
      b ← commit ks b;
      match b with
      | None => Ret None
      | Some b => b ← Unlock b; Ret (Some b)
      end
  end.
Definition ForceCommit : list (list Z) → t → outcome (option t) := Commit.

(** [create] is what [t.tx.CreateBucket(name)] answers: [None] is nil, [Some true]
    is [ErrBucketExists].  [tx] is nil until a transaction is begun. *)
Definition UnsafeCreateBucket (create : option bool) (b : t) : outcome t :=
  match batchTx.tx (batchTx_ b) with
  | None => Panic NilDereference
  | Some _ =>
      match create with
      | Some false => if lg b then Panic (PanicString "failed to create a bucket")
                      else Ret (b <| batchTx_ ::= (λ x, x <| batchTx.pending := batchTx.pending x + 1 |>) |>)
      | _ => Ret (b <| batchTx_ ::= (λ x, x <| batchTx.pending := batchTx.pending x + 1 |>) |>)
      end
  end.

(** The transaction that a backend writes to; its first [Commit] finds both locks
    free. *)
Definition newBatchTxBuffered (b : t) : outcome t :=
  let b := b <| batchTx_ := batchTx.mk false None 0 ∅ true |> in
  b ← Commit [] b;
  match b with Some b => Ret b | None => OutOfFuel end.

(** [open] is what [bolt.Open] gives.  Without a logger its error is ignored and
    the database is nil.  The batch transaction is set by [newBatchTxBuffered]. *)
Definition newBackend (open : outcome Z) (bcfg : BackendConfig.t) : outcome t :=
  db ← match open with
       | Ret d => Ret (Some d)
       | Err _ => if BackendConfig.Logger bcfg then Panic (PanicString "failed to open database") else Ret None
       | Panic p => Panic p
       | OutOfFuel => OutOfFuel
       end;
  let b := mk 0 0 0 0 db (BackendConfig.BatchInterval bcfg) (BackendConfig.BatchLimit bcfg)
             (batchTx.mk false None 0 ∅ true) (readTx.mk (Some 0) ∅ None ∅ 0)
             sig_open sig_open (BackendConfig.Logger bcfg) [] in
  newBatchTxBuffered b.

Definition New : outcome Z → BackendConfig.t → outcome t := newBackend.
Definition NewDefaultBackend (open : outcome Z) (path : list Z) : outcome t :=
  newBackend open (BackendConfig.DefaultBackendConfig <| BackendConfig.Path := path |>).

Definition Size (b : t) : Z := size b.
Definition SizeInUse (b : t) : Z := sizeInUse b.
Definition Commits (b : t) : Z := commits b.
Definition Defrag (b : t) : outcome unit := Ret tt.

(** One round of [run]: the timer changes nothing, a closed [stopc] ends the
    loop, which closes [donec]. *)
Definition runRound (b : t) : outcome t :=
  match stopc b with
  | sig_closed => d ← closeSignal (donec b); Ret (b <| donec := d |>)
  | _ => Ret b
  end.

(** [Close] closes [stopc] and waits until [run] has closed [donec].  [dbClose] is
    what closing the database gives. *)
Definition Close (dbClose : outcome unit) (b : t) : outcome t :=
  s ← closeSignal (stopc b);
  b ← runRound (b <| stopc := s |>);
  _ ← (match db b with None => Panic NilDereference | Some _ => dbClose end);
  Ret b.
End backend.

(** ** Snapshots *)
Module snapshot.
Definition minSnapshotWarningTimeout : Z := 30 * 1000000000.
Definition sendRateBytes : Z := 100 * 1024 * 1014.

(** The period of the ticker: the time that the database takes at the rate. *)
Definition warningTimeout (dbBytes : Z) : Z :=
  let t := float64.to_int64 (float64.mul (float64.div (float64.of_int dbBytes) (float64.of_int sendRateBytes))
             (float64.of_int 1000000000)) in
  if t <? minSnapshotWarningTimeout then minSnapshotWarningTimeout else t.

(** The transaction and whether it is rolled back, the channels, the ticker's
    period, the warnings that were logged, and whether a call of [Close] waits. *)
Record t := mk {
  tx : Z; rolledBack : bool; stopc : signal; donec : signal; period : Z; warnings : nat; closing : bool
}.

(** What happens to a snapshot: the ticker fires, the goroutine sees that [stopc] is
    closed and ends, a caller starts [Close], and goes on when [donec] is closed. *)
Inductive action := Tick | Stop | CloseBegin | CloseEnd.
(** [Ret None]: it cannot happen now. *)
Definition step (lg : bool) (a : action) (s : t) : outcome (option t) :=
  match a with
  | Tick =>
      match donec s with
      | sig_open => Ret (Some (if lg then s <| warnings := S (warnings s) |> else s))
      | _ => Ret None
      end
  | Stop =>
      match stopc s, donec s with
      | sig_closed, sig_open => d ← closeSignal (donec s); Ret (Some (s <| donec := d |>))
      | _, _ => Ret None
      end
  | CloseBegin =>
      c ← closeSignal (stopc s); Ret (Some (s <| stopc := c |> <| closing := true |>))
  | CloseEnd =>
      match closing s, donec s with
      | true, sig_closed => Ret (Some (s <| closing := false |> <| rolledBack := true |>))
      | _, _ => Ret None
      end
  end.

Fixpoint run (lg : bool) (l : list action) (s : t) : outcome (option t) :=
  match l with
  | [] => Ret (Some s)
  | a :: l => s ← step lg a s; match s with Some s => run lg l s | None => Ret None end
  end.
End snapshot.

(** [backend.Snapshot]: [Ret None] when it waits for a lock.  [begin] is the read
    transaction that bolt gives, with its size. *)
Definition Snapshot (ks : list (list Z)) (begin : outcome (Z * Z)) (b : backend.t)
    : outcome (option (backend.t * snapshot.t)) :=
  b ← backend.Commit ks b;
  match b with
  | None => Ret None
  | Some b =>
      '(tx, dbBytes) ←
        match backend.db b, begin with
        | None, _ => Panic NilDereference
        | Some _, Err _ => if backend.lg b then Panic (PanicString "logger.Fatal") else Panic NilDereference
        | Some _, o => o
        end;
      Ret (Some (b, snapshot.mk tx false sig_open sig_open (snapshot.warningTimeout dbBytes) 0 false))
  end.

(** ** Properties *)

Section Reset.
Implicit Types (m : txBuffer.t) (ks : list (list Z)).

(** What a reset leaves: the buckets that were used, marked unused. *)
Definition resetSpec_ m : txBuffer.t :=
  omap (λ v, if txBuffer.used v =? 0 then None else Some (txBuffer.BucketBuffer (txBuffer.buf v) 0)) m.

Lemma lookup_reset ks m k :
  NoDup ks →
  txBuffer.reset ks m !! k = if decide (k ∈ ks) then resetSpec_ m !! k else m !! k.
Proof.
  revert m. induction ks as [|k' ks IH]; intros m Hnd; [by rewrite decide_False by set_solver|].
  apply NoDup_cons in Hnd as [Hni Hnd]. cbn [txBuffer.reset foldl].
  change (foldl _ ?x ks) with (txBuffer.reset ks x). rewrite IH by done.
  assert (Hk : txBuffer.resetEntry k' m !! k = if decide (k = k') then resetSpec_ m !! k else m !! k).
  { unfold txBuffer.resetEntry, resetSpec_. rewrite lookup_omap.
    destruct (decide (k = k')) as [->|Hne].
    - destruct (m !! k') as [v|] eqn:E; simpl; [|done].
      destruct (_ =? 0); [by rewrite lookup_delete_eq|by rewrite lookup_insert_eq].
    - destruct (m !! k') as [v|] eqn:E; [|done].
      destruct (_ =? 0); [by rewrite lookup_delete_ne|by rewrite lookup_insert_ne]. }
  destruct (decide (k ∈ ks)) as [Hin|Hin].
  - rewrite decide_True by set_solver. unfold resetSpec_ at 1. rewrite lookup_omap, Hk.
    rewrite decide_False by (by intros ->). unfold resetSpec_. by rewrite lookup_omap.
  - rewrite Hk. repeat case_decide; set_solver.
Qed.

Lemma reset_spec ks m : NoDup ks → (∀ k, k ∈ ks ↔ k ∈ dom m) → txBuffer.reset ks m = resetSpec_ m.
Proof.
  intros Hnd Hks. apply map_eq. intros k. rewrite lookup_reset by done. case_decide as Hk; [done|].
  rewrite Hks, not_elem_of_dom in Hk. unfold resetSpec_. by rewrite lookup_omap, Hk.
Qed.
End Reset.

(** The demotion of idle buckets does not depend on the order
    in which the map is visited: the buckets that were used since the last reset
    stay, with their contents, marked unused, and the others go; a reset with no
    use in between empties the buffer. *)
Theorem txBuffer_reset_demotes (ks ks' : list (list Z)) (m : txBuffer.t) :
  NoDup ks → (∀ k, k ∈ ks ↔ k ∈ dom m) → ks ≡ₚ ks' →
  txBuffer.reset ks m = txBuffer.reset ks' m ∧
  (∀ k v, txBuffer.reset ks m !! k = Some v ↔
    ∃ u, u ≠ 0 ∧ m !! k = Some (txBuffer.BucketBuffer (txBuffer.buf v) u) ∧ txBuffer.used v = 0) ∧
  ∀ js, NoDup js → (∀ k, k ∈ js ↔ k ∈ dom (txBuffer.reset ks m)) →
    txBuffer.reset js (txBuffer.reset ks m) = ∅.
Proof.
  intros Hnd Hks Hp. rewrite (reset_spec ks) by done. split_and!.
  - symmetry. apply reset_spec; [by rewrite <- Hp|]. intros k. by rewrite <- Hp.
  - intros k v. unfold resetSpec_. rewrite lookup_omap. destruct (m !! k) as [[b u]|]; simpl.
    + destruct (u =? 0) eqn:E; zify_bool.
      * split; [done|]. naive_solver.
      * destruct v as [b' u']. split; [|naive_solver]. intros [= <- <-]. exists u. done.
    + naive_solver.
  - intros js Hj Hd. rewrite (reset_spec js) by done. apply map_eq. intros k. unfold resetSpec_.
    rewrite !lookup_omap, lookup_empty. destruct (m !! k) as [[b u]|]; simpl; [|done].
    by destruct (u =? 0).
Qed.

Lemma txBuffer_reset_demotes_witness :
  txBuffer.reset [[97]; [98]]
    {[ [97] := txBuffer.BucketBuffer [] 0; [98] := txBuffer.BucketBuffer [([1], [2])] 1 ]} !! [98] =
  Some (txBuffer.BucketBuffer [([1], [2])] 0).
Proof.
  apply (txBuffer_reset_demotes [[97]; [98]] [[98]; [97]]).
  - repeat constructor; set_solver.
  - intros k. set_solver.
  - constructor.
  - exists 1. split_and!; [done|reflexivity|reflexivity].
Defined.

(** ** Snapshots end *)

Section SnapshotProps.
Import snapshot.

(** 30 seconds at least; a minute and 43 seconds for ten gigabytes. *)
Lemma warningTimeout_min n : minSnapshotWarningTimeout ≤ warningTimeout n.
Proof. unfold warningTimeout. cbv zeta. case_bool; lia. Qed.
Lemma warningTimeout_examples :
  warningTimeout 0 = 30000000000 ∧ warningTimeout (10 * 1024 ^ 3) = 103409861932.
Proof. by vm_compute. Qed.

(** Where a snapshot can be. *)
Definition snap_inv (s : t) : Prop :=
  (stopc s = sig_open ∧ donec s = sig_open ∧ closing s = false ∧ rolledBack s = false) ∨
  (stopc s = sig_closed ∧ donec s = sig_open ∧ closing s = true ∧ rolledBack s = false) ∨
  (stopc s = sig_closed ∧ donec s = sig_closed ∧ closing s = negb (rolledBack s)).

Lemma snap_inv_step lg a s s' : snap_inv s → step lg a s = Ret (Some s') → snap_inv s' ∧ tx s' = tx s.
Proof.
  destruct s as [tx0 rb st dn p w cl]. unfold snap_inv. cbn.
  intros [(-> & -> & -> & ->)|[(-> & -> & -> & ->)|(-> & -> & ->)]] H; destruct a; cbn in H; try done;
    repeat case_match; simplify_eq/=; try destruct lg; naive_solver.
Qed.

#[local] Instance action_eq_dec : EqDecision action.
Proof. solve_decision. Defined.
Definition closes (l : list action) : nat := length (filter (λ a, a = CloseBegin) l).

Lemma snap_run lg l s :
  snap_inv s → (closes l + (if bool_decide (stopc s = sig_open) then 0 else 1) ≤ 1)%nat →
  ∃ o, run lg l s = Ret o ∧ ∀ s', o = Some s' → snap_inv s' ∧ tx s' = tx s.
Proof.
  revert s. induction l as [|a l IH]; intros s Hs Hc; cbn [run].
  { eexists. split; [done|]. by intros s' [= <-]. }
  assert (Hn : ∃ o, step lg a s = Ret o ∧ ∀ s', o = Some s' →
    (closes l + (if bool_decide (stopc s' = sig_open) then 0 else 1) ≤ 1)%nat).
  { unfold closes in *. rewrite filter_cons in Hc. destruct s as [tx0 rb st dn p w cl]. unfold snap_inv in Hs. cbn in Hs, Hc.
    destruct a; [rewrite decide_False in Hc by done..|rewrite decide_True in Hc by done|rewrite decide_False in Hc by done];
      cbn [length step stopc donec closing].
    - destruct dn; (eexists; split; [reflexivity|]); intros s' [= <-]; destruct lg; done.
    - destruct st, dn; (eexists; split; [reflexivity|]); intros s' H; simplify_eq/=; done.
    - destruct Hs as [(-> & _)|[(-> & _)|(-> & _)]].
      2-3: rewrite bool_decide_eq_false_2 in Hc by done; cbn [length] in Hc; lia.
      eexists. split; [reflexivity|]. intros s' [= <-]. cbn [length stopc] in *.
      rewrite bool_decide_eq_false_2; [lia|done].
    - destruct cl, dn; (eexists; split; [reflexivity|]); intros s' H; simplify_eq/=; done. }
  destruct Hn as ([s1|] & Hst & Hn); rewrite Hst, bind_Ret; [|by eexists].
  destruct (snap_inv_step lg a s s1 Hs Hst) as [H1 Ht]. rewrite <- Ht. apply IH; [done|]. by apply Hn.
Qed.

(** A snapshot that is closed once ends, whatever the ticker does meanwhile: no
    channel is closed twice, the transaction is rolled back only after the
    goroutine that warns has ended, and [Close], once called, can always go on to
    its end.  A second call panics. *)
Lemma snapshot_closes lg l s :
  snap_inv s → stopc s = sig_open → (closes l ≤ 1)%nat →
  ∃ o, run lg l s = Ret o ∧ ∀ s', o = Some s' →
    (rolledBack s' = true → donec s' = sig_closed) ∧
    (closing s' = true → ∃ s'', (run lg [CloseEnd] s' = Ret (Some s'') ∨ run lg [Stop; CloseEnd] s' = Ret (Some s''))
       ∧ rolledBack s'' = true) ∧
    (stopc s' = sig_closed → ∃ p, step lg CloseBegin s' = Panic p).
Proof.
  intros Hs Ho Hc. destruct (snap_run lg l s Hs) as (o & Hr & HP).
  { rewrite bool_decide_eq_true_2 by done. lia. }
  exists o. split; [done|]. intros s' He. destruct (HP s' He) as [Hi _].
  destruct s' as [tx0 rb st dn p w cl]. unfold snap_inv in Hi. cbn in *.
  destruct Hi as [(-> & -> & -> & ->)|[(-> & -> & -> & ->)|(-> & -> & ->)]]; cbn.
  - done.
  - split_and!; [done| |by eexists]. intros _. eexists. split; [right; reflexivity|done].
  - split_and!; [done| |by eexists]. destruct rb; [done|]. intros _. eexists. split; [left; reflexivity|done].
Qed.
End SnapshotProps.
