(* ===== verification/Fileutil.v ===== *)
(** * Files

    What the program uses of package os: a tree of directories and files behind
    system calls that can be refused, with open files and flock locks; and
    pkg/fileutil (fileutil.go, read_dir.go, lock.go, lock_flock.go,
    lock_unix.go) on top of it. *)

From S2P Require Import Prelude GoStd.

(** ** Package os

    A path is the list of its elements from the root.  A directory entry is a
    directory or the number of a file's inode; an inode keeps its contents while
    an open file refers to it, whether or not it still has a name.  An open file
    is an inode and an offset; a lock belongs to an open file. *)
Module os.
Abbreviation path := (list (list Z)).

Inductive node : Set := NDir | NFile (ino : Z).
#[global] Instance node_eq_dec : EqDecision node.
Proof. solve_decision. Defined.

Record fs := Fs {
  cwd : path;
  tree : gmap path node;
  inodes : gmap Z (list Z);
  nextino : Z;
  fds : gmap Z (Z * Z);
  nextfd : Z;
  locks : gmap Z Z
}.

(** The system calls, and which of them the system refuses (permissions, a full
    or failing disk), with the error it gives. *)
Inductive syscall : Set :=
  | SStat | SMkdir | SOpen | SWrite | SClose | SUnlink | SReaddir | SFlock | SSeek.

Class Refusals := refuse : syscall → path → option error.

Definition ENOENT := Errorf "no such file or directory".
Definition EEXIST := Errorf "file exists".
Definition ENOTDIR := Errorf "not a directory".
Definition EISDIR := Errorf "is a directory".
Definition ENOTEMPTY := Errorf "directory not empty".
Definition EINVAL := Errorf "invalid argument".
Definition EBADF := Errorf "bad file descriptor".
Definition EWOULDBLOCK := Errorf "resource temporarily unavailable".
Definition ErrExist := Errorf "file already exists".

(** A program that changes files: its outcome and the files afterwards, which it
    may have changed before it failed. *)
Definition io (A : Type) : Type := fs → outcome A * fs.

#[global] Instance io_ret : MRet io := λ A a σ, (Ret a, σ).
#[global] Instance io_bind : MBind io := λ A B f m σ,
  match m σ with
  | (Ret a, σ) => f a σ
  | (Err e, σ) => (Err e, σ)
  | (Panic p, σ) => (Panic p, σ)
  | (OutOfFuel, σ) => (OutOfFuel, σ)
  end.

Definition prog {A} (f : fs → outcome A * fs) : io A := f.
Definition fail {A} (e : error) : io A := λ σ, (Err e, σ).

(** The elements of a name; [..] is removed with the element before it, as it is
    when no element is a symbolic link.  The empty name denotes nothing. *)
Definition resolve (σ : fs) (p : list Z) : option path :=
  match p with
  | [] => None
  | _ => Some (rev (foldl (clean_step true) (if is_rooted p then [] else rev (cwd σ)) (split_slash p)))
  end.

(** The directory that has the entry. *)
Definition parent (p : path) : path := removelast p.

Section Calls.
Context `{R : Refusals}.

Definition attempt (s : syscall) (p : path) : io unit := λ σ,
  match refuse s p with Some e => (Err e, σ) | None => (Ret tt, σ) end.

(** Runs a call on the path that a name denotes. *)
Definition at_ {A} (name : list Z) (f : path → io A) : io A := λ σ,
  match resolve σ name with None => (Err ENOENT, σ) | Some p => f p σ end.

Definition stat (p : path) : io node := λ σ,
  match refuse SStat p with
  | Some e => (Err e, σ)
  | None => (match tree σ !! p with Some n => Ret n | None => Err ENOENT end, σ)
  end.

(** A new entry needs a directory to be in. *)
Definition inDir (σ : fs) (p : path) : outcome unit :=
  match tree σ !! parent p with
  | Some NDir => Ret tt
  | Some (NFile _) => Err ENOTDIR
  | None => Err ENOENT
  end.

Definition setTree (σ : fs) (t : gmap path node) : fs :=
  Fs (cwd σ) t (inodes σ) (nextino σ) (fds σ) (nextfd σ) (locks σ).

Definition mkdir (p : path) : io unit := λ σ,
  match refuse SMkdir p, tree σ !! p, inDir σ p with
  | Some e, _, _ => (Err e, σ)
  | _, Some _, _ => (Err EEXIST, σ)
  | _, _, Ret _ => (Ret tt, setTree σ (<[p := NDir]> (tree σ)))
  | _, _, Err e => (Err e, σ)
  | _, _, _ => (Panic NilDereference, σ)
  end.

(** [os.MkdirAll], on the elements from the last one. *)
Fixpoint mkdirAll (rp : path) : io unit := λ σ,
  match stat (rev rp) σ with
  | (Ret NDir, σ) => (Ret tt, σ)
  | (Ret (NFile _), σ) => (Err ENOTDIR, σ)
  | (_, σ) =>
      match rp with
      | [] => (Err ENOENT, σ)
      | _ :: rp' =>
          match mkdirAll rp' σ with
          | (Ret _, σ) =>
              match mkdir (rev rp) σ with
              | (Err e, σ) => match stat (rev rp) σ with
                              | (Ret NDir, σ) => (Ret tt, σ)
                              | (_, σ) => (Err e, σ)
                              end
              | r => r
              end
          | r => r
          end
      end
  end.

Definition MkdirAll (name : list Z) : io unit := at_ name (λ p, mkdirAll (rev p)).

(** The flags of [os.OpenFile] as Linux numbers them. *)
Definition O_WRONLY : Z := 1.
Definition O_CREATE : Z := 64.
Definition O_TRUNC : Z := 512.

(** Opens a file for writing (directories are only opened to be listed). *)
Definition open (p : path) (flag : Z) : io Z := λ σ,
  match refuse SOpen p, tree σ !! p with
  | Some e, _ => (Err e, σ)
  | None, Some NDir => (Err EISDIR, σ)
  | None, Some (NFile i) =>
      let data := if Z.testbit flag 9 then <[i := []]> (inodes σ) else inodes σ in
      (Ret (nextfd σ), Fs (cwd σ) (tree σ) data (nextino σ)
         (<[nextfd σ := (i, 0)]> (fds σ)) (nextfd σ + 1) (locks σ))
  | None, None =>
      if negb (Z.testbit flag 6) then (Err ENOENT, σ) else
      match inDir σ p with
      | Ret _ =>
          (Ret (nextfd σ), Fs (cwd σ) (<[p := NFile (nextino σ)]> (tree σ))
             (<[nextino σ := []]> (inodes σ)) (nextino σ + 1)
             (<[nextfd σ := (nextino σ, 0)]> (fds σ)) (nextfd σ + 1) (locks σ))
      | Err e => (Err e, σ)
      | _ => (Panic NilDereference, σ)
      end
  end.

(** Writes at the offset, over what is there and past the end. *)
Definition write (p : path) (fd : Z) (data : list Z) : io unit := λ σ,
  match refuse SWrite p, fds σ !! fd with
  | Some e, _ => (Err e, σ)
  | None, None => (Err EBADF, σ)
  | None, Some (i, off) =>
      let old := default [] (inodes σ !! i) in
      let new := take (Z.to_nat off) old ++ data ++ drop (Z.to_nat (off + len data)) old in
      (Ret tt, Fs (cwd σ) (tree σ) (<[i := new]> (inodes σ)) (nextino σ)
         (<[fd := (i, off + len data)]> (fds σ)) (nextfd σ) (locks σ))
  end.

(** The descriptor is gone and its lock released, whatever [close] answers. *)
Definition close (p : path) (fd : Z) : io unit := λ σ,
  (match refuse SClose p with Some e => Err e | None => Ret tt end,
   Fs (cwd σ) (tree σ) (inodes σ) (nextino σ) (delete fd (fds σ)) (nextfd σ)
      (filter (λ il, il.2 ≠ fd) (locks σ))).

(** [whence]: 0 the start, 1 the offset, 2 the end. *)
Definition seek (p : path) (fd offset whence : Z) : io Z := λ σ,
  match refuse SSeek p, fds σ !! fd with
  | Some e, _ => (Err e, σ)
  | None, None => (Err EBADF, σ)
  | None, Some (i, off) =>
      let base := if whence =? 0 then 0 else if whence =? 1 then off
                  else len (default [] (inodes σ !! i)) in
      let new := base + offset in
      if new <? 0 then (Err EINVAL, σ) else
      (Ret new, Fs (cwd σ) (tree σ) (inodes σ) (nextino σ) (<[fd := (i, new)]> (fds σ))
                  (nextfd σ) (locks σ))
  end.

(** [ioutil.WriteFile]: the first error of writing and closing. *)
Definition writeFile (p : path) (data : list Z) : io unit := λ σ,
  match open p (Z.lor (Z.lor O_WRONLY O_CREATE) O_TRUNC) σ with
  | (Ret fd, σ) =>
      let '(r, σ) := write p fd data σ in
      let '(r', σ) := close p fd σ in
      (match r with Ret _ => r' | _ => r end, σ)
  | (Err e, σ) => (Err e, σ)
  | (Panic e, σ) => (Panic e, σ)
  | (OutOfFuel, σ) => (OutOfFuel, σ)
  end.

(** The names in a directory, in the order of the map. *)
Definition entries (σ : fs) (p : path) : list (list Z) :=
  omap (λ qn, match last qn.1 with
              | Some e => if decide (qn.1 = p ++ [e]) then Some e else None
              | None => None
              end) (map_to_list (tree σ)).

(** [os.Remove]: unlink, and rmdir for a directory. *)
Definition remove (p : path) : io unit := λ σ,
  match refuse SUnlink p, tree σ !! p with
  | Some e, _ => (Err e, σ)
  | None, None => (Err ENOENT, σ)
  | None, Some (NFile _) => (Ret tt, setTree σ (delete p (tree σ)))
  | None, Some NDir =>
      if decide (entries σ p = []) then (Ret tt, setTree σ (delete p (tree σ)))
      else (Err ENOTEMPTY, σ)
  end.

(** [os.RemoveAll] removes what it can: what may not be unlinked stays, with the
    directories above it, and the error is that of one of these. *)
Definition stuck (σ : fs) (p : path) : list (path * error) :=
  omap (λ qn, if decide (p `prefix_of` qn.1)
              then match refuse SUnlink qn.1 with Some e => Some (qn.1, e) | None => None end
              else None) (map_to_list (tree σ)).

Definition removeAll (p : path) : io unit := λ σ,
  let bad := stuck σ p in
  (match bad with [] => Ret tt | (_, e) :: _ => Err e end,
   setTree σ (filter (λ qn, ¬ p `prefix_of` qn.1 ∨ Exists (λ be, qn.1 `prefix_of` be.1) bad) (tree σ))).

Definition endsWithDot (s : list Z) : bool :=
  match rev s with
  | 46 :: [] => true
  | 46 :: 47 :: _ => true
  | _ => false
  end.

Definition RemoveAll (name : list Z) : io unit :=
  match name with
  | [] => mret tt
  | _ => if endsWithDot name then fail EINVAL else at_ name removeAll
  end.

(** [os.Open] and [Readdirnames(-1)]. *)
Definition readdir (σ : fs) (name : list Z) : outcome (list (list Z)) :=
  match resolve σ name with
  | None => Err ENOENT
  | Some p =>
      match refuse SOpen p, tree σ !! p, refuse SReaddir p with
      | Some e, _, _ => Err e
      | None, None, _ => Err ENOENT
      | None, Some _, Some e => Err e
      | None, Some (NFile _), None => Err ENOTDIR
      | None, Some NDir, None => Ret (entries σ p)
      end
  end.

(** [flock(LOCK_EX|LOCK_NB)]. *)
Definition flockNB (p : path) (fd : Z) : io unit := λ σ,
  match refuse SFlock p, fds σ !! fd with
  | Some e, _ => (Err e, σ)
  | None, None => (Err EBADF, σ)
  | None, Some (i, _) =>
      match locks σ !! i with
      | Some fd' => if fd' =? fd then (Ret tt, σ) else (Err EWOULDBLOCK, σ)
      | None => (Ret tt, Fs (cwd σ) (tree σ) (inodes σ) (nextino σ) (fds σ) (nextfd σ)
                            (<[i := fd]> (locks σ)))
      end
  end.

(** [flock(LOCK_EX)] waits until the lock is free: then the result is [None]. *)
Definition flock (p : path) (fd : Z) : io (option unit) := λ σ,
  match flockNB p fd σ with
  | (Ret _, σ) => (Ret (Some tt), σ)
  | (Err e, σ) => if decide (e = EWOULDBLOCK ∧ refuse SFlock p = None) then (Ret None, σ) else (Err e, σ)
  | (Panic e, σ) => (Panic e, σ)
  | (OutOfFuel, σ) => (OutOfFuel, σ)
  end.
End Calls.
End os.

(** ** pkg/fileutil *)

Fixpoint extLoop (s acc : list Z) : list Z :=
  match s with
  | [] => []
  | c :: s => if c =? slash then [] else if c =? 46 then c :: acc else extLoop s (c :: acc)
  end.
Definition Ext (path : list Z) : list Z := extLoop (rev path) [].

(** [readdir d] is what opening the directory and [Readdirnames] give. *)
Definition ReadDir (readdir : list Z → outcome (list (list Z))) (d ext : list Z)
    : outcome (list (list Z)) :=
  names ← readdir d;
  let names := sort_Strings names in
  Ret (match ext with
       | [] => names
       | _ => filter (λ v, Ext v = ext) names
       end).

Module fileutil.
Import os.

Definition ErrLocked := Errorf "fileutil: file already locked".

(** The file of a lock is its descriptor. *)
Record LockedFile := MkLockedFile { File_ : Z }.

Section Ops.
Context `{R : Refusals}.

Definition IsDirWriteable (dir : list Z) : io unit :=
  let f := Join [dir; bs ".touch"] in
  _ ← at_ f (λ p, writeFile p []);
  at_ f remove.

Definition TouchDirAll (dir : list Z) : io unit :=
  _ ← MkdirAll dir;
  IsDirWriteable dir.

Definition CreateDirAll (dir : list Z) : io unit :=
  _ ← TouchDirAll dir;
  prog (λ σ, match ReadDir (readdir σ) dir [] with
       | Ret [] => (Ret tt, σ)
       | Ret _ => (Err (Errorf "expected directory to be empty"), σ)
       | Err e => (Err e, σ)
       | Panic p => (Panic p, σ)
       | OutOfFuel => (OutOfFuel, σ)
       end).

Definition Exist (name : list Z) (σ : fs) : bool :=
  match at_ name stat σ with (Ret _, _) => true | _ => false end.

Definition flockTryLockFile (path : list Z) (flag : Z) : io LockedFile := at_ path (λ p,
  fd ← open p flag;
  prog (λ σ, match flockNB p fd σ with
       | (Ret _, σ) => (Ret (MkLockedFile fd), σ)
       | (Err e, σ) => (Err (if decide (e = EWOULDBLOCK) then ErrLocked else e), (close p fd σ).2)
       | (Panic e, σ) => (Panic e, σ)
       | (OutOfFuel, σ) => (OutOfFuel, σ)
       end)).

(** [None] when the call waits for the lock. *)
Definition flockLockFile (path : list Z) (flag : Z) : io (option LockedFile) := at_ path (λ p,
  fd ← open p flag;
  prog (λ σ, match flock p fd σ with
       | (Ret None, σ) => (Ret None, σ)
       | (Ret (Some _), σ) => (Ret (Some (MkLockedFile fd)), σ)
       | (Err e, σ) => (Err e, (close p fd σ).2)
       | (Panic e, σ) => (Panic e, σ)
       | (OutOfFuel, σ) => (OutOfFuel, σ)
       end)).

Definition TryLockFile (path : list Z) (flag : Z) : io LockedFile := flockTryLockFile path flag.
Definition LockFile (path : list Z) (flag : Z) : io (option LockedFile) := flockLockFile path flag.
End Ops.
End fileutil.

(** ** Names in normal form

    [pathname rooted es] is the name with the elements [es], from the root or from
    the working directory. *)

Definition pathname (rooted : bool) (es : list (list Z)) : list Z :=
  if rooted then absPath es else join_slash es.

Definition base (rooted : bool) (σ : os.fs) : os.path := if rooted then [] else os.cwd σ.

Lemma join_slash_snoc es e : es ≠ [] → join_slash (es ++ [e]) = join_slash es ++ slash :: e.
Proof.
  induction es as [|x es IH]; intros H; [done|]. destruct es as [|y es]; [done|].
  change ((x :: y :: es) ++ [e]) with (x :: (y :: es) ++ [e]).
  change (join_slash (x :: (y :: es) ++ [e])) with (x ++ slash :: join_slash ((y :: es) ++ [e])).
  rewrite IH by done. change (join_slash (x :: y :: es)) with (x ++ slash :: join_slash (y :: es)).
  by rewrite <- app_assoc.
Qed.

Lemma split_slash_join es : Forall plain es → es ≠ [] → split_slash (join_slash es) = es.
Proof.
  intros H Hne. destruct es as [|e es]; [done|]. apply Forall_cons in H as [(_ & He & _) H].
  destruct es as [|e' es]; [by apply split_slash_element|].
  change (join_slash (e :: e' :: es)) with (e ++ slash :: join_slash (e' :: es)).
  rewrite join_slash_absPath by done. by apply split_slash_absPath.
Qed.

Lemma pathname_not_rooted es : Forall plain es → es ≠ [] → is_rooted (join_slash es) = false.
Proof.
  intros H Hne. destruct es as [|e es]; [done|]. apply Forall_cons in H as [(He & Hs & _) _].
  destruct e as [|b e]; [done|]. apply not_elem_of_cons in Hs as [Hb _].
  assert ((b =? slash) = false) as Eb by (apply Z.eqb_neq; congruence).
  destruct es; exact Eb.
Qed.

Lemma is_rooted_pathname rooted es :
  Forall plain es → es ≠ [] → is_rooted (pathname rooted es) = rooted.
Proof. intros H Hne. destruct rooted; [by destruct es|by apply pathname_not_rooted]. Qed.

Lemma split_pathname rooted es out :
  Forall plain es → es ≠ [] →
  foldl (clean_step rooted) out (split_slash (pathname rooted es)) = rev es ++ out
  ∧ foldl (clean_step true) out (split_slash (pathname rooted es)) = rev es ++ out.
Proof.
  intros H Hne. destruct rooted; simpl.
  - pose proof (split_slash_absPath es [] H ltac:(set_solver)) as Hs. simpl in Hs. rewrite Hs.
    cbn [foldl]. unfold clean_step at 2 4. rewrite bool_decide_eq_true_2 by done. simpl.
    by rewrite !clean_plain.
  - rewrite split_slash_join, !clean_plain by done. done.
Qed.

Lemma pathname_nonempty rooted es : Forall plain es → es ≠ [] → pathname rooted es ≠ [].
Proof.
  intros H Hne E. apply (is_rooted_pathname rooted) in H as Hr; [|done].
  destruct rooted; [by destruct es|]. simpl in E.
  destruct es as [|e es]; [done|]. apply Forall_cons in H as [(He & _) _].
  destruct es; simpl in E; [done|]. by apply app_eq_nil in E as [? _].
Qed.

Lemma Clean_pathname rooted es : Forall plain es → es ≠ [] → Clean (pathname rooted es) = pathname rooted es.
Proof.
  intros H Hne. unfold Clean. rewrite is_rooted_pathname by done.
  rewrite (proj1 (split_pathname rooted es [] H Hne)), app_nil_r, rev_involutive.
  destruct rooted; [by apply join_slash_absPath|]. by destruct es.
Qed.

Lemma Join_pathname rooted es e :
  Forall plain es → es ≠ [] → plain e → Join [pathname rooted es; e] = pathname rooted (es ++ [e]).
Proof.
  intros H Hne He. pose proof He as (He' & _). unfold Join.
  rewrite !filter_cons_True, filter_nil by (done || by apply pathname_nonempty).
  change (join_slash [pathname rooted es; e]) with (pathname rooted es ++ slash :: e).
  assert (pathname rooted es ++ slash :: e = pathname rooted (es ++ [e])) as ->.
  { destruct rooted; simpl; [|by rewrite join_slash_snoc].
    rewrite absPath_app. unfold absPath at 3. simpl. by rewrite app_nil_r. }
  apply Clean_pathname; [by apply Forall_app; auto|by destruct es].
Qed.

Lemma resolve_pathname rooted es σ :
  Forall plain es → es ≠ [] → os.resolve σ (pathname rooted es) = Some (base rooted σ ++ es).
Proof.
  intros H Hne. unfold os.resolve, base. rewrite is_rooted_pathname by done.
  destruct (pathname rooted es) eqn:E; [by apply pathname_nonempty in E|rewrite <- E].
  rewrite (proj2 (split_pathname rooted es _ H Hne)).
  destruct rooted; by rewrite ?app_nil_r, ?rev_app_distr, !rev_involutive.
Qed.

(** A suffix of the name is a suffix of its last element. *)
Lemma pathname_suffix rooted es c s :
  pathname rooted (es ++ [c]) ++ s = pathname rooted (es ++ [c ++ s]).
Proof.
  destruct rooted; simpl.
  - rewrite !absPath_app, <- app_assoc. f_equal. unfold absPath. simpl. by rewrite !app_nil_r.
  - destruct es as [|e es]; [done|]. rewrite !join_slash_snoc by done. by rewrite <- app_assoc.
Qed.

Lemma plain_suffix c s : plain c → slash ∉ s → 2 ≤ len s → plain (c ++ s).
Proof.
  intros (H1 & H2 & _) Hs Hl. unfold len in Hl.
  assert (3 ≤ length (c ++ s))%nat by (rewrite length_app; destruct c; [done|simpl; lia]).
  split_and!.
  - intros E. rewrite E in *. simpl in *. lia.
  - by intros [?|?]%elem_of_app.
  - intros E. rewrite E in *. simpl in *. lia.
  - intros E. rewrite E in *. simpl in *. lia.
Qed.

(** ** What the calls leave alone

    [frame p σ σ']: between [σ] and [σ'] only entries under [p] changed, and
    missing directories above [p] may have been made. *)

Record frame (p : os.path) (σ σ' : os.fs) : Prop := Frame {
  fr_cwd : os.cwd σ' = os.cwd σ;
  fr_off q : ¬ p `prefix_of` q → ¬ q `prefix_of` p → os.tree σ' !! q = os.tree σ !! q;
  fr_above q : q `prefix_of` p → q ≠ p →
    os.tree σ' !! q = os.tree σ !! q
    ∨ os.tree σ !! q = None ∧ os.tree σ' !! q = Some os.NDir
}.

#[global] Instance frame_refl p : Reflexive (frame p).
Proof. intros σ. split; auto. Qed.

#[global] Instance frame_trans p : Transitive (frame p).
Proof.
  intros σ1 σ2 σ3 [C1 O1 A1] [C2 O2 A2]. split.
  - congruence.
  - intros q H1 H2. by rewrite O2, O1.
  - intros q H1 H2. destruct (A1 q H1 H2) as [E1|[E1 E1']], (A2 q H1 H2) as [E2|[E2 E2']].
    + left. congruence.
    + right. split; congruence.
    + right. split; congruence.
    + congruence.
Qed.

Lemma frame_app p r σ σ' : frame (p ++ r) σ σ' → frame p σ σ'.
Proof.
  intros [C O A]. split; [done| |].
  - intros q H1 H2. apply O.
    + intros H. apply H1. trans (p ++ r); [by apply prefix_app_r|done].
    + intros H. destruct (prefix_weak_total q p (p ++ r)); [done|by apply prefix_app_r|done|done].
  - intros q H1 H2. apply A; [by apply prefix_app_r|].
    intros ->. apply H2. apply (anti_symm prefix); [done|by apply prefix_app_r].
Qed.

Lemma frame_same p σ σ' : os.cwd σ' = os.cwd σ → os.tree σ' = os.tree σ → frame p σ σ'.
Proof. intros C T. split; [done| |]; rewrite T; auto. Qed.

Lemma frame_at p σ σ' :
  os.cwd σ' = os.cwd σ → (∀ q, q ≠ p → os.tree σ' !! q = os.tree σ !! q) → frame p σ σ'.
Proof. intros C T. split; [done| |]; intros q H1 H2; [|left]; apply T; [|done]. intros ->. by apply H1. Qed.

(** Only directories on the way to [p] are new. *)
Record madeDirs (p : os.path) (σ σ' : os.fs) : Prop := MadeDirs {
  md_cwd : os.cwd σ' = os.cwd σ;
  md_tree q : os.tree σ' !! q = os.tree σ !! q
    ∨ q `prefix_of` p ∧ os.tree σ !! q = None ∧ os.tree σ' !! q = Some os.NDir
}.

Lemma madeDirs_frame p σ σ' : madeDirs p σ σ' → frame p σ σ'.
Proof. intros [C T]. split; [done| |]; intros q H1 H2; destruct (T q); naive_solver. Qed.

Lemma madeDirs_trans p p' σ1 σ2 σ3 :
  p' `prefix_of` p → madeDirs p' σ1 σ2 → madeDirs p σ2 σ3 → madeDirs p σ1 σ3.
Proof.
  intros Hp [C1 T1] [C2 T2]. split; [congruence|].
  intros q. destruct (T1 q) as [E1|(H1 & E1 & E1')], (T2 q) as [E2|(H2 & E2 & E2')].
  - left. congruence.
  - right. rewrite <- E1. done.
  - right. split_and!; [by trans p'|done|congruence].
  - congruence.
Qed.

Section Frames.
Context `{R : os.Refusals}.

Lemma stat_same p σ : (os.stat p σ).2 = σ.
Proof. unfold os.stat. by destruct (os.refuse _ _). Qed.

Lemma mkdir_madeDirs p σ : madeDirs p σ (os.mkdir p σ).2.
Proof.
  unfold os.mkdir. destruct (os.refuse _ _); [by split; auto|].
  destruct (os.tree σ !! p) eqn:E; [by split; auto|].
  destruct (os.inDir σ p); (split; [done|]); intros q; auto. simpl.
  destruct (decide (q = p)) as [->|?]; [|rewrite lookup_insert_ne by done; auto].
  rewrite lookup_insert_eq. right. done.
Qed.

Lemma mkdirAll_madeDirs rp σ : madeDirs (rev rp) σ (os.mkdirAll rp σ).2.
Proof.
  revert σ. induction rp as [|e rp IH]; intros σ; cbn [os.mkdirAll];
    pose proof (stat_same (rev (A := list Z) [])  σ) as Hs0.
  - destruct (os.stat _ σ) as [r σ1] eqn:Es. simpl in *. subst σ1.
    destruct r as [[|]| | |]; by split; auto.
  - pose proof (stat_same (rev (e :: rp)) σ) as Hs.
    destruct (os.stat (rev (e :: rp)) σ) as [r σ1] eqn:Es. simpl in Hs. subst σ1.
    assert (Hrefl : madeDirs (rev (e :: rp)) σ σ) by (split; auto).
    assert (madeDirs (rev (e :: rp)) σ
      (match os.mkdirAll rp σ with
       | (Ret _, σ) =>
           match os.mkdir (rev (e :: rp)) σ with
           | (Err e', σ) => match os.stat (rev (e :: rp)) σ with
                           | (Ret os.NDir, σ) => (Ret tt, σ)
                           | (_, σ) => (Err e', σ)
                           end
           | r => r
           end
       | r => r
       end).2) as Hmain.
    { specialize (IH σ). destruct (os.mkdirAll rp σ) as [r1 σ1]. simpl in IH.
      assert (Hp : rev rp `prefix_of` rev (e :: rp)) by (simpl; by apply prefix_app_r).
      assert (Hr1 : madeDirs (rev (e :: rp)) σ σ1).
      { apply (madeDirs_trans _ _ _ _ _ Hp IH). by split; auto. }
      destruct r1; [|done..].
      pose proof (mkdir_madeDirs (rev (e :: rp)) σ1) as Hm.
      destruct (os.mkdir (rev (e :: rp)) σ1) as [r2 σ2]. simpl in Hm.
      pose proof (madeDirs_trans _ _ _ _ _ Hp IH Hm) as H2.
      destruct r2; [done| |done|done].
      pose proof (stat_same (rev (e :: rp)) σ2) as Hs2.
      destruct (os.stat (rev (e :: rp)) σ2) as [r3 σ3]. simpl in Hs2. subst σ3.
      destruct r3 as [[|]| | |]; done. }
    destruct r as [[|]| | |]; done.
Qed.

Lemma open_frame p flag σ : frame p σ (os.open p flag σ).2.
Proof.
  unfold os.open. destruct (os.refuse _ _); [done|].
  destruct (os.tree σ !! p) as [[|i]|] eqn:E; [done|by apply frame_same|].
  destruct (negb _); [done|]. destruct (os.inDir σ p); try done.
  apply frame_at; [done|]. intros q Hq. simpl. by rewrite lookup_insert_ne.
Qed.

Lemma write_frame p q fd data σ : frame p σ (os.write q fd data σ).2.
Proof.
  unfold os.write. destruct (os.refuse _ _); [done|]. destruct (os.fds σ !! fd) as [[? ?]|]; [|done].
  by apply frame_same.
Qed.

Lemma close_frame p q fd σ : frame p σ (os.close q fd σ).2.
Proof. by apply frame_same. Qed.

Lemma seek_frame p q fd off wh σ : frame p σ (os.seek q fd off wh σ).2.
Proof.
  unfold os.seek. destruct (os.refuse _ _); [done|]. destruct (os.fds σ !! fd) as [[? ?]|]; [|done].
  simpl. destruct (_ <? 0); [done|by apply frame_same].
Qed.

Lemma flockNB_frame p q fd σ : frame p σ (os.flockNB q fd σ).2.
Proof.
  unfold os.flockNB. destruct (os.refuse _ _); [done|]. destruct (os.fds σ !! fd) as [[i ?]|]; [|done].
  destruct (os.locks σ !! i); [by destruct (_ =? _)|by apply frame_same].
Qed.

Lemma flock_frame p q fd σ : frame p σ (os.flock q fd σ).2.
Proof.
  unfold os.flock. pose proof (flockNB_frame p q fd σ) as H.
  destruct (os.flockNB q fd σ) as [[?|?|?|] ?]; simpl in *; try done. by destruct (decide _).
Qed.

Lemma remove_frame p σ : frame p σ (os.remove p σ).2.
Proof.
  unfold os.remove. destruct (os.refuse _ _); [done|].
  destruct (os.tree σ !! p) as [[|i]|]; [destruct (decide _)| |]; try done;
    (apply frame_at; [done|]); intros q Hq; simpl; by rewrite lookup_delete_ne.
Qed.

Lemma removeAll_frame p σ : frame p σ (os.removeAll p σ).2.
Proof.
  split; [done| |]; intros q H1 H2; simpl; [|left];
    apply option_eq; intros n; rewrite map_lookup_filter_Some; simpl; split; try tauto.
  intros H. split; [done|]. left. intros H'. apply H2. by apply (anti_symm prefix).
Qed.

Lemma writeFile_frame p data σ : frame p σ (os.writeFile p data σ).2.
Proof.
  unfold os.writeFile. pose proof (open_frame p (Z.lor (Z.lor os.O_WRONLY os.O_CREATE) os.O_TRUNC) σ) as H.
  destruct (os.open _ _ σ) as [[fd|?|?|] σ1]; simpl in H; try done.
  pose proof (write_frame p p fd data σ1) as H1.
  destruct (os.write p fd data σ1) as [r σ2]. simpl in *. trans σ2; [by trans σ1|by apply frame_same].
Qed.

(** Composition: the frame of a sequence, and of a call on a name. *)
Lemma bind_frame {A B} p (m : os.io A) (f : A → os.io B) σ :
  frame p σ (m σ).2 → (∀ a, m σ = (Ret a, (m σ).2) → frame p (m σ).2 (f a (m σ).2).2) →
  frame p σ ((m ≫= f) σ).2.
Proof.
  intros H1 H2. unfold mbind, os.io_bind. destruct (m σ) as [[a|?|?|] σ1]; simpl in *; try done.
  trans σ1; [done|by apply H2].
Qed.

Lemma at_frame {A} p name q (f : os.path → os.io A) σ :
  os.resolve σ name = Some q → frame p σ (f q σ).2 → frame p σ (os.at_ name f σ).2.
Proof. intros H. unfold os.at_. by rewrite H. Qed.

(** A name denotes the same path before and after. *)
Lemma resolve_frame p σ σ' name : frame p σ σ' → os.resolve σ' name = os.resolve σ name.
Proof. intros [C _ _]. unfold os.resolve. by rewrite C. Qed.

Section Dirs.
Context (rooted : bool) (es : list (list Z)) (Hes : Forall plain es) (Hne : es ≠ []).

Lemma plain_touch : plain (bs ".touch").
Proof. by apply (bool_decide_unpack _). Qed.

Lemma touchDirAll_frame σ :
  frame (base rooted σ ++ es) σ (fileutil.TouchDirAll (pathname rooted es) σ).2.
Proof.
  pose proof (resolve_pathname rooted es σ Hes Hne) as Hr. set (p := base rooted σ ++ es) in *.
  assert (Htouch : ∀ σ', frame p σ σ' →
    os.resolve σ' (Join [pathname rooted es; bs ".touch"]) = Some (p ++ [bs ".touch"])).
  { intros σ' H. rewrite (resolve_frame _ _ _ _ H), Join_pathname by (done || apply plain_touch).
    rewrite resolve_pathname; [|by apply Forall_app; auto using plain_touch|by destruct es].
    unfold p. by rewrite <- app_assoc. }
  assert (H1 : frame p σ (os.MkdirAll (pathname rooted es) σ).2).
  { apply (at_frame _ _ p); [done|]. apply madeDirs_frame.
    pose proof (mkdirAll_madeDirs (rev p) σ) as H. by rewrite rev_involutive in H. }
  unfold fileutil.TouchDirAll. apply bind_frame; [done|]. intros [] _.
  set (σ1 := (os.MkdirAll _ σ).2) in *. unfold fileutil.IsDirWriteable.
  assert (H2 : frame p σ1 (os.at_ (Join [pathname rooted es; bs ".touch"]) (λ p, os.writeFile p []) σ1).2).
  { apply (at_frame _ _ (p ++ [bs ".touch"])); [by apply Htouch|]. eapply frame_app, writeFile_frame. }
  apply bind_frame; [done|]. intros [] _. set (σ2 := (os.at_ _ _ σ1).2) in *.
  apply (at_frame _ _ (p ++ [bs ".touch"])); [apply Htouch; by trans σ1|].
  eapply frame_app, remove_frame.
Qed.

Lemma createDirAll_frame σ :
  frame (base rooted σ ++ es) σ (fileutil.CreateDirAll (pathname rooted es) σ).2.
Proof.
  unfold fileutil.CreateDirAll. apply bind_frame; [apply touchDirAll_frame|]. intros [] _.
  unfold os.prog. by destruct (ReadDir _ _ _) as [[|]| | |].
Qed.

Lemma lockFile_frame flag σ :
  frame (base rooted σ ++ es) σ (fileutil.LockFile (pathname rooted es) flag σ).2.
Proof.
  unfold fileutil.LockFile, fileutil.flockLockFile.
  apply (at_frame _ _ (base rooted σ ++ es)); [by apply resolve_pathname|].
  apply bind_frame; [apply open_frame|]. intros fd _. unfold os.prog.
  set (σ1 := (os.open _ _ σ).2).
  pose proof (flock_frame (base rooted σ ++ es) (base rooted σ ++ es) fd σ1) as H.
  destruct (os.flock _ fd σ1) as [[[?|]|?|?|] σ2]; simpl in *; try done.
  trans σ2; [done|by apply frame_same].
Qed.
End Dirs.
End Frames.

(** What a directory lists depends on its own entries only. *)
Lemma elem_of_entries σ p e : e ∈ os.entries σ p ↔ is_Some (os.tree σ !! (p ++ [e])).
Proof.
  unfold os.entries. rewrite list_elem_of_omap. split.
  - intros ([q n] & Hq & H). apply elem_of_map_to_list in Hq. simpl in H.
    destruct (last q); [|done]. destruct (decide _); simplify_eq. by exists n.
  - intros [n Hn]. exists (p ++ [e], n). split; [by apply elem_of_map_to_list|]. simpl.
    rewrite last_snoc. by rewrite decide_True.
Qed.

Lemma NoDup_entries σ p : NoDup (os.entries σ p).
Proof.
  unfold os.entries. pose proof (NoDup_fst_map_to_list (os.tree σ)) as H.
  induction (map_to_list (os.tree σ)) as [|[q n] l IH]; [constructor|].
  apply NoDup_cons in H as [Hq H]. specialize (IH H). simpl in *.
  destruct (last q) as [e|] eqn:E; [|done]. destruct (decide _) as [->|]; [|done]. simpl in *.
  apply NoDup_cons. split; [|done]. intros ([q' n'] & Hq' & He)%list_elem_of_omap. simpl in He.
  destruct (last q') as [e'|]; [|done]. destruct (decide _) as [->|]; simplify_eq.
  apply Hq, list_elem_of_fmap. by exists (p ++ [e], n').
Qed.

(** Directories with the same entries list the same names, in the sorted order. *)
Lemma sort_entries σ σ' p :
  (∀ e, is_Some (os.tree σ' !! (p ++ [e])) ↔ is_Some (os.tree σ !! (p ++ [e]))) →
  sort_Strings (os.entries σ' p) = sort_Strings (os.entries σ p).
Proof.
  intros H. apply sort_Strings_unique, NoDup_Permutation; [apply NoDup_entries..|].
  intros e. by rewrite !elem_of_entries.
Qed.

Lemma ReadDir_same `{R : os.Refusals} σ σ' name ext p :
  os.resolve σ name = Some p → os.cwd σ' = os.cwd σ → os.tree σ' !! p = os.tree σ !! p →
  (∀ e, is_Some (os.tree σ' !! (p ++ [e])) ↔ is_Some (os.tree σ !! (p ++ [e]))) →
  ReadDir (os.readdir σ') name ext = ReadDir (os.readdir σ) name ext.
Proof.
  intros Hr Hc Ht He. unfold ReadDir, os.readdir.
  assert (os.resolve σ' name = Some p) as -> by (rewrite <- Hr; unfold os.resolve; by rewrite Hc).
  rewrite Hr, Ht. destruct (os.refuse _ _); [done|]. destruct (os.tree σ !! p) as [[|]|]; [|done..].
  destruct (os.refuse _ _); [done|]. rewrite !bind_Ret. by rewrite (sort_entries _ _ _ He).
Qed.

(** ** What the calls do when nothing is refused *)

(** The entries form a tree; inodes, descriptors and locks are numbered below
    the next ones. *)
Record wf (σ : os.fs) : Prop := Wf {
  wf_root : os.tree σ !! [] = Some os.NDir;
  wf_closed p c : is_Some (os.tree σ !! (p ++ [c])) → os.tree σ !! p = Some os.NDir;
  wf_cwd : os.tree σ !! os.cwd σ = Some os.NDir;
  wf_ino p i : os.tree σ !! p = Some (os.NFile i) → i < os.nextino σ;
  wf_fds fd : is_Some (os.fds σ !! fd) → fd < os.nextfd σ;
  wf_locks i fd : os.locks σ !! i = Some fd → i < os.nextino σ ∧ fd < os.nextfd σ
}.

Lemma wf_prefix σ p q :
  wf σ → is_Some (os.tree σ !! p) → q `prefix_of` p → q ≠ p → os.tree σ !! q = Some os.NDir.
Proof.
  intros Hw Hp [k ->]. induction k as [|c k IH] using rev_ind; intros Hq.
  - by rewrite app_nil_r in Hq.
  - rewrite app_assoc in Hp. apply (wf_closed _ Hw) in Hp as Hp'.
    destruct k as [|x k]; [by rewrite app_nil_r in Hp'|]. apply IH; [by rewrite Hp'|].
    intros E. apply (f_equal length) in E. rewrite length_app in E. simpl in E. lia.
Qed.

Lemma prefix_of_snoc {A} (q p : list A) e : q `prefix_of` p ++ [e] ↔ q `prefix_of` p ∨ q = p ++ [e].
Proof.
  split.
  - intros [k E]. destruct k as [|x k _] using rev_ind.
    + right. by rewrite app_nil_r in E.
    + left. rewrite app_assoc in E. apply app_inj_tail in E as [-> _]. by apply prefix_app_r.
  - intros [?| ->]; [by apply prefix_app_r|done].
Qed.

(** The directories on the way to a path, given from its last element. *)
Fixpoint dirsTo (rp : os.path) : gmap os.path os.node :=
  <[rev rp := os.NDir]> match rp with [] => ∅ | _ :: rp' => dirsTo rp' end.

Lemma lookup_dirsTo rp q :
  dirsTo rp !! q = if decide (q `prefix_of` rev rp) then Some os.NDir else None.
Proof.
  induction rp as [|e rp IH]; cbn [dirsTo].
  - destruct (decide (q = [])) as [->|Hq]; [done|].
    rewrite lookup_insert_ne, lookup_empty by done.
    rewrite decide_False; [done|]. by intros H%prefix_nil_inv.
  - simpl rev. destruct (decide (q = rev rp ++ [e])) as [->|Hq].
    + by rewrite lookup_insert_eq, decide_True.
    + rewrite lookup_insert_ne, IH by done. apply decide_ext. rewrite prefix_of_snoc. naive_solver.
Qed.

Lemma lookup_withDirs rp t q :
  (dirsTo rp ∪ t : gmap os.path os.node) !! q
  = if decide (q `prefix_of` rev rp) then Some os.NDir else t !! q.
Proof.
  rewrite lookup_union, lookup_dirsTo. destruct (decide _); [by destruct (t !! q)|].
  by destruct (t !! q).
Qed.

Lemma setTree_same σ t : (∀ q, os.tree σ !! q = t !! q) → σ = os.setTree σ t.
Proof. intros H. apply map_eq in H as <-. by destruct σ. Qed.

Section Granted.
Context `{R : os.Refusals} (HR : ∀ s p, os.refuse s p = None).

Lemma stat_ok p σ : os.stat p σ = (match os.tree σ !! p with Some n => Ret n | None => Err os.ENOENT end, σ).
Proof. unfold os.stat. by rewrite HR. Qed.

(** No file is in the way of the directories. *)
Definition passable (σ : os.fs) (p : os.path) : Prop :=
  ∀ q i, q `prefix_of` p → os.tree σ !! q ≠ Some (os.NFile i).

Lemma mkdirAll_ok rp σ :
  wf σ → passable σ (rev rp) →
  os.mkdirAll rp σ = (Ret tt, os.setTree σ (dirsTo rp ∪ os.tree σ)).
Proof.
  intros Hw. induction rp as [|e rp IH]; intros Hp; cbn [os.mkdirAll]; rewrite stat_ok.
  - rewrite (wf_root _ Hw : os.tree σ !! rev [] = _). f_equal. apply setTree_same.
    intros q. rewrite lookup_withDirs. destruct (decide _) as [Hq|]; [|done].
    apply prefix_nil_inv in Hq as ->. apply (wf_root _ Hw).
  - destruct (os.tree σ !! rev (e :: rp)) as [[|i]|] eqn:E.
    + f_equal. apply setTree_same. intros q. rewrite lookup_withDirs.
      destruct (decide _) as [Hq|]; [|done].
      destruct (decide (q = rev (e :: rp))) as [->|Hne]; [done|].
      apply (wf_prefix σ (rev (e :: rp))); [done|by rewrite E|done..].
    + by apply Hp in E.
    + simpl rev in *. rewrite IH.
      2:{ intros q i Hq. apply Hp. by apply prefix_app_r. }
      unfold os.mkdir, os.inDir. rewrite HR. cbn [os.tree os.setTree].
      rewrite !lookup_withDirs, E, decide_False.
      2:{ intros Hl%prefix_length. rewrite length_app in Hl. simpl in Hl. lia. }
      unfold os.parent. rewrite removelast_last, decide_True by done.
      f_equal. unfold os.setTree. simpl. f_equal. apply map_eq. intros q.
      rewrite (lookup_union (<[_:=_]> _)).
      destruct (decide (q = rev rp ++ [e])) as [->|Hq].
      * rewrite !lookup_insert_eq. by destruct (os.tree σ !! _).
      * by rewrite !lookup_insert_ne, lookup_union by done.
Qed.

(** A new file in a directory: an empty inode behind a new descriptor. *)
Lemma open_new p c flag σ :
  os.tree σ !! p = Some os.NDir → os.tree σ !! (p ++ [c]) = None → Z.testbit flag 6 = true →
  os.open (p ++ [c]) flag σ
  = (Ret (os.nextfd σ), os.Fs (os.cwd σ) (<[p ++ [c] := os.NFile (os.nextino σ)]> (os.tree σ))
       (<[os.nextino σ := []]> (os.inodes σ)) (os.nextino σ + 1)
       (<[os.nextfd σ := (os.nextino σ, 0)]> (os.fds σ)) (os.nextfd σ + 1) (os.locks σ)).
Proof.
  intros Hd Hn Hf. unfold os.open, os.inDir, os.parent. rewrite HR, Hn, Hf, removelast_last, Hd. done.
Qed.

(** Locks of descriptors below the next one survive the closing of that one. *)
Lemma locks_kept σ fd : wf σ → os.nextfd σ ≤ fd → filter (λ il, il.2 ≠ fd) (os.locks σ) = os.locks σ.
Proof.
  intros Hw Hfd. apply map_eq. intros i. apply option_eq. intros f. rewrite map_lookup_filter_Some. simpl.
  split; [tauto|]. intros H. split; [done|]. apply (wf_locks _ Hw) in H. lia.
Qed.

Lemma fds_fresh σ : wf σ → os.fds σ !! os.nextfd σ = None.
Proof.
  intros Hw. destruct (os.fds σ !! os.nextfd σ) eqn:E; [|done].
  assert (os.nextfd σ < os.nextfd σ) by (apply (wf_fds _ Hw); by rewrite E). lia.
Qed.

(** What is left of touching: an inode without a name. *)
Definition touched (σ : os.fs) (t : gmap os.path os.node) : os.fs :=
  os.Fs (os.cwd σ) t (<[os.nextino σ := []]> (os.inodes σ)) (os.nextino σ + 1)
        (os.fds σ) (os.nextfd σ + 1) (os.locks σ).

Lemma touch_ok σ p :
  wf σ → os.tree σ !! p = Some os.NDir → os.tree σ !! (p ++ [bs ".touch"]) = None →
  let σ1 := (os.writeFile (p ++ [bs ".touch"]) [] σ).2 in
  (os.writeFile (p ++ [bs ".touch"]) [] σ).1 = Ret tt ∧ os.cwd σ1 = os.cwd σ ∧
  os.remove (p ++ [bs ".touch"]) σ1 = (Ret tt, touched σ (os.tree σ)).
Proof.
  intros Hw Hd Hn. unfold os.writeFile. rewrite (open_new _ _ _ _ Hd Hn) by done.
  unfold os.write. rewrite HR. cbn [os.fds]. rewrite lookup_insert_eq.
  unfold os.close. rewrite HR. cbn [fst snd os.cwd os.tree os.inodes os.nextino os.fds os.nextfd os.locks].
  split_and!; [done|done|]. unfold os.remove. rewrite HR. cbn [os.tree]. rewrite lookup_insert_eq.
  unfold os.setTree, touched. cbn [os.cwd os.tree os.inodes os.nextino os.fds os.nextfd os.locks].
  rewrite delete_insert_id by done. rewrite lookup_insert_eq. simpl default.
  rewrite !insert_insert_eq, delete_insert_id by (by apply fds_fresh).
  rewrite (locks_kept σ) by (done || lia). done.
Qed.

Lemma wf_withDirs σ rp :
  wf σ → passable σ (rev rp) → wf (os.setTree σ (dirsTo rp ∪ os.tree σ)).
Proof.
  intros Hw Hp. split; cbn [os.tree os.setTree os.cwd].
  - rewrite lookup_withDirs, decide_True by apply prefix_nil. done.
  - intros p c. rewrite !lookup_withDirs. destruct (decide (p ++ [c] `prefix_of` rev rp)) as [H|H].
    + intros _. rewrite decide_True; [done|]. etrans; [|exact H]. by apply prefix_app_r.
    + intros Hs. destruct (decide _); [done|]. by apply (wf_closed _ Hw _ c).
  - rewrite lookup_withDirs. destruct (decide _); [done|]. apply (wf_cwd _ Hw).
  - intros p i. rewrite lookup_withDirs. destruct (decide _); [done|]. apply (wf_ino _ Hw).
  - apply (wf_fds _ Hw).
  - apply (wf_locks _ Hw).
Qed.

Lemma wf_touched σ : wf σ → wf (touched σ (os.tree σ)).
Proof.
  intros Hw. split; cbn [os.tree touched os.cwd os.fds os.locks os.nextino os.nextfd].
  - apply (wf_root _ Hw).
  - apply (wf_closed _ Hw).
  - apply (wf_cwd _ Hw).
  - intros p i H. apply (wf_ino _ Hw) in H. lia.
  - intros fd H. apply (wf_fds _ Hw) in H. lia.
  - intros i fd H. apply (wf_locks _ Hw) in H. lia.
Qed.

Lemma wf_touchedDirs σ p :
  wf σ → passable σ p → wf (touched σ (dirsTo (rev p) ∪ os.tree σ)).
Proof.
  intros Hw Hp. rewrite <- (rev_involutive p) in Hp.
  pose proof (wf_touched _ (wf_withDirs σ (rev p) Hw Hp)) as H.
  unfold touched, os.setTree in H. by cbn [os.cwd os.tree os.inodes os.nextino os.fds os.nextfd os.locks] in H.
Qed.

Section Names.
Context (rooted : bool) (es : list (list Z)) (Hes : Forall plain es) (Hne : es ≠ []).

(** [TouchDirAll] makes the directory and leaves nothing in it. *)
Lemma touchDirAll_ok σ p :
  wf σ → p = base rooted σ ++ es → passable σ p → os.tree σ !! (p ++ [bs ".touch"]) = None →
  fileutil.TouchDirAll (pathname rooted es) σ = (Ret tt, touched σ (dirsTo (rev p) ∪ os.tree σ)).
Proof.
  intros Hw -> Hp Hn. set (p := base rooted σ ++ es) in *.
  unfold fileutil.TouchDirAll, mbind, os.io_bind, os.MkdirAll, os.at_ at 1.
  rewrite resolve_pathname by done. fold p.
  rewrite mkdirAll_ok by (done || by rewrite rev_involutive).
  set (σ1 := os.setTree σ (dirsTo (rev p) ∪ os.tree σ)).
  assert (Hw1 : wf σ1) by (apply wf_withDirs; [done|by rewrite rev_involutive]).
  unfold fileutil.IsDirWriteable, mbind, os.io_bind, os.at_.
  assert (Ht : ∀ σ', os.cwd σ' = os.cwd σ →
    os.resolve σ' (Join [pathname rooted es; bs ".touch"]) = Some (p ++ [bs ".touch"])).
  { intros σ' H. rewrite Join_pathname by (done || apply plain_touch).
    rewrite resolve_pathname; [|by apply Forall_app; auto using plain_touch|by destruct es].
    unfold p, base. rewrite H. by rewrite <- app_assoc. }
  rewrite Ht by done.
  assert (Hd1 : os.tree σ1 !! p = Some os.NDir).
  { cbn [os.tree σ1 os.setTree]. by rewrite lookup_withDirs, rev_involutive, decide_True. }
  assert (Hn1 : os.tree σ1 !! (p ++ [bs ".touch"]) = None).
  { cbn [os.tree σ1 os.setTree]. rewrite lookup_withDirs, rev_involutive, decide_False; [done|].
    intros Hl%prefix_length. rewrite length_app in Hl. simpl in Hl. lia. }
  destruct (touch_ok σ1 p Hw1 Hd1 Hn1) as (E1 & E2 & E3).
  destruct (os.writeFile (p ++ [bs ".touch"]) [] σ1) as [r σ2]. simpl in E1, E2, E3. subst r.
  rewrite Ht by done. rewrite E3. done.
Qed.

(** An empty directory can be created; a file in it can be made and locked. *)
Lemma createDirAll_ok σ p :
  wf σ → p = base rooted σ ++ es → passable σ p → (∀ e, os.tree σ !! (p ++ [e]) = None) →
  fileutil.CreateDirAll (pathname rooted es) σ = (Ret tt, touched σ (dirsTo (rev p) ∪ os.tree σ)).
Proof.
  intros Hw Hp Hpass Hn. unfold fileutil.CreateDirAll, mbind, os.io_bind.
  rewrite (touchDirAll_ok σ p) by done. unfold os.prog, ReadDir, os.readdir.
  rewrite resolve_pathname, HR, HR by done. cbn [os.tree touched].
  replace (base rooted (touched σ _) ++ es) with p by (rewrite Hp; unfold base; by destruct rooted).
  rewrite lookup_withDirs, rev_involutive, decide_True by done. rewrite bind_Ret.
  assert (os.entries (touched σ (dirsTo (rev p) ∪ os.tree σ)) p = []) as ->; [|done].
  apply elem_of_nil_inv. intros e. rewrite elem_of_entries. cbn [os.tree touched].
  rewrite lookup_withDirs, rev_involutive, decide_False, Hn; [by intros []|].
  intros Hl%prefix_length. rewrite length_app in Hl. simpl in Hl. lia.
Qed.

Lemma lockFile_ok c σ p flag :
  wf σ → plain c → p = base rooted σ ++ es → os.tree σ !! p = Some os.NDir →
  os.tree σ !! (p ++ [c]) = None → Z.testbit flag 6 = true →
  fileutil.LockFile (pathname rooted (es ++ [c])) flag σ
  = (Ret (Some (fileutil.MkLockedFile (os.nextfd σ))),
     os.Fs (os.cwd σ) (<[p ++ [c] := os.NFile (os.nextino σ)]> (os.tree σ))
       (<[os.nextino σ := []]> (os.inodes σ)) (os.nextino σ + 1)
       (<[os.nextfd σ := (os.nextino σ, 0)]> (os.fds σ)) (os.nextfd σ + 1)
       (<[os.nextino σ := os.nextfd σ]> (os.locks σ))).
Proof.
  intros Hw Hc -> Hd Hn Hf. unfold fileutil.LockFile, fileutil.flockLockFile, os.at_.
  rewrite resolve_pathname by (try (by destruct es); by apply Forall_app; auto).
  rewrite app_assoc. unfold mbind, os.io_bind. rewrite (open_new _ _ _ _ Hd Hn) by done.
  unfold os.prog, os.flock, os.flockNB. rewrite HR. cbn [os.fds os.locks]. rewrite lookup_insert_eq.
  destruct (os.locks σ !! os.nextino σ) eqn:E; [apply (wf_locks _ Hw) in E; lia|]. done.
Qed.
End Names.
End Granted.
