(* ===== verification/Wal.v ===== *)
(** * The write-ahead log

    wal/wal.go, wal/encoder.go, wal/util.go and pkg/ioutil/pagewriter.go: names
    and listing of segment files, and the creation of a log, which prepares its
    first segment in a temporary directory. *)

From S2P Require Import Prelude GoStd Fileutil.

(** ** wal/util.go *)

Definition wal_Exist (readdir : list Z → outcome (list (list Z))) (dir : list Z) : bool :=
  match ReadDir readdir dir (bs ".wal") with
  | Ret names => negb (bool_decide (names = []))
  | _ => false
  end.

(** [fmt.Sprintf("%016x-%016x.wal", seq, index)] *)
Definition pad16 (s : list Z) : list Z := replicate (16 - length s) 48 ++ s.
Definition walName (seq index : Z) : list Z :=
  pad16 (FormatUint16 seq) ++ bs "-" ++ pad16 (FormatUint16 index) ++ bs ".wal".

(** ** pkg/ioutil/pagewriter.go: a buffered writer that flushes whole pages *)
Module PageWriter.
Definition defaultBufferBytes : Z := 128 * 1024.

(** The writer [w] is an open file. *)
Record t := MkPageWriter {
  w : Z; pageOffset : Z; pageBytes : Z; bufferedBytes : Z; buf : list Z; bufWatermarkBytes : Z
}.

Definition NewPageWriter (w pageBytes pageOffset : Z) : t :=
  {| w := w; pageOffset := pageOffset; pageBytes := pageBytes; bufferedBytes := 0;
     buf := replicate (Z.to_nat (defaultBufferBytes + pageBytes)) 0;
     bufWatermarkBytes := defaultBufferBytes |}.
End PageWriter.

(** ** wal/encoder.go *)
Module encoder.
Definition minSectorSize : Z := 512.
Definition walPageBytes : Z := 8 * minSectorSize.

(** The checksum is not set. *)
Record t := MkEncoder { bw : PageWriter.t; crc : option Z; buf : list Z; uint64buf : list Z }.

Definition newEncoder (w prevCrc pageOffset : Z) : t :=
  {| bw := PageWriter.NewPageWriter w walPageBytes pageOffset; crc := None;
     buf := replicate (Z.to_nat (1024 * 1024)) 0; uint64buf := replicate 8 0 |}.

(** The path of the open file is only there to be refused. *)
Definition newFileEncoder `{R : os.Refusals} (p : os.path) (f prevCrc : Z) : os.io t :=
  offset ← os.seek p f 0 1;
  mret (newEncoder f prevCrc offset).
End encoder.

(** ** wal/wal.go *)
Module WAL.
Record t := MkWAL {
  lg : bool; dir : list Z; dirFile : option Z; metadata : list Z; readClose : option Z;
  enti : Z; encoder_ : option encoder.t; locks : list fileutil.LockedFile
}.

Definition tmpdirpath (dirpath : list Z) : list Z := Clean dirpath ++ bs ".tmp".

Section Ops.
Context `{R : os.Refusals}.

(** The path of the segment, for the calls on the open file. *)
Definition segment (σ : os.fs) (dirpath : list Z) : os.path :=
  default [] (os.resolve σ (Join [tmpdirpath dirpath; walName 0 0])).

(** [None] when the call waits for the lock of the segment. *)
Definition Create (lg : bool) (dirpath metadata : list Z) : os.io (option t) := os.prog (λ σ,
  if wal_Exist (os.readdir σ) dirpath then (Err os.ErrExist, σ) else
  let tmp := tmpdirpath dirpath in
  (_ ← (if fileutil.Exist tmp σ then os.RemoveAll tmp else mret tt);
   _ ← fileutil.CreateDirAll tmp;
   let p := Join [tmp; walName 0 0] in
   f ← fileutil.LockFile p (Z.lor os.O_WRONLY os.O_CREATE);
   match f with
   | None => mret None
   | Some f =>
       _ ← os.seek (segment σ dirpath) (fileutil.File_ f) 0 2;
       enc ← encoder.newFileEncoder (segment σ dirpath) (fileutil.File_ f) 0;
       mret (Some {| lg := lg; dir := dirpath; dirFile := None; metadata := metadata;
                     readClose := None; enti := 0; encoder_ := Some enc; locks := [f] |})
   end) σ).
End Ops.
End WAL.

(** ** The log that is created is never found

    [Create] works in the directory [dir.tmp] next to [dir], and does not rename
    it. *)

Lemma plain_walName : plain (walName 0 0).
Proof. by apply (bool_decide_unpack _). Qed.

Lemma plain_tmp c : plain c → plain (c ++ bs ".tmp").
Proof. intros H. apply plain_suffix; [done|by apply (bool_decide_unpack _)|done]. Qed.

Lemma tmpdirpath_pathname rooted es c :
  Forall plain (es ++ [c]) → WAL.tmpdirpath (pathname rooted (es ++ [c])) = pathname rooted (es ++ [c ++ bs ".tmp"]).
Proof. intros H. unfold WAL.tmpdirpath. rewrite Clean_pathname, pathname_suffix by (done || by destruct es). done. Qed.

Lemma not_prefix_sibling {A} (p : list A) x y r : x ≠ y → ¬ p ++ [x] `prefix_of` p ++ [y] ++ r.
Proof. intros H [k E]. rewrite <- app_assoc in E. apply app_inv_head in E. simpl in E. congruence. Qed.

Lemma tmp_ne (c : list Z) : c ≠ c ++ bs ".tmp".
Proof. intros E. apply (f_equal length) in E. rewrite length_app in E. simpl in E. lia. Qed.

Section Create.
Context (rooted : bool) (es : list (list Z)) (c : list Z).
Context (Hes : Forall plain es) (Hc : plain c).

(** The path of the temporary directory. *)
Definition tmpOf (σ : os.fs) : os.path := base rooted σ ++ es ++ [c ++ bs ".tmp"].

Lemma plains : Forall plain (es ++ [c]) ∧ Forall plain (es ++ [c ++ bs ".tmp"])
  ∧ es ++ [c] ≠ [] ∧ es ++ [c ++ bs ".tmp"] ≠ [].
Proof.
  split_and!; [by apply Forall_app; auto|by apply Forall_app; auto using plain_tmp| |]; by destruct es.
Qed.

Lemma resolve_tmp σ : os.resolve σ (WAL.tmpdirpath (pathname rooted (es ++ [c]))) = Some (tmpOf σ).
Proof. destruct plains as (?&?&?&?). by rewrite tmpdirpath_pathname, resolve_pathname. Qed.

Lemma tmpOf_frame p σ σ' : frame p σ σ' → tmpOf σ' = tmpOf σ.
Proof. intros H. unfold tmpOf, base. by rewrite (fr_cwd _ _ _ H). Qed.

Lemma segment_name :
  Join [WAL.tmpdirpath (pathname rooted (es ++ [c])); walName 0 0]
  = pathname rooted ((es ++ [c ++ bs ".tmp"]) ++ [walName 0 0]).
Proof.
  destruct plains as (?&?&?&?). rewrite tmpdirpath_pathname, Join_pathname; auto using plain_walName.
Qed.

(** Whatever is refused, only entries under the temporary directory change. *)
Lemma create_frame `{R : os.Refusals} lg metadata σ :
  frame (tmpOf σ) σ (WAL.Create lg (pathname rooted (es ++ [c])) metadata σ).2.
Proof.
  destruct plains as (H1&H2&H3&H4). unfold WAL.Create, os.prog.
  destruct (wal_Exist _ _); [done|].
  assert (Hrm : frame (tmpOf σ) σ
    ((if fileutil.Exist (WAL.tmpdirpath (pathname rooted (es ++ [c]))) σ
      then os.RemoveAll (WAL.tmpdirpath (pathname rooted (es ++ [c]))) else mret tt) σ).2).
  { destruct (fileutil.Exist _ _); [|done]. unfold os.RemoveAll.
    destruct (WAL.tmpdirpath _) eqn:E; [done|rewrite <- E].
    destruct (os.endsWithDot _); [done|].
    apply (at_frame _ _ (tmpOf σ)); [apply resolve_tmp|apply removeAll_frame]. }
  apply bind_frame; [done|]. intros [] _. set (σ1 := (_ σ).2) in *. clearbody σ1.
  pose proof (tmpOf_frame _ _ _ Hrm) as Et1. rewrite <- Et1.
  assert (Hcd : frame (tmpOf σ1) σ1
    (fileutil.CreateDirAll (WAL.tmpdirpath (pathname rooted (es ++ [c]))) σ1).2).
  { rewrite tmpdirpath_pathname by done. by apply createDirAll_frame. }
  apply bind_frame; [done|]. intros [] _.
  set (σ2 := (fileutil.CreateDirAll _ σ1).2) in *. clearbody σ2.
  pose proof (tmpOf_frame _ _ _ Hcd) as Et2. rewrite <- Et2. rewrite segment_name.
  apply bind_frame.
  { apply (frame_app _ [walName 0 0]). unfold tmpOf. rewrite <- !app_assoc.
    rewrite (app_assoc es). apply lockFile_frame; [|by destruct es].
    apply Forall_app; auto using plain_walName. }
  intros [f|] _; [|done]. apply bind_frame; [apply seek_frame|]. intros off _.
  apply bind_frame; [|done]. unfold encoder.newFileEncoder. apply bind_frame; [apply seek_frame|done].
Qed.

Lemma exist_frame (R' : os.Refusals) σ σ' :
  frame (tmpOf σ) σ σ' →
  wal_Exist (os.readdir (R := R') σ') (pathname rooted (es ++ [c]))
  = wal_Exist (os.readdir (R := R') σ) (pathname rooted (es ++ [c])).
Proof.
  intros [C O A]. destruct plains as (H1&H2&H3&H4). unfold wal_Exist, tmpOf in *.
  rewrite (ReadDir_same (R := R') σ σ' _ _ (base rooted σ ++ es ++ [c])); [done|by apply resolve_pathname|done| |].
  - apply O; rewrite !(app_assoc (base rooted σ)).
    + apply (not_prefix_sibling _ _ _ []), not_eq_sym, tmp_ne.
    + apply (not_prefix_sibling _ _ _ []), tmp_ne.
  - intros e. rewrite O; [done| |]; rewrite !(app_assoc (base rooted σ)).
    + rewrite <- (app_assoc _ [c]). apply not_prefix_sibling, not_eq_sym, tmp_ne.
    + intros H. apply (not_prefix_sibling (base rooted σ ++ es) c (c ++ bs ".tmp") []); [apply tmp_ne|].
      etrans; [|exact H]. by apply prefix_app_r.
Qed.

(** Whatever calls the system refuses, the log that [Create] makes is not found:
    the segment is made in [dir.tmp], which is not renamed. *)
Theorem create_never_visible (R R' : os.Refusals) lg metadata σ :
  let name := pathname rooted (es ++ [c]) in
  wal_Exist (os.readdir (R := R') (WAL.Create (R := R) lg name metadata σ).2) name
  = wal_Exist (os.readdir (R := R') σ) name.
Proof. apply exist_frame, create_frame. Qed.

(** *** When nothing is refused *)

Section Granted.
Context `{R : os.Refusals} (HR : ∀ s p, os.refuse s p = None).

Definition cleared (σ : os.fs) : os.fs :=
  os.setTree σ (filter (λ qn, ¬ tmpOf σ `prefix_of` qn.1) (os.tree σ)).

Lemma lookup_cleared σ q :
  os.tree (cleared σ) !! q = if decide (tmpOf σ `prefix_of` q) then None else os.tree σ !! q.
Proof.
  unfold cleared. cbn [os.tree os.setTree]. apply option_eq. intros n. rewrite map_lookup_filter_Some.
  simpl. destruct (decide _); naive_solver.
Qed.

Lemma remove_old σ :
  wf σ →
  (if fileutil.Exist (WAL.tmpdirpath (pathname rooted (es ++ [c]))) σ
   then os.RemoveAll (WAL.tmpdirpath (pathname rooted (es ++ [c]))) else mret tt) σ
  = (Ret tt, cleared σ).
Proof.
  intros Hw. unfold fileutil.Exist, os.at_. rewrite resolve_tmp, stat_ok by done.
  destruct (os.tree σ !! tmpOf σ) as [n|] eqn:E.
  - unfold os.RemoveAll. destruct (WAL.tmpdirpath _) eqn:Et; [|rewrite <- Et].
    { pose proof (resolve_tmp σ) as Hr. by rewrite Et in Hr. }
    assert (os.endsWithDot (WAL.tmpdirpath (pathname rooted (es ++ [c]))) = false) as ->.
    { unfold WAL.tmpdirpath, os.endsWithDot. rewrite rev_app_distr. done. }
    unfold os.at_. rewrite resolve_tmp. unfold os.removeAll.
    assert (os.stuck σ (tmpOf σ) = []) as ->.
    { unfold os.stuck. apply elem_of_nil_inv. intros [q e]. rewrite list_elem_of_omap.
      intros ([q' n'] & _ & H). simpl in H. rewrite HR in H. by destruct (decide _). }
    f_equal. unfold cleared, os.setTree. f_equal. apply map_filter_ext. intros q n' _. simpl.
    rewrite Exists_nil. tauto.
  - unfold mret, os.io_ret. f_equal. apply setTree_same. intros q.
    change (os.tree σ !! q = os.tree (cleared σ) !! q). rewrite lookup_cleared.
    destruct (decide _) as [Hq|]; [|done]. destruct (decide (tmpOf σ = q)) as [<-|Hne]; [done|].
    destruct (os.tree σ !! q) eqn:Eq; [|done].
    rewrite (wf_prefix σ q (tmpOf σ) Hw ltac:(by rewrite Eq) Hq Hne) in E. done.
Qed.

Lemma wf_cleared σ : wf σ → ¬ tmpOf σ `prefix_of` os.cwd σ → wf (cleared σ).
Proof.
  intros Hw Hcwd. split.
  - rewrite lookup_cleared, decide_False; [apply (wf_root _ Hw)|].
    intros H%prefix_nil_inv. unfold tmpOf in H. apply app_eq_nil in H as [_ H]. by destruct es.
  - intros p e. rewrite !lookup_cleared. destruct (decide _) as [|Hn]; [by intros []|].
    intros H. rewrite decide_False; [by apply (wf_closed _ Hw _ e)|].
    intros H'. apply Hn. by apply prefix_app_r.
  - by rewrite lookup_cleared, decide_False; [apply (wf_cwd _ Hw)|].
  - intros p i. rewrite lookup_cleared. destruct (decide _); [done|]. apply (wf_ino _ Hw).
  - apply (wf_fds _ Hw).
  - apply (wf_locks _ Hw).
Qed.

(** The files after a successful [Create]: one empty, locked segment in the
    temporary directory; the inode before it is that of [.touch]. *)
Definition created (σ : os.fs) : os.fs :=
  let ino := os.nextino σ + 1 in
  let fd := os.nextfd σ + 1 in
  os.Fs (os.cwd σ)
    (<[tmpOf σ ++ [walName 0 0] := os.NFile ino]> (dirsTo (rev (tmpOf σ)) ∪ os.tree (cleared σ)))
    (<[ino := []]> (<[os.nextino σ := []]> (os.inodes σ))) (ino + 1)
    (<[fd := (ino, 0)]> (os.fds σ)) (fd + 1) (<[ino := fd]> (os.locks σ)).

Definition newWAL (lg : bool) (metadata : list Z) (σ : os.fs) : WAL.t :=
  {| WAL.lg := lg; WAL.dir := pathname rooted (es ++ [c]); WAL.dirFile := None; WAL.metadata := metadata;
     WAL.readClose := None; WAL.enti := 0;
     WAL.encoder_ := Some (encoder.newEncoder (os.nextfd σ + 1) 0 0);
     WAL.locks := [fileutil.MkLockedFile (os.nextfd σ + 1)] |}.

(** The files let [Create] work: no file is where a directory is needed, and the
    process does not stand in the directory that is removed. *)
Record creatable (σ : os.fs) : Prop := Creatable {
  cr_wf : wf σ;
  cr_pass : passable σ (base rooted σ ++ es);
  cr_cwd : ¬ tmpOf σ `prefix_of` os.cwd σ
}.

Lemma passable_cleared σ : creatable σ → passable (cleared σ) (tmpOf σ).
Proof.
  intros [Hw Hp _] q i Hq. rewrite lookup_cleared. destruct (decide _) as [|Hn]; [done|].
  apply Hp. unfold tmpOf in Hq. rewrite app_assoc in Hq. apply prefix_of_snoc in Hq as [Hq|Hq]; [done|].
  exfalso. apply Hn. rewrite Hq. unfold tmpOf. by rewrite app_assoc.
Qed.

Lemma seek_empty p fd i wh σ :
  os.fds σ !! fd = Some (i, 0) → os.inodes σ !! i = Some [] → os.seek p fd 0 wh σ = (Ret 0, σ).
Proof.
  intros Hf Hi. unfold os.seek. rewrite HR, Hf, Hi. simpl default.
  assert ((if wh =? 0 then 0 else if wh =? 1 then 0 else len (@nil Z)) + 0 = 0) as ->
    by (destruct (wh =? 0), (wh =? 1); done).
  change (0 <? 0) with false. cbv iota. rewrite insert_id by done. by destruct σ.
Qed.

Lemma create_runs lg metadata σ :
  creatable σ → wal_Exist (os.readdir σ) (pathname rooted (es ++ [c])) = false →
  WAL.Create lg (pathname rooted (es ++ [c])) metadata σ = (Ret (Some (newWAL lg metadata σ)), created σ).
Proof.
  intros Hcr Hex. destruct plains as (H1&H2&H3&H4). pose proof (passable_cleared _ Hcr) as Hpass.
  destruct Hcr as [Hw Hp Hcwd]. unfold WAL.Create, os.prog. rewrite Hex.
  unfold mbind, os.io_bind at 1. rewrite remove_old by done.
  assert (Hempty : ∀ e, os.tree (cleared σ) !! (tmpOf σ ++ [e]) = None).
  { intros e. rewrite lookup_cleared, decide_True; [done|by apply prefix_app_r]. }
  pose proof (wf_cleared _ Hw Hcwd) as Hwc. unfold os.io_bind at 1. rewrite tmpdirpath_pathname by done.
  rewrite (createDirAll_ok HR rooted _ H2 H4 (cleared σ) (tmpOf σ)) by done.
  set (σ1 := touched _ _). unfold os.io_bind at 1.
  rewrite <- tmpdirpath_pathname, segment_name by done.
  assert (Hw1 : wf σ1) by (by apply wf_touchedDirs).
  rewrite (lockFile_ok HR rooted _ H2 H4 (walName 0 0) σ1 (tmpOf σ)); auto using plain_walName.
  2:{ cbn [os.tree σ1 touched]. by rewrite lookup_withDirs, rev_involutive, decide_True. }
  2:{ cbn [os.tree σ1 touched]. rewrite lookup_withDirs, rev_involutive, decide_False; [done|].
      intros Hl%prefix_length. rewrite length_app in Hl. simpl in Hl. lia. }
  set (σ2 := os.Fs _ _ _ _ _ _ _). unfold os.io_bind, encoder.newFileEncoder, mbind, os.io_bind.
  rewrite !(seek_empty _ (os.nextfd σ1) (os.nextino σ1) _ σ2) by apply lookup_insert_eq.
  done.
Qed.

Lemma wf_created σ : creatable σ → wf (created σ).
Proof.
  intros Hcr. pose proof (passable_cleared _ Hcr) as Hpass. destruct Hcr as [Hw Hp Hcwd].
  pose proof (wf_withDirs _ (rev (tmpOf σ)) (wf_cleared _ Hw Hcwd)) as Hwd.
  rewrite rev_involutive in Hwd. specialize (Hwd Hpass).
  assert (Hroot : ∀ q, tmpOf σ ++ [walName 0 0] ≠ [] ∧ (q = tmpOf σ ++ [walName 0 0] → q ≠ [])).
  { intros q. split; [by destruct (tmpOf σ)|intros ->; by destruct (tmpOf σ)]. }
  split; cbn [os.tree created os.cwd os.fds os.locks os.nextino os.nextfd].
  - rewrite lookup_insert_ne by apply (Hroot []). apply (wf_root _ Hwd).
  - intros p e H.
    assert (Ht : (dirsTo (rev (tmpOf σ)) ∪ os.tree (cleared σ)) !! tmpOf σ = Some os.NDir).
    { by rewrite lookup_withDirs, rev_involutive, decide_True. }
    destruct (decide (p ++ [e] = tmpOf σ ++ [walName 0 0])) as [E|Hne].
    + apply app_inj_tail in E as [-> _]. rewrite lookup_insert_ne; [done|].
      intros E. apply (f_equal length) in E. rewrite length_app in E. simpl in E. lia.
    + rewrite lookup_insert_ne in H by done. apply (wf_closed _ Hwd) in H. cbn [os.tree os.setTree] in H.
      destruct (decide (p = tmpOf σ ++ [walName 0 0])) as [->|Hn]; [|by rewrite lookup_insert_ne].
      rewrite lookup_withDirs, rev_involutive, lookup_cleared in H.
      rewrite (decide_True _ _ (P := tmpOf σ `prefix_of` _)) in H by (by apply prefix_app_r).
      destruct (decide _) as [Hl|]; [|done].
      apply prefix_length in Hl. rewrite length_app in Hl. simpl in Hl. lia.
  - rewrite lookup_insert_ne; [apply (wf_cwd _ Hwd)|].
    intros E. apply Hcwd. rewrite <- E. by apply prefix_app_r.
  - intros p i. destruct (decide (p = tmpOf σ ++ [walName 0 0])) as [->|Hne].
    + rewrite lookup_insert_eq. intros [= <-]. lia.
    + rewrite lookup_insert_ne by done. intros H. apply (wf_ino _ Hwd) in H.
      cbn [os.nextino os.setTree cleared] in H. lia.
  - intros fd. destruct (decide (fd = os.nextfd σ + 1)) as [->|Hne]; [lia|].
    rewrite lookup_insert_ne by done. intros H%(wf_fds _ Hw). lia.
  - intros i fd. destruct (decide (i = os.nextino σ + 1)) as [->|Hne].
    + rewrite lookup_insert_eq. intros [= <-]. lia.
    + rewrite lookup_insert_ne by done. intros H%(wf_locks _ Hw). lia.
Qed.

(** A second log of the same directory can be created at once. *)
Lemma creatable_created σ : creatable σ → creatable (created σ).
Proof.
  intros Hcr. pose proof (passable_cleared _ Hcr) as Hpass. split; [by apply wf_created| |apply Hcr].
  intros q i Hq. change (base rooted (created σ)) with (base rooted σ) in Hq.
  assert (Ht : q `prefix_of` tmpOf σ) by (unfold tmpOf; rewrite app_assoc; by apply prefix_app_r).
  cbn [os.tree created]. rewrite lookup_insert_ne.
  - rewrite lookup_withDirs, rev_involutive, decide_True by done. done.
  - intros <-. apply prefix_length in Ht. rewrite length_app in Ht. simpl in Ht. lia.
Qed.

Lemma exist_created σ :
  creatable σ → wal_Exist (os.readdir σ) (pathname rooted (es ++ [c])) = false →
  wal_Exist (os.readdir (created σ)) (pathname rooted (es ++ [c])) = false.
Proof.
  intros Hcr Hex. destruct plains as (H1&H2&H3&H4).
  pose proof (create_frame (R := R) false [] σ) as Hf. rewrite create_runs in Hf by done. simpl in Hf.
  rewrite <- Hex. by apply exist_frame.
Qed.

Lemma entries_created σ : os.entries (created σ) (tmpOf σ) = [walName 0 0].
Proof.
  apply Permutation_singleton_r, NoDup_Permutation; [apply NoDup_entries|apply NoDup_singleton|].
  intros e. rewrite elem_of_entries, list_elem_of_singleton. cbn [os.tree created]. split.
  - destruct (decide (e = walName 0 0)) as [|Hne]; [done|].
    rewrite lookup_insert_ne by (intros E; apply app_inj_tail in E as [_ E]; congruence).
    rewrite lookup_withDirs, rev_involutive, lookup_cleared, decide_False, decide_True; [by intros []| |].
    + by apply prefix_app_r.
    + intros Hl%prefix_length. rewrite length_app in Hl. simpl in Hl. lia.
  - intros ->. by rewrite lookup_insert_eq.
Qed.

(** The descriptor of a log is open, and holds the lock of its segment. *)
Definition holds (σ : os.fs) (w : WAL.t) (ino : Z) : Prop :=
  ∃ fd, WAL.locks w = [fileutil.MkLockedFile fd] ∧ os.fds σ !! fd = Some (ino, 0)
    ∧ os.locks σ !! ino = Some fd.

(** C37 (safety): nothing keeps a log to one owner.  When no call is refused, no
    file is in the way and the directory has no log, [Create] succeeds: the
    temporary directory has the one, empty, locked segment.  And then it
    succeeds again, while the first log is still open: it removes the segment
    of the first, which has no name any more, although its lock is held. *)
Theorem create_not_exclusive lg metadata σ :
  let name := pathname rooted (es ++ [c]) in
  creatable σ → wal_Exist (os.readdir σ) name = false →
  ∃ w1 σ1 w2 σ2 i1 i2,
    WAL.Create lg name metadata σ = (Ret (Some w1), σ1) ∧
    WAL.dir w1 = name ∧ WAL.metadata w1 = metadata ∧
    os.entries σ1 (tmpOf σ) = [walName 0 0] ∧ os.inodes σ1 !! i1 = Some [] ∧
    os.tree σ1 !! (tmpOf σ ++ [walName 0 0]) = Some (os.NFile i1) ∧ holds σ1 w1 i1 ∧
    WAL.Create lg name metadata σ1 = (Ret (Some w2), σ2) ∧
    holds σ2 w1 i1 ∧ holds σ2 w2 i2 ∧ i1 ≠ i2 ∧
    (∀ p, os.tree σ2 !! p ≠ Some (os.NFile i1)).
Proof.
  intros name Hcr Hex. pose proof (creatable_created _ Hcr) as Hcr1.
  exists (newWAL lg metadata σ), (created σ), (newWAL lg metadata (created σ)), (created (created σ)),
    (os.nextino σ + 1), (os.nextino (created σ) + 1).
  split_and!; try done.
  - by apply create_runs.
  - apply entries_created.
  - cbn [os.inodes created]. by rewrite lookup_insert_eq.
  - cbn [os.tree created]. by rewrite lookup_insert_eq.
  - exists (os.nextfd σ + 1). split_and!; [done|apply lookup_insert_eq..].
  - by apply create_runs, exist_created.
  - exists (os.nextfd σ + 1). split; [done|].
    split; cbn [os.fds os.locks os.nextino os.nextfd created];
      rewrite lookup_insert_ne by lia; apply lookup_insert_eq.
  - exists (os.nextfd (created σ) + 1). split_and!; [done|apply lookup_insert_eq..].
  - cbn [os.nextino created]. lia.
  - intros p. change (tmpOf (created σ)) with (tmpOf σ).
    unfold created at 1. cbn [os.tree]. change (tmpOf (created σ)) with (tmpOf σ).
    destruct (decide (p = tmpOf σ ++ [walName 0 0])) as [->|Hne].
    { rewrite lookup_insert_eq. cbn [os.nextino created]. intros [=]. lia. }
    rewrite lookup_insert_ne, lookup_withDirs by done. destruct (decide _); [done|].
    rewrite lookup_cleared. destruct (decide _); [done|]. cbn [os.tree created].
    rewrite lookup_insert_ne, lookup_withDirs by done. destruct (decide _); [done|].
    rewrite lookup_cleared. destruct (decide _); [done|].
    intros H%(wf_ino _ (cr_wf _ Hcr)). lia.
Qed.
End Granted.
End Create.

(** A machine whose disk has nothing but its root, and refuses nothing. *)
Definition emptyDisk : os.fs := os.Fs [] {[ [] := os.NDir ]} ∅ 1 ∅ 3 ∅.
Definition granting : os.Refusals := λ _ _, None.

Lemma lookup_emptyDisk q n : os.tree emptyDisk !! q = Some n → q = [] ∧ n = os.NDir.
Proof. cbn [os.tree emptyDisk]. intros [<- <-]%lookup_singleton_Some. done. Qed.

Lemma wf_emptyDisk : wf emptyDisk.
Proof.
  split; try done.
  - intros p e [n H]. apply lookup_emptyDisk in H as [H _]. by destruct p.
  - intros p i H. by apply lookup_emptyDisk in H as [_ [=]].
  - intros fd [? H]. done.
Qed.

Lemma creatable_emptyDisk rooted es c : creatable rooted es c emptyDisk.
Proof.
  split; [apply wf_emptyDisk| |].
  - intros q i _ H. by apply lookup_emptyDisk in H as [_ [=]].
  - intros H%prefix_nil_inv. unfold tmpOf in H. destruct rooted, es; done.
Qed.

Lemma create_not_exclusive_witness :
  wal_Exist (os.readdir (R := granting) emptyDisk) (bs "/data/wal") = false ∧
  ∃ w1 σ1 w2 σ2, WAL.Create (R := granting) true (bs "/data/wal") [] emptyDisk = (Ret (Some w1), σ1)
    ∧ WAL.Create (R := granting) true (bs "/data/wal") [] σ1 = (Ret (Some w2), σ2)
    ∧ WAL.locks w1 ≠ WAL.locks w2.
Proof.
  assert (Hex : wal_Exist (os.readdir (R := granting) emptyDisk) (pathname true ([bs "data"] ++ [bs "wal"])) = false)
    by reflexivity.
  split; [exact Hex|].
  destruct (create_not_exclusive true [bs "data"] (bs "wal")
              ltac:(by apply (bool_decide_unpack _)) ltac:(by apply (bool_decide_unpack _))
              (R := granting) (λ _ _, eq_refl) true [] emptyDisk (creatable_emptyDisk _ _ _) Hex)
    as (w1 & σ1 & w2 & σ2 & i1 & i2 & H1 & _ & _ & _ & _ & _ & _ & H2 & (f1 & L1 & F1 & K1) & (f2 & L2 & F2 & K2) & Hne & _).
  exists w1, σ1, w2, σ2. split; [exact H1|]. split; [exact H2|].
  rewrite L1, L2. intros [= <-]. congruence.
Defined.
