(* ===== verification/Server.v ===== *)
(** * etcdserver: the server

    Its configuration, the raft node it drives, how it is built and started,
    and the v2 request path.  What the operating system, the network and the
    logger answer while the server is built is an argument ([env]). *)

From stdpp Require Import pretty.
From S2P Require Import Prelude GoStd Proto RaftPb RaftPbCodec Quorum Tracker ConfChanger Storage.
From S2P Require Import RaftLog Raft Node Membership EtcdPb Requests Stats Lease Backend.

(** Durations, in nanoseconds. *)
Definition Millisecond : Z := 1000000.
Definition Second : Z := 1000000000.

(** ** config.go

    URLs are their strings; loggers and TLS settings are whether they are set
    and a handle; [InitialPeerURLsMap] is the list of its entries, with
    distinct names, in the order [range] visits them. *)
Module ServerConfig.
Record t := mk {
  Name : list Z; DiscoveryURL : list Z; DiscoveryProxy : list Z;
  ClientURLs : list (list Z); PeerURLs : list (list Z);
  DataDir : list Z; DedicatedWALDir : list Z;
  SnapshotCount : Z; SnapshotCatchUpEntries : Z;
  MaxSnapFiles : Z; MaxWALFiles : Z;
  BackendBatchInterval : Z; BackendBatchLimit : Z; BackendFreelistType : list Z;
  InitialPeerURLsMap : list (list Z * list (list Z)); InitialClusterToken : list Z;
  NewCluster : bool; PeerTLSInfo : Z;
  CORS : gset (list Z); HostWhitelist : gset (list Z);
  TickMs : Z; ElectionTicks : Z; InitialElectionTickAdvance : bool;
  BootstrapTimeout : Z;
  AutoCompactionRetention : Z; AutoCompactionMode : list Z; QuotaBackendBytes : Z; MaxTxnOps : Z;
  MaxRequestBytes : Z; StrictReconfigCheck : bool; ClientCertAuthEnabled : bool;
  AuthToken : list Z; BcryptCost : Z;
  InitialCorruptCheck : bool; CorruptCheckTime : Z;
  PreVote : bool;
  Logger : bool; LoggerConfig : bool; LoggerCore : bool; LoggerWriteSyncer : bool;
  Debug_ : bool; ForceNewCluster : bool;
  EnableLeaseCheckpoint : bool; LeaseCheckpointInterval : Z; EnableGRPCGateway : bool
}.

(** [c.InitialPeerURLsMap[name]]; a present entry is not nil, as
    [types.NewURLsMap] makes it. *)
Fixpoint urlsOf (name : list Z) (m : list (list Z * list (list Z))) : option (list (list Z)) :=
  match m with
  | [] => None
  | (n, us) :: m => if decide (n = name) then Some us else urlsOf name m
  end.

Definition hasLocalMember (c : t) : outcome unit :=
  match urlsOf (Name c) (InitialPeerURLsMap c) with
  | None => Err (Errorf "couldn't find local name in the initial cluster configuration")
  | Some _ => Ret tt
  end.
Definition VerifyBootstrap (c : t) : outcome unit := _ ← hasLocalMember c; Ret tt.

Definition MemberDir (c : t) : list Z := Join [DataDir c; bs "member"].
Definition WALDir (c : t) : list Z :=
  match DedicatedWALDir c with
  | [] => Join [MemberDir c; bs "wal"]
  | d => d
  end.
Definition SnapDir (c : t) : list Z := Join [MemberDir c; bs "snap"].
Definition ShouldDiscover (c : t) : bool := negb (bool_decide (DiscoveryURL c = [])).

(** [time.Duration(c.ElectionTicks*int(c.TickMs)) * time.Millisecond] *)
Definition electionTimeout (c : t) : Z :=
  i64 (i64 (ElectionTicks c * i64 (TickMs c)) * Millisecond).
Definition ReqTimeout (c : t) : Z :=
  i64 (5 * Second + i64 (i64 (2 * i64 (ElectionTicks c * i64 (TickMs c))) * Millisecond)).
Definition peerDialTimeout (c : t) : Z := i64 (Second + electionTimeout c).

Fixpoint duplicateLoop (um : gset (list Z)) (urls : list (list Z)) : bool * gset (list Z) :=
  match urls with
  | [] => (false, um)
  | u :: urls => if decide (u ∈ um) then (true, um) else duplicateLoop ({[u]} ∪ um) urls
  end.
Fixpoint checkDuplicateURL_ (um : gset (list Z)) (m : list (list Z * list (list Z))) : bool :=
  match m with
  | [] => false
  | (_, urls) :: m =>
      let '(found, um) := duplicateLoop um urls in
      if found then true else checkDuplicateURL_ um m
  end.
Definition checkDuplicateURL (m : list (list Z * list (list Z))) : bool := checkDuplicateURL_ ∅ m.

Definition bootstrapTimeout (c : t) : Z :=
  if negb (BootstrapTimeout c =? 0) then BootstrapTimeout c else Second.
Definition backendPath (c : t) : list Z := Join [SnapDir c; bs "db"].
End ServerConfig.

(** [checkDuplicateURL] reports exactly whether some URL occurs twice. *)
Lemma duplicateLoop_ok um urls :
  (ServerConfig.duplicateLoop um urls).1 = false ↔ NoDup urls ∧ ∀ u, u ∈ urls → u ∉ um.
Proof.
  revert um. induction urls as [|u urls IH]; intros um; simpl.
  - split; [|done]. intros _. split; [constructor|set_solver].
  - case_decide as Hu; simpl.
    + split; [done|]. intros [_ H]. exfalso. by apply (H u); [set_solver|].
    + rewrite IH, NoDup_cons. set_solver.
Qed.

Lemma duplicateLoop_set um urls :
  (ServerConfig.duplicateLoop um urls).1 = false →
  (ServerConfig.duplicateLoop um urls).2 = um ∪ list_to_set urls.
Proof.
  revert um. induction urls as [|u urls IH]; intros um; simpl; [set_solver|].
  case_decide; simpl; [done|]. intros H'%IH. rewrite H'. set_solver.
Qed.

Lemma checkDuplicateURL_from um m :
  ServerConfig.checkDuplicateURL_ um m = false ↔
  NoDup (concat m.*2) ∧ ∀ u, u ∈ concat m.*2 → u ∉ um.
Proof.
  revert um. induction m as [|[n urls] m IH]; intros um; simpl.
  - split; [|done]. intros _. split; [constructor|set_solver].
  - pose proof (duplicateLoop_ok um urls) as Hd. pose proof (duplicateLoop_set um urls) as Hs.
    destruct (ServerConfig.duplicateLoop um urls) as [[] um']; simpl in *.
    + split; [done|]. intros [Hn Hu]. apply Hd. apply NoDup_app in Hn as (Hn & _ & _). set_solver.
    + rewrite IH, (Hs eq_refl), NoDup_app. pose proof (proj1 Hd eq_refl). set_solver.
Qed.

(** [checkDuplicateURL] is true exactly when some URL occurs
    twice in the initial cluster, under one name or under several, in whatever
    order the map is visited. *)
Lemma checkDuplicateURL_correct m :
  ServerConfig.checkDuplicateURL m = negb (bool_decide (NoDup (concat m.*2))).
Proof.
  unfold ServerConfig.checkDuplicateURL. pose proof (checkDuplicateURL_from ∅ m) as H.
  case_bool_decide as Hd; simpl.
  - apply H. split; [done|set_solver].
  - destruct (ServerConfig.checkDuplicateURL_ ∅ m); [done|].
    exfalso. by apply Hd, H.
Qed.

(** ** rafthttp: transport.go, remote.go *)
Module Transport.
(** [remotes] and [peers] are nil until [Start]; round trippers are handles.
    [remotes] maps to nil pointers: [startRemote] returns nil. *)
Record t := mk {
  Logger : bool; DialTimeout : Z; DialRetryFrequency : Z; TLSInfo : Z;
  ID : Z; URLs : list (list Z); ClusterID : Z;
  streamRt : option Z; pipelineRt : option Z;
  remotes : option (gset Z); peers : option (gset Z);
  pipelineProber : option Z; streamProber : option Z
}.

(** [rate.Every(100 * time.Millisecond)]: events per second. *)
Definition defaultDialRetryFrequency : Z := 10.

(** [streamRt'] and [pipelineRt'] are what the round-tripper constructors give. *)
Definition Start (streamRt' pipelineRt' : outcome Z) (tr : t) : t * outcome unit :=
  match streamRt' with
  | Ret s =>
      let tr := tr <| streamRt := Some s |> in
      match pipelineRt' with
      | Ret p =>
          let tr := tr <| pipelineRt := Some p |> in
          let tr := tr <| remotes := Some ∅ |> <| peers := Some ∅ |>
                       <| pipelineProber := Some p |> <| streamProber := Some s |> in
          let tr := if DialRetryFrequency tr =? 0
                    then tr <| DialRetryFrequency := defaultDialRetryFrequency |> else tr in
          (tr, Ret tt)
      | Err e => (tr <| pipelineRt := None |>, Err e)
      | Panic p => (tr, Panic p)
      | OutOfFuel => (tr, OutOfFuel)
      end
  | Err e => (tr <| streamRt := None |>, Err e)
  | Panic p => (tr, Panic p)
  | OutOfFuel => (tr, OutOfFuel)
  end.

(** [urls] is what [types.NewURLs] gives for the remote's URLs.  Without a
    logger its error is ignored. *)
Definition AddRemote (id : Z) (urls : outcome (list (list Z))) (tr : t) : outcome t :=
  match remotes tr with
  | None => Ret tr
  | Some rs =>
      if decide (id ∈ keys (peers tr)) then Ret tr else
      if decide (id ∈ rs) then Ret tr else
      match urls with
      | Err _ => if Logger tr then Panic (PanicString "failed NewURLs")
                 else Ret (tr <| remotes := Some ({[id]} ∪ rs) |>)
      | Panic p => Panic p
      | OutOfFuel => OutOfFuel
      | Ret _ => Ret (tr <| remotes := Some ({[id]} ∪ rs) |>)
      end
  end.

(** The body is empty. *)
Definition AddPeer (id : Z) (us : list (list Z)) (tr : t) : t := tr.
End Transport.

(** ** raft.go *)

Definition maxSizePerMsg : Z := 1 * 1024 * 1024.
Definition maxInflightMsgs : Z := 4096 / 8.
Definition maxInFlightMsgSnap : Z := 16.

Module raftNodeConfig.
(** [isIDRemoved] is the closure's function of the cluster; the storage is the
    handles of the WAL and the snapshotter. *)
Record t := mk {
  lg : bool; isIDRemoved : Z → outcome bool; Node : option (node.t MemoryStorage.t);
  raftStorage : option MemoryStorage.t; storage : option Z * Z; heartbeat : Z;
  transport : option Transport.t
}.
End raftNodeConfig.

Module raftNode.
(** [ticker] is the period of the ticker, [None] for one that never fires; the
    buffered channels are their capacities, and empty. *)
Record t := mk {
  lg : bool; cfg : raftNodeConfig.t;
  msgSnapC_cap : Z; readStateC_cap : Z;
  ticker : option Z; td_maxDuration : Z;
  stopped : signal; done : signal
}.

(** [time.NewTicker] panics on a negative period. *)
Definition newRaftNode (cfg : raftNodeConfig.t) : outcome t :=
  let heartbeat := raftNodeConfig.heartbeat cfg in
  let r := mk (raftNodeConfig.lg cfg) cfg maxInFlightMsgSnap 1 None (i64 (2 * heartbeat))
             sig_open sig_open in
  if heartbeat =? 0 then Ret r
  else if heartbeat <? 0 then Panic (PanicString "non-positive interval for NewTicker")
  else Ret (r <| ticker := Some heartbeat |>).

(** [r.Tick()] through the embedded interface. *)
Definition tick (r : t) : outcome t :=
  match raftNodeConfig.Node (cfg r) with
  | None => Panic NilDereference
  | Some n => Ret (r <| cfg ::= (λ c, c <| raftNodeConfig.Node := Some (node.Tick n) |>) |>)
  end.

Fixpoint tickLoop (k : nat) (r : t) : outcome t :=
  match k with
  | O => Ret r
  | S k => r ← tick r; tickLoop k r
  end.
Definition advanceTicks (ticks : Z) (r : t) : outcome t := tickLoop (Z.to_nat ticks) r.

Definition onStop (r : t) : t := r.

(** One round of the loop that [start] runs: a case that cannot happen now gives
    [None]; the flag tells whether the loop goes on.  [Ready] gives the node's nil
    channel. *)
Inductive event := TickerC | ReadyC | StoppedC.
Definition loopRound (ev : event) (r : t) : outcome (option (t * bool)) :=
  match ev with
  | TickerC =>
      match ticker r with
      | None => Ret None
      | Some _ => r ← tick r; Ret (Some (r, true))
      end
  | ReadyC => Ret None
  | StoppedC => match stopped r with sig_closed => Ret (Some (onStop r, false)) | _ => Ret None end
  end.
Fixpoint loop (evs : list event) (r : t) : outcome (option (t * bool)) :=
  match evs with
  | [] => Ret (Some (r, true))
  | ev :: evs =>
      o ← loopRound ev r;
      match o with
      | Some (r, true) => loop evs r
      | o => Ret o
      end
  end.
End raftNode.

(** Nothing closes [stopped], and nothing is sent on the ready channel: the loop
    never ends, and what it does is to tick. *)
Lemma raftNode_loop_ticks evs (r r' : raftNode.t) b :
  raftNode.stopped r = sig_open → raftNode.loop evs r = Ret (Some (r', b)) →
  b = true ∧ raftNode.tickLoop (length evs) r = Ret r' ∧ raftNode.stopped r' = sig_open.
Proof.
  revert r. induction evs as [|[] evs IH]; intros r Hs H; cbn in H.
  - by injection H as <- <-.
  - destruct (raftNode.ticker r); [|done]. cbn [raftNode.tickLoop length].
    destruct (raftNode.tick r) as [r1| | |] eqn:E; try done. cbn in H. rewrite bind_Ret. apply IH; [|done].
    unfold raftNode.tick in E. destruct (raftNodeConfig.Node _); [|done]. by injection E as <-.
  - done.
  - by rewrite Hs in H.
Qed.

(** The JSON of a member, with the tags of member.go. *)
Definition memberJSON (m : option Member.t) : list Z :=
  match m with
  | None => bs "null"
  | Some m =>
      Json.object (
        [(bs "id", Json.number (Member.ID m)); (bs "peerURLs", Json.strings (Member.PeerURLs m))]
        ++ (if Member.IsLearner m then [(bs "isLearner", bs "true")] else [])
        ++ (if decide (Member.Name m = []) then [] else [(bs "name", Json.str (Member.Name m))])
        ++ match Member.ClientURLs m with
           | None | Some [] => []
           | us => [(bs "clientURLs", Json.strings us)]
           end)
  end.

(** The example of raft.go. *)
Example memberJSON_test :
  memberJSON (Some (Member.mk 10276657743932975437 (Some [bs "http://localhost:2380"]) false
                      (bs "test") None)) =
  bs "{" ++ [34] ++ bs "id" ++ [34] ++ bs ":10276657743932975437," ++ [34] ++ bs "peerURLs" ++ [34]
  ++ bs ":[" ++ [34] ++ bs "http://localhost:2380" ++ [34] ++ bs "]," ++ [34] ++ bs "name" ++ [34]
  ++ bs ":" ++ [34] ++ bs "test" ++ [34] ++ bs "}".
Proof. vm_compute. reflexivity. Qed.

Section StartNode.
Context `{MO : !MapOrder}.

Definition raftConfig (cfg : ServerConfig.t) (id : Z) : RaftConfig.t MemoryStorage.t :=
  {| RaftConfig.ID := id; RaftConfig.peers := []; RaftConfig.learners := [];
     RaftConfig.ElectionTick := ServerConfig.ElectionTicks cfg; RaftConfig.HeartbeatTick := 1;
     RaftConfig.Storage_ := MemoryStorage.NewMemoryStorage; RaftConfig.Applied := 0;
     RaftConfig.MaxSizePerMsg := maxSizePerMsg; RaftConfig.MaxCommittedSizePerReady := 0;
     RaftConfig.MaxUncommittedEntriesSize := 0; RaftConfig.MaxInflightMsgs := maxInflightMsgs;
     RaftConfig.CheckQuorum := true; RaftConfig.PreVote := ServerConfig.PreVote cfg;
     RaftConfig.ReadOnlyOption := 0; RaftConfig.DisableProposalForwarding := false |}.

Definition peerOf (cl : RaftCluster.t) (id : Z) : RawNode.Peer :=
  RawNode.MkPeer id (Some (memberJSON (RaftCluster.Member_ cl id))).

(** [wal] is what [wal.Create] gives, [rnd] and [rnd'] the random numbers the raft
    node draws.  Without a logger the error of [wal.Create] is ignored. *)
Definition startNode (wal : outcome Z) (rnd rnd' : Z) (cfg : ServerConfig.t) (cl : RaftCluster.t)
    (ids : list Z) : outcome (Z * option (node.t MemoryStorage.t) * MemoryStorage.t * option Z) :=
  member ← RaftCluster.MemberByName cl (ServerConfig.Name cfg);
  w ← match wal with
      | Ret w => Ret (Some w)
      | Err _ => if ServerConfig.Logger cfg then Panic (PanicString "failed to create WAL") else Ret None
      | Panic p => Panic p
      | OutOfFuel => OutOfFuel
      end;
  let peers := peerOf cl <$> ids in
  match member with
  | None => Panic NilDereference
  | Some member =>
      let id := Member.ID member in
      let s := MemoryStorage.NewMemoryStorage in
      let c := raftConfig cfg id in
      if len peers =? 0 then Ret (id, None, s, w)
      else n ← node.StartNode rnd rnd' c peers; Ret (id, Some n, s, w)
  end.
End StartNode.

(** ** v2_server.go, apply_v2.go *)

Module Response.
Record t := mk { Term : Z; Index : Z; Event : option Z; Err_ : option error }.
Definition zero : t := mk 0 0 None None.
End Response.

Module membership.
(** [membership.Attributes] *)
Record Attributes := Attr { Name : list Z; ClientURLs : option (list (list Z)) }.
(** Its JSON, with the tags of member.go. *)
Definition attributesJSON (a : Attributes) : list Z :=
  Json.object (
    (if decide (Name a = []) then [] else [(bs "name", Json.str (Name a))])
    ++ match ClientURLs a with
       | None | Some [] => []
       | us => [(bs "clientURLs", Json.strings us)]
       end).
End membership.

(** pbutil.go *)
Definition GetBool (v : option bool) : bool * bool :=
  match v with None => (false, false) | Some b => (b, true) end.

(** [storeMemberAttributeRegexp], /0/members/[[:xdigit:]]{1,16}/attributes, matches
    anywhere in the string. *)
Module memberRegexp.
Definition xdigit (b : Z) : bool :=
  ((48 <=? b) && (b <=? 57)) || ((65 <=? b) && (b <=? 70)) || ((97 <=? b) && (b <=? 102)).

Fixpoint stripPrefix (p s : list Z) : option (list Z) :=
  match p, s with
  | [], _ => Some s
  | a :: p, b :: s => if a =? b then stripPrefix p s else None
  | _ :: _, [] => None
  end.

(** The digits at the head, and the rest. *)
Fixpoint span (s : list Z) : list Z * list Z :=
  match s with
  | b :: s' => if xdigit b then let '(d, r) := span s' in (b :: d, r) else ([], s)
  | [] => ([], [])
  end.

Definition matchHere (s : list Z) : bool :=
  match stripPrefix (bs "/0/members/") s with
  | None => false
  | Some s =>
      let '(d, rest) := span s in
      (1 <=? len d) && (len d <=? 16) &&
      match stripPrefix (bs "/attributes") rest with Some _ => true | None => false end
  end.

Fixpoint MatchString (s : list Z) : bool :=
  matchHere s || match s with [] => false | _ :: s => MatchString s end.
End memberRegexp.

Module applierV2store.
(** The cluster is a pointer shared with the server. *)
Record t := mk { lg : bool; cluster : option RaftCluster.t }.

Definition NewApplierV2 (lg : bool) (c : option RaftCluster.t) : t := mk lg c.

(** [unmarshal] is [json.Unmarshal] into an [Attributes]: what it fills in, and
    whether it succeeded. *)
Definition Put (unmarshal : list Z → membership.Attributes * bool) (r : Request.t) (a : t)
    : outcome (t * Response.t) :=
  let '(_, existsSet) := GetBool (Request.PrevExist r) in
  if existsSet then Ret (a, Response.zero)
  else if (Request.PrevIndex r >? 0) || negb (bool_decide (Request.PrevValue r = []))
  then Ret (a, Response.zero)
  else if memberRegexp.MatchString (Request.Path r) then
    let id := MustParseMemberIDFromKey (Dir (Request.Path r)) in
    let '(attr, ok) := unmarshal (Request.Val r) in
    if negb ok && lg a then Panic (PanicString "failed to unmarshal") else
    Ret (a <| cluster := option_map
                (RaftCluster.UpdateAttributes id (membership.Name attr)
                   (default [] (membership.ClientURLs attr))) (cluster a) |>,
         Response.zero)
  else Ret (a, Response.zero).
End applierV2store.

(** [TTLOptions]: the expiration time and the refresh flag. *)
Definition TTLOptions (r : Request.t) : option Z * bool :=
  let '(refresh, _) := GetBool (Request.Refresh r) in
  (if negb (Request.Expiration r =? 0) then Some (Request.Expiration r) else None, refresh).

Definition toResponse (ev : option Z) (err : option error) : Response.t := Response.mk 0 0 ev err.

Module RequestV2.
(** The handler's methods: only [Put] is there. *)
Definition Handle {A} (put : Request.t → outcome (A * Response.t)) (r : Request.t)
    : outcome (A * Response.t) :=
  let r := if bool_decide (Request.Method r = bs "GET") && Request.Quorum r
           then r <| Request.Method := bs "QGET" |> else r in
  if decide (Request.Method r = bs "PUT") then put r else Err ErrUnknownMethod.
End RequestV2.

(** ** quota.go *)
Inductive Quota := passthroughQuota | nilQuota.
Definition DefaultQuotaBytes : Z := 2 * 1024 * 1024 * 1024.
Definition MaxQuotaBytes : Z := 8 * 1024 * 1024 * 1024.
Definition quotaAvailable (q : Quota) : outcome bool :=
  match q with passthroughQuota => Ret true | nilQuota => Panic NilDereference end.
Definition quotaCost (q : Quota) : outcome Z :=
  match q with passthroughQuota => Ret 0 | nilQuota => Panic NilDereference end.
Definition quotaRemaining (q : Quota) : outcome Z :=
  match q with passthroughQuota => Ret 1 | nilQuota => Panic NilDereference end.
Definition NewBackendQuota (cfg : ServerConfig.t) : Quota :=
  if ServerConfig.QuotaBackendBytes cfg <? 0 then passthroughQuota else nilQuota.

(** ** backend.go *)
Definition backendConfig (cfg : ServerConfig.t) : BackendConfig.t :=
  let bcfg := BackendConfig.DefaultBackendConfig
                <| BackendConfig.Path := ServerConfig.backendPath cfg |> in
  let bcfg := if negb (ServerConfig.BackendBatchLimit cfg =? 0)
              then bcfg <| BackendConfig.BatchLimit := ServerConfig.BackendBatchLimit cfg |> else bcfg in
  let bcfg := if negb (ServerConfig.BackendBatchInterval cfg =? 0)
              then bcfg <| BackendConfig.BatchInterval := ServerConfig.BackendBatchInterval cfg |>
              else bcfg in
  let bcfg := bcfg <| BackendConfig.BackendFreelistType := ServerConfig.BackendFreelistType cfg |>
                   <| BackendConfig.Logger := ServerConfig.Logger cfg |> in
  let quota := ServerConfig.QuotaBackendBytes cfg in
  if (quota >? 0) && negb (quota =? DefaultQuotaBytes)
  then bcfg <| BackendConfig.MmapSize := u64 (i64 (quota + quota ÷ 10)) |> else bcfg.

(** [openBackend]: whether the backend opens within ten seconds or later only
    changes what is logged. *)
Definition openBackend (open : outcome Z) (cfg : ServerConfig.t) : outcome backend.t :=
  backend.newBackend open (backendConfig cfg).

(** ** cluster_util.go

    [get] is what the HTTP client and reading the body give for an address; the body is only
    printed. *)
Fixpoint getLoop (get : list Z → outcome (list Z)) (urls : list (list Z)) : outcome unit :=
  match urls with
  | [] => Ret tt
  | u :: urls =>
      match get (u ++ bs "/members") with
      | Panic p => Panic p
      | OutOfFuel => OutOfFuel
      | Ret _ | Err _ => getLoop get urls
      end
  end.
Definition getClusterFromRemotePeers (get : list Z → outcome (list Z)) (urls : list (list Z))
    : outcome RaftCluster.t :=
  _ ← getLoop get urls;
  Err (Errorf "could not retrieve cluster information from the given URLs").

Definition isMemberBootstrapped `{!MapOrder} (get : list Z → outcome (list Z)) (cl : RaftCluster.t)
    (member : list Z) : outcome bool :=
  match getClusterFromRemotePeers get (RaftCluster.getRemotePeerURLs cl member) with
  | Err _ => Ret false
  | Panic p => Panic p
  | OutOfFuel => OutOfFuel
  | Ret rcl =>
      m ← RaftCluster.MemberByName cl member;
      match m with
      | None => Panic NilDereference
      | Some m =>
          match RaftCluster.Member_ rcl (Member.ID m) with
          | None => Ret false
          | Some m => Ret (len (default [] (Member.ClientURLs m)) >? 0)
          end
      end
  end.

(** ** server.go *)

Definition DefaultSnapshotCount : Z := 100000.
Definition DefaultSnapshotCatchUpEntries : Z := 5000.
Definition recommendedMaxRequestBytes : Z := 10 * 1024 * 1024.

Module EtcdServer.
(** The channels are signals, the buffered ones their contents ([errorc] holds one
    error); the context is whether it was cancelled; [wg] counts the goroutines of
    [goAttach].  The fields that [start] makes are nil before. *)
Record t := mk {
  inflightSnapshots : Z; appliedIndex : Z; committedIndex : Z; term : Z; lead : Z;
  consistIndex : Z;
  r : raftNode.t;
  readych : signal; Cfg : ServerConfig.t; lg : bool;
  w : option (wait.list_ (option applyResult.t));
  readwaitc_cap : Z; readNotifier : signal;
  stop : signal; stopping : signal; done : signal; leaderChanged : signal;
  errorc : list error;
  id : Z; attributes : membership.Attributes;
  cluster : option RaftCluster.t;
  applyV2_lg : option bool;          (** the applier's logger; [None]: no applier *)
  applyWait : option timeList.t;
  lessor_ : option lessor.t; be : option backend.t;
  stats : ServerStats.t; lstats : LeaderStats.t;
  SyncTicker : Z;
  reqIDGen : Generator.t;
  wg : Z; cancelled : option bool;
  leadElectedTime : Z
}.

(** What the world answers while the server is built. *)
Record env := Env {
  env_touchData : outcome unit; env_haveWAL : bool; env_touchSnap : outcome unit;
  env_open : outcome Z; env_prt : outcome Z; env_get : list Z → outcome (list Z);
  env_wal : outcome Z; env_touchMember : outcome unit;
  env_streamRt : outcome Z; env_pipelineRt : outcome Z;
  env_now : Z; env_rnd : Z; env_rnd' : Z
}.

(** [math.Ceil(d.Seconds())], which is exact for whole milliseconds. *)
Definition ceilSeconds (d : Z) : Z := - (- d / Second).

Section Ops.
Context `{MO : !MapOrder}.

(** The three cases of the [switch]: the cluster, and what [startNode] gives. *)
Definition bootstrap (e : env) (cfg : ServerConfig.t) (be : backend.t)
    : outcome (option RaftCluster.t * Z * option (node.t MemoryStorage.t) * option MemoryStorage.t
               * option Z) :=
  if negb (env_haveWAL e) && negb (ServerConfig.NewCluster cfg) then Ret (None, 0, None, None, None)
  else if negb (env_haveWAL e) && ServerConfig.NewCluster cfg then
    _ ← ServerConfig.VerifyBootstrap cfg;
    cl ← RaftCluster.NewClusterFromURLsMap (ServerConfig.Logger cfg)
           (ServerConfig.InitialClusterToken cfg) (ServerConfig.InitialPeerURLsMap cfg);
    _ ← RaftCluster.MemberByName cl (ServerConfig.Name cfg);
    b ← isMemberBootstrapped (env_get e) cl (ServerConfig.Name cfg);
    if (b : bool) then Err (Errorf "member has already been bootstrapped") else
    let cl := RaftCluster.SetBackend 0 cl in
    '(id, n, s, w) ← startNode (env_wal e) (env_rnd e) (env_rnd' e) cfg cl (RaftCluster.MemberIDs cl);
    Ret (Some cl, id, n, Some s, w)
  else if env_haveWAL e then Ret (None, 0, None, None, None)
  else Err (Errorf "unsupported bootstrap config").

(** The value that is built from the parts. *)
Definition build (e : env) (cfg : ServerConfig.t) (be : backend.t) (cl : option RaftCluster.t) (id : Z)
    (r : raftNode.t) (heartbeat : Z) : t :=
  let minTTL := i64 (i64 (3 * ServerConfig.ElectionTicks cfg) ÷ 2 * heartbeat) in
  {| inflightSnapshots := 0; appliedIndex := 0; committedIndex := 0; term := 0; lead := 0;
     consistIndex := 0; r := r; readych := sig_open; Cfg := cfg; lg := ServerConfig.Logger cfg;
     w := None; readwaitc_cap := 0; readNotifier := sig_nil; stop := sig_nil; stopping := sig_nil;
     done := sig_nil; leaderChanged := sig_nil; errorc := []; id := id;
     attributes := membership.Attr (ServerConfig.Name cfg) (Some (ServerConfig.ClientURLs cfg));
     cluster := cl; applyV2_lg := Some false; applyWait := None;
     lessor_ := Some (lessor.NewLessor (ServerConfig.Logger cfg) 0
       (LessorConfig.mk (ceilSeconds minTTL) (ServerConfig.LeaseCheckpointInterval cfg)
          (ServerConfig.ReqTimeout cfg)));
     be := Some be;
     stats := ServerStats.NewServerStats (env_now e) (ServerConfig.Name cfg) (ID.String_ id);
     lstats := LeaderStats.NewLeaderStats (ID.String_ id);
     SyncTicker := 500 * Millisecond;
     reqIDGen := Generator.NewGenerator (id mod 2 ^ 16) (env_now e);
     wg := 0; cancelled := None; leadElectedTime := 0 |}.

(** The transport to the peers: built, started, and told the other members;
    [remotes] is never assigned. *)
Definition startTransport (e : env) (cfg : ServerConfig.t) (id : Z) (c : RaftCluster.t) : outcome Transport.t :=
  let tr := Transport.mk (ServerConfig.Logger cfg) (ServerConfig.peerDialTimeout cfg) 0
              (ServerConfig.PeerTLSInfo cfg) id (ServerConfig.PeerURLs cfg) (RaftCluster.cid c)
              None None None None None None in
  let '(tr, o) := Transport.Start (env_streamRt e) (env_pipelineRt e) tr in
  _ ← o;
  Ret (foldl (λ tr m, if negb (Member.ID m =? id)
                      then Transport.AddPeer (Member.ID m) (default [] (Member.PeerURLs m)) tr
                      else tr) tr (RaftCluster.Members c)).

Definition NewServer (e : env) (cfg : ServerConfig.t) : outcome t :=
  _ ← match env_touchData e with
      | Err _ => Err (Errorf "cannot access data directory") | o => o end;
  _ ← match env_touchSnap e with
      | Err _ => if ServerConfig.Logger cfg then Panic (PanicString "failed to create snapshot directory")
                 else Ret tt
      | o => o end;
  be ← openBackend (env_open e) cfg;
  _ ← env_prt e;
  '(cl, id, n, s, w) ← bootstrap e cfg be;
  _ ← match env_touchMember e with
      | Err _ => Err (Errorf "cannot access member directory") | o => o end;
  let heartbeat := i64 (i64 (ServerConfig.TickMs cfg) * Millisecond) in
  r ← raftNode.newRaftNode {|
        raftNodeConfig.lg := ServerConfig.Logger cfg;
        raftNodeConfig.isIDRemoved := λ i,
          match cl with Some cl => Ret (RaftCluster.IsIDRemoved cl i) | None => Panic NilDereference end;
        raftNodeConfig.Node := n; raftNodeConfig.raftStorage := s; raftNodeConfig.storage := (w, 0);
        raftNodeConfig.heartbeat := heartbeat; raftNodeConfig.transport := None |};
  let srv := build e cfg be cl id r heartbeat in
  match cl with
  | None => Panic NilDereference    (** [cl.ID()] *)
  | Some c =>
      tr ← startTransport e cfg id c;
      Ret (srv <| EtcdServer.r ::= (λ r, r <| raftNode.cfg ::=
             (λ c, c <| raftNodeConfig.transport := Some tr |>) |>) |>)
  end.

Definition ClusterVersion (version : RaftCluster.t → option (list Z)) (s : t) : option (list Z) :=
  cluster s ≫= version.

Definition adjustTicks (s : t) : outcome t :=
  match cluster s with
  | None => Panic NilDereference
  | Some c =>
      let clusterN := len (RaftCluster.Members c) in
      if clusterN =? 1 then
        let ticks := i64 (ServerConfig.ElectionTicks (Cfg s) - 1) in
        r' ← raftNode.advanceTicks ticks (r s);
        Ret (s <| r := r' |>)
      else Ret s
  end.

(** [start] up to [go s.run()]. *)
Definition start (s : t) : t :=
  let s := if ServerConfig.SnapshotCount (Cfg s) =? 0
           then s <| Cfg ::= (λ c, c <| ServerConfig.SnapshotCount := DefaultSnapshotCount |>) |> else s in
  let s := if ServerConfig.SnapshotCatchUpEntries (Cfg s) =? 0
           then s <| Cfg ::= (λ c, c <| ServerConfig.SnapshotCatchUpEntries :=
                                         DefaultSnapshotCatchUpEntries |>) |> else s in
  s <| w := Some wait.New |> <| applyWait := Some timeList.NewTimeList |>
    <| done := sig_open |> <| stop := sig_open |> <| stopping := sig_open |>
    <| cancelled := Some false |> <| readwaitc_cap := 1 |> <| readNotifier := sig_open |>
    <| leaderChanged := sig_open |>.

Definition setCommittedIndex (v : Z) (s : t) : t := s <| committedIndex := v |>.
Definition getCommittedIndex (s : t) : Z := committedIndex s.
Definition setAppliedIndex (v : Z) (s : t) : t := s <| appliedIndex := v |>.
Definition getAppliedIndex (s : t) : Z := appliedIndex s.
Definition setTerm (v : Z) (s : t) : t := s <| term := v |>.
Definition getTerm (s : t) : Z := term s.
Definition setLead (v : Z) (s : t) : t := s <| lead := v |>.
Definition getLead (s : t) : Z := lead s.
Definition isLeader (s : t) : bool := id s =? getLead s.
Definition ID (s : t) : Z := id s.
Definition Leader (s : t) : Z := getLead s.
Definition Lead (s : t) : Z := getLead s.
Definition CommittedIndex (s : t) : Z := getCommittedIndex s.
Definition AppliedIndex (s : t) : Z := getAppliedIndex s.
Definition Term (s : t) : Z := getTerm s.
Definition leaderChangedNotify (s : t) : signal := leaderChanged s.

Definition ApplyWait (s : t) : outcome (t * nat) :=
  match applyWait s with
  | None => Panic NilDereference
  | Some tl => let '(tl, ch) := timeList.Wait (getCommittedIndex s) tl in
               Ret (s <| applyWait := Some tl |>, ch)
  end.

(** The closures of [run]'s [raftReadyHandler]. *)
Definition updateLead (lead : Z) (s : t) : t := setLead lead s.
Definition updateLeadership (newLeader : bool) (s : t) : t := s.
Definition updateCommittedIndex (ci : Z) (s : t) : t :=
  let cci := getCommittedIndex s in
  if ci >? cci then setCommittedIndex ci s else s.

(** What [run]'s [select] receives.  The cases of the applied entries and of the
    expired leases print them; the [select] is not in a loop, so that [run] returns
    after the first event, and its deferred function runs. *)
Inductive event := ev_apply | ev_leases | ev_error | ev_stop.
Definition eventReady (ev : event) (s : t) : bool :=
  match ev with
  | ev_apply => false            (** nothing sends on [applyc] *)
  | ev_leases => match lessor_ s with Some l => negb (len (lessor.ExpiredLeasesC l) =? 0) | None => false end
  | ev_error => negb (len (errorc s) =? 0)
  | ev_stop => bool_decide (stop s = sig_closed)
  end.
Definition runEvent (ev : event) (s : t) : outcome t :=
  let s := match ev with ev_error => s <| errorc := tail (errorc s) |> | _ => s end in
  c ← closeSignal (stopping s);
  Ret (s <| stopping := c |> <| cancelled := Some true |>).

(** The second [select]: the send is dropped when the buffer is full. *)
Definition stopWithDelay (err : error) (s : t) : t :=
  if len (errorc s) <? 1 then s <| errorc := errorc s ++ [err] |> else s.

(** Whether the function was started. *)
Definition goAttach (s : t) : t * bool :=
  match stopping s with
  | sig_closed => (s, false)
  | _ => (s <| wg := wg s + 1 |>, true)
  end.
(** A goroutine of [goAttach] ends. *)
Definition wgDone (s : t) : outcome t :=
  if wg s <? 1 then Panic (PanicString "sync: negative WaitGroup counter")
  else Ret (s <| wg := wg s - 1 |>).

(** v2_server.go *)
Definition Do (unmarshal : list Z → membership.Attributes * bool) (req : Request.t) (s : t)
    : t * outcome Response.t :=
  let '(g, rid) := Generator.Next (reqIDGen s) in
  let s := s <| reqIDGen := g |> in
  match applyV2_lg s with
  | None => (s, Panic NilDereference)
  | Some lg =>
      match RequestV2.Handle (λ rq, applierV2store.Put unmarshal rq
              (applierV2store.mk lg (cluster s))) (req <| Request.ID := rid |>) with
      | Ret (a, resp) => (s <| cluster := applierV2store.cluster a |>, Ret resp)
      | Err e => (s, Err e)
      | Panic p => (s, Panic p)
      | OutOfFuel => (s, OutOfFuel)
      end
  end.

Definition publishRequest (s : t) : Request.t :=
  Request.zero <| Request.Method := bs "PUT" |>
    <| Request.Path := MemberAttributesStorePath (id s) |>
    <| Request.Val := membership.attributesJSON (attributes s) |>.

(** The loop repeats [Do] until it succeeds. *)
Fixpoint publishLoop (fuel : nat) (unmarshal : list Z → membership.Attributes * bool)
    (req : Request.t) (s : t) : outcome t :=
  match fuel with
  | O => OutOfFuel
  | S fuel =>
      (** [context.WithTimeout(s.ctx, timeout)] *)
      if bool_decide (cancelled s = None) then Panic (PanicString "cannot create context from nil parent") else
      let '(s, o) := Do unmarshal req s in
      match o with
      | Ret _ =>
          c ← closeSignal (readych s);
          let s := s <| readych := c |> in
          (** the log line reads [s.cluster.ID()] *)
          if lg s && bool_decide (cluster s = None) then Panic NilDereference else Ret s
      | Err _ => publishLoop fuel unmarshal req s
      | Panic p => Panic p
      | OutOfFuel => OutOfFuel
      end
  end.
Definition publish (fuel : nat) (unmarshal : list Z → membership.Attributes * bool) (s : t) : outcome t :=
  publishLoop fuel unmarshal (publishRequest s) s.

(** The two goroutines that [Start] attaches share no state: [publishFirst] says
    which of them runs first.  Each counts down the wait group when it ends. *)
Definition Start (publishFirst : bool) (fuel : nat)
    (unmarshal : list Z → membership.Attributes * bool) (s : t) : outcome t :=
  let s := start s in
  let '(s, a) := goAttach s in
  let '(s, b) := goAttach s in
  let adjust s := if (a : bool) then s ← adjustTicks s; wgDone s else Ret s in
  let publish s := if (b : bool) then s ← publish fuel unmarshal s; wgDone s else Ret s in
  if publishFirst then s ← publish s; adjust s else s ← adjust s; publish s.

(** What the v3 request path uses of the server. *)
Definition v3 (s : t) : outcome EtcdServerV3.t :=
  match w s with
  | None => Panic NilDereference
  | Some w => Ret (EtcdServerV3.mk (appliedIndex s) (committedIndex s) (reqIDGen s) w
                     (ServerConfig.MaxRequestBytes (Cfg s)) (ServerConfig.ElectionTicks (Cfg s))
                     (ServerConfig.TickMs (Cfg s)) (leadElectedTime s))
  end.
End Ops.
End EtcdServer.

(** ** The node that [StartNode] gives on an empty storage *)

Section StartNodeProps.
Context `{MO : !MapOrder}.
Context {S : Type} `{!Storage S, !StorageLaws S}.
Implicit Types (r : raft.t S).

Abbreviation voters r := (keys (Config.Voters (ProgressTracker.Config_ (raft.prs r))).1).

Lemma newRaft_clock rnd (c : RaftConfig.t S) hs cs r :
  RaftConfig.ID c ≠ None_ → 0 < RaftConfig.ElectionTick c →
  storage_ok (RaftConfig.Storage_ c) → InitialState (RaftConfig.Storage_ c) = Ret (hs, cs) →
  raft.newRaft rnd c = Ret r →
  raft.electionTimeout r = RaftConfig.ElectionTick c ∧ voters r = ∅.
Proof.
  intros Hid Ht Hs Hi Hn. destruct (newRaft_eq rnd c hs cs Hid Ht Hs Hi) as (l & _ & _ & _ & _ & _ & He).
  rewrite He in Hn. clear He.
  set (rf := (raft.initialRaft c l) <| raft.step := step_stepFollower |>) in *.
  destruct (resetSpec_frame rnd 0 rf) as (_&_&_&F4&_&_&_&_&F9).
  assert (V : voters rf = ∅) by done. assert (T : raft.electionTimeout rf = RaftConfig.ElectionTick c) by done.
  generalize dependent (resetSpec rnd 0 rf). intros r0 Hn F4 F9.
  injection Hn as <-. simpl. rewrite F4, F9. by split.
Qed.

Lemma bootstrapApply_clock peers r r' :
  RawNode.bootstrapApply peers r = Ret r' →
  raft.id r' = raft.id r ∧ raft.electionElapsed r' = raft.electionElapsed r ∧
  raft.electionTimeout r' = raft.electionTimeout r ∧ raft.preVote r' = raft.preVote r.
Proof.
  revert r. induction peers as [|p peers IH]; intros r; cbn [RawNode.bootstrapApply]; [by intros [= <-]|].
  intros H. apply outcome_bind_Ret in H as ([r1 cs] & HA & H). apply IH in H as (-> & -> & -> & ->).
  unfold raft.applyConfChange in HA. apply outcome_bind_Ret in HA as (last & _ & HA).
  destruct (Simple _ _) as [[cfg prs]| | |]; try done. injection HA as HA.
  apply (f_equal fst) in HA. simpl in HA. subst r1. unfold raft.switchToConfig.
  repeat case_match; done.
Qed.

Lemma Bootstrap_clock rnd peers (rn rn' : RawNode.t S) :
  raft_ok (RawNode.raft_ rn) → RawNode.Bootstrap rnd peers rn = Ret rn' →
  raft.id (RawNode.raft_ rn') = raft.id (RawNode.raft_ rn) ∧
  raft.electionElapsed (RawNode.raft_ rn') = 0 ∧
  raft.electionTimeout (RawNode.raft_ rn') = raft.electionTimeout (RawNode.raft_ rn) ∧
  raft.preVote (RawNode.raft_ rn') = raft.preVote (RawNode.raft_ rn).
Proof.
  intros Hok. unfold RawNode.Bootstrap. destruct (_ =? 0); [done|].
  intros H. apply outcome_bind_Ret in H as (last & _ & H). destruct (negb _); [done|]. simpl in H.
  rewrite becomeFollower_ok, bind_Ret in H by apply Hok.
  set (rf := (RawNode.raft_ rn) <| raft.step := step_stepFollower |>) in H.
  destruct (resetSpec_frame rnd 1 rf) as (F1&_&_&F4&F5&_&_&_&_).
  destruct (resetSpec_sets rnd 1 rf) as (_&_&_&S4&_&_).
  generalize dependent (resetSpec rnd 1 rf). intros r0 H **.
  apply outcome_bind_Ret in H as (ents & _ & H). apply outcome_bind_Ret in H as ([l li] & _ & H).
  apply outcome_bind_Ret in H as (r' & HA & H). injection H as <-.
  apply bootstrapApply_clock in HA as (E0 & E1 & E2 & E3). simpl in *.
  by rewrite E0, E1, E2, E3, S4, F1, F4, F5.
Qed.

(** The started node: a follower of term 1 whose configuration is the peers. *)
Record started (c : RaftConfig.t S) (peers : list RawNode.Peer) (n : node.t S) : Prop := {
  st_ok : node_ok n;
  st_tickc : node.tickc n = 0;
  st_id : raft.id (RawNode.raft_ (node.rn n)) = RaftConfig.ID c;
  st_term : raft.Term (RawNode.raft_ (node.rn n)) = 1;
  st_state : raft.state (RawNode.raft_ (node.rn n)) = StateFollower;
  st_committed : raftLog.committed (raft.raftLog_ (RawNode.raft_ (node.rn n))) = len peers;
  st_voters : ∀ i, i ∈ voters (RawNode.raft_ (node.rn n)) ↔ i ∈ RawNode.Peer_ID <$> peers;
  st_promotable : RaftConfig.ID c ∈ RawNode.Peer_ID <$> peers →
    raft.promotable (RawNode.raft_ (node.rn n)) = true;
  st_elapsed : raft.electionElapsed (RawNode.raft_ (node.rn n)) = 0;
  st_timeout : raft.electionTimeout (RawNode.raft_ (node.rn n)) = RaftConfig.ElectionTick c;
  st_preVote : raft.preVote (RawNode.raft_ (node.rn n)) = RaftConfig.PreVote c
}.

Lemma StartNode_ok rnd rnd' (c : RaftConfig.t S) hs cs peers :
  RaftConfig.ID c ≠ 0 → 0 < RaftConfig.ElectionTick c < 2 ^ 61 →
  storage_ok (RaftConfig.Storage_ c) → InitialState (RaftConfig.Storage_ c) = Ret (hs, cs) →
  sl_last (storage_log (RaftConfig.Storage_ c)) = 0 →
  peers ≠ [] → Forall peer_ok peers → len peers < 2 ^ 63 - 2 →
  ∃ n, node.StartNode rnd rnd' c peers = Ret n ∧ started c peers n.
Proof.
  intros Hid Ht Hs Hi Hl Hne Hp Hb.
  destruct (newRaft_ok rnd c hs cs Hid Ht Hs Hi)
    as (r & Hn & Hok & Hrid & HT & _ & _ & _ & HPV & Hlog & _ & Hst).
  destruct (newRaft_clock rnd c hs cs r Hid (proj1 Ht) Hs Hi Hn) as [Hto Hv].
  set (rn := RawNode.mk S r (softState r) (raft.hardState r)).
  destruct (Bootstrap_ok rnd' peers rn) as (rn' & HB & HB'); try done; [by simpl; rewrite Hst| |].
  { apply empty_unstable; simpl; [apply Hok|by rewrite Hst, <- Hlog|by rewrite Hst]. }
  destruct (Bootstrap_clock rnd' peers rn rn' Hok HB) as (C0 & C1 & C2 & C3).
  destruct HB' as (Hok' & T' & S' & _ & _ & Hc' & _ & Hv' & Hp' & _).
  exists (node.newNode rn'). rewrite <- len_0 in Hne. split.
  - unfold node.StartNode, RawNode.NewRawNode. case_bool. case_bool. rewrite Hn. unfold must.
    rewrite !bind_Ret. fold rn. by rewrite HB.
  - simpl in *. split; simpl; try done; try congruence.
    + intros i. rewrite Hv'. rewrite Hv. set_solver.
    + intros Hin. apply Hp'. by rewrite Hrid.
Qed.
End StartNodeProps.

(** ** Building a server of a new cluster *)

Lemma varintField_len tag v : len (varintFieldBytes tag v) ≤ 12.
Proof.
  unfold varintFieldBytes. rewrite len_cons. pose proof (varint_groups_len varint_fuel v).
  unfold len, varint_bytes, varint_fuel in *. lia.
Qed.

Lemma peer_encoding p ctx :
  RawNode.Peer_Context p = Some ctx → RawNode.Peer_ID p ≠ 0 → is_u64 (RawNode.Peer_ID p) →
  len ctx < 2 ^ 62 → peer_ok p.
Proof.
  intros Hc H0 Hid Hl. split_and!; [done|done|]. destruct p as [i c]. simpl in *. subst c.
  change (ConfChangeCodec.enc _) with (varintFieldBytes 8 0 ++ varintFieldBytes 16 (u64 0) ++
    varintFieldBytes 24 i ++ delimitedBytes 34 ctx ++ []).
  unfold delimitedBytes. rewrite !len_app, len_cons, len_app.
  pose proof (varintField_len 8 0). pose proof (varintField_len 16 (u64 0)).
  pose proof (varintField_len 24 i). pose proof (varint_groups_len varint_fuel (len ctx)).
  assert (len (varint_bytes (len ctx)) ≤ 11) by (unfold len, varint_bytes, varint_fuel in *; lia).
  change (len (@nil Z)) with 0. lia.
Qed.

Section NewServer.
Context `{MO : !MapOrder}.
Implicit Types (cfg : ServerConfig.t) (e : EtcdServer.env) (s : EtcdServer.t).

Abbreviation urlsmap cfg := (ServerConfig.InitialPeerURLsMap cfg).
Abbreviation token cfg := (ServerConfig.InitialClusterToken cfg).

(** A configuration for a new cluster that has the local member. *)
Record config_ok cfg : Prop := {
  co_new : ServerConfig.NewCluster cfg = true;
  co_names : NoDup (urlsmap cfg).*1;
  co_local : ServerConfig.Name cfg ∈ (urlsmap cfg).*1;
  co_valid : validURLsMap (token cfg) (urlsmap cfg);
  co_ticks : 0 < ServerConfig.ElectionTicks cfg < 2 ^ 61;
  co_tickMs : 0 ≤ ServerConfig.TickMs cfg < 2 ^ 43;
  co_json : ∀ x, x ∈ urlsmap cfg → len (memberJSON (Some (entryMember (token cfg) x))) < 2 ^ 62;
  co_len : len (urlsmap cfg) < 2 ^ 62
}.

(** A world in which nothing fails; remote peers may or may not answer. *)
Record env_ok e : Prop := {
  eo_touchData : EtcdServer.env_touchData e = Ret tt;
  eo_touchSnap : EtcdServer.env_touchSnap e = Ret tt;
  eo_open : ∃ d, EtcdServer.env_open e = Ret d;
  eo_prt : ∃ d, EtcdServer.env_prt e = Ret d;
  eo_get : ∀ u, match EtcdServer.env_get e u with Ret _ | Err _ => True | _ => False end;
  eo_wal : ∃ d, EtcdServer.env_wal e = Ret d;
  eo_touchMember : EtcdServer.env_touchMember e = Ret tt;
  eo_streamRt : ∃ d, EtcdServer.env_streamRt e = Ret d;
  eo_pipelineRt : ∃ d, EtcdServer.env_pipelineRt e = Ret d
}.

(** The cluster of a configuration. *)
Definition clusterFor cfg : RaftCluster.t :=
  RaftCluster.SetBackend 0 (clusterOf (ServerConfig.Logger cfg) (token cfg) (urlsmap cfg)).

Lemma urlsOf_local name m :
  name ∈ m.*1 → ∃ us, ServerConfig.urlsOf name m = Some us ∧ (name, us) ∈ m.
Proof.
  induction m as [|[n us] m IH]; simpl; [set_solver|]. case_decide as Hn.
  - subst. intros _. exists us. split; [done|set_solver].
  - intros [?|Hm]%elem_of_cons; [done|].
    destruct (IH Hm) as (us' & -> & ?). exists us'. split; [done|set_solver].
Qed.

Lemma urlsOf_name name m us : ServerConfig.urlsOf name m = Some us → name ∈ m.*1.
Proof.
  induction m as [|[n u] m IH]; simpl; [done|]. intros H. apply elem_of_cons.
  case_decide; [by left|right; by apply IH].
Qed.

Lemma getLoop_ok get urls :
  (∀ u, match get u with Ret _ | Err _ => True | _ => False end) → getLoop get urls = Ret tt.
Proof.
  intros H. induction urls as [|u urls IH]; [done|]. cbn [getLoop].
  specialize (H (u ++ bs "/members")). by destruct (get _).
Qed.

(** Remote peers are asked, but the answer is always an error: no member is
    ever found to be bootstrapped. *)
Lemma isMemberBootstrapped_false get cl name :
  (∀ u, match get u with Ret _ | Err _ => True | _ => False end) →
  isMemberBootstrapped get cl name = Ret false.
Proof.
  intros H. unfold isMemberBootstrapped, getClusterFromRemotePeers. by rewrite getLoop_ok.
Qed.

Lemma clusterFor_peers cfg :
  config_ok cfg → Forall peer_ok (peerOf (clusterFor cfg) <$> RaftCluster.MemberIDs (clusterFor cfg)).
Proof.
  intros []. destruct co_valid0 as [Hnd H0].
  assert (Hm : RaftCluster.members (clusterFor cfg) = entryMap (token cfg) (urlsmap cfg)) by done.
  rewrite (MemberIDs_entryMap _ _ _ Hnd Hm). apply Forall_fmap, Forall_forall. intros id Hid.
  rewrite sortIDs_perm in Hid. eapply peer_encoding; [reflexivity|..]; simpl.
  - by intros ->.
  - by eapply entryIDs_u64.
  - unfold RaftCluster.Member_. rewrite Clone_id, Hm.
    apply list_elem_of_fmap in Hid as (x & -> & Hx).
    rewrite (proj2 (lookup_entryMap (token cfg) (urlsmap cfg) _ _ Hnd)) by eauto. by apply co_json0.
Qed.

(** The local entry of the configuration. *)
Lemma local_entry cfg :
  config_ok cfg → ∃ us, (ServerConfig.Name cfg, us) ∈ urlsmap cfg ∧
    ServerConfig.VerifyBootstrap cfg = Ret tt ∧
    RaftCluster.MemberByName (clusterFor cfg) (ServerConfig.Name cfg) =
      Ret (Some (entryMember (token cfg) (ServerConfig.Name cfg, us))).
Proof.
  intros []. destruct (urlsOf_local _ _ co_local0) as (us & Hu & Hin). exists us. split_and!; [done|..].
  - unfold ServerConfig.VerifyBootstrap, ServerConfig.hasLocalMember. by rewrite Hu.
  - apply (MemberByName_entry (token cfg) (urlsmap cfg) _ (ServerConfig.Name cfg, us)); try done.
    apply co_valid0.
Qed.

(** The id of a configuration's local member. *)
Definition localID cfg (us : list (list Z)) : Z :=
  Member.ID (entryMember (token cfg) (ServerConfig.Name cfg, us)).

Lemma startNode_ok e cfg us w :
  config_ok cfg → (ServerConfig.Name cfg, us) ∈ urlsmap cfg →
  RaftCluster.MemberByName (clusterFor cfg) (ServerConfig.Name cfg) =
    Ret (Some (entryMember (token cfg) (ServerConfig.Name cfg, us))) →
  let cl := clusterFor cfg in
  let ids := RaftCluster.MemberIDs cl in
  ∃ n, startNode (Ret w) (EtcdServer.env_rnd e) (EtcdServer.env_rnd' e) cfg cl ids =
      Ret (localID cfg us, Some n, MemoryStorage.NewMemoryStorage, Some w) ∧
    started (raftConfig cfg (localID cfg us)) (peerOf cl <$> ids) n ∧ localID cfg us ∈ ids.
Proof.
  intros Hc Hin Hn cl ids. pose proof (clusterFor_peers cfg Hc) as Hp. fold cl ids in Hp.
  destruct Hc. destruct co_valid0 as [Hnd H0].
  assert (Hm : RaftCluster.members cl = entryMap (token cfg) (urlsmap cfg)) by done.
  assert (Hids : ids = sortIDs (entryIDs (token cfg) (urlsmap cfg)))
    by apply (MemberIDs_entryMap _ _ _ Hnd Hm).
  assert (Hl : localID cfg us ∈ ids).
  { rewrite Hids, sortIDs_perm. unfold entryIDs. apply list_elem_of_fmap.
    by exists (ServerConfig.Name cfg, us). }
  assert (Hlen : len ids = len (urlsmap cfg)).
  { rewrite Hids. unfold len. rewrite (Permutation_length (sortIDs_perm _)). unfold entryIDs.
    by rewrite length_fmap. }
  assert (Hlp : len (peerOf cl <$> ids) = len ids) by (unfold len; by rewrite length_fmap).
  assert (Hne : len ids ≠ 0) by (rewrite len_0; intros Hx; rewrite Hx in Hl; set_solver).
  destruct (StartNode_ok (EtcdServer.env_rnd e) (EtcdServer.env_rnd' e)
    (raftConfig cfg (localID cfg us)) HardState.zero ConfState.zero (peerOf cl <$> ids))
    as (n & HS & Hst); try done.
  - intros Hz. change (localID cfg us = 0) in Hz. apply H0. rewrite <- Hz.
    by rewrite Hids, sortIDs_perm in Hl.
  - rewrite <- len_0. lia.
  - lia.
  - exists n. split_and!; try done. unfold startNode. fold cl in Hn. rewrite Hn, !bind_Ret.
    rewrite Hlp. destruct (len ids =? 0) eqn:E; zify_bool; [done|].
    change (Member.ID (entryMember _ _)) with (localID cfg us). by rewrite HS.
Qed.

Lemma bootstrap_ok e cfg be :
  config_ok cfg → env_ok e → EtcdServer.env_haveWAL e = false →
  ∃ us n w, (ServerConfig.Name cfg, us) ∈ urlsmap cfg ∧
    EtcdServer.bootstrap e cfg be =
      Ret (Some (clusterFor cfg), localID cfg us, Some n, Some MemoryStorage.NewMemoryStorage, Some w) ∧
    let ids := RaftCluster.MemberIDs (clusterFor cfg) in
    started (raftConfig cfg (localID cfg us)) (peerOf (clusterFor cfg) <$> ids) n ∧
    localID cfg us ∈ ids.
Proof.
  intros Hc He HW. destruct (local_entry cfg Hc) as (us & Hin & HV & HM).
  destruct (eo_wal e He) as [w Hw].
  destruct (startNode_ok e cfg us w Hc Hin HM) as (n & HS & Hst & Hl).
  exists us, n, w. split; [done|]. split; [|done].
  unfold EtcdServer.bootstrap. rewrite HW, (co_new cfg Hc). cbn [negb andb].
  rewrite HV, bind_Ret.
  destruct (NewCluster_spec (ServerConfig.Logger cfg) (token cfg) (urlsmap cfg)) as [[_ ->]|[Hv _]];
    [|by destruct (Hv (co_valid cfg Hc))].
  rewrite bind_Ret. change (RaftCluster.MemberByName (clusterOf _ _ _) (ServerConfig.Name cfg))
    with (RaftCluster.MemberByName (clusterFor cfg) (ServerConfig.Name cfg)).
  rewrite HM, bind_Ret, (isMemberBootstrapped_false _ _ _ (eo_get e He)), bind_Ret.
  fold (clusterFor cfg). rewrite Hw, HS. done.
Qed.

Lemma openBackend_ok d cfg : ∃ b, openBackend (Ret d) cfg = Ret b.
Proof. eexists. unfold openBackend, backend.newBackend. rewrite bind_Ret. reflexivity. Qed.

Lemma heartbeat_ok cfg :
  0 ≤ ServerConfig.TickMs cfg < 2 ^ 43 → i64 (i64 (ServerConfig.TickMs cfg) * Millisecond) = ServerConfig.TickMs cfg * Millisecond ∧
    0 ≤ ServerConfig.TickMs cfg * Millisecond.
Proof. intros ?. unfold Millisecond. unwrap. lia. Qed.

(** [AddPeer] has an empty body: the loop over the members changes nothing. *)
Lemma addPeers_id (l : list Member.t) id tr :
  foldl (λ tr m, if negb (Member.ID m =? id)
                 then Transport.AddPeer (Member.ID m) (default [] (Member.PeerURLs m)) tr
                 else tr) tr l = tr.
Proof. induction l as [|m l IH]; [done|]. simpl. by destruct (negb _). Qed.

(** What is known of a new server. *)
Record new_server e cfg s us n : Prop := {
  ns_local : (ServerConfig.Name cfg, us) ∈ urlsmap cfg;
  ns_id : EtcdServer.id s = localID cfg us;
  ns_member : localID cfg us ∈ RaftCluster.MemberIDs (clusterFor cfg);
  ns_cfg : EtcdServer.Cfg s = cfg;
  ns_cluster : EtcdServer.cluster s = Some (clusterFor cfg);
  ns_node : raftNodeConfig.Node (raftNode.cfg (EtcdServer.r s)) = Some n;
  ns_started : started (raftConfig cfg (localID cfg us))
    (peerOf (clusterFor cfg) <$> RaftCluster.MemberIDs (clusterFor cfg)) n;
  ns_transport : ∃ tr, raftNodeConfig.transport (raftNode.cfg (EtcdServer.r s)) = Some tr ∧
    Transport.ID tr = localID cfg us ∧ Transport.ClusterID tr = RaftCluster.cid (clusterFor cfg) ∧
    Transport.peers tr = Some ∅ ∧ Transport.remotes tr = Some ∅;
  ns_reqIDGen : EtcdServer.reqIDGen s =
    Generator.NewGenerator (localID cfg us mod 2 ^ 16) (EtcdServer.env_now e);
  ns_readych : EtcdServer.readych s = sig_open;
  ns_applier : EtcdServer.applyV2_lg s = Some false;
  ns_wg : EtcdServer.wg s = 0;
  ns_errorc : EtcdServer.errorc s = [];
  ns_indexes : EtcdServer.committedIndex s = 0 ∧ EtcdServer.appliedIndex s = 0
}.

Lemma NewServer_ok e cfg :
  config_ok cfg → env_ok e → EtcdServer.env_haveWAL e = false →
  ∃ s us n, EtcdServer.NewServer e cfg = Ret s ∧ new_server e cfg s us n.
Proof.
  intros Hc He HW. destruct (eo_open e He) as [d Hd]. destruct (openBackend_ok d cfg) as [be Hbe].
  destruct (bootstrap_ok e cfg be Hc He HW) as (us & n & w & Hin & HB & Hst & Hl).
  destruct (eo_prt e He) as [prt Hprt]. destruct (heartbeat_ok cfg (co_tickMs cfg Hc)) as [Hh Hpos].
  destruct (eo_streamRt e He) as [srt Hs]. destruct (eo_pipelineRt e He) as [prt' Hp].
  unfold EtcdServer.NewServer, EtcdServer.startTransport.
  rewrite (eo_touchData e He), (eo_touchSnap e He), Hd, Hbe, Hprt, (eo_touchMember e He), Hs, Hp, Hh.
  rewrite !bind_Ret, HB, !bind_Ret. cbn [Transport.Start].
  unfold raftNode.newRaftNode. cbn [raftNodeConfig.heartbeat].
  assert (Hneg : (ServerConfig.TickMs cfg * Millisecond <? 0) = false) by lia. rewrite Hneg.
  destruct (_ * Millisecond =? 0); rewrite bind_Ret; cbn [Transport.Start]; rewrite !bind_Ret, addPeers_id;
    (eexists _, us, n; split; [reflexivity|]);
    split; try done; by eexists.
Qed.

(** The peers given to the raft node are the members. *)
Lemma peers_entries cfg i :
  config_ok cfg →
  i ∈ RawNode.Peer_ID <$> (peerOf (clusterFor cfg) <$> RaftCluster.MemberIDs (clusterFor cfg)) ↔
  i ∈ entryIDs (token cfg) (urlsmap cfg).
Proof.
  intros Hc. rewrite <- list_fmap_compose.
  change (RawNode.Peer_ID ∘ peerOf (clusterFor cfg)) with (λ x : Z, x). rewrite list_fmap_id.
  by rewrite (MemberIDs_entryMap (token cfg) (urlsmap cfg) _ (proj1 (co_valid cfg Hc))), sortIDs_perm.
Qed.

(** The raft node of a new server. *)
Lemma new_server_raft e cfg s us n :
  config_ok cfg → new_server e cfg s us n →
  let r := RawNode.raft_ (node.rn n) in
  raft.id r = EtcdServer.id s ∧ raft.Term r = 1 ∧ raft.state r = StateFollower ∧
  raft.promotable r = true ∧ raftLog.committed (raft.raftLog_ r) = len (urlsmap cfg) ∧
  ∀ i, i ∈ keys (Config.Voters (ProgressTracker.Config_ (raft.prs r))).1 ↔
    i ∈ entryIDs (token cfg) (urlsmap cfg).
Proof.
  intros Hc Hn. cbv zeta. destruct Hn, ns_started0.
  assert (Hm : RaftCluster.members (clusterFor cfg) = entryMap (token cfg) (urlsmap cfg)) by done.
  pose proof (MemberIDs_entryMap _ _ _ (proj1 (co_valid cfg Hc)) Hm) as Hids.
  pose proof (λ i, peers_entries cfg i Hc) as HP.
  split_and!; try done.
  - by rewrite st_id0, ns_id0.
  - apply st_promotable0. rewrite HP. by rewrite Hids, sortIDs_perm in ns_member0.
  - rewrite st_committed0. unfold len. rewrite length_fmap, Hids, (Permutation_length (sortIDs_perm _)).
    unfold entryIDs. by rewrite length_fmap.
  - intros i. by rewrite st_voters0, HP.
Qed.

(** C9 (functional): a new cluster's node.  With a valid configuration of a new
    cluster and a world in which nothing fails, whether or not remote peers
    answer, [NewServer] returns a server whose id is that of the configured
    member, whose raft node is a follower in term 1 that has one committed entry
    per member, may campaign, and has exactly the members' ids as voters; its
    transport carries the member's and the cluster's id (and has no peers:
    [AddPeer] does nothing), and its requests are numbered from the low 16 bits
    of the member's id. *)
Theorem newServer_new_cluster e cfg :
  config_ok cfg → env_ok e → EtcdServer.env_haveWAL e = false →
  ∃ s us n, EtcdServer.NewServer e cfg = Ret s ∧ new_server e cfg s us n ∧
    let r := RawNode.raft_ (node.rn n) in
    raft.id r = EtcdServer.id s ∧ raft.Term r = 1 ∧ raft.state r = StateFollower ∧
    raft.promotable r = true ∧ raftLog.committed (raft.raftLog_ r) = len (urlsmap cfg) ∧
    ∀ i, i ∈ keys (Config.Voters (ProgressTracker.Config_ (raft.prs r))).1 ↔
      i ∈ entryIDs (token cfg) (urlsmap cfg).
Proof.
  intros Hc He HW. destruct (NewServer_ok e cfg Hc He HW) as (s & us & n & HS & Hn).
  exists s, us, n. split; [done|]. split; [done|]. by apply (new_server_raft e cfg s us n).
Qed.

(** A server is only ever built for a new cluster that has the local member. *)
Lemma NewServer_Ret e cfg s :
  EtcdServer.NewServer e cfg = Ret s →
  EtcdServer.env_haveWAL e = false ∧ ServerConfig.NewCluster cfg = true ∧
  ServerConfig.Name cfg ∈ (urlsmap cfg).*1 ∧ validURLsMap (token cfg) (urlsmap cfg).
Proof.
  unfold EtcdServer.NewServer. intros H.
  apply outcome_bind_Ret in H as (_ & _ & H). apply outcome_bind_Ret in H as (_ & _ & H).
  apply outcome_bind_Ret in H as (be & _ & H). apply outcome_bind_Ret in H as (_ & _ & H).
  apply outcome_bind_Ret in H as ([[[[cl id] n] st] w] & HB & H).
  apply outcome_bind_Ret in H as (_ & _ & H). apply outcome_bind_Ret in H as (r & _ & H).
  destruct cl as [cl|]; [|done]. clear H. unfold EtcdServer.bootstrap in HB.
  destruct (EtcdServer.env_haveWAL e), (ServerConfig.NewCluster cfg); try done. cbn [negb andb] in HB.
  apply outcome_bind_Ret in HB as ([] & HV & HB). apply outcome_bind_Ret in HB as (c & HN & _).
  split_and!; [done|done|..].
  - unfold ServerConfig.VerifyBootstrap, ServerConfig.hasLocalMember in HV.
    destruct (ServerConfig.urlsOf _ _) as [us|] eqn:E; [|done]. by apply (urlsOf_name _ _ us).
  - destruct (NewCluster_spec (ServerConfig.Logger cfg) (token cfg) (urlsmap cfg)) as [[? _]|[_ [x Hx]]];
      [done|congruence].
Qed.

(** A server is never built without a new cluster.  If [NewServer]
    returns a server then there was no WAL, the cluster was configured as new,
    the local member was in it and its members had distinct non-zero ids.  When
    nothing else fails, a node that has a WAL (a restart), or that is to join an
    existing cluster, does not get an error: the cluster pointer stays nil and
    [NewServer] panics when it reads the cluster's id. *)
Theorem newServer_refuses e cfg :
  env_ok e → 0 ≤ ServerConfig.TickMs cfg < 2 ^ 43 →
  (∀ s, EtcdServer.NewServer e cfg = Ret s →
     EtcdServer.env_haveWAL e = false ∧ ServerConfig.NewCluster cfg = true ∧
     ServerConfig.Name cfg ∈ (urlsmap cfg).*1 ∧ validURLsMap (token cfg) (urlsmap cfg)) ∧
  (EtcdServer.env_haveWAL e = true ∨ ServerConfig.NewCluster cfg = false →
     EtcdServer.NewServer e cfg = Panic NilDereference).
Proof.
  intros He Ht. split; [apply NewServer_Ret|]. intros HW.
  destruct (eo_open e He) as [d Hd]. destruct (openBackend_ok d cfg) as [be Hbe].
  destruct (eo_prt e He) as [prt Hprt]. destruct (heartbeat_ok cfg Ht) as [Hh Hpos].
  assert (HB : EtcdServer.bootstrap e cfg be = Ret (None, 0, None, None, None)).
  { unfold EtcdServer.bootstrap. by destruct HW as [->| ->]; destruct (ServerConfig.NewCluster cfg),
      (EtcdServer.env_haveWAL e). }
  unfold EtcdServer.NewServer.
  rewrite (eo_touchData e He), (eo_touchSnap e He), Hd, Hbe, Hprt, (eo_touchMember e He), Hh.
  rewrite !bind_Ret, HB, !bind_Ret. unfold raftNode.newRaftNode. cbn [raftNodeConfig.heartbeat].
  assert (Hneg : (ServerConfig.TickMs cfg * Millisecond <? 0) = false) by lia. rewrite Hneg.
  by destruct (_ * Millisecond =? 0).
Qed.

(** ** Starting the server *)

Lemma Members_length cfg :
  config_ok cfg → len (RaftCluster.Members (clusterFor cfg)) = len (urlsmap cfg).
Proof.
  intros Hc. assert (Hm : RaftCluster.members (clusterFor cfg) = entryMap (token cfg) (urlsmap cfg)) by done.
  unfold RaftCluster.Members, len. rewrite (Permutation_length (merge_sort_Permutation _ _)).
  assert (Hom : ∀ l, length (omap (λ m, Member.Clone (Some m)) l) = length l).
  { induction l as [|m l IH]; [done|]. cbn [omap list_omap]. rewrite Clone_id. cbn [length].
    f_equal. apply IH. }
  rewrite Hom, (ranged_entryMap _ _ _ (proj1 (co_valid cfg Hc)) Hm). by rewrite length_fmap.
Qed.

(** [k] ticks on the channel of the node. *)
Lemma tickLoop_ok k : ∀ (r : raftNode.t) n,
  raftNodeConfig.Node (raftNode.cfg r) = Some n → 0 ≤ node.tickc n ≤ 128 →
  raftNode.tickLoop k r = Ret (r <| raftNode.cfg ::= (λ c, c <| raftNodeConfig.Node :=
    Some (n <| node.tickc := Z.min 128 (node.tickc n + Z.of_nat k) |>) |>) |>).
Proof.
  induction k as [|k IH]; intros r n Hn Ht; cbn [raftNode.tickLoop].
  - rewrite Z.add_0_r, Z.min_r by lia. destruct r as [? []], n. simpl in *. by subst.
  - unfold raftNode.tick. rewrite Hn, bind_Ret.
    assert (Hk : node.Tick n = n <| node.tickc := Z.min 128 (node.tickc n + 1) |>).
    { unfold node.Tick. destruct (_ <? 128) eqn:E; zify_bool; [by rewrite Z.min_r by lia|].
      rewrite Z.min_l by lia. assert (H : node.tickc n = 128) by lia. destruct n. simpl in H. by subst. }
    rewrite (IH _ (node.Tick n)); [|done|rewrite Hk; simpl; lia]. rewrite Hk.
    replace (Z.min 128 (node.tickc n + Z.of_nat (S k)))
      with (Z.min 128 (Z.min 128 (node.tickc n + 1) + Z.of_nat k)) by lia.
    by destruct r as [? []], n.
Qed.

Implicit Types (um : list Z → membership.Attributes * bool).

(** A PUT request is always answered, with an empty response: nothing is
    written, and no other member hears of it. *)
Lemma Do_put um req s :
  EtcdServer.applyV2_lg s = Some false → Request.Method req = bs "PUT" →
  EtcdServer.Do um req s =
  (s <| EtcdServer.reqIDGen := (Generator.Next (EtcdServer.reqIDGen s)).1 |>, Ret Response.zero).
Proof.
  intros Ha Hm. unfold EtcdServer.Do. destruct (Generator.Next _) as [g rid] eqn:Eg. cbn [fst].
  change (EtcdServer.applyV2_lg (s <| EtcdServer.reqIDGen := g |>)) with (EtcdServer.applyV2_lg s).
  rewrite Ha. unfold RequestV2.Handle. cbn [Request.Method].
  change (Request.Method (req <| Request.ID := rid |>)) with (Request.Method req). rewrite Hm.
  rewrite bool_decide_eq_false_2 by done. cbn [andb].
  change (Request.Method (req <| Request.ID := rid |>)) with (Request.Method req). rewrite Hm.
  rewrite decide_True by done. unfold applierV2store.Put. cbn [applierV2store.lg].
  destruct (GetBool _) as [? []]; [by destruct s|]. destruct (_ || _); [by destruct s|].
  destruct (memberRegexp.MatchString _); [|by destruct s].
  destruct (um _) as [attr ok]. rewrite andb_false_r. destruct s. by destruct cluster.
Qed.

Lemma publish_ok fuel um s c :
  (0 < fuel)%nat → EtcdServer.cancelled s ≠ None → EtcdServer.applyV2_lg s = Some false →
  EtcdServer.cluster s = Some c → EtcdServer.readych s = sig_open →
  EtcdServer.publish fuel um s =
  Ret (s <| EtcdServer.reqIDGen := (Generator.Next (EtcdServer.reqIDGen s)).1 |>
         <| EtcdServer.readych := sig_closed |>).
Proof.
  intros Hf Hca Ha Hc Hr. destruct fuel as [|fuel]; [lia|]. unfold EtcdServer.publish.
  cbn [EtcdServer.publishLoop]. rewrite bool_decide_eq_false_2 by done. rewrite Do_put by done.
  change (EtcdServer.readych (s <| EtcdServer.reqIDGen := _ |>)) with (EtcdServer.readych s).
  rewrite Hr. cbn [closeSignal]. rewrite bind_Ret.
  rewrite (bool_decide_eq_false_2 (_ = None)), andb_false_r; [done|]. simpl. by rewrite Hc.
Qed.

Definition withNode (n : node.t MemoryStorage.t) (r : raftNode.t) : raftNode.t :=
  r <| raftNode.cfg ::= (λ c, c <| raftNodeConfig.Node := Some n |>) |>.

(** The node after the fast-forward: a cluster of one member gets
    [ElectionTicks - 1] ticks, as far as the channel has room. *)
Definition forwarded cfg (n : node.t MemoryStorage.t) : node.t MemoryStorage.t :=
  n <| node.tickc := if len (urlsmap cfg) =? 1 then Z.min 128 (ServerConfig.ElectionTicks cfg - 1) else 0 |>.

Lemma adjustTicks_ok cfg s n :
  config_ok cfg → EtcdServer.cluster s = Some (clusterFor cfg) →
  ServerConfig.ElectionTicks (EtcdServer.Cfg s) = ServerConfig.ElectionTicks cfg →
  raftNodeConfig.Node (raftNode.cfg (EtcdServer.r s)) = Some n → node.tickc n = 0 →
  EtcdServer.adjustTicks s = Ret (s <| EtcdServer.r := withNode (forwarded cfg n) (EtcdServer.r s) |>).
Proof.
  intros Hc Hcl Ht Hn H0. unfold EtcdServer.adjustTicks, forwarded.
  rewrite Hcl, (Members_length cfg Hc). destruct (co_ticks cfg Hc) as [Hp Hb].
  destruct (len (urlsmap cfg) =? 1).
  - rewrite Ht. unwrap. unfold raftNode.advanceTicks. rewrite (tickLoop_ok _ _ n) by (done || lia).
    rewrite bind_Ret, H0, Z2Nat.id by lia. done.
  - destruct s as [a1 a2 a3 a4 a5 a6 r0]. simpl in *. destruct r0 as [? []]. simpl in *. subst. destruct n.
    simpl in *. by subst.
Qed.

(** The server after [Start]. *)
Definition startedServer cfg n s : EtcdServer.t :=
  (EtcdServer.start s) <| EtcdServer.r := withNode (forwarded cfg n) (EtcdServer.r s) |>
    <| EtcdServer.reqIDGen := (Generator.Next (EtcdServer.reqIDGen s)).1 |>
    <| EtcdServer.readych := sig_closed |>.

Lemma start_frame s :
  ServerConfig.ElectionTicks (EtcdServer.Cfg (EtcdServer.start s)) =
    ServerConfig.ElectionTicks (EtcdServer.Cfg s) ∧
  EtcdServer.cluster (EtcdServer.start s) = EtcdServer.cluster s ∧
  EtcdServer.r (EtcdServer.start s) = EtcdServer.r s ∧
  EtcdServer.wg (EtcdServer.start s) = EtcdServer.wg s ∧
  EtcdServer.readych (EtcdServer.start s) = EtcdServer.readych s ∧
  EtcdServer.applyV2_lg (EtcdServer.start s) = EtcdServer.applyV2_lg s ∧
  EtcdServer.reqIDGen (EtcdServer.start s) = EtcdServer.reqIDGen s ∧
  EtcdServer.stopping (EtcdServer.start s) = sig_open ∧
  EtcdServer.cancelled (EtcdServer.start s) = Some false ∧
  EtcdServer.w (EtcdServer.start s) = Some wait.New.
Proof. unfold EtcdServer.start. by destruct (_ =? 0), (_ =? 0). Qed.

Lemma wgDone_ok s : 1 ≤ EtcdServer.wg s →
  EtcdServer.wgDone s = Ret (s <| EtcdServer.wg := EtcdServer.wg s - 1 |>).
Proof. intros H. unfold EtcdServer.wgDone. case_bool. done. Qed.

Lemma Start_ok first fuel um e cfg s us n :
  config_ok cfg → new_server e cfg s us n → (0 < fuel)%nat →
  EtcdServer.Start first fuel um s = Ret (startedServer cfg n s).
Proof.
  intros Hc Hn Hf. destruct (start_frame s) as (F1&F2&F3&F4&F5&F6&F7&F8&F9&_).
  destruct Hn. unfold EtcdServer.Start, startedServer.
  rewrite <- F3, <- F7. generalize dependent (EtcdServer.start s). intros s0 *. intros.
  unfold EtcdServer.goAttach. rewrite F8.
  change (EtcdServer.stopping (s0 <| EtcdServer.wg := _ |>)) with (EtcdServer.stopping s0). rewrite F8.
  destruct first.
  - rewrite (publish_ok _ _ _ (clusterFor cfg)) by (done || (simpl; congruence)).
    rewrite bind_Ret, wgDone_ok, bind_Ret by (simpl; lia).
    rewrite (adjustTicks_ok cfg _ n) by (try done; simpl; congruence || apply ns_started0).
    rewrite bind_Ret, wgDone_ok by (simpl; lia). destruct s0. simpl in *. subst.
    by replace (EtcdServer.wg s + 1 + 1 - 1 - 1) with (EtcdServer.wg s) by lia.
  - rewrite (adjustTicks_ok cfg _ n) by (try done; simpl; congruence || apply ns_started0).
    rewrite bind_Ret, wgDone_ok, bind_Ret by (simpl; lia).
    rewrite (publish_ok _ _ _ (clusterFor cfg)) by (done || (simpl; congruence)).
    rewrite bind_Ret, wgDone_ok by (simpl; lia). destruct s0. simpl in *. subst.
    by replace (EtcdServer.wg s + 1 + 1 - 1 - 1) with (EtcdServer.wg s) by lia.
Qed.

(** Rounds of the node's loop that each take a tick. *)
Fixpoint runTicks (rnds : list Z) (n : node.t MemoryStorage.t) : outcome (node.t MemoryStorage.t) :=
  match rnds with
  | [] => Ret n
  | rnd :: rnds => n ← node.runTick rnd n; runTicks rnds n
  end.

(** The node with [k] of its buffered ticks on the election clock. *)
Definition ticked (k : Z) (n : node.t MemoryStorage.t) : node.t MemoryStorage.t :=
  let rn := node.rn n in
  let r := RawNode.raft_ rn in
  node.mk _ (RawNode.mk _ (r <| raft.electionElapsed := raft.electionElapsed r + k |>)
               (RawNode.prevSoftSt rn) (RawNode.prevHardSt rn))
    (node.tickc n - k) (node.run_propc n) (node.run_lead n).

Lemma runTick_quiet rnd n :
  node_ok n → let r := RawNode.raft_ (node.rn n) in
  0 ≤ raft.electionElapsed r → raft.electionElapsed r + 1 < raft.electionTimeout r →
  1 ≤ node.tickc n →
  node.runTick rnd n = Ret (ticked 1 n) ∧ node_ok (ticked 1 n).
Proof.
  intros Hok r He Ht Hk.
  pose proof (rok_randomized r (nok_raft n Hok)). pose proof (rok_timeout r (nok_raft n Hok)).
  assert (HT : ticks [rnd] r = Ret (r <| raft.electionElapsed := raft.electionElapsed r + 1 |>))
    by (apply ticks_quiet; [apply Hok|lia|rewrite len_cons, len_nil; lia]).
  cbn [ticks] in HT. apply outcome_bind_Ret in HT as (r1 & HT & HR). injection HR as ->. split.
  - unfold node.runTick. rewrite loopHead_ok, bind_Ret by done. unfold RawNode.Tick. fold r.
    rewrite HT, !bind_Ret. unfold ticked. fold r. by destruct n as [[]].
  - destruct Hok. split; simpl; try done; [|lia]. by apply raft_ok_elapsed.
Qed.

Lemma ticked_0 n : ticked 0 n = n.
Proof.
  destruct n as [[r ? ?] ? ? ?]. unfold ticked. cbn. rewrite Z.sub_0_r, Z.add_0_r. by destruct r.
Qed.
Lemma ticked_ticked j k n : ticked k (ticked j n) = ticked (j + k) n.
Proof.
  destruct n as [[r ? ?] ? ? ?]. unfold ticked. cbn. rewrite Z.sub_add_distr. f_equal. f_equal.
  destruct r. cbn. by rewrite Z.add_assoc.
Qed.

Lemma runTicks_quiet rnds : ∀ n,
  node_ok n → let r := RawNode.raft_ (node.rn n) in
  0 ≤ raft.electionElapsed r → raft.electionElapsed r + len rnds < raft.electionTimeout r →
  len rnds ≤ node.tickc n →
  runTicks rnds n = Ret (ticked (len rnds) n).
Proof.
  induction rnds as [|rnd rnds IH]; intros n Hok r He Ht Hk; cbn [runTicks].
  - by rewrite len_nil, ticked_0.
  - rewrite len_cons in *. pose proof (len_nonneg rnds).
    destruct (runTick_quiet rnd n Hok) as [HR Hok1]; [done|fold r; lia|lia|].
    rewrite HR, bind_Ret, IH, ticked_ticked; [done|done|simpl; fold r; lia..].
Qed.

Lemma Next_suffix g : is_u64 (Generator.suffix (Generator.Next g).1).
Proof. apply u64_range. Qed.

(** C10 (liveness): starting a new cluster's node.  [Start] returns, with the same
    state whichever of its two goroutines runs first: the ready channel is
    closed (once), the wait group is back at zero, nothing is stopping, and the
    request path satisfies the assumptions of the safety theorem on requests.  A cluster of one
    member has [ElectionTicks - 1] ticks, at most 128, on its node's channel,
    and running the node's loop on any number of them never starts an
    election. *)
Theorem newServer_start fuel um e cfg :
  config_ok cfg → env_ok e → EtcdServer.env_haveWAL e = false → (0 < fuel)%nat →
  ∃ s us n s', EtcdServer.NewServer e cfg = Ret s ∧ new_server e cfg s us n ∧
    (∀ first, EtcdServer.Start first fuel um s = Ret s') ∧
    EtcdServer.readych s' = sig_closed ∧ EtcdServer.wg s' = 0 ∧
    EtcdServer.stopping s' = sig_open ∧ EtcdServer.cancelled s' = Some false ∧
    raftNodeConfig.Node (raftNode.cfg (EtcdServer.r s')) = Some (forwarded cfg n) ∧
    (∃ v, EtcdServer.v3 s' = Ret v ∧
       Generator.prefix (EtcdServerV3.reqIDGen v) = EtcdServer.id s mod 2 ^ 16 * 2 ^ 48 ∧
       is_u64 (Generator.suffix (EtcdServerV3.reqIDGen v)) ∧ EtcdServerV3.w v = wait.New) ∧
    (∀ rnds, len rnds ≤ node.tickc (forwarded cfg n) →
       ∃ n', runTicks rnds (forwarded cfg n) = Ret n' ∧
         let r := RawNode.raft_ (node.rn n') in
         raft.state r = StateFollower ∧ raft.Term r = 1 ∧
         raft.electionElapsed r = len rnds ∧ len rnds < raft.electionTimeout r).
Proof.
  intros Hc He HW Hf. destruct (NewServer_ok e cfg Hc He HW) as (s & us & n & HS & Hn).
  exists s, us, n, (startedServer cfg n s). split; [done|]. split; [done|].
  split; [intros first; by eapply Start_ok|].
  destruct (start_frame s) as (F1&F2&F3&F4&F5&F6&F7&F8&F9&F10).
  pose proof (ns_started e cfg s us n Hn) as Hst.
  unfold startedServer. generalize dependent (EtcdServer.start s). intros s0 *. intros.
  split_and!; try done.
  - simpl. by rewrite F4, (ns_wg e cfg s us n Hn).
  - unfold EtcdServer.v3. simpl. rewrite F10. eexists. split; [done|]. cbn.
    split_and!; [|apply Next_suffix|done].
    rewrite (ns_reqIDGen e cfg s us n Hn), (ns_id e cfg s us n Hn). cbn.
    apply (NewGenerator_prefix _ (EtcdServer.env_now e)). by apply Z.mod_pos_bound.
  - intros rnds Hr. destruct (co_ticks cfg Hc) as [Hp _].
    assert (Hlt : len rnds < raft.electionTimeout (RawNode.raft_ (node.rn n))).
    { rewrite (st_timeout _ _ _ Hst). simpl. revert Hr. unfold forwarded. cbn [node.tickc].
      destruct (_ =? 1); simpl; lia. }
    exists (ticked (len rnds) (forwarded cfg n)). split.
    + apply runTicks_quiet; simpl; rewrite ?(st_elapsed _ _ _ Hst); try lia; [|done].
      destruct (st_ok _ _ _ Hst). split; simpl; try done. destruct (_ =? 1); lia.
    + simpl. rewrite (st_state _ _ _ Hst), (st_term _ _ _ Hst), (st_elapsed _ _ _ Hst). done.
Qed.
End NewServer.

(** ** The running server *)

Module serverLoop.
(** What happens to a running server: the raft loop calls the handlers, a
    component reports an error, goroutines are attached and end, a reader waits
    for the applied index, and [run] receives its event. *)
Inductive action :=
  | UpdateLead (l : Z) | UpdateLeadership (newLeader : bool) | UpdateCommitted (ci : Z)
  | StopWithDelay (err : error) | Attach | Detach | Wait | Event (ev : EtcdServer.event).

(** [Ret None]: the action cannot happen.  [run] receives one event, until then
    [stopping] is open. *)
Definition step (a : action) (s : EtcdServer.t) : outcome (option EtcdServer.t) :=
  match a with
  | UpdateLead l => Ret (Some (EtcdServer.updateLead l s))
  | UpdateLeadership b => Ret (Some (EtcdServer.updateLeadership b s))
  | UpdateCommitted ci => Ret (Some (EtcdServer.updateCommittedIndex ci s))
  | StopWithDelay err => Ret (Some (EtcdServer.stopWithDelay err s))
  | Attach => Ret (Some (EtcdServer.goAttach s).1)
  | Detach => if EtcdServer.wg s =? 0 then Ret None else s ← EtcdServer.wgDone s; Ret (Some s)
  | Wait => r ← EtcdServer.ApplyWait s; Ret (Some r.1)
  | Event ev =>
      if bool_decide (EtcdServer.stopping s = sig_open) && EtcdServer.eventReady ev s
      then s ← EtcdServer.runEvent ev s; Ret (Some s) else Ret None
  end.

Fixpoint run (l : list action) (s : EtcdServer.t) : outcome (option EtcdServer.t) :=
  match l with
  | [] => Ret (Some s)
  | a :: l => s' ← step a s; match s' with Some s' => run l s' | None => Ret None end
  end.
End serverLoop.

Section Loop.
Implicit Types (s : EtcdServer.t).

(** The invariant of a started server. *)
Definition running s : Prop :=
  EtcdServer.applyWait s ≠ None ∧ 0 ≤ EtcdServer.wg s ∧ len (EtcdServer.errorc s) ≤ 1 ∧
  (EtcdServer.stopping s = sig_open ∧ EtcdServer.cancelled s = Some false ∨
   EtcdServer.stopping s = sig_closed ∧ EtcdServer.cancelled s = Some true).

(** What only grows. *)
Definition later s s' : Prop :=
  EtcdServer.committedIndex s ≤ EtcdServer.committedIndex s' ∧
  (EtcdServer.stopping s = sig_closed →
     EtcdServer.stopping s' = sig_closed ∧ EtcdServer.wg s' ≤ EtcdServer.wg s).

#[local] Instance later_refl : Reflexive later.
Proof. intros s. split; [lia|]. intros H. split; [done|lia]. Qed.
#[local] Instance later_trans : Transitive later.
Proof.
  intros s1 s2 s3 [H1 H2] [H3 H4]. split; [lia|]. intros H. destruct (H2 H) as [H' ?].
  destruct (H4 H'). split; [done|lia].
Qed.

Lemma loop_step_ok a s :
  running s →
  ∃ o, serverLoop.step a s = Ret o ∧ ∀ s', o = Some s' → running s' ∧ later s s'.
Proof.
  intros (Ha & Hw & He & Hs). destruct a as [l|b|ci|err| | | |ev]; cbn [serverLoop.step].
  - eexists. split; [done|]. intros s' [= <-]. by split.
  - eexists. split; [done|]. intros s' [= <-]. by split.
  - eexists. split; [done|]. intros s' [= <-]. unfold EtcdServer.updateCommittedIndex.
    destruct (_ >? _) eqn:E; zify_bool; [|by split]. split; [done|].
    split; [unfold EtcdServer.getCommittedIndex in E; simpl; lia|]. intros H. split; [done|simpl; lia].
  - eexists. split; [done|]. intros s' [= <-]. unfold EtcdServer.stopWithDelay.
    destruct (_ <? 1) eqn:E; zify_bool; [|by split]. split; [|by split].
    split_and!; try done. simpl. rewrite len_app, len_cons, len_nil. lia.
  - eexists. split; [done|]. intros s' [= <-]. unfold EtcdServer.goAttach.
    destruct Hs as [[Hs Hc]|[Hs Hc]]; rewrite Hs; simpl.
    + split; [split_and!; try done; [simpl; lia|by left]|]. split; [simpl; lia|]. by rewrite Hs.
    + split; [|done]. split_and!; try done. by right.
  - destruct (_ =? 0) eqn:E; zify_bool; [by eexists|]. unfold EtcdServer.wgDone. case_bool.
    rewrite bind_Ret. eexists. split; [done|]. intros s' [= <-].
    split; [split_and!; try done; simpl; lia|]. split; [simpl; lia|]. intros H. split; [done|simpl; lia].
  - unfold EtcdServer.ApplyWait. destruct (EtcdServer.applyWait s) as [tl|] eqn:E; [|done].
    destruct (timeList.Wait _ tl) as [tl' ch]. rewrite bind_Ret. eexists. split; [done|].
    intros s' [= <-]. split; [by split_and!|]. split; [simpl; lia|]. intros H. split; [done|simpl; lia].
  - case_bool_decide as Hso; [|by eexists]. simpl.
    destruct (EtcdServer.eventReady ev s); [|by eexists].
    unfold EtcdServer.runEvent. set (s1 := match ev with EtcdServer.ev_error => _ | _ => s end).
    assert (H1 : EtcdServer.stopping s1 = EtcdServer.stopping s ∧ EtcdServer.wg s1 = EtcdServer.wg s ∧
      EtcdServer.applyWait s1 = EtcdServer.applyWait s ∧
      EtcdServer.committedIndex s1 = EtcdServer.committedIndex s ∧
      len (EtcdServer.errorc s1) ≤ len (EtcdServer.errorc s)).
    { unfold s1. destruct ev; split_and!; try done. simpl. destruct (EtcdServer.errorc s); [done|].
      simpl. rewrite len_cons. lia. }
    destruct H1 as (H1 & H2 & H3 & H4 & H5). rewrite H1, Hso. cbn [closeSignal]. rewrite !bind_Ret.
    eexists. split; [done|]. intros s' [= <-]. split.
    + unfold running. simpl. rewrite H2, H3. split_and!; try done; [lia|by right].
    + split; [simpl; lia|]. by rewrite Hso.
Qed.

Lemma loop_run_ok l : ∀ s,
  running s → ∃ o, serverLoop.run l s = Ret o ∧ ∀ s', o = Some s' → running s' ∧ later s s'.
Proof.
  induction l as [|a l IH]; intros s Hr; cbn [serverLoop.run].
  { eexists. split; [done|]. by intros s' [= <-]. }
  destruct (loop_step_ok a s Hr) as (o & -> & Ho). rewrite bind_Ret.
  destruct o as [s1|]; [|by eexists]. destruct (Ho s1 eq_refl) as [Hr1 Hl1].
  destruct (IH s1 Hr1) as (o & -> & Ho'). exists o. split; [done|].
  intros s' Hs. destruct (Ho' s' Hs) as [Hr' Hl']. split; [done|]. by transitivity s1.
Qed.
End Loop.


(** ** Instances at concrete inputs *)

(** One member with the default flags, on a machine where nothing fails and the
    network does not answer. *)
Definition sample_cfg : ServerConfig.t :=
  {| ServerConfig.Name := bs "default"; ServerConfig.DiscoveryURL := []; ServerConfig.DiscoveryProxy := [];
     ServerConfig.ClientURLs := [bs "http://localhost:2379"];
     ServerConfig.PeerURLs := [bs "http://localhost:2380"];
     ServerConfig.DataDir := bs "default.etcd"; ServerConfig.DedicatedWALDir := [];
     ServerConfig.SnapshotCount := 0; ServerConfig.SnapshotCatchUpEntries := 0;
     ServerConfig.MaxSnapFiles := 5; ServerConfig.MaxWALFiles := 5;
     ServerConfig.BackendBatchInterval := 0; ServerConfig.BackendBatchLimit := 0;
     ServerConfig.BackendFreelistType := []; ServerConfig.InitialPeerURLsMap := default_urls;
     ServerConfig.InitialClusterToken := bs "etcd-cluster"; ServerConfig.NewCluster := true;
     ServerConfig.PeerTLSInfo := 0; ServerConfig.CORS := ∅; ServerConfig.HostWhitelist := ∅;
     ServerConfig.TickMs := 100; ServerConfig.ElectionTicks := 10;
     ServerConfig.InitialElectionTickAdvance := true; ServerConfig.BootstrapTimeout := 0;
     ServerConfig.AutoCompactionRetention := 0; ServerConfig.AutoCompactionMode := [];
     ServerConfig.QuotaBackendBytes := 0; ServerConfig.MaxTxnOps := 128;
     ServerConfig.MaxRequestBytes := 1572864; ServerConfig.StrictReconfigCheck := true;
     ServerConfig.ClientCertAuthEnabled := false; ServerConfig.AuthToken := bs "simple";
     ServerConfig.BcryptCost := 10; ServerConfig.InitialCorruptCheck := false;
     ServerConfig.CorruptCheckTime := 0; ServerConfig.PreVote := false; ServerConfig.Logger := true;
     ServerConfig.LoggerConfig := true; ServerConfig.LoggerCore := false;
     ServerConfig.LoggerWriteSyncer := false; ServerConfig.Debug_ := false;
     ServerConfig.ForceNewCluster := false; ServerConfig.EnableLeaseCheckpoint := false;
     ServerConfig.LeaseCheckpointInterval := 0; ServerConfig.EnableGRPCGateway := true |}.

Definition sample_env : EtcdServer.env :=
  {| EtcdServer.env_touchData := Ret tt; EtcdServer.env_haveWAL := false;
     EtcdServer.env_touchSnap := Ret tt; EtcdServer.env_open := Ret 1; EtcdServer.env_prt := Ret 2;
     EtcdServer.env_get := λ _, Err (Errorf "connection refused"); EtcdServer.env_wal := Ret 3;
     EtcdServer.env_touchMember := Ret tt; EtcdServer.env_streamRt := Ret 4;
     EtcdServer.env_pipelineRt := Ret 5; EtcdServer.env_now := 1600000000000000000;
     EtcdServer.env_rnd := 3; EtcdServer.env_rnd' := 4 |}.

#[local] Instance sample_map_order : MapOrder := elements_order.

Lemma sample_cfg_ok : config_ok sample_cfg.
Proof.
  split; try done.
  - apply NoDup_singleton.
  - apply list_elem_of_singleton. reflexivity.
  - apply (bool_decide_unpack (validURLsMap (bs "etcd-cluster") default_urls)). vm_compute. exact I.
  - intros x Hx. apply list_elem_of_singleton in Hx as ->. vm_compute. reflexivity.
Qed.

Lemma sample_env_ok : env_ok sample_env.
Proof. split; try done; by eexists. Qed.

Lemma newServer_new_cluster_witness :
  ∃ s (n : node.t MemoryStorage.t), EtcdServer.NewServer sample_env sample_cfg = Ret s ∧
    raft.state (RawNode.raft_ (node.rn n)) = StateFollower.
Proof.
  destruct (newServer_new_cluster sample_env sample_cfg sample_cfg_ok sample_env_ok eq_refl)
    as (s & us & n & HS & _ & _ & _ & HF & _).
  exists s, n. split; [exact HS|exact HF].
Defined.

Lemma newServer_start_witness :
  ∃ s s', EtcdServer.NewServer sample_env sample_cfg = Ret s ∧
    EtcdServer.Start true 1 (λ _, (membership.Attr [] None, true)) s = Ret s' ∧
    EtcdServer.readych s' = sig_closed.
Proof.
  destruct (newServer_start 1 (λ _, (membership.Attr [] None, true)) sample_env sample_cfg
    sample_cfg_ok sample_env_ok eq_refl (Nat.lt_0_succ 0)) as (s & us & n & s' & HS & _ & HT & HR & _).
  exists s, s'. split; [exact HS|]. split; [exact (HT true)|exact HR].
Defined.

(** The same node after a restart that finds a WAL. *)
Lemma newServer_refuses_witness :
  EtcdServer.NewServer (sample_env <| EtcdServer.env_haveWAL := true |>) sample_cfg =
  Panic NilDereference.
Proof.
  apply (newServer_refuses (sample_env <| EtcdServer.env_haveWAL := true |>) sample_cfg).
  - split; try done; by eexists.
  - split; vm_compute; congruence.
  - left. reflexivity.
Defined.

