(* ===== verification/Restart.v ===== *)
(** * Starts and restarts

    The file-system calls of [NewServer] (etcdserver/server.go), in their order,
    on the files of [Fileutil]: what a server that is started, stopped and
    started again finds of its former life. *)

From S2P Require Import Prelude GoStd Fileutil Wal Quorum Tracker Storage RaftLog Raft Node Membership Requests Backend Server.

(** What the backend needs of bolt, which is not part of the program: opening the
    database makes its file if there is none, and touches no other entry. *)
Class BoltOpen := {
  boltOpen : os.path → os.io Z;
  boltOpen_ok p σ :
    wf σ → os.tree σ !! os.parent p = Some os.NDir → p ≠ [] → os.tree σ !! p ≠ Some os.NDir →
    ∃ d σ', boltOpen p σ = (Ret d, σ') ∧ wf σ' ∧ os.cwd σ' = os.cwd σ ∧
      (∃ i, os.tree σ' !! p = Some (os.NFile i)) ∧
      ∀ q, q ≠ p → os.tree σ' !! q = os.tree σ !! q
}.

Section Disk.
Context `{R : os.Refusals} `{BO : BoltOpen}.

(** A log as the raft node keeps it: the descriptor of its segment.  A call that
    waits for a lock does not return. *)
Definition walHandle (o : outcome (option WAL.t)) : outcome Z :=
  match o with
  | Ret (Some w) => match WAL.locks w with f :: _ => Ret (fileutil.File_ f) | [] => Panic IndexOutOfRange end
  | Ret None => OutOfFuel
  | Err e => Err e
  | Panic p => Panic p
  | OutOfFuel => OutOfFuel
  end.

(** The answers of the disk to [NewServer], and the files afterwards, when every
    call is made: the directories, the listing of the log's directory, the
    database, the log.  The rest of the world is [e]. *)
Definition diskEnv (metadata : list Z) (e : EtcdServer.env) (cfg : ServerConfig.t) (σ : os.fs)
    : EtcdServer.env * os.fs :=
  let '(touchData, σ) := fileutil.TouchDirAll (ServerConfig.DataDir cfg) σ in
  let haveWAL := wal_Exist (os.readdir σ) (ServerConfig.WALDir cfg) in
  let '(touchSnap, σ) := fileutil.TouchDirAll (ServerConfig.SnapDir cfg) σ in
  let '(db, σ) := os.at_ (ServerConfig.backendPath cfg) boltOpen σ in
  let '(w, σ) := WAL.Create (ServerConfig.Logger cfg) (ServerConfig.WALDir cfg) metadata σ in
  let '(touchMember, σ) := fileutil.TouchDirAll (ServerConfig.MemberDir cfg) σ in
  (EtcdServer.Env touchData haveWAL touchSnap db (EtcdServer.env_prt e) (EtcdServer.env_get e)
     (walHandle w) touchMember (EtcdServer.env_streamRt e) (EtcdServer.env_pipelineRt e)
     (EtcdServer.env_now e) (EtcdServer.env_rnd e) (EtcdServer.env_rnd' e), σ).

(** The process ends: its files are closed and its locks released. *)
Definition exit_ (σ : os.fs) : os.fs :=
  os.Fs (os.cwd σ) (os.tree σ) (os.inodes σ) (os.nextino σ) ∅ (os.nextfd σ) ∅.

(** The files after the member was started and stopped [n] times. *)
Fixpoint filesAfter (metadata : list Z) (e : EtcdServer.env) (cfg : ServerConfig.t) (n : nat) (σ : os.fs)
    : os.fs :=
  match n with
  | O => σ
  | S n => filesAfter metadata e cfg n (exit_ (diskEnv metadata e cfg σ).2)
  end.
End Disk.

(** ** What every start finds *)

Section Starts.
Context `{R : os.Refusals} (HR : ∀ s p, os.refuse s p = None) `{BO : BoltOpen}.
Context (rooted : bool) (es : list (list Z)) (Hes : Forall plain es) (Hne : es ≠ []).
Context (cfg : ServerConfig.t) (metadata : list Z).
Context (Hdir : ServerConfig.DataDir cfg = pathname rooted es) (Hwal : ServerConfig.DedicatedWALDir cfg = []).

Definition dataPath (σ : os.fs) : os.path := base rooted σ ++ es.
Definition memberPath (σ : os.fs) : os.path := dataPath σ ++ [bs "member"].
Definition snapPath (σ : os.fs) : os.path := memberPath σ ++ [bs "snap"].
Definition walPath (σ : os.fs) : os.path := memberPath σ ++ [bs "wal"].
Definition dbPath (σ : os.fs) : os.path := snapPath σ ++ [bs "db"].

(** The entries that must not be there. *)
Definition absent (σ : os.fs) (q : os.path) : Prop :=
  q = dataPath σ ++ [bs ".touch"] ∨ q = memberPath σ ++ [bs ".touch"] ∨ q = snapPath σ ++ [bs ".touch"]
  ∨ ∃ e, q = walPath σ ++ [e].

(** The disk before a start: no file is where a directory is needed, and the log's
    directory is empty. *)
Record startable (σ : os.fs) : Prop := Startable {
  st_wf : wf σ;
  st_pass : passable σ (snapPath σ);
  st_db : os.tree σ !! dbPath σ ≠ Some os.NDir;
  st_absent q : absent σ q → os.tree σ !! q = None;
  st_cwd : ¬ tmpOf rooted (es ++ [bs "member"]) (bs "wal") σ `prefix_of` os.cwd σ
}.

Lemma plain_dirs : plain (bs "member") ∧ plain (bs "snap") ∧ plain (bs "wal") ∧ plain (bs "db").
Proof. split_and!; by apply (bool_decide_unpack _). Qed.

Lemma names :
  ServerConfig.MemberDir cfg = pathname rooted (es ++ [bs "member"]) ∧
  ServerConfig.SnapDir cfg = pathname rooted ((es ++ [bs "member"]) ++ [bs "snap"]) ∧
  ServerConfig.WALDir cfg = pathname rooted ((es ++ [bs "member"]) ++ [bs "wal"]) ∧
  ServerConfig.backendPath cfg = pathname rooted (((es ++ [bs "member"]) ++ [bs "snap"]) ++ [bs "db"]).
Proof.
  destruct plain_dirs as (Hm & Hs & Hw & Hd).
  assert (HM : ServerConfig.MemberDir cfg = pathname rooted (es ++ [bs "member"])).
  { unfold ServerConfig.MemberDir. by rewrite Hdir, Join_pathname. }
  assert (HP : Forall plain (es ++ [bs "member"])) by (by apply Forall_app; auto).
  assert (HS : ServerConfig.SnapDir cfg = pathname rooted ((es ++ [bs "member"]) ++ [bs "snap"])).
  { unfold ServerConfig.SnapDir. rewrite HM, Join_pathname; [done..|by destruct es|done]. }
  split_and!; [done|done| |].
  - unfold ServerConfig.WALDir. rewrite Hwal, HM, Join_pathname; [done..|by destruct es|done].
  - unfold ServerConfig.backendPath. rewrite HS, Join_pathname; [done| |by destruct es|done].
    apply Forall_app; auto.
Qed.

Lemma plains_dirs :
  Forall plain (es ++ [bs "member"]) ∧ Forall plain ((es ++ [bs "member"]) ++ [bs "snap"]) ∧
  Forall plain (((es ++ [bs "member"]) ++ [bs "snap"]) ++ [bs "db"]).
Proof. destruct plain_dirs as (Hm & Hs & Hw & Hd). rewrite !Forall_app, !Forall_singleton. auto 10. Qed.

Ltac by_length := let Hl := fresh in intros Hl%prefix_length; rewrite ?length_app in Hl; simpl in Hl; lia.

Lemma absent_not_prefix σ q : absent σ q → ¬ q `prefix_of` snapPath σ.
Proof.
  unfold absent, snapPath, walPath, memberPath. intros [->|[->|[->|[e ->]]]].
  - rewrite <- !app_assoc. by apply not_prefix_sibling.
  - by apply (not_prefix_sibling _ _ _ []).
  - by_length.
  - by_length.
Qed.

(** Making a directory on the way to the snapshots. *)
Lemma touch_step ps σ :
  Forall plain ps → ps ≠ [] → startable σ → base rooted σ ++ ps `prefix_of` snapPath σ →
  absent σ ((base rooted σ ++ ps) ++ [bs ".touch"]) →
  ∃ σ', fileutil.TouchDirAll (pathname rooted ps) σ = (Ret tt, σ') ∧ startable σ' ∧ os.cwd σ' = os.cwd σ
    ∧ ∀ q, os.tree σ' !! q = if decide (q `prefix_of` base rooted σ ++ ps) then Some os.NDir else os.tree σ !! q.
Proof.
  intros Hps Hpn [Hw Hp Hd Ha Hc] Hpre Hab. set (p := base rooted σ ++ ps) in *.
  assert (Hpass : passable σ p) by (intros q i Hq; apply Hp; by trans p).
  assert (Hl : ∀ q, os.tree (touched σ (dirsTo (rev p) ∪ os.tree σ)) !! q
                    = if decide (q `prefix_of` p) then Some os.NDir else os.tree σ !! q).
  { intros q. cbn [os.tree touched]. by rewrite lookup_withDirs, rev_involutive. }
  exists (touched σ (dirsTo (rev p) ∪ os.tree σ)). split_and!; [|split|done|done].
  - apply touchDirAll_ok; auto.
  - by apply wf_touchedDirs.
  - intros q i Hq. rewrite Hl. destruct (decide _); [done|]. by apply Hp.
  - rewrite Hl, decide_False; [done|]. intros H. assert (H' : dbPath σ `prefix_of` snapPath σ) by (by trans p).
    revert H'. unfold dbPath. by_length.
  - intros q Hq. change (absent σ q) in Hq. rewrite Hl, decide_False; [by apply Ha|].
    intros H. apply (absent_not_prefix _ _ Hq). by trans p.
  - done.
Qed.

(** Opening the database. *)
Lemma open_step σ :
  startable σ → os.tree σ !! snapPath σ = Some os.NDir →
  ∃ d σ', os.at_ (ServerConfig.backendPath cfg) boltOpen σ = (Ret d, σ') ∧ startable σ' ∧ os.cwd σ' = os.cwd σ.
Proof.
  intros [Hw Hp Hd Ha Hc] Hs. destruct names as (_ & _ & _ & ->). destruct plains_dirs as (H1 & H2 & H3).
  unfold os.at_. rewrite resolve_pathname by (done || by destruct es).
  assert (base rooted σ ++ ((es ++ [bs "member"]) ++ [bs "snap"]) ++ [bs "db"] = dbPath σ) as ->.
  { unfold dbPath, snapPath, memberPath, dataPath. by rewrite !app_assoc. }
  destruct (boltOpen_ok (dbPath σ) σ) as (d & σ' & E & Hw' & Hcwd & (i & Hi) & Ho); auto.
  { unfold dbPath, os.parent. by rewrite removelast_last. }
  { unfold dbPath. by destruct (snapPath σ). }
  assert (Hcw : ∀ (f : os.path → os.path), f (base rooted σ') = f (base rooted σ)).
  { intros f. unfold base. by rewrite Hcwd. }
  exists d, σ'. split; [done|]. split; [|done].
  split; [done| | | |].
  - intros q j. unfold snapPath, memberPath, dataPath. rewrite (Hcw (λ b, ((b ++ es) ++ _) ++ _)). intros Hq.
    rewrite Ho; [by apply Hp|]. intros ->. revert Hq. unfold dbPath, snapPath, memberPath, dataPath. by_length.
  - unfold dbPath, snapPath, memberPath, dataPath in *. rewrite (Hcw (λ b, (((b ++ es) ++ _) ++ _) ++ _)).
    by rewrite Hi.
  - intros q. unfold absent, walPath, snapPath, memberPath, dataPath.
    rewrite (Hcw (λ b, b)). intros Hq. change (absent σ q) in Hq. rewrite Ho; [by apply Ha|].
    intros ->. unfold absent, dbPath, snapPath, memberPath, dataPath, walPath, memberPath, dataPath in Hq.
    destruct Hq as [Hq|[Hq|[Hq|[e Hq]]]];
      (apply (f_equal length) in Hq as Hl; rewrite ?length_app in Hl; simpl in Hl; try lia);
      apply app_inj_tail in Hq as [Hq Hq']; try done.
    by apply app_inj_tail in Hq as [_ Hq].
  - unfold tmpOf. rewrite (Hcw (λ b, b ++ _)). rewrite Hcwd. done.
Qed.

(** The log's directory has no segment. *)
Lemma no_log σ : startable σ → wal_Exist (os.readdir σ) (ServerConfig.WALDir cfg) = false.
Proof.
  intros [Hw Hp Hd Ha Hc]. destruct names as (_ & _ & -> & _). destruct plain_dirs as (_ & _ & Hwp & _).
  destruct plains_dirs as (H1 & _). unfold wal_Exist, ReadDir, os.readdir.
  rewrite resolve_pathname; [|by apply Forall_app; auto|by destruct es].
  assert (base rooted σ ++ (es ++ [bs "member"]) ++ [bs "wal"] = walPath σ) as ->.
  { unfold walPath, memberPath, dataPath. by rewrite !app_assoc. }
  rewrite !HR. destruct (os.tree σ !! walPath σ) as [[|]|]; [|done..]. rewrite bind_Ret.
  assert (os.entries σ (walPath σ) = []) as ->; [|done].
  apply elem_of_nil_inv. intros x. rewrite elem_of_entries, (Ha (walPath σ ++ [x])); [by intros []|].
  right. right. right. by exists x.
Qed.

(** Making the log. *)
Lemma create_step lg σ :
  startable σ →
  ∃ w, WAL.Create lg (ServerConfig.WALDir cfg) metadata σ
       = (Ret (Some w), created rooted (es ++ [bs "member"]) (bs "wal") σ)
    ∧ (∃ f, walHandle (Ret (Some w)) = Ret f)
    ∧ startable (created rooted (es ++ [bs "member"]) (bs "wal") σ).
Proof.
  intros Hst. pose proof (no_log σ Hst) as Hex. destruct Hst as [Hw Hp Hd Ha Hc].
  destruct names as (_ & _ & HW & _). destruct plain_dirs as (_ & _ & Hwp & _).
  destruct plains_dirs as (H1 & _). rewrite HW in *.
  assert (Hm : base rooted σ ++ es ++ [bs "member"] = memberPath σ).
  { unfold memberPath, dataPath. by rewrite app_assoc. }
  assert (Hcr : creatable rooted (es ++ [bs "member"]) (bs "wal") σ).
  { split; [done| |done]. intros q i Hq. apply Hp. rewrite Hm in Hq. trans (memberPath σ); [done|].
    by apply prefix_app_r. }
  exists (newWAL rooted (es ++ [bs "member"]) (bs "wal") lg metadata σ).
  split; [by apply create_runs|]. split; [by eexists|].
  set (tmp := tmpOf rooted (es ++ [bs "member"]) (bs "wal") σ) in *.
  assert (Ht : tmp = memberPath σ ++ [bs "wal" ++ bs ".tmp"]).
  { unfold tmp, tmpOf. by rewrite <- Hm, !app_assoc. }
  assert (Hl : ∀ q, q ≠ tmp ++ [walName 0 0] →
     os.tree (created rooted (es ++ [bs "member"]) (bs "wal") σ) !! q
     = if decide (q `prefix_of` tmp) then Some os.NDir
       else if decide (tmp `prefix_of` q) then None else os.tree σ !! q).
  { intros q Hq. cbn [os.tree created]. fold tmp. rewrite lookup_insert_ne by done.
    by rewrite lookup_withDirs, rev_involutive, lookup_cleared. }
  split; [by apply wf_created| | | |done].
  - intros q i Hq. change (snapPath (created _ _ _ σ)) with (snapPath σ) in Hq. rewrite Hl.
    + destruct (decide _); [done|]. destruct (decide _); [done|]. by apply Hp.
    + intros ->. revert Hq. rewrite Ht. unfold snapPath. by_length.
  - change (dbPath (created _ _ _ σ)) with (dbPath σ). rewrite Hl.
    + rewrite decide_False; [by destruct (decide _)|].
      rewrite Ht. unfold dbPath, snapPath. by_length.
    + rewrite Ht. unfold dbPath, snapPath. intros [E _]%app_inj_tail. by apply app_inj_tail in E as [_ [=]].
  - intros q Hq. change (absent σ q) in Hq. rewrite Hl.
    + rewrite decide_False; [destruct (decide _); auto|]. intros H. revert Hq H. rewrite Ht.
      unfold absent, walPath, snapPath, memberPath. intros [->|[->|[->|[e ->]]]].
      * rewrite <- !app_assoc. by apply not_prefix_sibling.
      * by apply (not_prefix_sibling _ _ _ []).
      * by_length.
      * by_length.
    + intros ->. revert Hq. rewrite Ht. unfold absent, walPath, snapPath, memberPath.
      intros [E|[E|[E|[e E]]]]; (apply (f_equal length) in E as El; rewrite ?length_app in El; simpl in El; try lia);
        apply app_inj_tail in E as [E E']; try done. by apply app_inj_tail in E as [_ [=]].
Qed.

Lemma startable_exit σ : startable σ → startable (exit_ σ).
Proof. intros [[] Hp Hd Ha Hc]. split; try done. split; try done. by intros fd [? [=]]. Qed.

(** The world besides the disk. *)
Record worldOk (e : EtcdServer.env) : Prop := WorldOk {
  wo_prt : ∃ d, EtcdServer.env_prt e = Ret d;
  wo_get u : match EtcdServer.env_get e u with Ret _ | Err _ => True | _ => False end;
  wo_streamRt : ∃ d, EtcdServer.env_streamRt e = Ret d;
  wo_pipelineRt : ∃ d, EtcdServer.env_pipelineRt e = Ret d
}.

(** One start: no call fails, no log is found, and the next start finds the same. *)
Lemma start_step e σ :
  worldOk e → startable σ →
  env_ok (diskEnv metadata e cfg σ).1 ∧ EtcdServer.env_haveWAL (diskEnv metadata e cfg σ).1 = false ∧
  startable (diskEnv metadata e cfg σ).2.
Proof.
  intros [P1 P2 P3 P4] Hst. destruct names as (HM & HS & HW & HB). destruct plains_dirs as (Q1 & Q2 & Q3).
  unfold diskEnv. rewrite Hdir.
  destruct (touch_step es σ Hes Hne Hst) as (σ1 & -> & Hst1 & Hc1 & _).
  { unfold snapPath, memberPath. rewrite <- app_assoc. by apply prefix_app_r. }
  { by left. }
  rewrite (no_log σ1 Hst1), HS.
  assert (HSp : ∀ σ, base rooted σ ++ (es ++ [bs "member"]) ++ [bs "snap"] = snapPath σ).
  { intros σ'. unfold snapPath, memberPath, dataPath. by rewrite !app_assoc. }
  assert (HMp : ∀ σ, base rooted σ ++ es ++ [bs "member"] = memberPath σ).
  { intros σ'. unfold memberPath, dataPath. by rewrite !app_assoc. }
  destruct (touch_step _ σ1 Q2 ltac:(by destruct es) Hst1) as (σ2 & -> & Hst2 & Hc2 & Hl2).
  { by rewrite HSp. }
  { rewrite HSp. unfold absent. auto. }
  destruct (open_step σ2 Hst2) as (d & σ3 & -> & Hst3 & Hc3).
  { rewrite Hl2, decide_True; [done|]. rewrite HSp. unfold snapPath, memberPath, dataPath, base. by rewrite Hc2. }
  destruct (create_step (ServerConfig.Logger cfg) σ3 Hst3) as (w & -> & [f Hf] & Hst4).
  set (σ4 := created _ _ _ σ3) in *. rewrite HM.
  destruct (touch_step _ σ4 Q1 ltac:(by destruct es) Hst4) as (σ5 & -> & Hst5 & _).
  { rewrite HMp. unfold snapPath. by apply prefix_app_r. }
  { rewrite HMp. unfold absent. auto. }
  cbn [fst snd EtcdServer.env_haveWAL]. split; [|done].
  split; cbn [EtcdServer.env_touchData EtcdServer.env_touchSnap EtcdServer.env_open EtcdServer.env_prt
    EtcdServer.env_get EtcdServer.env_wal EtcdServer.env_touchMember EtcdServer.env_streamRt
    EtcdServer.env_pipelineRt]; try done; [by eexists|by exists f].
Qed.

Lemma startable_filesAfter n e σ :
  worldOk e → startable σ → startable (filesAfter metadata e cfg n σ).
Proof.
  intros He. revert σ. induction n as [|n IH]; intros σ Hst; [done|]. cbn [filesAfter].
  apply IH, startable_exit. by apply start_step.
Qed.

(** C12 (safety): every start is a first start.  A member of a new cluster whose
    disk refuses nothing and has nothing in the way, and in whose world nothing
    else fails, is started and stopped any number of times: the next start
    still finds no log, and [NewServer] bootstraps the cluster again, with a
    follower in term 1 that has one committed entry per member and with applied
    and committed index 0.  Whatever the former runs did is not found. *)
Theorem every_start_is_first `{MO : !MapOrder} n e σ :
  worldOk e → startable σ → config_ok cfg →
  let e' := (diskEnv metadata e cfg (filesAfter metadata e cfg n σ)).1 in
  EtcdServer.env_haveWAL e' = false ∧
  ∃ s us nd, EtcdServer.NewServer e' cfg = Ret s ∧ new_server e' cfg s us nd ∧
    let r := RawNode.raft_ (node.rn nd) in
    raft.Term r = 1 ∧ raft.state r = StateFollower ∧
    raftLog.committed (raft.raftLog_ r) = len (ServerConfig.InitialPeerURLsMap cfg) ∧
    EtcdServer.committedIndex s = 0 ∧ EtcdServer.appliedIndex s = 0.
Proof.
  intros He Hst Hc e'.
  destruct (start_step e _ He (startable_filesAfter n e σ He Hst)) as (Henv & HW & _). fold e' in Henv, HW.
  split; [done|]. destruct (NewServer_ok e' cfg Hc Henv HW) as (s & us & nd & HS & Hn).
  exists s, us, nd. split; [done|]. split; [done|].
  destruct (new_server_raft _ _ _ _ _ Hc Hn) as (_ & T & S & _ & C & _). pose proof (ns_indexes _ _ _ _ _ Hn) as [I1 I2]. done.
Qed.
End Starts.

(** ** An instance *)

(** A database that is one file. *)
Lemma open_file p σ :
  wf σ → os.tree σ !! os.parent p = Some os.NDir → p ≠ [] → os.tree σ !! p ≠ Some os.NDir →
  ∃ d σ', os.open (R := granting) p os.O_CREATE σ = (Ret d, σ') ∧ wf σ' ∧ os.cwd σ' = os.cwd σ ∧
    (∃ i, os.tree σ' !! p = Some (os.NFile i)) ∧
    ∀ q, q ≠ p → os.tree σ' !! q = os.tree σ !! q.
Proof.
  intros Hw Hd Hp Hn. unfold os.open, os.inDir. rewrite Hd. cbn [os.refuse granting].
  destruct (os.tree σ !! p) as [[|i]|] eqn:E; [done| |]; (eexists _, _; split; [reflexivity|]).
  - split_and!; [|done|by eexists|done]. split; try apply Hw.
    + intros fd. cbn [os.fds os.nextfd]. destruct (decide (fd = os.nextfd σ)) as [->|Hne]; [lia|].
      rewrite lookup_insert_ne by done. intros H%(wf_fds _ Hw). lia.
    + intros j fd H%(wf_locks _ Hw). cbn [os.nextino os.nextfd]. lia.
  - cbn [os.tree os.cwd]. split_and!; [|done|exists (os.nextino σ); apply lookup_insert_eq|].
    2:{ intros q Hq. by rewrite lookup_insert_ne. }
    destruct p as [|c p] using rev_ind; [done|]. clear IHp. unfold os.parent in Hd. rewrite removelast_last in Hd.
    split; cbn [os.tree os.cwd os.nextino os.nextfd os.fds os.locks].
    + rewrite lookup_insert_ne by done. apply (wf_root _ Hw).
    + intros q e. destruct (decide (q ++ [e] = p ++ [c])) as [Eq|Hne].
      * apply app_inj_tail in Eq as [-> _]. intros _.
        rewrite lookup_insert_ne; [done|]. intros Eq. apply (f_equal length) in Eq.
        rewrite length_app in Eq. simpl in Eq. lia.
      * rewrite lookup_insert_ne by done. intros H%(wf_closed _ Hw).
        rewrite lookup_insert_ne; [done|]. intros <-. by rewrite E in H.
    + rewrite lookup_insert_ne; [apply (wf_cwd _ Hw)|]. intros Eq. pose proof (wf_cwd _ Hw) as H.
      rewrite <- Eq, E in H. done.
    + intros q i. destruct (decide (q = p ++ [c])) as [->|Hne].
      * rewrite lookup_insert_eq. intros [= <-]. lia.
      * rewrite lookup_insert_ne by done. intros H%(wf_ino _ Hw). lia.
    + intros fd. destruct (decide (fd = os.nextfd σ)) as [->|Hne]; [lia|].
      rewrite lookup_insert_ne by done. intros H%(wf_fds _ Hw). lia.
    + intros j fd H%(wf_locks _ Hw). lia.
Qed.

#[local] Instance fileBolt : BoltOpen :=
  {| boltOpen := λ p, os.open (R := granting) p os.O_CREATE; boltOpen_ok := open_file |}.
#[local] Instance restart_map_order : MapOrder := elements_order.

Lemma every_start_is_first_witness :
  let e' := (diskEnv (R := granting) [] sample_env sample_cfg
               (filesAfter (R := granting) [] sample_env sample_cfg 3 emptyDisk)).1 in
  EtcdServer.env_haveWAL e' = false ∧ ∃ s, EtcdServer.NewServer e' sample_cfg = Ret s.
Proof.
  destruct (every_start_is_first (R := granting) (λ _ _, eq_refl) false [bs "default.etcd"]
    ltac:(by apply (bool_decide_unpack _)) ltac:(done) sample_cfg [] eq_refl eq_refl 3 sample_env emptyDisk)
    as (HW & s & us & nd & HS & _).
  - split; [by eexists|done|by eexists..].
  - split.
    + apply wf_emptyDisk.
    + intros q i _ H. by apply lookup_emptyDisk in H as [_ [=]].
    + intros H. by apply lookup_emptyDisk in H as [[=] _].
    + intros q Hq. destruct (os.tree emptyDisk !! q) eqn:E; [|done].
      apply lookup_emptyDisk in E as [-> _]. by destruct Hq as [[=]|[[=]|[[=]|[? [=]]]]].
    + intros H%prefix_nil_inv. done.
  - apply sample_cfg_ok.
  - split; [exact HW|]. exists s. exact HS.
Defined.
