(* ===== verification/Urls.v ===== *)
(** * pkg/types: URLs and the map of initial cluster members

    [types.NewURLs] accepts the URLs a member may advertise, and
    [types.NewURLsMap] reads the [--initial-cluster] string.  Both rest on
    [net/url] and [net.SplitHostPort], which are modelled here byte by byte
    (as of Go 1.13). *)

From S2P Require Import Prelude GoStd.

(** ** strings *)

(** [strings.IndexByte], [strings.LastIndexByte] as a split: what is before
    and after the byte, if it occurs. *)
Fixpoint cutByte (c : Z) (s : list Z) : option (list Z * list Z) :=
  match s with
  | [] => None
  | b :: s =>
      if b =? c then Some ([], s)
      else match cutByte c s with Some (x, y) => Some (b :: x, y) | None => None end
  end.
Definition cutLastByte (c : Z) (s : list Z) : option (list Z * list Z) :=
  match cutByte c (rev s) with Some (x, y) => Some (rev y, rev x) | None => None end.
Definition containsByte (c : Z) (s : list Z) : bool := existsb (Z.eqb c) s.

(** [strings.HasPrefix] *)
Fixpoint hasPrefix (p s : list Z) : bool :=
  match p, s with
  | [], _ => true
  | a :: p, b :: s => (a =? b) && hasPrefix p s
  | _ :: _, [] => false
  end.

(** [strings.Split(s, sep)] for a separator of one byte, and [strings.Join]. *)
Fixpoint splitByte (c : Z) (s : list Z) : list (list Z) :=
  match s with
  | [] => [[]]
  | b :: s =>
      if b =? c then [] :: splitByte c s
      else match splitByte c s with
           | x :: l => (b :: x) :: l
           | [] => [[b]]
           end
  end.
Fixpoint joinBytes (sep : list Z) (l : list (list Z)) : list Z :=
  match l with
  | [] => []
  | [x] => x
  | x :: l => x ++ sep ++ joinBytes sep l
  end.

Definition comma : Z := 44.
Definition colon : Z := 58.
Definition equals : Z := 61.
Definition percent : Z := 37.

Definition isUpper (c : Z) : bool := (65 <=? c) && (c <=? 90).
Definition isLower (c : Z) : bool := (97 <=? c) && (c <=? 122).
Definition isDigit (c : Z) : bool := (48 <=? c) && (c <=? 57).
Definition isAlnum (c : Z) : bool := isUpper c || isLower c || isDigit c.

(** [strings.ToLower] on an ASCII string (a scheme). *)
Definition toLower (s : list Z) : list Z := (λ c, if isUpper c then c + 32 else c) <$> s.

(** [strings.TrimSpace]: the UTF-8 encodings of the code points that
    [unicode.IsSpace] accepts, removed at both ends. *)
Definition spaces : list (list Z) :=
  [[9]; [10]; [11]; [12]; [13]; [32]; [194; 133]; [194; 160]; [225; 154; 128];
   [226; 128; 128]; [226; 128; 129]; [226; 128; 130]; [226; 128; 131]; [226; 128; 132];
   [226; 128; 133]; [226; 128; 134]; [226; 128; 135]; [226; 128; 136]; [226; 128; 137];
   [226; 128; 138]; [226; 128; 168]; [226; 128; 169]; [226; 128; 175]; [226; 129; 159];
   [227; 128; 128]].
Fixpoint trimLoop (fuel : nat) (sp : list (list Z)) (s : list Z) : list Z :=
  match fuel with
  | O => s
  | S fuel =>
      match List.find (λ p, hasPrefix p s) sp with
      | Some p => trimLoop fuel sp (drop (length p) s)
      | None => s
      end
  end.
Definition trimLeft (sp : list (list Z)) (s : list Z) : list Z := trimLoop (length s) sp s.
Definition TrimSpace (s : list Z) : list Z :=
  rev (trimLeft ((λ p, rev p) <$> spaces) (rev (trimLeft spaces s))).

(** ** net/url *)
Module url.

Inductive encoding := encodePath | encodeUserPassword | encodeHost | encodeZone | encodeFragment.
#[global] Instance encoding_eq_dec : EqDecision encoding.
Proof. solve_decision. Defined.

(** What is set of [Userinfo]: the name and, when given, the password. *)
Record Userinfo := mkUser { username : list Z; password : option (list Z) }.
Record URL := mk {
  Scheme : list Z; Opaque : list Z; User : option Userinfo; Host : list Z;
  Path : list Z; RawPath : list Z; ForceQuery : bool; RawQuery : list Z; Fragment : list Z
}.
#[global] Instance Userinfo_eq_dec : EqDecision Userinfo.
Proof. solve_decision. Defined.
#[global] Instance URL_eq_dec : EqDecision URL.
Proof. solve_decision. Defined.
Definition zero : URL := mk [] [] None [] [] [] false [] [].

Definition shouldEscape (c : Z) (mode : encoding) : bool :=
  if isAlnum c then false
  else if bool_decide (mode = encodeHost ∨ mode = encodeZone) && bool_decide (c ∈ bs "!$&'()*+,;=:[]<>" ++ [34])
  then false
  else if bool_decide (c ∈ bs "-_.~") then false
  else if bool_decide (c ∈ bs "$&+,/:;=?@") then
    match mode with
    | encodePath => c =? 63
    | encodeUserPassword => bool_decide (c ∈ bs "@/?:")
    | encodeFragment => false
    | encodeHost | encodeZone => true
    end
  else if bool_decide (mode = encodeFragment) && bool_decide (c ∈ bs "!()*") then false
  else true.

Definition ishex (c : Z) : bool :=
  isDigit c || ((97 <=? c) && (c <=? 102)) || ((65 <=? c) && (c <=? 70)).
Definition unhex (c : Z) : Z :=
  if isDigit c then c - 48 else if (97 <=? c) && (c <=? 102) then c - 87 else c - 55.
Definition upperhex (n : Z) : Z := if n <? 10 then 48 + n else 55 + n.

(** One pass over the string does both the checks and the decoding. *)
Fixpoint unescape_ (mode : encoding) (s : list Z) : outcome (list Z) :=
  match s with
  | [] => Ret []
  | c :: rest =>
      if c =? percent then
        match rest with
        | a :: b :: rest =>
            if negb (ishex a && ishex b) then Err (Errorf "invalid URL escape")
            else
              let v := unhex a * 16 + unhex b in
              let is25 := (a =? 50) && (b =? 53) in
              if bool_decide (mode = encodeHost) && (unhex a <? 8) && negb is25
              then Err (Errorf "invalid URL escape")
              else if bool_decide (mode = encodeZone) && negb is25 && negb (v =? 32) &&
                      shouldEscape v encodeHost
              then Err (Errorf "invalid URL escape")
              else s' ← unescape_ mode rest; Ret (v :: s')
        | _ => Err (Errorf "invalid URL escape")
        end
      else if bool_decide (mode = encodeHost ∨ mode = encodeZone) && (c <? 128) && shouldEscape c mode
      then Err (Errorf "invalid character in host name")
      else s' ← unescape_ mode rest; Ret (c :: s')
  end.
Definition unescape (s : list Z) (mode : encoding) : outcome (list Z) := unescape_ mode s.

Fixpoint escape (s : list Z) (mode : encoding) : list Z :=
  match s with
  | [] => []
  | c :: s =>
      if shouldEscape c mode then [percent; upperhex (c / 16); upperhex (c mod 16)] ++ escape s mode
      else c :: escape s mode
  end.

(** [getscheme]: the scheme and the rest. *)
Fixpoint schemeLoop (first : bool) (s : list Z) : option (option (list Z * list Z)) :=
  match s with
  | [] => Some None
  | c :: s =>
      if isUpper c || isLower c then
        match schemeLoop false s with
        | Some (Some (x, y)) => Some (Some (c :: x, y))
        | r => r
        end
      else if isDigit c || bool_decide (c ∈ bs "+-.") then
        if first then Some None
        else match schemeLoop false s with
             | Some (Some (x, y)) => Some (Some (c :: x, y))
             | r => r
             end
      else if c =? colon then if first then None else Some (Some ([], s))
      else Some None
  end.
Definition getscheme (rawurl : list Z) : outcome (list Z * list Z) :=
  match schemeLoop true rawurl with
  | None => Err (Errorf "missing protocol scheme")
  | Some None => Ret ([], rawurl)
  | Some (Some r) => Ret r
  end.

(** [split(s, c, cutc)] *)
Definition split (s : list Z) (c : Z) (cutc : bool) : list Z * list Z :=
  match cutByte c s with
  | None => (s, [])
  | Some (x, y) => (x, if cutc then y else c :: y)
  end.

Definition validOptionalPort (port : list Z) : bool :=
  match port with
  | [] => true
  | c :: port => (c =? colon) && forallb isDigit port
  end.

(** The part of a string before the first ["%25"], and the part from it. *)
Fixpoint cut25 (s : list Z) : option (list Z * list Z) :=
  if hasPrefix [37; 50; 53] s then Some ([], s)
  else match s with
       | [] => None
       | c :: s => match cut25 s with Some (x, y) => Some (c :: x, y) | None => None end
       end.

Definition parseHost (host : list Z) : outcome (list Z) :=
  if hasPrefix (bs "[") host then
    match cutLastByte 93 host with
    | None => Err (Errorf "missing ']' in host")
    | Some (before, colonPort) =>
        if negb (validOptionalPort colonPort) then Err (Errorf "invalid port after host")
        else match cut25 before with
             | Some (h1, h2) =>
                 host1 ← unescape h1 encodeHost;
                 host2 ← unescape h2 encodeZone;
                 host3 ← unescape (93 :: colonPort) encodeHost;
                 Ret (host1 ++ host2 ++ host3)
             | None => unescape host encodeHost
             end
    end
  else
    match cutLastByte colon host with
    | Some (_, port) =>
        if negb (validOptionalPort (colon :: port)) then Err (Errorf "invalid port after host")
        else unescape host encodeHost
    | None => unescape host encodeHost
    end.

Definition validUserinfo (s : list Z) : bool :=
  forallb (λ c, isAlnum c || bool_decide (c ∈ bs "-._:~!$&'()*+,;=%@")) s.

Definition parseAuthority (authority : list Z) : outcome (option Userinfo * list Z) :=
  match cutLastByte 64 authority with
  | None => host ← parseHost authority; Ret (None, host)
  | Some (userinfo, h) =>
      host ← parseHost h;
      if negb (validUserinfo userinfo) then Err (Errorf "net/url: invalid userinfo")
      else if negb (containsByte colon userinfo) then
        n ← unescape userinfo encodeUserPassword;
        Ret (Some (mkUser n None), host)
      else
        let '(n, p) := split userinfo colon true in
        n ← unescape n encodeUserPassword;
        p ← unescape p encodeUserPassword;
        Ret (Some (mkUser n (Some p)), host)
  end.

Definition setPath (u : URL) (p : list Z) : outcome URL :=
  path ← unescape p encodePath;
  Ret (mk (Scheme u) (Opaque u) (User u) (Host u) path
          (if decide (p = escape path encodePath) then [] else p)
          (ForceQuery u) (RawQuery u) (Fragment u)).

Definition isCTL (c : Z) : bool := (c <? 32) || (c =? 127).

(** [parse(rawurl, false)] *)
Definition parse (rawurl : list Z) : outcome URL :=
  if existsb isCTL rawurl then Err (Errorf "net/url: invalid control character in URL")
  else if decide (rawurl = bs "*") then Ret (mk [] [] None [] rawurl [] false [] [])
  else
    '(scheme, rest) ← getscheme rawurl;
    let scheme := toLower scheme in
    let '(force, rest, query) :=
      match cutByte 63 rest with
      | Some (r, []) => (true, r, [])      (* the only '?' is the last byte *)
      | Some (r, q) => (false, r, q)
      | None => (false, rest, [])
      end in
    if negb (hasPrefix (bs "/") rest) && negb (bool_decide (scheme = []))
    then Ret (mk scheme rest None [] [] [] force query [])
    else if negb (hasPrefix (bs "/") rest) && containsByte colon (split rest slash true).1
    then Err (Errorf "first path segment in URL cannot contain colon")
    else if (negb (bool_decide (scheme = [])) || negb (hasPrefix (bs "///") rest)) &&
            hasPrefix (bs "//") rest
    then
      let '(authority, rest) := split (drop 2 rest) slash false in
      '(user, host) ← parseAuthority authority;
      setPath (mk scheme [] user host [] [] force query []) rest
    else setPath (mk scheme [] None [] [] [] force query []) rest.

(** [url.Parse] *)
Definition Parse (rawurl : list Z) : outcome URL :=
  let '(u, frag) := split rawurl 35 true in
  url ← parse u;
  match frag with
  | [] => Ret url
  | _ => f ← unescape frag encodeFragment;
         Ret (mk (Scheme url) (Opaque url) (User url) (Host url) (Path url) (RawPath url)
                 (ForceQuery url) (RawQuery url) f)
  end.

Definition validEncodedPath (s : list Z) : bool :=
  forallb (λ c, bool_decide (c ∈ bs "!$&'()*+,;=:@[]%") || negb (shouldEscape c encodePath)) s.

Definition EscapedPath (u : URL) : list Z :=
  if negb (bool_decide (RawPath u = [])) && validEncodedPath (RawPath u) &&
     bool_decide (unescape (RawPath u) encodePath = Ret (Path u))
  then RawPath u
  else if decide (Path u = bs "*") then bs "*"
  else escape (Path u) encodePath.

Definition userString (u : Userinfo) : list Z :=
  escape (username u) encodeUserPassword ++
  match password u with
  | Some p => bs ":" ++ escape p encodeUserPassword
  | None => []
  end.

(** The method [String] of a URL. *)
Definition String (u : URL) : list Z :=
  let buf := match Scheme u with [] => [] | s => s ++ bs ":" end in
  let buf :=
    match Opaque u with
    | _ :: _ => buf ++ Opaque u
    | [] =>
        let hasHost := negb (bool_decide (Host u = [])) in
        let hasUser := bool_decide (is_Some (User u)) in
        let buf :=
          if negb (bool_decide (Scheme u = [])) || hasHost || hasUser then
            buf ++ (if hasHost || negb (bool_decide (Path u = [])) || hasUser then bs "//" else []) ++
            match User u with Some ui => userString ui ++ bs "@" | None => [] end ++
            escape (Host u) encodeHost
          else buf in
        let path := EscapedPath u in
        let buf := if negb (bool_decide (path = [])) && negb (hasPrefix (bs "/") path) && hasHost
                   then buf ++ bs "/" else buf in
        let buf := match buf with
                   | [] => if containsByte colon (split path slash true).1 then bs "./" else []
                   | _ => buf
                   end in
        buf ++ path
    end in
  let buf := if ForceQuery u || negb (bool_decide (RawQuery u = [])) then buf ++ bs "?" ++ RawQuery u
             else buf in
  match Fragment u with
  | [] => buf
  | f => buf ++ bs "#" ++ escape f encodeFragment
  end.

(** [Hostname] and [Port] *)
Definition splitHostPort (hostport : list Z) : list Z * list Z :=
  let '(host, port) :=
    match cutLastByte colon hostport with
    | Some (h, p) => if validOptionalPort (colon :: p) then (h, p) else (hostport, [])
    | None => (hostport, [])
    end in
  (if hasPrefix (bs "[") host && hasPrefix (bs "]") (rev host)
   then take (length host - 2) (drop 1 host) else host, port).
Definition Hostname (u : URL) : list Z := (splitHostPort (Host u)).1.
Definition Port (u : URL) : list Z := (splitHostPort (Host u)).2.
End url.

(** ** net.SplitHostPort *)
Definition SplitHostPort (hostport : list Z) : outcome (list Z * list Z) :=
  match cutLastByte colon hostport with
  | None => Err (Errorf "missing port in address")
  | Some (host, port) =>
      if hasPrefix (bs "[") hostport then
        match cutByte 93 hostport with
        | None => Err (Errorf "missing ']' in address")
        | Some (h, after) =>
            match after with
            | [] => Err (Errorf "missing port in address")
            | c :: rest =>
                if negb (length h + 1 =? length host)%nat then
                  Err (Errorf (if c =? colon then "too many colons in address"
                               else "missing port in address"))
                else if containsByte 91 (drop 1 hostport) then Err (Errorf "unexpected '[' in address")
                else if containsByte 93 after then Err (Errorf "unexpected ']' in address")
                else Ret (drop 1 h, port)
            end
        end
      else if containsByte colon host then Err (Errorf "too many colons in address")
      else if containsByte 91 hostport then Err (Errorf "unexpected '[' in address")
      else if containsByte 93 hostport then Err (Errorf "unexpected ']' in address")
      else Ret (host, port)
  end.

(** ** pkg/types/urls.go

    [sort.Sort] on URLs orders them by their strings. *)
Module URLs.
Definition Less (a b : url.URL) : bool :=
  bytes_leb (url.String a) (url.String b) && negb (bytes_leb (url.String b) (url.String a)).
Definition url_le (a b : url.URL) : Prop := bytes_le (url.String a) (url.String b).
#[global] Instance url_le_dec a b : Decision (url_le a b).
Proof. unfold url_le. apply _. Defined.
Definition Sort (us : list url.URL) : list url.URL := merge_sort url_le us.

Definition StringSlice (us : list url.URL) : list (list Z) := url.String <$> us.
Definition String (us : list url.URL) : list Z := joinBytes [comma] (StringSlice us).

(** The body of the loop of [NewURLs]. *)
Definition newURL (i : list Z) : outcome url.URL :=
  let i := TrimSpace i in
  u ← url.Parse i;
  if negb (bool_decide (url.Scheme u ∈ [bs "http"; bs "https"; bs "unix"; bs "unixs"]))
  then Err (Errorf "URL scheme must be http, https, unix, or unixs")
  else
    match SplitHostPort (url.Host u) with
    | Err _ => Err (Errorf "URL address does not have the form host:port")
    | Ret _ =>
        if negb (bool_decide (url.Path u = [])) then Err (Errorf "URL must not contain a path")
        else Ret u
    | Panic p => Panic p
    | OutOfFuel => OutOfFuel
    end.
Fixpoint newURLs (strs : list (list Z)) : outcome (list url.URL) :=
  match strs with
  | [] => Ret []
  | s :: strs => u ← newURL s; us ← newURLs strs; Ret (u :: us)
  end.
Definition NewURLs (strs : list (list Z)) : outcome (list url.URL) :=
  match strs with
  | [] => Err (Errorf "no valid URLs given")
  | _ => all ← newURLs strs; Ret (Sort all)
  end.
Definition MustNewURLs (strs : list (list Z)) : outcome (list url.URL) :=
  match NewURLs strs with
  | Err _ => Panic (PanicString "NewURLs failed")
  | r => r
  end.
End URLs.

(** ** pkg/types/urlsmap.go

    The order in which [range] visits a map from strings. *)
Class NameOrder := {
  name_order : gset (list Z) → list (list Z);
  name_order_perm s : name_order s ≡ₚ elements s;
}.
Definition elements_name_order : NameOrder :=
  {| name_order := elements; name_order_perm := λ s, reflexivity _ |}.

Module URLsMap.
Abbreviation t := (gmap (list Z) (list url.URL)).

Definition addItem (key : list Z) (m : gmap (list Z) (list (list Z))) : gmap (list Z) (list (list Z)) :=
  let '(key, value) := match cutByte equals key with Some (k, v) => (k, v) | None => (key, []) end in
  <[key := default [] (m !! key) ++ [value]]> m.

(** [parse]; an iteration removes at least one byte of [s]. *)
Fixpoint parseLoop (fuel : nat) (s : list Z) (m : gmap (list Z) (list (list Z)))
    : outcome (gmap (list Z) (list (list Z))) :=
  match s with
  | [] => Ret m
  | _ =>
      match fuel with
      | O => OutOfFuel
      | S fuel =>
          let '(key, s) := match cutByte comma s with Some (k, s') => (k, s') | None => (s, []) end in
          match key with
          | [] => parseLoop fuel s m
          | _ => parseLoop fuel s (addItem key m)
          end
      end
  end.
Definition parse (s : list Z) : outcome (gmap (list Z) (list (list Z))) := parseLoop (length s) s ∅.

Fixpoint newLoop (m : gmap (list Z) (list (list Z))) (names : list (list Z)) (cl : t) : outcome t :=
  match names with
  | [] => Ret cl
  | name :: names =>
      us ← URLs.NewURLs (default [] (m !! name));
      newLoop m names (<[name := us]> cl)
  end.
Definition NewURLsMap `{!NameOrder} (s : list Z) : outcome t :=
  m ← parse s;
  newLoop m (name_order (dom m)) ∅.
End URLsMap.

(** ** Canonical URLs

    The URLs that only have a scheme and a [host:port] address: [host] is a
    name, an IPv4 address or a bracketed IPv6 address, in the bytes a host may
    have unescaped, without a comma. *)
Definition hostByte (c : Z) : bool :=
  negb (url.shouldEscape c url.encodeHost) && negb (bool_decide (c ∈ bs ":[],")).
Definition hostOk (h : list Z) : Prop :=
  Forall (λ c, hostByte c = true) h ∨
  ∃ x, h = 91 :: x ++ [93] ∧ Forall (λ c, hostByte c = true ∨ c = colon) x.
Record canonical (u : url.URL) : Prop := {
  can_scheme : url.Scheme u ∈ [bs "http"; bs "https"; bs "unix"; bs "unixs"];
  can_host : ∃ h p, url.Host u = h ++ colon :: p ∧ hostOk h ∧ Forall (λ c, isDigit c = true) p;
  can_rest : u = url.mk (url.Scheme u) [] None (url.Host u) [] [] false [] [];
}.

Lemma cutByte_None c s : c ∉ s → cutByte c s = None.
Proof.
  induction s as [|b s IH]; simpl; [done|]. intros [Hb Hs]%not_elem_of_cons.
  rewrite IH by done. by rewrite (proj2 (Z.eqb_neq b c)) by congruence.
Qed.
Lemma cutByte_app c x y : c ∉ x → cutByte c (x ++ c :: y) = Some (x, y).
Proof.
  induction x as [|b x IH]; simpl; intros Hx; [by rewrite Z.eqb_refl|].
  apply not_elem_of_cons in Hx as [Hb Hx].
  rewrite IH by done. by rewrite (proj2 (Z.eqb_neq b c)) by congruence.
Qed.
Lemma cutLastByte_None c s : c ∉ s → cutLastByte c s = None.
Proof. intros H. unfold cutLastByte. rewrite cutByte_None; [done|]. by apply not_elem_of_rev. Qed.
Lemma cutLastByte_app c x y : c ∉ y → cutLastByte c (x ++ c :: y) = Some (x, y).
Proof.
  intros H. unfold cutLastByte. rewrite rev_app_distr. simpl. rewrite <-app_assoc. cbn [app].
  rewrite cutByte_app by (by apply not_elem_of_rev). by rewrite !rev_involutive.
Qed.
Lemma containsByte_false c s : c ∉ s → containsByte c s = false.
Proof.
  induction s as [|b s IH]; simpl; [done|]. intros [Hb Hs]%not_elem_of_cons.
  unfold containsByte in *. simpl. rewrite IH by done. by rewrite (proj2 (Z.eqb_neq c b)).
Qed.

(** The bytes of a host that is printed and parsed unescaped. *)
Definition unescaped (s : list Z) : Prop := Forall (λ c, url.shouldEscape c url.encodeHost = false) s.

Lemma unescaped_not_elem s c :
  unescaped s → url.shouldEscape c url.encodeHost = true → c ∉ s.
Proof. intros H Hc Hin. unfold unescaped in H. rewrite Forall_forall in H. by rewrite H in Hc. Qed.
Lemma escape_id s : unescaped s → url.escape s url.encodeHost = s.
Proof. induction 1 as [|c s Hc _ IH]; [done|]. cbn [url.escape]. by rewrite Hc, IH. Qed.
Lemma unescape_id s : unescaped s → url.unescape s url.encodeHost = Ret s.
Proof.
  unfold url.unescape. induction 1 as [|c s Hc _ IH]; [done|]. cbn [url.unescape_].
  destruct (Z.eqb_spec c percent) as [->|_]; [done|].
  rewrite Hc, andb_false_r. by rewrite IH.
Qed.
Lemma digit_unescaped c : isDigit c = true → url.shouldEscape c url.encodeHost = false.
Proof. unfold url.shouldEscape, isAlnum. intros ->. by rewrite orb_true_r. Qed.
Lemma hostByte_unescaped c : hostByte c = true → url.shouldEscape c url.encodeHost = false.
Proof. unfold hostByte. intros [H _]%andb_true_iff. by apply negb_true_iff. Qed.
Lemma hostByte_not c : hostByte c = true → c ∉ bs ":[],".
Proof. unfold hostByte. intros [_ H]%andb_true_iff. apply negb_true_iff in H. by apply bool_decide_eq_false in H. Qed.

Lemma not_elem_Forall (P : Z → Prop) s c : Forall P s → ¬ P c → c ∉ s.
Proof. intros H Hc Hin. rewrite Forall_forall in H. eauto. Qed.

(** What a host-and-port address of a canonical URL has. *)
Lemma hostOk_unescaped h p :
  hostOk h → Forall (λ c, isDigit c = true) p → unescaped (h ++ colon :: p).
Proof.
  intros Hh Hp. apply Forall_app. split.
  - destruct Hh as [Hh|(x & -> & Hx)].
    + eapply Forall_impl; [exact Hh|]. apply hostByte_unescaped.
    + constructor; [done|]. apply Forall_app. split; [|by repeat constructor].
      eapply Forall_impl; [exact Hx|]. intros c [?| ->]; [by apply hostByte_unescaped|done].
  - constructor; [done|]. eapply Forall_impl; [exact Hp|]. apply digit_unescaped.
Qed.
Lemma digits_not c p : Forall (λ c, isDigit c = true) p → isDigit c = false → c ∉ p.
Proof. intros H Hc. eapply not_elem_Forall; [exact H|]. simpl. congruence. Qed.
Lemma plain_not c h : Forall (λ c, hostByte c = true) h → hostByte c = false → c ∉ h.
Proof. intros H Hc. eapply not_elem_Forall; [exact H|]. simpl. congruence. Qed.
Lemma bracket_not c x :
  Forall (λ c, hostByte c = true ∨ c = colon) x → hostByte c = false → c ≠ colon → c ∉ x.
Proof. intros H Hc ?. eapply not_elem_Forall; [exact H|]. simpl. intros [?|?]; congruence. Qed.

Lemma validPort p : Forall (λ c, isDigit c = true) p → url.validOptionalPort (colon :: p) = true.
Proof. intros H. simpl. apply forallb_forall. intros c Hc%list_elem_of_In. rewrite Forall_forall in H. eauto. Qed.
Lemma cut25_None s : percent ∉ s → url.cut25 s = None.
Proof.
  induction s as [|c s IH]; [done|]. intros [Hc Hs]%not_elem_of_cons. cbn [url.cut25].
  rewrite IH by done. cbn [hasPrefix]. unfold percent in Hc.
  by rewrite (proj2 (Z.eqb_neq 37 c)) by done.
Qed.

Lemma plain_prefix h p : Forall (λ c, hostByte c = true) h → hasPrefix (bs "[") (h ++ colon :: p) = false.
Proof.
  destruct 1 as [|c h Hc _]; [done|]. cbn. rewrite andb_true_r. apply Z.eqb_neq. intros <-. done.
Qed.

Lemma parseHost_ok h p :
  hostOk h → Forall (λ c, isDigit c = true) p → url.parseHost (h ++ colon :: p) = Ret (h ++ colon :: p).
Proof.
  intros Hh Hp. pose proof (hostOk_unescaped h p Hh Hp) as Hu. unfold url.parseHost.
  destruct Hh as [Hh|(x & -> & Hx)].
  - rewrite plain_prefix by done. rewrite cutLastByte_app by (by apply digits_not).
    rewrite validPort by done. by apply unescape_id.
  - rewrite <-app_comm_cons, <-app_assoc in *. cbn [app] in *.
    change (hasPrefix (bs "[") (91 :: x ++ 93 :: colon :: p)) with true. cbv iota.
    rewrite app_comm_cons, cutLastByte_app.
    2: { apply not_elem_of_cons. split; [done|by apply digits_not]. }
    rewrite validPort by done. cbn [negb]. rewrite cut25_None; [by apply unescape_id|].
    apply not_elem_of_cons. split; [done|by apply bracket_not].
Qed.

Lemma SplitHostPort_ok h p :
  hostOk h → Forall (λ c, isDigit c = true) p → ∃ host, SplitHostPort (h ++ colon :: p) = Ret (host, p).
Proof.
  intros Hh Hp. unfold SplitHostPort. rewrite cutLastByte_app by (by apply digits_not).
  destruct Hh as [Hh|(x & -> & Hx)].
  - rewrite plain_prefix, !containsByte_false; eauto using plain_not.
    all: apply not_elem_of_app; rewrite not_elem_of_cons;
      split_and!; first [done|by apply plain_not|by apply digits_not].
  - rewrite <-app_comm_cons, <-app_assoc in *. cbn [app] in *.
    change (hasPrefix (bs "[") (91 :: x ++ 93 :: colon :: p)) with true. cbv iota.
    rewrite app_comm_cons, cutByte_app.
    2: { apply not_elem_of_cons. split; [done|by apply bracket_not]. }
    rewrite (proj2 (Nat.eqb_eq _ _)) by (simpl; rewrite length_app; simpl; lia). cbn [negb].
    cbn [app drop]. rewrite !containsByte_false; eauto.
    + apply not_elem_of_cons. split; [done|by apply digits_not].
    + apply not_elem_of_app; rewrite !not_elem_of_cons.
      split_and!; first [done|by apply bracket_not|by apply digits_not].
Qed.

Lemma trimLeft_id sp c s :
  Forall (λ p, match p with a :: _ => a ≠ c | [] => False end) sp → trimLeft sp (c :: s) = c :: s.
Proof.
  intros H. unfold trimLeft. cbn [length trimLoop].
  assert (E : List.find (λ p, hasPrefix p (c :: s)) sp = None); [|by rewrite E].
  induction H as [|[|a p] sp Ha _ IH]; [done|done|]. cbn [List.find hasPrefix].
  by rewrite (proj2 (Z.eqb_neq a c)).
Qed.

(** Nothing is trimmed off a string that starts with a letter and ends in a
    digit or a colon. *)
Lemma TrimSpace_id c s d s' :
  c :: s = s' ++ [d] → isLower c = true → isDigit d = true ∨ d = colon → TrimSpace (c :: s) = c :: s.
Proof.
  intros E Hc Hd. unfold TrimSpace. rewrite trimLeft_id.
  - rewrite E, rev_app_distr. cbn [rev app]. rewrite trimLeft_id.
    + cbn [rev]. by rewrite rev_involutive.
    + assert (48 ≤ d ≤ 58) by (unfold isDigit, colon in *; destruct Hd; zify_bool; lia).
      cbn. repeat (apply Forall_cons_2; [lia|]). by apply Forall_nil.
  - unfold isLower in Hc. zify_bool. cbn. repeat (apply Forall_cons_2; [lia|]). by apply Forall_nil.
Qed.

Lemma canonical_String u :
  canonical u → url.String u = url.Scheme u ++ bs "://" ++ url.Host u.
Proof.
  intros [Hs (h & p & Hh & Hok & Hp) ->]. unfold url.String. cbn [url.Opaque url.Host url.User url.Path
    url.ForceQuery url.RawQuery url.Fragment url.Scheme].
  rewrite Hh, escape_id by (by apply hostOk_unescaped).
  rewrite (bool_decide_eq_false_2 (h ++ colon :: p = [])) by (by destruct h).
  rewrite !elem_of_cons in Hs. destruct Hs as [->|[->|[->|[->|[]%not_elem_of_nil]]]];
    cbn; by rewrite ?app_nil_r.
Qed.

Lemma canonical_last u :
  canonical u → ∃ s d, url.String u = s ++ [d] ∧ (isDigit d = true ∨ d = colon).
Proof.
  intros H. rewrite canonical_String by done. destruct H as [_ (h & p & -> & _ & Hp) _].
  destruct p as [|d p _] using rev_ind.
  - exists (url.Scheme u ++ bs "://" ++ h), colon. rewrite <-!app_assoc. auto.
  - apply Forall_app in Hp as [_ Hd]. apply Forall_cons in Hd as [Hd _].
    exists (url.Scheme u ++ bs "://" ++ h ++ colon :: p), d. rewrite <-!app_assoc. auto.
Qed.

Lemma setPath_nil u : url.Path u = [] → url.RawPath u = [] → url.setPath u [] = Ret u.
Proof. destruct u; simpl. by intros -> ->. Qed.

Lemma unescaped_graphic c : url.shouldEscape c url.encodeHost = false → url.isCTL c = false.
Proof.
  unfold url.shouldEscape, url.isCTL, isAlnum, isUpper, isLower, isDigit. intros H.
  apply orb_false_iff. rewrite Z.ltb_ge, Z.eqb_neq.
  destruct (_ || _) eqn:E in H; [zify_bool; lia|clear E].
  destruct (bool_decide (_ ∨ _) && _) eqn:E in H.
  { apply andb_true_iff in E as [_ E]. apply bool_decide_eq_true in E.
    cbn in E. rewrite !elem_of_cons, elem_of_nil in E. lia. }
  clear E. destruct (bool_decide (c ∈ _)) eqn:E in H.
  { apply bool_decide_eq_true in E. cbn in E. rewrite !elem_of_cons, elem_of_nil in E. lia. }
  by destruct (bool_decide (c ∈ _)) in H.
Qed.
Lemma unescaped_noCTL s : unescaped s → existsb url.isCTL s = false.
Proof. induction 1 as [|c s Hc _ IH]; [done|]. simpl. by rewrite IH, unescaped_graphic. Qed.

(** A string with one of the accepted schemes. *)
Lemma parse_scheme scheme host :
  scheme ∈ [bs "http"; bs "https"; bs "unix"; bs "unixs"] →
  url.getscheme (scheme ++ bs "://" ++ host) = Ret (scheme, 47 :: 47 :: host) ∧
  toLower scheme = scheme ∧ scheme ≠ [] ∧ scheme ++ bs "://" ++ host ≠ bs "*" ∧
  existsb url.isCTL (scheme ++ bs "://" ++ host) = existsb url.isCTL host.
Proof. rewrite !elem_of_cons. by intros [->|[->|[->|[->|[]%not_elem_of_nil]]]]. Qed.

(** [url.parse] of a scheme and an address. *)
Lemma parse_host scheme h p :
  scheme ∈ [bs "http"; bs "https"; bs "unix"; bs "unixs"] →
  hostOk h → Forall (λ c, isDigit c = true) p →
  url.parse (scheme ++ bs "://" ++ h ++ colon :: p) =
    Ret (url.mk scheme [] None (h ++ colon :: p) [] [] false [] []).
Proof.
  intros Hs Hh Hp. pose proof (hostOk_unescaped h p Hh Hp) as Hu.
  pose proof (parseHost_ok h p Hh Hp) as Hph.
  remember (h ++ colon :: p) as host eqn:Ehost. clear Ehost Hh Hp.
  assert (Hq : ∀ c, url.shouldEscape c url.encodeHost = true → c ∉ host)
    by (intros; by eapply unescaped_not_elem).
  destruct (parse_scheme scheme host Hs) as (Hg & Hl & Hne & Hst & Hctl).
  unfold url.parse. rewrite Hctl, unescaped_noCTL, decide_False, Hg, bind_Ret by done.
  cbv beta iota. rewrite Hl, cutByte_None.
  2: { rewrite !not_elem_of_cons. split_and!; [done|done|by apply Hq]. }
  rewrite (bool_decide_eq_false_2 (scheme = [])) by done.
  change (hasPrefix (bs "/") (47 :: 47 :: host)) with true.
  change (hasPrefix (bs "//") (47 :: 47 :: host)) with true. cbn [negb andb orb drop].
  rewrite drop_0. unfold url.split. rewrite cutByte_None by (by apply Hq). cbv beta iota.
  unfold url.parseAuthority. rewrite cutLastByte_None by (by apply Hq).
  rewrite Hph, !bind_Ret. by apply setPath_nil.
Qed.

(** A canonical URL is read back from its string. *)
Lemma newURL_canonical u : canonical u → URLs.newURL (url.String u) = Ret u.
Proof.
  intros Hu. unfold URLs.newURL.
  assert (Ht : TrimSpace (url.String u) = url.String u).
  { destruct (canonical_last u Hu) as (s' & d & Hl & Hd).
    destruct (url.String u) as [|c s] eqn:E; [by destruct s'|].
    apply (TrimSpace_id c s d s'); [done| |done].
    rewrite canonical_String in E by done. destruct Hu as [Hs _ _]. rewrite !elem_of_cons in Hs.
    destruct Hs as [Hs|[Hs|[Hs|[Hs|[]%not_elem_of_nil]]]]; rewrite Hs in E; by injection E as <-. }
  rewrite Ht, canonical_String by done. destruct Hu as [Hs (h & p & Hh & Hok & Hp) Hu].
  rewrite Hh. unfold url.Parse, url.split. rewrite cutByte_None.
  2: { apply not_elem_of_app; split; [|apply not_elem_of_app; split].
       - rewrite !elem_of_cons in Hs. destruct Hs as [->|[->|[->|[->|[]%not_elem_of_nil]]]];
           by apply (bool_decide_unpack _).
       - by apply (bool_decide_unpack _).
       - eapply unescaped_not_elem; [by apply hostOk_unescaped|done]. }
  rewrite parse_host, !bind_Ret by done. cbn [url.Scheme url.Host url.Path].
  rewrite (bool_decide_eq_true_2 (_ ∈ _)) by done. cbn [negb].
  destruct (SplitHostPort_ok h p) as [host ->]; [done..|].
  rewrite (bool_decide_eq_true_2 ([] = [])) by done. cbn [negb]. by rewrite Hu, Hh.
Qed.

Lemma newURLs_canonical us : Forall canonical us → URLs.newURLs (url.String <$> us) = Ret us.
Proof.
  induction 1 as [|u us Hu _ IH]; [done|]. rewrite fmap_cons. cbn [URLs.newURLs].
  by rewrite newURL_canonical, bind_Ret, IH.
Qed.
Lemma NewURLs_canonical us :
  us ≠ [] → Forall canonical us → URLs.NewURLs (url.String <$> us) = Ret (URLs.Sort us).
Proof.
  intros Hne Hus. unfold URLs.NewURLs. rewrite newURLs_canonical, bind_Ret by done. by destruct us.
Qed.
Lemma Sort_perm us : URLs.Sort us ≡ₚ us.
Proof. apply merge_sort_Permutation. Qed.
Lemma Sort_sorted us : StronglySorted URLs.url_le (URLs.Sort us).
Proof.
  apply StronglySorted_merge_sort; [intros a b c; apply bytes_le_trans|intros a b; apply bytes_le_total].
Qed.

(** ** The initial cluster string *)

Lemma splitByte_cut c s :
  splitByte c s = match cutByte c s with Some (k, s') => k :: splitByte c s' | None => [s] end.
Proof.
  induction s as [|b s IH]; [done|]. simpl. destruct (b =? c); [done|].
  rewrite IH. by destruct (cutByte c s) as [[k s']|].
Qed.
Lemma cutByte_length c s k s' : cutByte c s = Some (k, s') → (length s = length k + 1 + length s')%nat.
Proof.
  revert k. induction s as [|b s IH]; intros k; simpl; [done|].
  destruct (b =? c); [intros [= <- <-]; simpl; lia|].
  destruct (cutByte c s) as [[x y]|]; [|done]. intros [= <- <-]. simpl. rewrite (IH x); [lia|done].
Qed.
Lemma splitByte_join c l :
  l ≠ [] → Forall (λ x, c ∉ x) l → splitByte c (joinBytes [c] l) = l.
Proof.
  induction l as [|x l IH]; [done|]. intros _ [Hx Hl]%Forall_cons. rewrite splitByte_cut.
  destruct l as [|y l]; [by cbn [joinBytes]; rewrite cutByte_None|].
  change (joinBytes [c] (x :: y :: l)) with (x ++ c :: joinBytes [c] (y :: l)).
  rewrite cutByte_app by done. by rewrite IH.
Qed.

(** [parse] visits the items between commas, skipping the empty ones; it
    returns on every input. *)
Definition parseItems (m : gmap (list Z) (list (list Z))) (items : list (list Z)) :=
  foldl (λ m key, URLsMap.addItem key m) m (filter (λ key, key ≠ []) items).

Lemma parseLoop_ok fuel s m :
  (length s ≤ fuel)%nat → URLsMap.parseLoop fuel s m = Ret (parseItems m (splitByte comma s)).
Proof.
  revert s m. induction fuel as [|fuel IH]; intros s m Hf.
  - by destruct s; [|simpl in Hf; lia].
  - rewrite splitByte_cut. destruct s as [|b s0]; [done|]. cbn [URLsMap.parseLoop].
    remember (b :: s0) as s eqn:Es.
    destruct (cutByte comma s) as [[k s']|] eqn:E.
    + apply cutByte_length in E. unfold parseItems. rewrite filter_cons.
      destruct k as [|a k]; rewrite IH by (simpl in *; lia); [done|]. by rewrite decide_True.
    + subst s. rewrite IH by (simpl; lia). done.
Qed.

(** The initial cluster of some members' URLs, as [InitialClusterFromName]
    and the documentation of the flag write it. *)
Definition clusterItem (e : list Z * url.URL) : list Z := e.1 ++ equals :: url.String e.2.
Definition clusterString (l : list (list Z * url.URL)) : list Z := joinBytes [comma] (clusterItem <$> l).
Definition urlsNamed (n : list Z) (l : list (list Z * url.URL)) : list url.URL :=
  snd <$> filter (λ e, e.1 = n) l.
Definition entryOk (e : list Z * url.URL) : Prop := (comma ∉ e.1) ∧ (equals ∉ e.1) ∧ canonical e.2.

Lemma canonical_no_comma u : canonical u → comma ∉ url.String u.
Proof.
  intros Hu. rewrite canonical_String by done. destruct Hu as [Hs (h & p & -> & Hh & Hp) _].
  apply not_elem_of_app; split; [|apply not_elem_of_app; split].
  - rewrite !elem_of_cons in Hs. destruct Hs as [->|[->|[->|[->|[]%not_elem_of_nil]]]];
      by apply (bool_decide_unpack _).
  - by apply (bool_decide_unpack _).
  - rewrite not_elem_of_app, not_elem_of_cons. split_and!; [|done|by apply digits_not].
    destruct Hh as [Hh|(x & -> & Hx)]; [by apply plain_not|].
    rewrite not_elem_of_cons, not_elem_of_app, not_elem_of_cons.
    split_and!; [done|by apply bracket_not|done|apply not_elem_of_nil].
Qed.
Lemma entryOk_no_comma e : entryOk e → comma ∉ clusterItem e.
Proof.
  intros (Hn & _ & Hu). unfold clusterItem. rewrite not_elem_of_app, not_elem_of_cons.
  split_and!; [done|done|by apply canonical_no_comma].
Qed.

Lemma addItem_entry e m :
  entryOk e → URLsMap.addItem (clusterItem e) m = <[e.1 := default [] (m !! e.1) ++ [url.String e.2]]> m.
Proof. intros (_ & He & _). unfold URLsMap.addItem, clusterItem. by rewrite cutByte_app. Qed.

Lemma parsed_lookup l : ∀ m n,
  Forall entryOk l →
  parseItems m (clusterItem <$> l) !! n =
    match urlsNamed n l with
    | [] => m !! n
    | us => Some (default [] (m !! n) ++ (url.String <$> us))
    end.
Proof.
  induction l as [|e l IH]; intros m n Hl; [done|]. apply Forall_cons in Hl as [He Hl].
  unfold parseItems in *. rewrite fmap_cons, filter_cons, decide_True.
  2: { unfold clusterItem. by destruct e.1. }
  cbn [foldl]. rewrite IH, addItem_entry by done. unfold urlsNamed. rewrite filter_cons.
  destruct (decide (e.1 = n)) as [<-|Hn].
  - rewrite lookup_insert_eq, fmap_cons. cbn [default].
    destruct (snd <$> filter (λ e', e'.1 = e.1) l); [done|]. unfold id. by rewrite <-app_assoc.
  - by rewrite lookup_insert_ne by done.
Qed.

Lemma newLoop_ok f m names : ∀ cl,
  (∀ n, n ∈ names → URLs.NewURLs (default [] (m !! n)) = Ret (f n)) →
  ∃ cl', URLsMap.newLoop m names cl = Ret cl' ∧
    ∀ n, cl' !! n = if decide (n ∈ names) then Some (f n) else cl !! n.
Proof.
  induction names as [|n0 names IH]; intros cl Hf.
  { exists cl. split; [done|]. intros n. by rewrite decide_False by apply not_elem_of_nil. }
  cbn [URLsMap.newLoop]. rewrite Hf, bind_Ret by apply elem_of_cons, or_introl, eq_refl.
  destruct (IH (<[n0 := f n0]> cl)) as (cl' & E & Hcl').
  { intros n Hn. apply Hf. by apply elem_of_cons, or_intror. }
  exists cl'. split; [done|]. intros n. rewrite Hcl'.
  destruct (decide (n ∈ names)), (decide (n ∈ n0 :: names)) as [Hin|Hin]; try done.
  - exfalso. apply Hin. by apply elem_of_cons, or_intror.
  - apply elem_of_cons in Hin as [->|?]; [by rewrite lookup_insert_eq|done].
  - apply not_elem_of_cons in Hin as [? _]. by rewrite lookup_insert_ne.
Qed.

(** The map that an initial cluster stands for. *)
Definition clusterMap (l : list (list Z * url.URL)) : URLsMap.t :=
  foldr (λ n m, <[n := URLs.Sort (urlsNamed n l)]> m) ∅ l.*1.

Lemma clusterMap_lookup l n :
  clusterMap l !! n = if decide (n ∈ l.*1) then Some (URLs.Sort (urlsNamed n l)) else None.
Proof.
  unfold clusterMap. generalize (λ n, URLs.Sort (urlsNamed n l)). intros f.
  induction l.*1 as [|x xs IH]; cbn [foldr].
  { by rewrite decide_False by apply not_elem_of_nil. }
  destruct (decide (x = n)) as [->|Hne].
  - rewrite lookup_insert_eq, decide_True; [done|by left].
  - rewrite lookup_insert_ne, IH by done. apply decide_ext. rewrite elem_of_cons. naive_solver.
Qed.
Lemma dom_clusterMap l : dom (clusterMap l) = list_to_set l.*1.
Proof.
  apply leibniz_equiv. intros n. rewrite elem_of_dom, clusterMap_lookup, elem_of_list_to_set.
  case_decide; [by split; [|eexists]|]. by split; [intros [? ?]|].
Qed.
Lemma urlsNamed_nil n l : urlsNamed n l = [] ↔ n ∉ l.*1.
Proof.
  unfold urlsNamed. induction l as [|e l IH]; [split; [intros _; apply not_elem_of_nil|done]|].
  rewrite filter_cons, fmap_cons, not_elem_of_cons. case_decide; naive_solver.
Qed.

Section NameOrdered.
Context `{!NameOrder}.

Lemma NewURLsMap_clusterString l :
  Forall entryOk l → URLsMap.NewURLsMap (clusterString l) = Ret (clusterMap l).
Proof.
  intros Hl. unfold URLsMap.NewURLsMap, URLsMap.parse. rewrite parseLoop_ok by done.
  assert (Hs : parseItems ∅ (splitByte comma (clusterString l)) = parseItems ∅ (clusterItem <$> l)).
  { destruct l as [|e l]; [done|]. unfold clusterString. rewrite splitByte_join; [done..|].
    apply Forall_fmap. eapply Forall_impl; [exact Hl|]. apply entryOk_no_comma. }
  rewrite Hs, bind_Ret. set (m := parseItems ∅ (clusterItem <$> l)).
  assert (Hm : ∀ n, m !! n = match urlsNamed n l with [] => None | us => Some (url.String <$> us) end).
  { intros n. unfold m. rewrite parsed_lookup by done. by rewrite lookup_empty. }
  destruct (newLoop_ok (λ n, URLs.Sort (urlsNamed n l)) m (name_order (dom m)) ∅) as (cl & E & Hcl).
  { intros n Hn. rewrite name_order_perm, elem_of_elements, elem_of_dom in Hn.
    rewrite Hm in *. destruct (urlsNamed n l) eqn:En; [by destruct Hn|].
    rewrite <-En. cbn [default]. apply NewURLs_canonical; [by rewrite En|].
    unfold urlsNamed. apply Forall_fmap, Forall_forall. intros e He.
    apply list_elem_of_filter in He as [_ He]. rewrite Forall_forall in Hl. by apply Hl. }
  rewrite E. f_equal. apply map_eq. intros n. rewrite Hcl, clusterMap_lookup. apply decide_ext.
  rewrite name_order_perm, elem_of_elements, elem_of_dom, Hm. pose proof (urlsNamed_nil n l).
  destruct (urlsNamed n l) eqn:En; [|destruct (decide (n ∈ l.*1))]; naive_solver.
Qed.
End NameOrdered.

(** ** Parsing a URL never panics *)
Definition decided {A} (r : outcome A) : Prop :=
  match r with Ret _ | Err _ => True | Panic _ | OutOfFuel => False end.
Lemma decided_bind {A B} (m : outcome A) (f : A → outcome B) :
  decided m → (∀ a, decided (f a)) → decided (m ≫= f).
Proof. intros Hm Hf. destruct m; [apply Hf|done..]. Qed.

(** [decide_outcome] splits a result on the branches the code takes. *)
Ltac decide_outcome :=
  repeat first
    [ done
    | apply decided_bind; [|intros ?]
    | match goal with |- decided (match ?x with _ => _ end) => destruct x end ].

Lemma unescape_decided s mode : decided (url.unescape s mode).
Proof.
  unfold url.unescape. remember (length s) as n eqn:Hn. revert s Hn.
  induction (lt_wf n) as [n _ IH]; intros s ->.
  assert (IH' : ∀ c t, (length t < length s)%nat →
    decided (s' ← url.unescape_ mode t; Ret (c :: s'))).
  { intros c t Ht. apply decided_bind; [by eapply IH|done]. }
  clear IH. destruct s as [|c rest]; [done|]. cbn [url.unescape_].
  destruct (c =? percent).
  - destruct rest as [|a [|b rest]]; [done..|]. case_match; [done|]. cbv zeta.
    case_match; [done|]. case_match; [done|]. apply IH'. simpl. lia.
  - case_match; [done|]. apply IH'. simpl. lia.
Qed.
Lemma parseHost_decided h : decided (url.parseHost h).
Proof. unfold url.parseHost. decide_outcome; apply unescape_decided. Qed.
Lemma parseAuthority_decided a : decided (url.parseAuthority a).
Proof. unfold url.parseAuthority. decide_outcome; first [apply parseHost_decided|apply unescape_decided]. Qed.
Lemma Parse_decided s : decided (url.Parse s).
Proof.
  unfold url.Parse, url.parse, url.getscheme, url.setPath.
  decide_outcome; first [apply parseAuthority_decided|apply unescape_decided].
Qed.
Lemma newURL_decided s : decided (URLs.newURL s).
Proof.
  unfold URLs.newURL. apply decided_bind; [apply Parse_decided|]. intros u.
  assert (decided (SplitHostPort (url.Host u))) by (unfold SplitHostPort; decide_outcome).
  destruct (SplitHostPort (url.Host u)); decide_outcome.
Qed.
Lemma newURLs_decided l : decided (URLs.newURLs l).
Proof.
  induction l as [|s l IH]; [done|]. cbn [URLs.newURLs].
  apply decided_bind; [apply newURL_decided|]. intros u. by apply decided_bind.
Qed.
Lemma NewURLs_decided l : decided (URLs.NewURLs l).
Proof. destruct l; [done|]. apply decided_bind; [apply newURLs_decided|done]. Qed.
