(* ===== verification/Flags.v ===== *)
(** * pkg/flags: flag values and flags from the environment

    The flag values implement Go's interface [flag.Value]; so does the class
    [FlagValue], over which [SetFlagsFromEnv] is modelled and its theorem is
    proved.  [plog.Fatalf], which ends the process, is the panic
    [Fatal]. *)

From S2P Require Import Prelude GoStd Urls.

Definition Fatal {A} : outcome A := Panic (PanicString "plog.Fatalf").

(** ** flag.Value

    [Set] changes the value in place, also when it reports an error;
    [IsBoolFlag] is the optional method of flags that need no argument. *)
Class FlagValue (V : Type) := {
  Set_ : list Z → V → V * option error;
  IsBoolFlag : V → bool;
}.

(** ** selective_string.go *)
Module SelectiveStringValue.
Record t := mk { v : list Z; valids : gset (list Z) }.
Definition String (ss : t) : list Z := v ss.
Definition Set' (s : list Z) (ss : t) : t * option error :=
  if decide (s ∈ valids ss) then (mk s (valids ss), None)
  else (ss, Some (Errorf "invalid value")).
Definition NewSelectiveStringValue (valids : list (list Z)) : outcome t :=
  v0 ← go_index valids 0;
  Ret (mk v0 (list_to_set valids)).
Definition Valids (ss : t) : list (list Z) := sort_Strings (elements (valids ss)).
End SelectiveStringValue.
#[global] Instance SelectiveStringValue_value : FlagValue SelectiveStringValue.t :=
  {| Set_ := SelectiveStringValue.Set'; IsBoolFlag := λ _, false |}.

(** ** strings.go *)
Module StringsValue.
Abbreviation t := (list (list Z)).
Definition Set' (s : list Z) (ss : t) : t * option error := (splitByte comma s, None).
Definition String (ss : t) : list Z := joinBytes [comma] ss.
Definition NewStringsValue (s : list Z) : t :=
  match s with
  | [] => []
  | _ => (Set' s []).1
  end.
End StringsValue.
#[global] Instance StringsValue_value : FlagValue StringsValue.t :=
  {| Set_ := StringsValue.Set'; IsBoolFlag := λ _, false |}.

(** ** unique_strings.go *)
Module UniqueStringsValue.
Abbreviation t := (gset (list Z)).
Definition Set' (s : list Z) (us : t) : t * option error := (list_to_set (splitByte comma s), None).
Definition stringSlice (us : t) : list (list Z) := sort_Strings (elements us).
Definition String (us : t) : list Z := joinBytes [comma] (stringSlice us).
Definition NewUniqueStringsValue (s : list Z) : t :=
  match s with
  | [] => ∅
  | _ => (Set' s ∅).1
  end.
End UniqueStringsValue.
#[global] Instance UniqueStringsValue_value : FlagValue UniqueStringsValue.t :=
  {| Set_ := UniqueStringsValue.Set'; IsBoolFlag := λ _, false |}.

(** ** unique_urls.go *)
Module UniqueURLs.
Record t := mk { Values : gset (list Z); uss : list url.URL; Allowed : gset (list Z) }.
Definition Set' (s : list Z) (us : t) : t * option error :=
  if decide (s ∈ Values us) then (us, None)
  else if decide (s ∈ Allowed us) then (mk ({[s]} ∪ Values us) (uss us) (Allowed us), None)
  else match URLs.NewURLs (splitByte comma s) with
       | Ret ss => (mk (list_to_set (url.String <$> ss)) ss (Allowed us), None)
       | Err e => (us, Some e)
       | Panic _ | OutOfFuel => (us, None)
       end.
Definition String (us : t) : list Z := joinBytes [comma] (sort_Strings (elements (Values us))).
Definition NewUniqueURLsWithExceptions (s : list Z) (exceptions : list (list Z)) : outcome t :=
  let us := mk ∅ [] (list_to_set exceptions) in
  match s with
  | [] => Ret us
  | _ => match Set' s us with
         | (us, None) => Ret us
         | (_, Some _) => Panic (PanicString "new UniqueURLs should never fail")
         end
  end.
End UniqueURLs.
#[global] Instance UniqueURLs_value : FlagValue UniqueURLs.t :=
  {| Set_ := UniqueURLs.Set'; IsBoolFlag := λ _, false |}.


(** ** flag.FlagSet

    The flags that are defined, with their values, and the names of those
    that were set. *)
Module FlagSet.
Record t (V : Type) := mk { formal : gmap (list Z) V; actual : gset (list Z) }.
Arguments mk {V}.
Arguments formal {V}.
Arguments actual {V}.

(** [fs.Set(name, value)] *)
Definition Set' `{!FlagValue V} (name value : list Z) (fs : t V) : t V * option error :=
  match formal fs !! name with
  | None => (fs, Some (Errorf "no such flag"))
  | Some v =>
      match Set_ value v with
      | (v, Some e) => (mk (<[name := v]> (formal fs)) (actual fs), Some e)
      | (v, None) => (mk (<[name := v]> (formal fs)) ({[name]} ∪ actual fs), None)
      end
  end.

(** [parseOne] on the remaining arguments: whether it has seen a flag. *)
Definition parseOne `{!FlagValue V} (args : list (list Z)) (fs : t V)
    : t V * list (list Z) * outcome bool :=
  match args with
  | [] => (fs, args, Ret false)
  | s :: rest =>
      if negb (hasPrefix (bs "-") s) || bool_decide (s = bs "-") then (fs, args, Ret false)
      else if decide (s = bs "--") then (fs, rest, Ret false)
      else
        let name := if hasPrefix (bs "--") s then drop 2 s else drop 1 s in
        if bool_decide (name = []) || hasPrefix (bs "-") name || hasPrefix (bs "=") name
        then (fs, args, Err (Errorf "bad flag syntax"))
        else
          let '(name, value) := match cutByte equals name with
                                | Some (n, v) => (n, Some v) | None => (name, None) end in
          match formal fs !! name with
          | None =>
              (fs, rest, Err (Errorf (if bool_decide (name = bs "help" ∨ name = bs "h") then "ErrHelp"
                                      else "flag provided but not defined")))
          | Some v =>
              let '(value, rest) :=
                match value with
                | Some x => (Some x, rest)
                | None => if IsBoolFlag v then (Some (bs "true"), rest)
                          else match rest with x :: rest => (Some x, rest) | [] => (None, []) end
                end in
              match value with
              | None => (fs, rest, Err (Errorf "flag needs an argument"))
              | Some x =>
                  match Set_ x v with
                  | (v, Some _) => (mk (<[name := v]> (formal fs)) (actual fs), rest, Err (Errorf "invalid value"))
                  | (v, None) => (mk (<[name := v]> (formal fs)) ({[name]} ∪ actual fs), rest, Ret true)
                  end
              end
          end
  end.

(** [Parse]: the flag set, the arguments that are left, and the error; each
    round takes an argument. *)
Fixpoint parseLoop `{!FlagValue V} (fuel : nat) (args : list (list Z)) (fs : t V)
    : t V * list (list Z) * outcome unit :=
  match fuel with
  | O => (fs, args, OutOfFuel)
  | S fuel =>
      match parseOne args fs with
      | (fs, args, Ret true) => parseLoop fuel args fs
      | (fs, args, Ret false) => (fs, args, Ret tt)
      | (fs, args, Err e) => (fs, args, Err e)
      | (fs, args, Panic p) => (fs, args, Panic p)
      | (fs, args, OutOfFuel) => (fs, args, OutOfFuel)
      end
  end.
Definition Parse `{!FlagValue V} (args : list (list Z)) (fs : t V) : t V * list (list Z) * outcome unit :=
  parseLoop (S (length args)) args fs.

(** The names [VisitAll] and [Visit] visit, in lexicographical order. *)
Definition VisitAll {V} (fs : t V) : list (list Z) := sort_Strings (elements (dom (formal fs))).
Definition Visit {V} (fs : t V) : list (list Z) := sort_Strings (elements (actual fs)).
End FlagSet.

(** ** flag.go *)

(** [strings.ToUpper] of an ASCII string, after replacing [-] by [_]. *)
Definition toUpper (s : list Z) : list Z := (λ c, if isLower c then c - 32 else c) <$> s.
Definition FlagToEnv (prefix name : list Z) : list Z :=
  prefix ++ bs "_" ++ toUpper ((λ c, if c =? 45 then 95 else c) <$> name).

(** [strings.SplitN(env, "=", 2)], its first element. *)
Definition envKey (env : list Z) : list Z :=
  match cutByte equals env with Some (k, _) => k | None => env end.

(** [os.Getenv] over what [os.Environ] lists: the value of the first entry
    with the key, or the empty string. *)
Fixpoint Getenv (environ : list (list Z)) (key : list Z) : list Z :=
  match environ with
  | [] => []
  | env :: environ =>
      match cutByte equals env with
      | Some (k, v) => if decide (k = key) then v else Getenv environ key
      | None => Getenv environ key
      end
  end.

(** [verifyEnv]; what it only logs leaves no trace here. *)
Fixpoint verifyEnv (environ : list (list Z)) (usedEnvKey alreadySet : gset (list Z)) : outcome unit :=
  match environ with
  | [] => Ret tt
  | env :: environ =>
      if decide (envKey env ∈ usedEnvKey) then verifyEnv environ usedEnvKey alreadySet
      else if decide (envKey env ∈ alreadySet) then Fatal
      else verifyEnv environ usedEnvKey alreadySet
  end.

Section Env.
Context `{!FlagValue V}.

Definition setFlagFromEnv (environ : list (list Z)) (fs : FlagSet.t V) (prefix fname : list Z)
    (usedEnvKey alreadySet : gset (list Z)) : FlagSet.t V * gset (list Z) * option error :=
  let key := FlagToEnv prefix fname in
  if decide (key ∈ alreadySet) then (fs, usedEnvKey, None)
  else
    match Getenv environ key with
    | [] => (fs, usedEnvKey, None)
    | val =>
        let used := {[key]} ∪ usedEnvKey in
        match FlagSet.Set' fname val fs with
        | (fs, Some _) => (fs, used, Some (Errorf "invalid value"))
        | (fs, None) => (fs, used, None)
        end
    end.

(** The closure given to [VisitAll], over the names it visits. *)
Fixpoint setLoop (environ : list (list Z)) (prefix : list Z) (alreadySet : gset (list Z))
    (names : list (list Z)) (fs : FlagSet.t V) (used : gset (list Z)) (err : option error)
    : FlagSet.t V * gset (list Z) * option error :=
  match names with
  | [] => (fs, used, err)
  | f :: names =>
      let '(fs, used, serr) := setFlagFromEnv environ fs prefix f used alreadySet in
      setLoop environ prefix alreadySet names fs used
        (match serr with Some e => Some e | None => err end)
  end.

Definition SetFlagsFromEnv (environ : list (list Z)) (prefix : list Z) (fs : FlagSet.t V)
    : outcome (FlagSet.t V * option error) :=
  let alreadySet := list_to_set (FlagToEnv prefix <$> FlagSet.Visit fs) in
  let '(fs, used, err) := setLoop environ prefix alreadySet (FlagSet.VisitAll fs) fs ∅ None in
  _ ← verifyEnv environ used alreadySet;
  Ret (fs, err).
End Env.

(** ** What the environment may set *)

Section EnvProps.
Context `{!FlagValue V} (environ : list (list Z)) (prefix : list Z) (alreadySet : gset (list Z)).

(** The value the environment gives a flag, and what the flag becomes. *)
Definition fromEnv (name : list Z) : option (list Z) :=
  if decide (FlagToEnv prefix name ∈ alreadySet) then None
  else match Getenv environ (FlagToEnv prefix name) with [] => None | v => Some v end.
Definition envValue (name : list Z) (v : V) : V :=
  match fromEnv name with Some s => (Set_ s v).1 | None => v end.
Definition envError (name : list Z) (v : V) : bool :=
  match fromEnv name with Some s => bool_decide (is_Some (Set_ s v).2) | None => false end.

Lemma setFlagFromEnv_spec fs name used v :
  FlagSet.formal fs !! name = Some v →
  setFlagFromEnv environ fs prefix name used alreadySet =
    (match fromEnv name with
     | None => fs
     | Some s => FlagSet.mk (<[name := envValue name v]> (FlagSet.formal fs))
                   (if envError name v then FlagSet.actual fs else {[name]} ∪ FlagSet.actual fs)
     end,
     match fromEnv name with None => used | Some _ => {[FlagToEnv prefix name]} ∪ used end,
     if envError name v then Some (Errorf "invalid value") else None).
Proof.
  intros Hv. unfold setFlagFromEnv, envError, envValue, fromEnv. case_decide; [done|].
  destruct (Getenv _ _) as [|c s] eqn:E; [done|]. unfold FlagSet.Set'. rewrite Hv.
  by destruct (Set_ (c :: s) v) as [v' [e|]].
Qed.

Lemma setLoop_spec names : ∀ fs used err,
  NoDup names → (∀ n, n ∈ names → is_Some (FlagSet.formal fs !! n)) →
  ∃ fs' used' err', setLoop environ prefix alreadySet names fs used err = (fs', used', err') ∧
    (∀ n, FlagSet.formal fs' !! n =
       if decide (n ∈ names) then envValue n <$> FlagSet.formal fs !! n else FlagSet.formal fs !! n) ∧
    (∀ k, k ∈ used' → k ∈ used ∨ k ∉ alreadySet) ∧
    (err' = None ↔ err = None ∧
       ∀ n v, n ∈ names → FlagSet.formal fs !! n = Some v → envError n v = false).
Proof.
  induction names as [|f names IH]; intros fs used err Hnd Hin.
  { exists fs, used, err. split_and!; [done|..].
    - intros n. by rewrite decide_False by apply not_elem_of_nil.
    - by left.
    - split; [|by intros [? _]]. intros ->. split; [done|]. by intros n v []%not_elem_of_nil. }
  apply NoDup_cons in Hnd as [Hf Hnd].
  destruct (Hin f) as [v Hv]; [by left|]. cbn [setLoop]. rewrite (setFlagFromEnv_spec fs f used v) by done.
  cbv beta iota.
  match goal with |- context [setLoop _ _ _ names ?fs1 ?u1 ?e1] =>
    set (fs1' := fs1); set (used1 := u1); set (err1 := e1) end.
  assert (Hfs1 : ∀ n, FlagSet.formal fs1' !! n =
    if decide (n = f) then Some (envValue f v) else FlagSet.formal fs !! n).
  { intros n. unfold fs1', envValue. destruct (fromEnv f) as [s|]; case_decide as Hn; subst; try done.
    - cbn. by rewrite lookup_insert_eq.
    - cbn. by rewrite lookup_insert_ne. }
  assert (Hne : ∀ n, n ∈ names → n ≠ f) by (intros n Hn ->; done).
  destruct (IH fs1' used1 err1) as (fs' & used' & err' & E & Hformal & Hused & Herr); [done|..].
  { intros n Hn. rewrite Hfs1, decide_False by auto. apply Hin. by right. }
  exists fs', used', err'. split_and!; [done|..].
  - intros n. rewrite Hformal, !Hfs1. destruct (decide (n = f)) as [->|Hnf].
    + rewrite decide_False, decide_True by (done || by left). by rewrite Hv.
    + destruct (decide (n ∈ names)) as [H|H].
      * by rewrite decide_True by (by right).
      * rewrite decide_False; [done|]. by intros [?|?]%elem_of_cons.
  - intros k Hk. destruct (Hused k Hk) as [Hk'|?]; [|by right]. unfold used1 in Hk'.
    unfold fromEnv in Hk'. case_decide; [by left|].
    destruct (Getenv environ (FlagToEnv prefix f)); [by left|].
    apply elem_of_union in Hk' as [->%elem_of_singleton|?]; [by right|by left].
  - rewrite Herr. unfold err1. split.
    + intros [He H]. destruct (envError f v) eqn:Ef; [done|]. split; [done|].
      intros n w [->|Hn]%elem_of_cons Hw; [congruence|].
      apply (H n); [done|]. by rewrite Hfs1, decide_False by auto.
    + intros [-> H]. rewrite (H f v) by (done || by left). split; [done|].
      intros n w Hn. rewrite Hfs1, decide_False by auto. apply H. by right.
Qed.
End EnvProps.

Lemma sort_Strings_NoDup l : NoDup l → NoDup (sort_Strings l).
Proof. by rewrite sort_Strings_perm. Qed.

Lemma verifyEnv_spec environ used alreadySet :
  (∀ k, k ∈ used → k ∉ alreadySet) →
  verifyEnv environ used alreadySet =
    if decide (Exists (λ env, envKey env ∈ alreadySet) environ) then Fatal else Ret tt.
Proof.
  intros Hd. induction environ as [|env environ IH]; cbn [verifyEnv].
  { rewrite decide_False; [done|]. by intros ?%Exists_nil. }
  rewrite IH. destruct (decide (envKey env ∈ used)) as [Hu|Hu];
    [|destruct (decide (envKey env ∈ alreadySet)) as [Ha|Ha]].
  - apply decide_ext. rewrite Exists_cons. specialize (Hd _ Hu). naive_solver.
  - rewrite decide_True; [done|]. by left.
  - apply decide_ext. rewrite Exists_cons. naive_solver.
Qed.

(** The environment variables of the flags that the command line set. *)
Definition cmdLineKeys {V} (prefix : list Z) (fs : FlagSet.t V) : gset (list Z) :=
  list_to_set (FlagToEnv prefix <$> FlagSet.Visit fs).

(** C40 (functional): the command line and the environment.  Whatever kinds
    of values the flags have, [SetFlagsFromEnv] ends the process exactly when
    an environment variable belongs to a flag that the command line set;
    otherwise it returns, every flag that the command line did not set takes
    the non-empty value of its variable, every other flag keeps its value, and
    an error is reported exactly when a flag refuses its variable's value. *)
Theorem setFlagsFromEnv_precedence `{!FlagValue V} environ prefix (fs : FlagSet.t V) :
  let keys := cmdLineKeys prefix fs in
  if decide (Exists (λ env, envKey env ∈ keys) environ) then
    SetFlagsFromEnv environ prefix fs = Fatal
  else
    ∃ fs' err, SetFlagsFromEnv environ prefix fs = Ret (fs', err) ∧
      (∀ n, FlagSet.formal fs' !! n = envValue environ prefix keys n <$> FlagSet.formal fs !! n) ∧
      (err = None ↔ ∀ n v, FlagSet.formal fs !! n = Some v → envError environ prefix keys n v = false).
Proof.
  cbv zeta. unfold SetFlagsFromEnv. fold (cmdLineKeys prefix fs). set (keys := cmdLineKeys prefix fs).
  assert (Hall : ∀ n, n ∈ FlagSet.VisitAll fs ↔ is_Some (FlagSet.formal fs !! n)).
  { intros n. unfold FlagSet.VisitAll. by rewrite sort_Strings_perm, elem_of_elements, elem_of_dom. }
  destruct (setLoop_spec environ prefix keys (FlagSet.VisitAll fs) fs ∅ None)
    as (fs' & used & err & -> & Hf & Hu & He).
  { apply sort_Strings_NoDup, NoDup_elements. }
  { intros n. by rewrite Hall. }
  rewrite verifyEnv_spec by (intros k Hk; destruct (Hu k Hk); set_solver).
  destruct (decide (Exists _ _)); [done|]. exists fs', err. split_and!; [done|..].
  - intros m. rewrite Hf. case_decide as Hn; [done|]. rewrite Hall in Hn.
    destruct (FlagSet.formal fs !! m); [by destruct Hn|done].
  - rewrite He. split; [|naive_solver]. intros [_ H] m v Hv. apply (H m v); [|done]. rewrite Hall. eauto.
Qed.

(** A set of strings is read back from what [String] prints. *)
Lemma uniqueStrings_roundtrip (us us' : gset (list Z)) :
  us ≠ ∅ → set_Forall (λ s, comma ∉ s) us →
  UniqueStringsValue.Set' (UniqueStringsValue.String us) us' = (us, None).
Proof.
  intros Hne Hc. unfold UniqueStringsValue.Set', UniqueStringsValue.String, UniqueStringsValue.stringSlice.
  rewrite splitByte_join.
  - f_equal. apply leibniz_equiv. intros x. by rewrite elem_of_list_to_set, sort_Strings_perm, elem_of_elements.
  - intros E. apply Hne, leibniz_equiv, elements_empty_inv, Permutation_nil. by rewrite <-E, sort_Strings_perm.
  - rewrite sort_Strings_perm, Forall_forall. intros x Hx%elem_of_elements. by apply Hc.
Qed.

(** ** Parsing the command line returns *)

Lemma parseOne_progress `{!FlagValue V} args (fs fs' : FlagSet.t V) rest :
  FlagSet.parseOne args fs = (fs', rest, Ret true) → (length rest < length args)%nat.
Proof.
  unfold FlagSet.parseOne. intros H.
  destruct args as [|s args]; [done|].
  repeat (case_match; simplify_eq/=; try lia).
Qed.
Lemma parseOne_decided `{!FlagValue V} args (fs : FlagSet.t V) : decided (FlagSet.parseOne args fs).2.
Proof. unfold FlagSet.parseOne. by repeat case_match. Qed.
Lemma Parse_returns `{!FlagValue V} args (fs : FlagSet.t V) : decided (FlagSet.Parse args fs).2.
Proof.
  unfold FlagSet.Parse. assert (H : (length args < S (length args))%nat) by lia. revert H.
  generalize (S (length args)). intros fuel. revert args fs.
  induction fuel as [|fuel IH]; intros args fs Hf; [lia|]. cbn [FlagSet.parseLoop].
  pose proof (parseOne_decided args fs) as Hd.
  destruct (FlagSet.parseOne args fs) as [[fs' rest] [[]| | |]] eqn:E; try done.
  apply IH. apply parseOne_progress in E. lia.
Qed.

(** An environment without variables for the flags changes nothing. *)
Lemma SetFlagsFromEnv_none `{!FlagValue V} environ prefix (fs : FlagSet.t V) :
  (∀ n, Getenv environ (FlagToEnv prefix n) = []) →
  Forall (λ env, envKey env ∉ cmdLineKeys prefix fs) environ →
  SetFlagsFromEnv environ prefix fs = Ret (fs, None).
Proof.
  intros Hg Hk. unfold SetFlagsFromEnv. fold (cmdLineKeys prefix fs).
  assert (Hs : ∀ names used err, setLoop environ prefix (cmdLineKeys prefix fs) names fs used err = (fs, used, err)).
  { induction names as [|f names IH]; intros used err; [done|]. cbn [setLoop].
    unfold setFlagFromEnv. rewrite Hg. case_decide; apply IH. }
  rewrite Hs, verifyEnv_spec by set_solver. rewrite decide_False; [done|].
  intros (env & Hin & Hkey)%Exists_exists. rewrite Forall_forall in Hk. by apply (Hk env).
Qed.
