(* ===== verification/Embed.v ===== *)
(** * embed: the configuration of a member and how it is started

    [embed.Config], its defaults and what is derived from them; the listeners;
    [StartEtcd], which turns the configuration into the server's and starts
    it.  What the network, the disk and the logger library answer is an
    argument ([Embed.env]). *)

From S2P Require Import Prelude GoStd Fileutil Wal Urls Quorum Tracker Storage RaftLog Raft Node Membership Requests Server.

(** ** pkg/transport/listener.go: TLS settings

    Functions and certificates' parsers are left out of the record. *)
Module TLSInfo.
Record t := mk {
  CertFile : list Z; KeyFile : list Z; TrustedCAFile : list Z; ClientCertAuth : bool;
  CRLFile : list Z; InsecureSkipVerify : bool; ServerName : list Z;
  CipherSuites : list Z; selfCert : bool; AllowedCN : list Z; AllowedHostname : list Z;
  Logger : bool; EmptyCN : bool
}.
Definition zero : t := mk [] [] [] false [] false [] [] false [] [] false false.
Definition Empty (info : t) : bool := bool_decide (CertFile info = []) && bool_decide (KeyFile info = []).
Definition cafiles (info : t) : list (list Z) :=
  match TrustedCAFile info with [] => [] | f => [f] end.

(** What the disk and the crypto libraries answer to [SelfCert]; the files
    that exist are the state. *)
Record certEnv := {
  mkdirAll : option error; randInt : option error; generateKey : option error;
  createCertificate : option error; createCert : option error; marshalKey : option error;
  openKey : option error
}.

(** The named result [info] is returned also with an error.  A nil logger's
    [Warn] dereferences nil. *)
Fixpoint SelfCert (fuel : nat) (e : certEnv) (lg : bool) (dirpath : list Z) (files : gset (list Z))
    : gset (list Z) * outcome (t * option error) :=
  match fuel with
  | O => (files, OutOfFuel)
  | S fuel =>
      match mkdirAll e with Some err => (files, Ret (zero, Some err)) | None =>
      let info := mk [] [] [] false [] false [] [] false [] [] lg false in
      let certPath := Join [dirpath; bs "cert.pem"] in
      let keyPath := Join [dirpath; bs "key.pem"] in
      if bool_decide (certPath ∈ files) && bool_decide (keyPath ∈ files) then
        (files, Ret (mk certPath keyPath [] false [] false [] [] true [] [] lg false, None))
      else
        match randInt e with Some err => (files, Ret (info, Some err)) | None =>
        match generateKey e with Some err => (files, Ret (info, Some err)) | None =>
        match createCertificate e with Some err => (files, Ret (info, Some err)) | None =>
        match createCert e with
        | Some err => (files, if lg then Ret (info, Some err) else Panic NilDereference)
        | None =>
            let files := {[certPath]} ∪ files in
            match marshalKey e with Some err => (files, Ret (info, Some err)) | None =>
            match openKey e with Some err => (files, Ret (info, Some err)) | None =>
            SelfCert fuel e lg dirpath ({[keyPath]} ∪ files)
            end end
        end end end end
      end
  end.
End TLSInfo.

(** ** embed/config.go

    Handlers and functions are handles, 0 for nil; loggers are whether they
    are set. *)
Module EmbedConfig.
Record t := mk {
  Name : list Z; Dir : list Z; WalDir : list Z;
  SnapshotCount : Z; SnapshotCatchUpEntries : Z; MaxSnapFiles : Z; MaxWalFiles : Z;
  TickMs : Z; ElectionMs : Z; InitialElectionTickAdvance : bool;
  BackendBatchInterval : Z; BackendBatchLimit : Z; Test : Z; QuotaBackendBytes : Z;
  MaxTxnOps : Z; MaxRequestBytes : Z;
  LPUrls : list url.URL; LCUrls : list url.URL; APUrls : list url.URL; ACUrls : list url.URL;
  ClientTLSInfo : TLSInfo.t; ClientAutoTLS : bool; PeerTLSInfo : TLSInfo.t;
  CipherSuites : list (list Z);
  ClusterState : list Z; DNSCluster : list Z; DNSClusterServiceName : list Z; Dproxy : list Z;
  Durl : list Z; InitialCluster : list Z; InitialClusterToken : list Z;
  StrictReconfigCheck : bool; EnableV2 : bool;
  AutoCompactionMode : list Z; AutoCompactionRetention : list Z;
  GRPCKeepAliveMinTime : Z; GRPCKeepAliveInterval : Z; GRPCKeepAliveTimeout : Z;
  PreVote : bool; CORS : gset (list Z); HostWhitelist : gset (list Z);
  UserHandlers : gmap (list Z) Z; ServiceRegister : Z;
  AuthToken : list Z; BcryptCost : Z;
  ExperimentalInitialCorruptCheck : bool; ExperimentalCorruptCheckTime : Z;
  ExperimentalEnableV2V3 : list Z; ExperimentalBackendFreelistType : list Z;
  ExperimentalEnableLeaseCheckpoint : bool; ForceNewCluster : bool;
  EnablePprof : bool; Metrics : list Z; ListenMetricsUrls : list url.URL;
  ListenMetricsUrlsJSON : list Z;
  Logger : list Z; DeprecatedLogOutput : list (list Z); LogOutputs : list (list Z); Debug_ : bool;
  ZapLoggerBuilder : option (outcome bool);   (** what it returns, and whether it sets a logger *)
  logger : bool; loggerConfig : option (list (list Z) * list (list Z));
  loggerCore : bool; loggerWriteSyncer : bool;
  EnableGRPCGateway : bool; LogPkgLevels : list Z
}.

Definition ClusterStateFlagNew : list Z := bs "new".
Definition ClusterStateFlagExisting : list Z := bs "existing".
Definition DefaultName : list Z := bs "default".
Definition DefaultListenPeerURLs : list Z := bs "http://localhost:2380".
Definition DefaultListenClientURLs : list Z := bs "http://localhost:2379".
Definition DefaultInitialAdvertisePeerURLs : list Z := bs "http://localhost:2380".
Definition DefaultAdvertiseClientURLs : list Z := bs "http://localhost:2379".
Definition DefaultMaxSnapshots : Z := 5.
Definition DefaultMaxWALs : Z := 5.
Definition DefaultMaxTxnOps : Z := 128.
Definition DefaultMaxRequestBytes : Z := 1572864.
Definition DefaultGRPCKeepAliveMinTime : Z := 5 * Second.
Definition DefaultGRPCKeepAliveInterval : Z := 7200 * Second.
Definition DefaultGRPCKeepAliveTimeout : Z := 20 * Second.
Definition DefaultStrictReconfigCheck : bool := true.
Definition DefaultEnableV2 : bool := true.
Definition DefaultLogOutput : list Z := bs "default".
Definition StdErrLogOutput : list Z := bs "stderr".
Definition StdOutLogOutput : list Z := bs "stdout".

(** [ret = ret + "," + n + "=" + u.String()] for each URL, less the first comma. *)
Definition InitialClusterFromName (c : t) (name : list Z) : outcome (list Z) :=
  match APUrls c with
  | [] => Ret []
  | us =>
      let n := match name with [] => DefaultName | _ => name end in
      let ret := foldl (λ ret u, ret ++ [comma] ++ n ++ [equals] ++ url.String u) [] us in
      go_slice ret 1 (len ret)
  end.

(** [url.Parse] of a constant, its error dropped. *)
Definition parsed (s : list Z) : outcome url.URL :=
  match url.Parse s with
  | Ret u => Ret u
  | _ => Panic NilDereference
  end.

Definition NewConfig : outcome t :=
  lpurl ← parsed DefaultListenPeerURLs;
  apurl ← parsed DefaultInitialAdvertisePeerURLs;
  lcurl ← parsed DefaultListenClientURLs;
  acurl ← parsed DefaultAdvertiseClientURLs;
  let cfg :=
    {| MaxSnapFiles := DefaultMaxSnapshots; MaxWalFiles := DefaultMaxWALs; Name := DefaultName; Dir := []; WalDir := [];
       SnapshotCount := DefaultSnapshotCount; SnapshotCatchUpEntries := DefaultSnapshotCatchUpEntries;
       MaxTxnOps := DefaultMaxTxnOps; MaxRequestBytes := DefaultMaxRequestBytes;
       GRPCKeepAliveMinTime := DefaultGRPCKeepAliveMinTime; GRPCKeepAliveInterval := DefaultGRPCKeepAliveInterval;
       GRPCKeepAliveTimeout := DefaultGRPCKeepAliveTimeout;
       TickMs := 100; ElectionMs := 1000; InitialElectionTickAdvance := true;
       BackendBatchInterval := 0; BackendBatchLimit := 0; Test := 0; QuotaBackendBytes := 0;
       LPUrls := [lpurl]; LCUrls := [lcurl]; APUrls := [apurl]; ACUrls := [acurl];
       ClientTLSInfo := TLSInfo.zero; ClientAutoTLS := false; PeerTLSInfo := TLSInfo.zero;
       CipherSuites := []; ClusterState := ClusterStateFlagNew; DNSCluster := [];
       DNSClusterServiceName := []; Dproxy := []; Durl := []; InitialCluster := [];
       InitialClusterToken := bs "etcd-cluster"; StrictReconfigCheck := DefaultStrictReconfigCheck; EnableV2 := DefaultEnableV2;
       AutoCompactionMode := []; AutoCompactionRetention := [];
       PreVote := false; CORS := {[bs "*"]}; HostWhitelist := {[bs "*"]};
       UserHandlers := ∅; ServiceRegister := 0; AuthToken := bs "simple"; BcryptCost := 10;
       ExperimentalInitialCorruptCheck := false; ExperimentalCorruptCheckTime := 0;
       ExperimentalEnableV2V3 := []; ExperimentalBackendFreelistType := [];
       ExperimentalEnableLeaseCheckpoint := false; ForceNewCluster := false; EnablePprof := false;
       Metrics := bs "basic"; ListenMetricsUrls := []; ListenMetricsUrlsJSON := [];
       Logger := bs "zap"; DeprecatedLogOutput := [DefaultLogOutput];
       LogOutputs := [DefaultLogOutput]; Debug_ := false; ZapLoggerBuilder := None;
       logger := false; loggerConfig := None; loggerCore := false; loggerWriteSyncer := false;
       EnableGRPCGateway := false; LogPkgLevels := [] |} in
  ic ← InitialClusterFromName cfg (Name cfg);
  Ret (cfg <| InitialCluster := ic |>).

Definition IsNewCluster (c : t) : bool := bool_decide (ClusterState c = ClusterStateFlagNew).

(** [int(cfg.ElectionMs / cfg.TickMs)] of two [uint]s *)
Definition ElectionTicks (c : t) : outcome Z :=
  if TickMs c =? 0 then Panic (PanicString "integer divide by zero")
  else Ret (i64 (ElectionMs c / TickMs c)).

Definition defaultPeerHost (c : t) : bool :=
  match APUrls c with [u] => bool_decide (url.String u = DefaultInitialAdvertisePeerURLs) | _ => false end.
Definition defaultClientHost (c : t) : bool :=
  match ACUrls c with [u] => bool_decide (url.String u = DefaultAdvertiseClientURLs) | _ => false end.

Definition updateCipherSuites (tls : TLSInfo.t) (ss : list (list Z)) : option error :=
  if (0 <? len (TLSInfo.CipherSuites tls)) && (0 <? len ss)
  then Some (Errorf "TLSInfo.CipherSuites is already specified") else None.

Definition PeerURLsMapAndToken `{!NameOrder} (c : t) : outcome (URLsMap.t * list Z) :=
  let token := InitialClusterToken c in
  if negb (bool_decide (Durl c = [])) then Ret (<[Name c := APUrls c]> ∅, Durl c)
  else if negb (bool_decide (DNSCluster c = [])) then Ret (∅, token)
  else urlsmap ← URLsMap.NewURLsMap (InitialCluster c); Ret (urlsmap, token).

(** [url.URL{Scheme: u.Scheme, Host: fmt.Sprintf("%s:%s", host, port)}] at the head of the URLs. *)
Definition setHost (host port : list Z) (us : list url.URL) : outcome (list url.URL) :=
  u ← go_index us 0;
  Ret (url.mk (url.Scheme u) [] None (host ++ [colon] ++ port) [] [] false [] [] :: drop 1 us).

(** The name that was given replaces the one in the default initial cluster. *)
Definition clusterFromName (defaultInitialCluster : list Z) (c : t) : outcome t :=
  if negb (bool_decide (Name c = DefaultName)) && bool_decide (InitialCluster c = defaultInitialCluster)
  then ic ← InitialClusterFromName c (Name c); Ret (c <| InitialCluster := ic |>)
  else Ret c.

(** [defaultHostname] and [defaultHostStatus] are what [netutil.GetDefaultHost]
    gave; the empty name and no error on Linux, an error elsewhere. *)
Definition UpdateDefaultClusterFromName (defaultHostname : list Z) (defaultHostStatus : option error)
    (defaultInitialCluster : list Z) (c : t) : outcome (t * list Z * option error) :=
  if bool_decide (defaultHostname = []) || bool_decide (is_Some defaultHostStatus) then
    c ← clusterFromName defaultInitialCluster c;
    Ret (c, [], defaultHostStatus)
  else
    lp ← go_index (LPUrls c) 0;
    '(c, used) ←
      (if defaultPeerHost c && bool_decide (url.Hostname lp = bs "0.0.0.0")
       then us ← setHost defaultHostname (url.Port lp) (APUrls c); Ret (c <| APUrls := us |>, true)
       else Ret (c, false));
    c ← clusterFromName defaultInitialCluster c;
    lc ← go_index (LCUrls c) 0;
    '(c, used) ←
      (if defaultClientHost c && bool_decide (url.Hostname lc = bs "0.0.0.0")
       then us ← setHost defaultHostname (url.Port lc) (ACUrls c); Ret (c <| ACUrls := us |>, true)
       else Ret (c, used));
    Ret (c, if (used : bool) then defaultHostname else [], defaultHostStatus).

Definition getAPURLs (c : t) : list (list Z) := url.String <$> APUrls c.
Definition getLPURLs (c : t) : list (list Z) := url.String <$> LPUrls c.
Definition getACURLs (c : t) : list (list Z) := url.String <$> ACUrls c.
Definition getLCURLs (c : t) : list (list Z) := url.String <$> LCUrls c.
Definition getMetricsURLs (c : t) : list (list Z) := url.String <$> ListenMetricsUrls c.

(** ** config_logging.go and pkg/logutil/zap.go *)

Definition MergeOutputPaths (paths : list (list Z)) : list (list Z) :=
  let outputs : gset (list Z) := list_to_set paths in
  sort_Strings (if decide (bs "/dev/null" ∈ outputs) then [bs "/dev/null"] else elements outputs).

Definition outputPath (v : list Z) : list Z :=
  if decide (v = DefaultLogOutput) then StdErrLogOutput
  else if decide (v = StdErrLogOutput) then StdErrLogOutput
  else if decide (v = StdOutLogOutput) then StdOutLogOutput
  else v.

(** [build] is what building a zap logger with given output paths gives.  The
    builder that is left in the configuration builds it again. *)
Definition setupLogging (build : list (list Z) → list (list Z) → outcome unit) (c : t) : t * outcome unit :=
  if decide (Logger c = bs "zap") then
    let outputs := MergeOutputPaths (outputPath <$> LogOutputs c) in
    let errOutputs := MergeOutputPaths (outputPath <$> LogOutputs c) in
    match ZapLoggerBuilder c with
    | Some b => match b with
                | Ret set => (c <| logger := set || logger c |>, Ret tt)
                | Err e => (c, Err e) | Panic p => (c, Panic p) | OutOfFuel => (c, OutOfFuel)
                end
    | None =>
        let c := c <| ZapLoggerBuilder := Some (_ ← build outputs errOutputs; Ret true) |> in
        match build outputs errOutputs with
        | Ret _ => (c <| logger := true |> <| loggerConfig := Some (outputs, errOutputs) |>
                      <| loggerCore := false |> <| loggerWriteSyncer := false |>, Ret tt)
        | Err e => (c <| logger := false |>, Err e)
        | Panic p => (c, Panic p) | OutOfFuel => (c, OutOfFuel)
        end
    end
  else (c, Err (Errorf "unknown logger option")).

Definition Validate (build : list (list Z) → list (list Z) → outcome unit) (c : t) : t * outcome unit :=
  setupLogging build c.
End EmbedConfig.

(** ** embed/etcd.go, embed/serve.go, pkg/transport: the listeners *)

(** What the world answers while a member is started. *)
Module Embed.
Record env := Env {
  env_listen : list Z → list Z → outcome Z;    (** [net.Listen(network, addr)]: a handle *)
  env_remove : list Z → option error;          (** [os.Remove], nil if the file does not exist *)
  env_FDLimit : outcome Z;
  env_cert : TLSInfo.certEnv; env_files : gset (list Z);
  env_build : list (list Z) → list (list Z) → outcome unit;
  env_readdir : list Z → outcome (list (list Z));
  env_tls : TLSInfo.t → Z;                     (** the handle of the peers' TLS settings *)
  env_srv : EtcdServer.env
}.

(** [transport.newListener]; [rafthttp.NewListener] wraps it in a listener with
    deadlines ([wrapTLS] returns its argument). *)
Definition newListener (e : env) (addr scheme : list Z) : outcome Z :=
  if decide (scheme = bs "unix" ∨ scheme = bs "unixs") then
    match env_remove e addr with
    | Some err => Err err
    | None => env_listen e (bs "unix") addr
    end
  else env_listen e (bs "tcp") addr.

(** The loop of [configurePeerListeners]: the listeners that are open, and the
    slice [peers].  On an error the deferred function ranges over the named
    result [peers], which [return nil, err] has already set to nil: it closes
    nothing. *)
Fixpoint peerLoop (e : env) (us : list url.URL) (peers : list Z) : list Z * outcome (list Z) :=
  match us with
  | [] => (peers, Ret peers)
  | u :: us =>
      match newListener e (url.Host u) (url.Scheme u) with
      | Ret l => peerLoop e us (peers ++ [l])
      | Err err => (peers, Err err)
      | Panic p => (peers, Panic p)
      | OutOfFuel => (peers, OutOfFuel)
      end
  end.
Definition configurePeerListeners (e : env) (c : EmbedConfig.t) : list Z * outcome (list Z) :=
  match EmbedConfig.updateCipherSuites (EmbedConfig.PeerTLSInfo c) (EmbedConfig.CipherSuites c) with
  | Some err => ([], Err err)
  | None => peerLoop e (EmbedConfig.LPUrls c) []
  end.

Record serveCtx := mkCtx {
  sc_lg : bool; sc_l : Z; sc_addr : list Z; sc_network : list Z; sc_secure : bool; sc_insecure : bool;
  sc_userHandlers : gmap (list Z) Z; sc_serviceRegister : Z
}.

Definition registerUserHandler (s : list Z) (h : Z) (m : gmap (list Z) Z) : gmap (list Z) Z :=
  if negb (default 0 (m !! s) =? 0) then m else <[s := h]> m.

(** The paths of [debugutil.PProfHandlers] (one ends in a space), and of
    [registerTrace]; handlers are numbered from 1. *)
Definition pprofPaths : list (list Z) :=
  (λ p, bs "/debug/pprof" ++ p) <$>
    [bs "/"; bs "/profile"; bs "/symbol"; bs "/cmdline"; bs "/trace "; bs "/heap"; bs "/goroutine";
     bs "/threadcreate"; bs "/block"; bs "/mutex"].
Definition registerPprof (m : gmap (list Z) Z) : gmap (list Z) Z :=
  foldr (λ '(i, p) m, registerUserHandler p i m) m (zip (seqZ 1 10) pprofPaths).
Definition registerTrace (m : gmap (list Z) Z) : gmap (list Z) Z :=
  registerUserHandler (bs "/debug/events") 12 (registerUserHandler (bs "/debug/requests") 11 m).

Definition reservedInternalFDNum : Z := 150.

(** The file descriptors that are left for the listener: [LimitListener]
    makes a channel of that capacity. *)
Definition limitListener (e : env) (lg : bool) (l : Z) : outcome Z :=
  match env_FDLimit e with
  | Ret fdLimit =>
      if (fdLimit <=? reservedInternalFDNum) && lg then Panic (PanicString "logger.Fatal")
      else if i64 (fdLimit ⊖ reservedInternalFDNum) <? 0 then Panic (PanicString "makechan: size out of range")
      else Ret l
  | _ => Ret l
  end.

(** The body of the loop of [configureClientListeners] for one URL, [None]
    when the address already has a listener. *)
Definition clientURL (e : env) (c : EmbedConfig.t) (u : url.URL) (sctxs : gmap (list Z) serveCtx)
    : outcome (gmap (list Z) serveCtx * option Z) :=
  let tls := bool_decide (url.Scheme u = bs "https" ∨ url.Scheme u = bs "unixs") in
  if tls && TLSInfo.Empty (EmbedConfig.ClientTLSInfo c)
  then Err (Errorf "TLS key/cert must be provided for client url with HTTPS scheme")
  else
    let unix := bool_decide (url.Scheme u = bs "unix" ∨ url.Scheme u = bs "unixs") in
    let network := if unix then bs "unix" else bs "tcp" in
    let addr := if unix then url.Host u ++ url.Path u else url.Host u in
    match sctxs !! addr with
    | Some old =>
        Ret (<[addr := old <| sc_secure := sc_secure old || tls |>
                           <| sc_insecure := sc_insecure old || negb tls |>]> sctxs, None)
    | None =>
        l ← env_listen e network addr;
        l ← limitListener e (EmbedConfig.logger c) l;
        let handlers := EmbedConfig.UserHandlers c in
        let handlers := if EmbedConfig.EnablePprof c || EmbedConfig.Debug_ c
                        then registerPprof handlers else handlers in
        let handlers := if EmbedConfig.Debug_ c then registerTrace handlers else handlers in
        Ret (<[addr := mkCtx (EmbedConfig.logger c) l addr network tls (negb tls) handlers
                         (EmbedConfig.ServiceRegister c)]> sctxs, Some l)
    end.

(** On an error the deferred functions close the listeners opened so far. *)
Fixpoint clientLoop (e : env) (c : EmbedConfig.t) (us : list url.URL) (sctxs : gmap (list Z) serveCtx)
    (opened : list Z) : list Z * outcome (gmap (list Z) serveCtx) :=
  match us with
  | [] => (opened, Ret sctxs)
  | u :: us =>
      match clientURL e c u sctxs with
      | Ret (sctxs, l) => clientLoop e c us sctxs (opened ++ option_list l)
      | Err err => ([], Err err)
      | Panic p => (opened, Panic p)
      | OutOfFuel => (opened, OutOfFuel)
      end
  end.

(** [cfg.ClientSelfCert], with the configuration it leaves. *)
Definition ClientSelfCert (e : env) (c : EmbedConfig.t) : EmbedConfig.t * outcome unit :=
  if negb (EmbedConfig.ClientAutoTLS c) then (c, Ret tt)
  else if negb (TLSInfo.Empty (EmbedConfig.ClientTLSInfo c)) then (c, Ret tt)
  else
    match (TLSInfo.SelfCert 2 (env_cert e) (EmbedConfig.logger c)
             (Join [EmbedConfig.Dir c; bs "fixtures"; bs "client"]) (env_files e)).2 with
    | Ret (info, Some err) => (c <| EmbedConfig.ClientTLSInfo := info |>, Err err)
    | Ret (info, None) =>
        (c <| EmbedConfig.ClientTLSInfo := info |>,
         match EmbedConfig.updateCipherSuites info (EmbedConfig.CipherSuites c) with
         | Some err => Err err
         | None => Ret tt
         end)
    | Err err => (c, Err err)
    | Panic p => (c, Panic p)
    | OutOfFuel => (c, OutOfFuel)
    end.

Definition configureClientListeners (e : env) (c : EmbedConfig.t)
    : EmbedConfig.t * list Z * outcome (gmap (list Z) serveCtx) :=
  match EmbedConfig.updateCipherSuites (EmbedConfig.ClientTLSInfo c) (EmbedConfig.CipherSuites c) with
  | Some err => (c, [], Err err)
  | None =>
      let '(c, o) := ClientSelfCert e c in
      match o with
      | Panic p => (c, [], Panic p)
      | OutOfFuel => (c, [], OutOfFuel)
      | Err err =>
          if EmbedConfig.logger c then (c, [], Panic (PanicString "logger.Fatal"))
          else let '(l, r) := clientLoop e c (EmbedConfig.LCUrls c) ∅ [] in
               (* a nil logger: the loop runs, but the result is checked against the named [err],
                  which the loop's own assignments overwrite *)
               (c, l, r)
      | Ret _ => let '(l, r) := clientLoop e c (EmbedConfig.LCUrls c) ∅ [] in (c, l, r)
      end
  end.

(** ** StartEtcd *)

(** [embed/util.go]: whether the directory of the log has log files. *)
Definition isMemberInitialized (e : env) (c : EmbedConfig.t) : bool :=
  wal_Exist (env_readdir e)
    (match EmbedConfig.WalDir c with
     | [] => Join [EmbedConfig.Dir c; bs "member"; bs "wal"]
     | d => d
     end).

Section Start.
Context `{!NameOrder}.

(** The entries of the map of initial URLs, as the server ranges over them. *)
Definition urlsEntries (m : URLsMap.t) : list (list Z * list (list Z)) :=
  (λ n, (n, URLs.StringSlice (default [] (m !! n)))) <$> name_order (dom m).

(** The literal [etcdserver.ServerConfig]. *)
Definition serverConfig (e : env) (c : EmbedConfig.t) (urlsmap : URLsMap.t) (token : list Z) (ticks : Z)
    : ServerConfig.t :=
  {| ServerConfig.Name := EmbedConfig.Name c;
     ServerConfig.ClientURLs := EmbedConfig.getACURLs c;
     ServerConfig.PeerURLs := EmbedConfig.getAPURLs c;
     ServerConfig.DataDir := EmbedConfig.Dir c;
     ServerConfig.DedicatedWALDir := EmbedConfig.WalDir c;
     ServerConfig.SnapshotCount := EmbedConfig.SnapshotCount c;
     ServerConfig.SnapshotCatchUpEntries := EmbedConfig.SnapshotCatchUpEntries c;
     ServerConfig.MaxSnapFiles := EmbedConfig.MaxSnapFiles c;
     ServerConfig.MaxWALFiles := EmbedConfig.MaxWalFiles c;
     ServerConfig.InitialPeerURLsMap := urlsEntries urlsmap;
     ServerConfig.InitialClusterToken := token;
     ServerConfig.DiscoveryURL := EmbedConfig.Durl c;
     ServerConfig.DiscoveryProxy := EmbedConfig.Dproxy c;
     ServerConfig.NewCluster := EmbedConfig.IsNewCluster c;
     ServerConfig.PeerTLSInfo := env_tls e (EmbedConfig.PeerTLSInfo c);
     ServerConfig.TickMs := EmbedConfig.TickMs c;
     ServerConfig.ElectionTicks := ticks;
     ServerConfig.InitialElectionTickAdvance := EmbedConfig.InitialElectionTickAdvance c;
     ServerConfig.AutoCompactionMode := EmbedConfig.AutoCompactionMode c;
     ServerConfig.QuotaBackendBytes := EmbedConfig.QuotaBackendBytes c;
     ServerConfig.BackendBatchLimit := EmbedConfig.BackendBatchLimit c;
     ServerConfig.BackendBatchInterval := EmbedConfig.BackendBatchInterval c;
     ServerConfig.MaxTxnOps := EmbedConfig.MaxTxnOps c;
     ServerConfig.MaxRequestBytes := EmbedConfig.MaxRequestBytes c;
     ServerConfig.StrictReconfigCheck := EmbedConfig.StrictReconfigCheck c;
     ServerConfig.AuthToken := EmbedConfig.AuthToken c;
     ServerConfig.BcryptCost := EmbedConfig.BcryptCost c;
     ServerConfig.CORS := EmbedConfig.CORS c;
     ServerConfig.HostWhitelist := EmbedConfig.HostWhitelist c;
     ServerConfig.InitialCorruptCheck := EmbedConfig.ExperimentalInitialCorruptCheck c;
     ServerConfig.CorruptCheckTime := EmbedConfig.ExperimentalCorruptCheckTime c;
     ServerConfig.PreVote := EmbedConfig.PreVote c;
     ServerConfig.Logger := EmbedConfig.logger c;
     ServerConfig.LoggerConfig := bool_decide (is_Some (EmbedConfig.loggerConfig c));
     ServerConfig.LoggerCore := EmbedConfig.loggerCore c;
     ServerConfig.LoggerWriteSyncer := EmbedConfig.loggerWriteSyncer c;
     ServerConfig.Debug_ := EmbedConfig.Debug_ c;
     ServerConfig.ForceNewCluster := EmbedConfig.ForceNewCluster c;
     ServerConfig.EnableGRPCGateway := EmbedConfig.EnableGRPCGateway c;
     ServerConfig.EnableLeaseCheckpoint := EmbedConfig.ExperimentalEnableLeaseCheckpoint c;
     ServerConfig.BackendFreelistType := []; ServerConfig.BootstrapTimeout := 0;
     ServerConfig.AutoCompactionRetention := 0; ServerConfig.ClientCertAuthEnabled := false;
     ServerConfig.LeaseCheckpointInterval := 0 |}.

(** The fields of [Etcd]; [errc] is the capacity of the channel of errors. *)
Record Etcd := mkEtcd {
  Peers : list Z; sctxs : gmap (list Z) serveCtx; Server : option EtcdServer.t;
  cfg : EmbedConfig.t; errc : Z
}.

Context `{!MapOrder}.

(** [StartEtcd]: the listeners that are open when it returns, and its result.
    [Etcd.Close], which runs when it fails, is empty.  [print] dereferences the
    logger.  What serves peers and clients runs in other goroutines. *)
Definition StartEtcd (publishFirst : bool) (fuel : nat)
    (unmarshal : list Z → membership.Attributes * bool) (e : env) (inCfg : EmbedConfig.t)
    : list Z * outcome Etcd :=
  let '(c, o) := EmbedConfig.Validate (env_build e) inCfg in
  match o with Err err => ([], Err err) | Panic p => ([], Panic p) | OutOfFuel => ([], OutOfFuel) | Ret _ =>
  let '(pl, o) := configurePeerListeners e c in
  match o with Err err => (pl, Err err) | Panic p => (pl, Panic p) | OutOfFuel => (pl, OutOfFuel) | Ret peers =>
  let '(c, cl, o) := configureClientListeners e c in
  let open := pl ++ cl in
  (open,
   sctxs ← o;
   '(urlsmap, token) ←
     (if isMemberInitialized e c then Ret (∅, [])
      else match EmbedConfig.PeerURLsMapAndToken c with
           | Err _ => Err (Errorf "error setting up initial cluster")
           | r => r
           end);
   ticks ← EmbedConfig.ElectionTicks c;
   let srvcfg := serverConfig e c urlsmap token ticks in
   _ ← (if EmbedConfig.logger c then Ret tt else Panic NilDereference);
   s ← EtcdServer.NewServer (env_srv e) srvcfg;
   s ← EtcdServer.Start publishFirst fuel unmarshal s;
   Ret (mkEtcd peers sctxs (Some s) c (len peers + 2 * Z.of_nat (size (dom sctxs)))))
  end end.
End Start.
End Embed.

(** ** The initial cluster of a name *)

Lemma clusterFold n us : ∀ acc,
  foldl (λ ret u, ret ++ [comma] ++ n ++ [equals] ++ url.String u) acc us =
    acc ++ concat ((λ u, comma :: clusterItem (n, u)) <$> us).
Proof.
  induction us as [|u us IH]; intros acc; [by rewrite app_nil_r|].
  cbn [foldl]. rewrite IH, fmap_cons. cbn [concat]. unfold clusterItem. cbn [fst snd].
  rewrite <-!app_assoc. cbn [app]. by rewrite <-app_assoc.
Qed.
Lemma join_concat l x :
  x :: l ≠ [] → joinBytes [comma] (x :: l) = x ++ concat ((λ y, comma :: y) <$> l).
Proof.
  intros _. revert x. induction l as [|y l IH]; intros x; [by rewrite app_nil_r|].
  change (joinBytes [comma] (x :: y :: l)) with (x ++ [comma] ++ joinBytes [comma] (y :: l)).
  by rewrite IH.
Qed.

Lemma InitialClusterFromName_spec c name :
  name ≠ [] →
  EmbedConfig.InitialClusterFromName c name = Ret (clusterString ((name,.) <$> EmbedConfig.APUrls c)).
Proof.
  intros Hn. unfold EmbedConfig.InitialClusterFromName.
  destruct (EmbedConfig.APUrls c) as [|u us]; [done|].
  replace (match name with [] => EmbedConfig.DefaultName | _ => name end) with name by (by destruct name).
  rewrite clusterFold. cbn [app]. rewrite fmap_cons. cbn [concat].
  rewrite <-app_comm_cons. set (s := clusterItem (name, u) ++ _).
  rewrite go_slice_suffix by (rewrite len_cons; pose proof (len_nonneg s); lia).
  change (Z.to_nat 1) with 1%nat. cbn [drop]. rewrite drop_0.
  unfold clusterString. rewrite !fmap_cons, join_concat by done.
  f_equal. unfold s. f_equal. by rewrite <-!list_fmap_compose.
Qed.

(** C23 (roundtrip): the initial cluster.  The string that
    [InitialClusterFromName] writes is the list of [name=URL] of the
    advertised URLs, and [NewURLsMap] reads every such list of any number of
    members back: to exactly the given names, each with its URLs, sorted,
    whatever order the map is visited in.  Names are free of commas and equals
    signs; the URLs have one of the four schemes and an address
    [host:port], the host a name, an IPv4 address or a bracketed IPv6 address. *)
Theorem initialCluster_roundtrip `{!NameOrder} (l : list (list Z * url.URL)) :
  Forall entryOk l →
  (∀ c name, name ≠ [] → (name,.) <$> EmbedConfig.APUrls c = l →
     EmbedConfig.InitialClusterFromName c name = Ret (clusterString l)) ∧
  ∃ m, URLsMap.NewURLsMap (clusterString l) = Ret m ∧ dom m = list_to_set l.*1 ∧
    ∀ n us, m !! n = Some us → us ≡ₚ urlsNamed n l ∧ StronglySorted URLs.url_le us.
Proof.
  intros Hl. split.
  - intros c name Hn <-. by apply InitialClusterFromName_spec.
  - exists (clusterMap l). split_and!; [by apply NewURLsMap_clusterString|apply dom_clusterMap|].
    intros n us. rewrite clusterMap_lookup. case_decide; [|done]. intros [= <-].
    split; [apply Sort_perm|apply Sort_sorted].
Qed.

(** ** Starting a member of a new cluster *)

(** The address a client URL is served at. *)
Definition clientAddr (u : url.URL) : list Z :=
  if decide (url.Scheme u = bs "unix" ∨ url.Scheme u = bs "unixs") then url.Host u ++ url.Path u
  else url.Host u.

(** A machine that can listen where it is asked to and has enough file
    descriptors. *)
Record network_ok (e : Embed.env) : Prop := {
  no_listen n a : ∃ h, Embed.env_listen e n a = Ret h;
  no_remove a : Embed.env_remove e a = None;
  no_FDLimit : match Embed.env_FDLimit e with
               | Ret k => Embed.reservedInternalFDNum < k < 2 ^ 63 | Err _ => True | _ => False end;
  no_build a b : Embed.env_build e a b = Ret tt
}.

Lemma newListener_ok e addr scheme : network_ok e → ∃ h, Embed.newListener e addr scheme = Ret h.
Proof.
  intros []. unfold Embed.newListener. rewrite no_remove0. case_decide; apply no_listen0.
Qed.
Lemma peerLoop_ok e us : ∀ peers, network_ok e →
  ∃ ls, Embed.peerLoop e us peers = (peers ++ ls, Ret (peers ++ ls)) ∧ length ls = length us.
Proof.
  induction us as [|u us IH]; intros peers He; cbn [Embed.peerLoop].
  { exists []. by rewrite app_nil_r. }
  destruct (newListener_ok e (url.Host u) (url.Scheme u) He) as [h ->].
  destruct (IH (peers ++ [h]) He) as (ls & -> & Hl). exists (h :: ls).
  rewrite <-app_assoc. simpl. by rewrite Hl.
Qed.
Lemma limitListener_ok e lg l : network_ok e → Embed.limitListener e lg l = Ret l.
Proof.
  intros []. unfold Embed.limitListener, Embed.reservedInternalFDNum in *.
  destruct (Embed.env_FDLimit e) as [k| | |]; try done.
  unwrap. by rewrite (proj2 (Z.leb_gt k 150)), (proj2 (Z.ltb_ge (k - 150) 0)) by lia.
Qed.

Lemma clientURL_ok e c u sctxs :
  network_ok e → url.Scheme u ≠ bs "https" → url.Scheme u ≠ bs "unixs" →
  ∃ ctx l, Embed.clientURL e c u sctxs = Ret (<[clientAddr u := ctx]> sctxs, l).
Proof.
  intros He H1 H2. unfold Embed.clientURL, clientAddr. cbv zeta.
  rewrite (bool_decide_eq_false_2 (url.Scheme u = bs "https" ∨ _)) by naive_solver. cbn [andb].
  match goal with |- context [sctxs !! ?a] => set (addr := a) end.
  assert (Haddr : clientAddr u = addr).
  { unfold addr, clientAddr. by case_decide; [rewrite bool_decide_eq_true_2|rewrite bool_decide_eq_false_2]. }
  unfold clientAddr in Haddr. rewrite Haddr. destruct (sctxs !! addr); [by eexists _, _|].
  destruct (no_listen e He (if bool_decide (url.Scheme u = bs "unix" ∨ url.Scheme u = bs "unixs")
    then bs "unix" else bs "tcp") addr) as [h ->].
  rewrite bind_Ret, limitListener_ok, bind_Ret by done. by eexists _, _.
Qed.
Lemma clientLoop_ok e c us : ∀ sctxs opened,
  network_ok e → Forall (λ u, url.Scheme u ≠ bs "https" ∧ url.Scheme u ≠ bs "unixs") us →
  ∃ ls m, Embed.clientLoop e c us sctxs opened = (ls, Ret m) ∧
    ∀ a, a ∈ clientAddr <$> us ∨ is_Some (sctxs !! a) → is_Some (m !! a).
Proof.
  induction us as [|u us IH]; intros sctxs opened He Hus; cbn [Embed.clientLoop].
  { exists opened, sctxs. split; [done|]. by intros a [[]%not_elem_of_nil|?]. }
  apply Forall_cons in Hus as [[H1 H2] Hus].
  destruct (clientURL_ok e c u sctxs He H1 H2) as (ctx & l & ->).
  destruct (IH (<[clientAddr u := ctx]> sctxs) (opened ++ option_list l) He Hus) as (ls & m & -> & Hm).
  exists ls, m. split; [done|]. intros a Ha. apply Hm. rewrite fmap_cons, elem_of_cons in Ha.
  destruct (decide (clientAddr u = a)) as [<-|Hne]; [right; rewrite lookup_insert_eq; by eexists|].
  rewrite lookup_insert_ne by done. naive_solver.
Qed.

(** The logger that [Validate] sets up. *)
Definition validated (e : Embed.env) (c : EmbedConfig.t) : EmbedConfig.t :=
  (EmbedConfig.Validate (Embed.env_build e) c).1.

Lemma Validate_ok e c :
  network_ok e → EmbedConfig.Logger c = bs "zap" →
  EmbedConfig.ZapLoggerBuilder c = None ∨ EmbedConfig.ZapLoggerBuilder c = Some (Ret true) →
  EmbedConfig.Validate (Embed.env_build e) c = (validated e c, Ret tt) ∧
  EmbedConfig.logger (validated e c) = true ∧
  EmbedConfig.ZapLoggerBuilder (validated e c) = Some (Ret true).
Proof.
  intros He Hz Hb. unfold validated, EmbedConfig.Validate, EmbedConfig.setupLogging.
  rewrite Hz, decide_True by done. cbv zeta.
  destruct Hb as [Hb|Hb]; rewrite Hb; [by rewrite (no_build e He)|by rewrite <-Hb].
Qed.

(** [Validate] only touches the logger. *)
Record same_settings (c c' : EmbedConfig.t) : Prop := {
  ss_Name : EmbedConfig.Name c' = EmbedConfig.Name c;
  ss_Dir : EmbedConfig.Dir c' = EmbedConfig.Dir c;
  ss_WalDir : EmbedConfig.WalDir c' = EmbedConfig.WalDir c;
  ss_TickMs : EmbedConfig.TickMs c' = EmbedConfig.TickMs c;
  ss_ElectionMs : EmbedConfig.ElectionMs c' = EmbedConfig.ElectionMs c;
  ss_LPUrls : EmbedConfig.LPUrls c' = EmbedConfig.LPUrls c;
  ss_LCUrls : EmbedConfig.LCUrls c' = EmbedConfig.LCUrls c;
  ss_APUrls : EmbedConfig.APUrls c' = EmbedConfig.APUrls c;
  ss_Logger : EmbedConfig.Logger c' = EmbedConfig.Logger c;
  ss_AutoTLS : EmbedConfig.ClientAutoTLS c' = EmbedConfig.ClientAutoTLS c;
  ss_Ciphers : EmbedConfig.CipherSuites c' = EmbedConfig.CipherSuites c;
  ss_State : EmbedConfig.ClusterState c' = EmbedConfig.ClusterState c;
  ss_DNS : EmbedConfig.DNSCluster c' = EmbedConfig.DNSCluster c;
  ss_Durl : EmbedConfig.Durl c' = EmbedConfig.Durl c;
  ss_Initial : EmbedConfig.InitialCluster c' = EmbedConfig.InitialCluster c;
  ss_Token : EmbedConfig.InitialClusterToken c' = EmbedConfig.InitialClusterToken c
}.
Lemma validated_same e c : same_settings c (validated e c).
Proof.
  unfold validated, EmbedConfig.Validate, EmbedConfig.setupLogging. case_decide; [|done].
  destruct (EmbedConfig.ZapLoggerBuilder c) as [[[]| | |]|]; [done..|]. cbv zeta.
  by destruct (Embed.env_build e _ _).
Qed.

Section Launch.
Context `{!NameOrder, !MapOrder}.

(** The members of an initial cluster, as the server sees them. *)
Definition clusterEntries (l : list (list Z * url.URL)) : list (list Z * list (list Z)) :=
  Embed.urlsEntries (clusterMap l).

Lemma urlsEntries_names m : (Embed.urlsEntries m).*1 = name_order (dom m).
Proof. unfold Embed.urlsEntries. rewrite <-list_fmap_compose. apply list_fmap_id. Qed.
Lemma clusterEntries_NoDup l : NoDup (clusterEntries l).*1.
Proof. unfold clusterEntries. rewrite urlsEntries_names, name_order_perm. apply NoDup_elements. Qed.
Lemma clusterEntries_names l n : n ∈ (clusterEntries l).*1 ↔ n ∈ l.*1.
Proof.
  unfold clusterEntries.
  by rewrite urlsEntries_names, name_order_perm, elem_of_elements, dom_clusterMap, elem_of_list_to_set.
Qed.
Lemma clusterEntries_urls l n us :
  (n, us) ∈ clusterEntries l → us ≡ₚ url.String <$> urlsNamed n l.
Proof.
  unfold clusterEntries, Embed.urlsEntries. intros (n' & [= <- ->] & Hn)%list_elem_of_fmap.
  rewrite name_order_perm, elem_of_elements, dom_clusterMap, elem_of_list_to_set in Hn.
  rewrite clusterMap_lookup, decide_True by done. cbn [default]. unfold URLs.StringSlice.
  unfold id. by rewrite Sort_perm.
Qed.

(** A configuration that starts a member of the new cluster [l]. *)
Record launch_ok (e : Embed.env) (c : EmbedConfig.t) (l : list (list Z * url.URL)) : Prop := {
  la_zap : EmbedConfig.Logger c = bs "zap" ∧
    (EmbedConfig.ZapLoggerBuilder c = None ∨ EmbedConfig.ZapLoggerBuilder c = Some (Ret true));
  la_tls : EmbedConfig.CipherSuites c = [] ∧ EmbedConfig.ClientAutoTLS c = false;
  la_client : Forall (λ u, url.Scheme u ≠ bs "https" ∧ url.Scheme u ≠ bs "unixs") (EmbedConfig.LCUrls c);
  la_static : EmbedConfig.Durl c = [] ∧ EmbedConfig.DNSCluster c = [];
  la_cluster : EmbedConfig.InitialCluster c = clusterString l;
  la_entries : Forall entryOk l;
  la_local : EmbedConfig.Name c ∈ l.*1;
  la_new : EmbedConfig.ClusterState c = EmbedConfig.ClusterStateFlagNew;
  la_ticks : 0 < EmbedConfig.TickMs c < 2 ^ 43 ∧ EmbedConfig.TickMs c ≤ EmbedConfig.ElectionMs c < 2 ^ 61;
  la_valid : validURLsMap (EmbedConfig.InitialClusterToken c) (clusterEntries l);
  la_json x : x ∈ clusterEntries l →
    len (memberJSON (Some (entryMember (EmbedConfig.InitialClusterToken c) x))) < 2 ^ 62;
  la_len : len (clusterEntries l) < 2 ^ 62;
  la_fresh : Embed.isMemberInitialized e c = false ∧ EtcdServer.env_haveWAL (Embed.env_srv e) = false
}.

Lemma ElectionTicks_ok e c l :
  launch_ok e c l → ∃ t, EmbedConfig.ElectionTicks c = Ret t ∧ 0 < t < 2 ^ 61.
Proof.
  intros []. destruct la_ticks0 as [Ht He]. unfold EmbedConfig.ElectionTicks.
  rewrite (proj2 (Z.eqb_neq _ _)) by lia.
  assert (0 < EmbedConfig.ElectionMs c / EmbedConfig.TickMs c) by (apply Z.div_str_pos; lia).
  assert (EmbedConfig.ElectionMs c / EmbedConfig.TickMs c ≤ EmbedConfig.ElectionMs c)
    by (apply Z.div_le_upper_bound; nia).
  eexists. split; [done|]. rewrite i64_id; [lia|]. unfold is_i64. lia.
Qed.

Lemma serverConfig_ok e c c' l t :
  launch_ok e c l → same_settings c c' → 0 < t < 2 ^ 61 →
  config_ok (Embed.serverConfig e c' (clusterMap l) (EmbedConfig.InitialClusterToken c) t).
Proof.
  intros Hl Hs Ht. destruct Hl, Hs. split; cbn [Embed.serverConfig ServerConfig.NewCluster
    ServerConfig.InitialPeerURLsMap ServerConfig.Name ServerConfig.ElectionTicks ServerConfig.TickMs
    ServerConfig.InitialClusterToken]; fold (clusterEntries l); try done.
  - unfold EmbedConfig.IsNewCluster. rewrite ss_State0. by apply bool_decide_eq_true_2.
  - apply clusterEntries_NoDup.
  - by rewrite clusterEntries_names, ss_Name0.
  - rewrite ss_TickMs0. lia.
Qed.

(** What is known of a member that was started. *)
Record launched (e : Embed.env) (c : EmbedConfig.t) (l : list (list Z * url.URL)) (et : Embed.Etcd)
    (s : EtcdServer.t) (us : list (list Z)) (n : node.t MemoryStorage.t) : Prop := {
  ld_server : Embed.Server et = Some s;
  ld_peers : length (Embed.Peers et) = length (EmbedConfig.LPUrls c);
  ld_clients u : u ∈ EmbedConfig.LCUrls c → is_Some (Embed.sctxs et !! clientAddr u);
  ld_urls : us ≡ₚ url.String <$> urlsNamed (EmbedConfig.Name c) l;
  ld_id : EtcdServer.id s =
    Member.ID (Member.NewMember (EmbedConfig.Name c) us (EmbedConfig.InitialClusterToken c) None);
  ld_ready : EtcdServer.readych s = sig_closed ∧ EtcdServer.stopping s = sig_open ∧ EtcdServer.wg s = 0;
  ld_node : raftNodeConfig.Node (raftNode.cfg (EtcdServer.r s)) = Some n;
  ld_raft : raft.id (RawNode.raft_ (node.rn n)) = EtcdServer.id s ∧
    raft.Term (RawNode.raft_ (node.rn n)) = 1 ∧
    raft.state (RawNode.raft_ (node.rn n)) = StateFollower ∧
    raft.promotable (RawNode.raft_ (node.rn n)) = true;
  ld_voters i : i ∈ keys (Config.Voters (ProgressTracker.Config_ (raft.prs (RawNode.raft_ (node.rn n))))).1 ↔
    i ∈ entryIDs (EmbedConfig.InitialClusterToken c) (clusterEntries l)
}.

(** The server inside: [NewServer] and [Start]. *)
Lemma server_launched first fuel um e c c' l t :
  launch_ok e c l → same_settings c c' → env_ok (Embed.env_srv e) → 0 < t < 2 ^ 61 → (0 < fuel)%nat →
  let cfg := Embed.serverConfig e c' (clusterMap l) (EmbedConfig.InitialClusterToken c) t in
  ∃ s0 s us n, EtcdServer.NewServer (Embed.env_srv e) cfg = Ret s0 ∧
    EtcdServer.Start first fuel um s0 = Ret s ∧
    ∀ ps ctxs errc,
      length ps = length (EmbedConfig.LPUrls c) →
      (∀ u, u ∈ EmbedConfig.LCUrls c → is_Some (ctxs !! clientAddr u)) →
      launched e c l (Embed.mkEtcd ps ctxs (Some s) c' errc) s us n.
Proof.
  intros Hl Hs He Ht Hf cfg. pose proof (serverConfig_ok e c c' l t Hl Hs Ht) as Hc. fold cfg in Hc.
  destruct (NewServer_ok (Embed.env_srv e) cfg Hc He (proj2 (la_fresh _ _ _ Hl))) as (s0 & us & n & HS & Hn).
  exists s0, (startedServer cfg n s0), us, (forwarded cfg n). split_and!; [done|by eapply Start_ok|].
  intros ps ctxs errc Hps Hctxs.
  destruct (start_frame s0) as (F1&F2&F3&F4&F5&F6&F7&F8&F9&F10).
  assert (Hid : EtcdServer.id (EtcdServer.start s0) = EtcdServer.id s0)
    by (unfold EtcdServer.start; by destruct (_ =? 0), (_ =? 0)).
  assert (Hname : ServerConfig.Name cfg = EmbedConfig.Name c) by (by destruct Hs).
  pose proof (ns_started _ _ _ _ _ Hn) as Hst. unfold startedServer.
  generalize dependent (EtcdServer.start s0). intros s1 *. intros.
  split; try done.
  - rewrite <-Hname. apply clusterEntries_urls. apply (ns_local _ _ _ _ _ Hn).
  - simpl. rewrite Hid, (ns_id _ _ _ _ _ Hn). unfold localID. by rewrite Hname.
  - simpl. by rewrite F4, (ns_wg _ _ _ _ _ Hn).
  - simpl. rewrite Hid, (st_id _ _ _ Hst), (ns_id _ _ _ _ _ Hn). 
    split_and!; [done|apply (st_term _ _ _ Hst)|apply (st_state _ _ _ Hst)|].
    apply (st_promotable _ _ _ Hst), peers_entries; [done|].
    pose proof (ns_member _ _ _ _ _ Hn) as Hm.
    by rewrite (MemberIDs_entryMap (ServerConfig.InitialClusterToken cfg) (ServerConfig.InitialPeerURLsMap cfg)
      _ (proj1 (co_valid cfg Hc))), sortIDs_perm in Hm.
  - intros i. simpl. rewrite (st_voters _ _ _ Hst).
    by apply peers_entries.
Qed.

Lemma startEtcd_launch first fuel um e c l :
  network_ok e → env_ok (Embed.env_srv e) → launch_ok e c l → (0 < fuel)%nat →
  ∃ et clients s us n,
    Embed.StartEtcd first fuel um e c = (Embed.Peers et ++ clients, Ret et) ∧ launched e c l et s us n.
Proof.
  intros He Hsrv Hl Hf. destruct (la_zap _ _ _ Hl) as [Hz Hb], (la_tls _ _ _ Hl) as [Hci Hauto].
  destruct (Validate_ok e c He Hz Hb) as (HV & Hlog & _). pose proof (validated_same e c) as Hs.
  unfold Embed.StartEtcd. rewrite HV. generalize dependent (validated e c). intros c' _ Hlog Hs.
  destruct (ElectionTicks_ok e c l Hl) as (t & Het & Ht).
  destruct (server_launched first fuel um e c c' l t Hl Hs Hsrv Ht Hf) as (s0 & s & us & n & HN & HS & HL).
  assert (Hciph : ∀ tls, EmbedConfig.updateCipherSuites tls (EmbedConfig.CipherSuites c') = None).
  { intros tls. unfold EmbedConfig.updateCipherSuites. rewrite (ss_Ciphers _ _ Hs), Hci.
    by rewrite andb_false_r. }
  assert (Het' : EmbedConfig.ElectionTicks c' = Ret t).
  { rewrite <-Het. unfold EmbedConfig.ElectionTicks. by rewrite (ss_TickMs _ _ Hs), (ss_ElectionMs _ _ Hs). }
  assert (Hmap : EmbedConfig.PeerURLsMapAndToken c' = Ret (clusterMap l, EmbedConfig.InitialClusterToken c)).
  { unfold EmbedConfig.PeerURLsMapAndToken. destruct (la_static _ _ _ Hl) as [HD HN'].
    rewrite (ss_Durl _ _ Hs), (ss_DNS _ _ Hs), HD, HN', (ss_Initial _ _ Hs), (la_cluster _ _ _ Hl).
    rewrite (ss_Token _ _ Hs), NewURLsMap_clusterString by apply (la_entries _ _ _ Hl). done. }
  assert (Hinit : Embed.isMemberInitialized e c' = false).
  { rewrite <-(proj1 (la_fresh _ _ _ Hl)). unfold Embed.isMemberInitialized.
    by rewrite (ss_WalDir _ _ Hs), (ss_Dir _ _ Hs). }
  unfold Embed.configurePeerListeners, Embed.configureClientListeners, Embed.ClientSelfCert.
  rewrite !Hciph, (ss_AutoTLS _ _ Hs), Hauto. cbn [negb].
  destruct (peerLoop_ok e (EmbedConfig.LPUrls c') [] He) as (ps & -> & Hps). cbn [app].
  destruct (clientLoop_ok e c' (EmbedConfig.LCUrls c') ∅ [] He) as (cs & ctxs & -> & Hctxs).
  { rewrite (ss_LCUrls _ _ Hs). apply (la_client _ _ _ Hl). }
  rewrite Hinit, Hmap, !bind_Ret, Het', bind_Ret, Hlog, bind_Ret, HN, bind_Ret, HS, bind_Ret.
  eexists (Embed.mkEtcd ps ctxs (Some s) c' _), cs, s, us, n. split; [reflexivity|].
  apply HL; [by rewrite Hps, (ss_LPUrls _ _ Hs)|].
  intros u Hu. apply Hctxs. left. rewrite (ss_LCUrls _ _ Hs). by apply list_elem_of_fmap_2.
Qed.

End Launch.

(** ** When listening fails *)

Lemma peerLoop_err e us : ∀ peers open err,
  Embed.peerLoop e us peers = (open, Err err) →
  ∃ pre u post hs, us = pre ++ u :: post ∧ open = peers ++ hs ∧
    Embed.newListener e (url.Host u) (url.Scheme u) = Err err ∧
    Forall2 (λ v h, Embed.newListener e (url.Host v) (url.Scheme v) = Ret h) pre hs.
Proof.
  induction us as [|u us IH]; intros peers open err; cbn [Embed.peerLoop]; [done|].
  destruct (Embed.newListener e (url.Host u) (url.Scheme u)) as [h|err'| |] eqn:E; try done.
  - intros (pre & v & post & hs & -> & -> & Hv & Hpre)%IH.
    exists (u :: pre), v, post, (h :: hs). rewrite <-app_assoc. split_and!; try done. by constructor.
  - intros [= <- <-]. exists [], u, us, []. rewrite app_nil_r. by split_and!.
Qed.
Lemma clientLoop_err e c us : ∀ sctxs opened open err,
  Embed.clientLoop e c us sctxs opened = (open, Err err) → open = [].
Proof.
  induction us as [|u us IH]; intros sctxs opened open err; cbn [Embed.clientLoop]; [done|].
  destruct (Embed.clientURL e c u sctxs) as [[m l]|err'| |]; try done.
  - apply IH.
  - by intros [= <- _].
Qed.

(** Listeners after a failure.  When a peer URL cannot be
    listened on, every listener opened for the URLs before it is still open
    (the deferred function that should close them ranges over the result,
    which is already nil); when the client listeners fail, all
    those that were opened are closed. *)
Theorem listeners_after_failure e c :
  (∀ open err, Embed.configurePeerListeners e c = (open, Err err) → EmbedConfig.CipherSuites c = [] →
     ∃ pre u post, EmbedConfig.LPUrls c = pre ++ u :: post ∧
       Embed.newListener e (url.Host u) (url.Scheme u) = Err err ∧
       Forall2 (λ v h, Embed.newListener e (url.Host v) (url.Scheme v) = Ret h) pre open) ∧
  (∀ c' open err, Embed.configureClientListeners e c = (c', open, Err err) → open = []).
Proof.
  split.
  - intros open err. unfold Embed.configurePeerListeners, EmbedConfig.updateCipherSuites.
    intros H Hc. rewrite Hc, andb_false_r in H.
    apply peerLoop_err in H as (pre & u & post & hs & ? & -> & ? & ?). by exists pre, u, post.
  - intros c' open err. unfold Embed.configureClientListeners.
    destruct (EmbedConfig.updateCipherSuites _ _); [by intros [= _ <- _]|].
    destruct (Embed.ClientSelfCert e c) as [c1 o].
    destruct (Embed.clientLoop e c1 (EmbedConfig.LCUrls c1) ∅ []) as [ls r] eqn:E.
    destruct o; [|destruct (EmbedConfig.logger c1)|..]; try done; intros [= _ <- ->];
      by eapply clientLoop_err.
Qed.

(** ** The name given on the command line *)

Definition localhost (port : string) : url.URL :=
  url.mk (bs "http") [] None (bs "localhost:" ++ bs port) [] [] false [] [].

Lemma localhost_canonical port :
  Forall (λ c, isDigit c = true) (bs port) → canonical (localhost port).
Proof.
  intros Hp. split; [by left| |done]. exists (bs "localhost"), (bs port). split_and!; [done| |done].
  left. by repeat constructor.
Qed.

Lemma NewConfig_spec :
  ∃ c, EmbedConfig.NewConfig = Ret c ∧ EmbedConfig.APUrls c = [localhost "2380"] ∧
    EmbedConfig.LPUrls c = [localhost "2380"] ∧ EmbedConfig.LCUrls c = [localhost "2379"] ∧
    EmbedConfig.InitialCluster c = clusterString [(EmbedConfig.DefaultName, localhost "2380")] ∧
    EmbedConfig.Name c = EmbedConfig.DefaultName ∧ EmbedConfig.Durl c = [] ∧
    EmbedConfig.DNSCluster c = [] ∧ EmbedConfig.InitialClusterToken c = bs "etcd-cluster" ∧
    EmbedConfig.ClusterState c = EmbedConfig.ClusterStateFlagNew ∧
    EmbedConfig.TickMs c = 100 ∧ EmbedConfig.ElectionMs c = 1000.
Proof.
  unfold EmbedConfig.NewConfig.
  assert (Hp : EmbedConfig.parsed EmbedConfig.DefaultListenPeerURLs = Ret (localhost "2380"))
    by (vm_compute; reflexivity).
  assert (Hc : EmbedConfig.parsed EmbedConfig.DefaultListenClientURLs = Ret (localhost "2379"))
    by (vm_compute; reflexivity).
  change EmbedConfig.DefaultInitialAdvertisePeerURLs with EmbedConfig.DefaultListenPeerURLs.
  change EmbedConfig.DefaultAdvertiseClientURLs with EmbedConfig.DefaultListenClientURLs.
  rewrite Hp, Hc, !bind_Ret. cbv zeta. rewrite InitialClusterFromName_spec, bind_Ret by done.
  eexists. split; [reflexivity|]. by split_and!.
Qed.

(** With nothing but a name given, the initial cluster is that name with the
    default peer URL. *)
Lemma named_default_cluster `{!NameOrder} n :
  n ≠ [] → comma ∉ n → equals ∉ n →
  ∃ c0 c, EmbedConfig.NewConfig = Ret c0 ∧
    EmbedConfig.UpdateDefaultClusterFromName [] None (EmbedConfig.InitialCluster c0)
      (c0 <| EmbedConfig.Name := n |>) = Ret (c, [], None) ∧
    EmbedConfig.PeerURLsMapAndToken c = Ret ({[n := [localhost "2380"]]}, bs "etcd-cluster").
Proof.
  intros Hne Hc He.
  assert (Hl : Forall entryOk [(n, localhost "2380")]).
  { apply Forall_singleton. split_and!; [done|done|]. apply localhost_canonical. by repeat constructor. }
  assert (Hm : clusterMap [(n, localhost "2380")] = {[n := [localhost "2380"]]}).
  { unfold clusterMap, urlsNamed. cbn [fmap list_fmap fst foldr].
    by rewrite filter_cons_True, filter_nil by done. }
  destruct NewConfig_spec as (c0 & -> & HA & _ & _ & HI & HN & HD & HDNS & HT & _).
  exists c0. unfold EmbedConfig.UpdateDefaultClusterFromName, EmbedConfig.clusterFromName.
  cbn [bool_decide orb]. rewrite (bool_decide_eq_true_2 (_ = _)) by done. cbn [orb].
  set (c := c0 <| EmbedConfig.Name := n |>).
  assert (F : EmbedConfig.Name c = n ∧ EmbedConfig.InitialCluster c = EmbedConfig.InitialCluster c0 ∧
    EmbedConfig.APUrls c = EmbedConfig.APUrls c0 ∧ EmbedConfig.Durl c = EmbedConfig.Durl c0 ∧
    EmbedConfig.DNSCluster c = EmbedConfig.DNSCluster c0 ∧
    EmbedConfig.InitialClusterToken c = EmbedConfig.InitialClusterToken c0) by done.
  clearbody c. destruct F as (F1 & F2 & F3 & F4 & F5 & F6).
  assert (HP : ∀ c1, EmbedConfig.InitialCluster c1 = clusterString [(n, localhost "2380")] →
    EmbedConfig.Durl c1 = [] → EmbedConfig.DNSCluster c1 = [] →
    EmbedConfig.InitialClusterToken c1 = bs "etcd-cluster" →
    EmbedConfig.PeerURLsMapAndToken c1 = Ret ({[n := [localhost "2380"]]}, bs "etcd-cluster")).
  { intros c1 H1 H2 H3 H4. unfold EmbedConfig.PeerURLsMapAndToken.
    by rewrite H1, H2, H3, H4, NewURLsMap_clusterString, Hm. }
  rewrite F1, F2, (bool_decide_eq_true_2 (EmbedConfig.InitialCluster c0 = _)) by done.
  destruct (bool_decide_reflect (n = EmbedConfig.DefaultName)) as [->|Hd]; cbn [negb andb].
  - exists c. split_and!; [done|done|]. apply HP; congruence.
  - rewrite InitialClusterFromName_spec, F3, HA by done. eexists. split_and!; [done..|].
    apply HP; [done|simpl; congruence..].
Qed.

(** ** Instances at concrete inputs *)

#[local] Instance sample_name_order : NameOrder := elements_name_order.
#[local] Instance sample_range_order : MapOrder := elements_order.

Definition two_members : list (list Z * url.URL) :=
  [(bs "a", localhost "2380"); (bs "b", localhost "2480"); (bs "a", localhost "2580")].

Lemma two_members_ok : Forall entryOk two_members.
Proof.
  unfold two_members, entryOk. repeat (apply Forall_cons_2; [split_and!|]).
  all: first [by apply (bool_decide_unpack _)|apply localhost_canonical; by repeat constructor|constructor].
Qed.

Lemma initialCluster_roundtrip_witness :
  ∃ m, URLsMap.NewURLsMap (bs "a=http://localhost:2380,b=http://localhost:2480,a=http://localhost:2580")
         = Ret m ∧ dom m = {[bs "a"; bs "b"]}.
Proof.
  destruct (initialCluster_roundtrip two_members two_members_ok) as [_ (m & Hm & Hd & _)].
  exists m. split; [|rewrite Hd; vm_compute; reflexivity].
  rewrite <-Hm. apply f_equal. vm_compute. reflexivity.
Defined.

Definition sample_embed_env : Embed.env :=
  {| Embed.env_listen := λ _ _, Ret 7; Embed.env_remove := λ _, None; Embed.env_FDLimit := Ret 1024;
     Embed.env_cert := TLSInfo.Build_certEnv None None None None None None None;
     Embed.env_files := ∅; Embed.env_build := λ _ _, Ret tt;
     Embed.env_readdir := λ _, Err (Errorf "no such file or directory");
     Embed.env_tls := λ _, 0; Embed.env_srv := sample_env |}.

Lemma sample_network_ok : network_ok sample_embed_env.
Proof. split; try done. by exists 7. Qed.

(** The default configuration. *)
Definition sample_config : EmbedConfig.t :=
  match EmbedConfig.NewConfig with
  | Ret c => c
  | _ => EmbedConfig.mk [] [] [] 0 0 0 0 0 0 false 0 0 0 0 0 0 [] [] [] [] TLSInfo.zero false TLSInfo.zero
      [] [] [] [] [] [] [] [] false false [] [] 0 0 0 false ∅ ∅ ∅ 0 [] 0 false 0 [] [] false false false
      [] [] [] [] [] [] false None false None false false false []
  end.
Definition sample_members : list (list Z * url.URL) := [(bs "default", localhost "2380")].

Lemma sample_entries : clusterEntries sample_members = default_urls.
Proof. vm_compute. reflexivity. Qed.

Lemma sample_launch_ok : launch_ok sample_embed_env sample_config sample_members.
Proof.
  split.
  1-11: rewrite ?sample_entries.
  - split; [|left]; vm_compute; reflexivity.
  - split; vm_compute; reflexivity.
  - replace (EmbedConfig.LCUrls sample_config) with [localhost "2379"] by (vm_compute; reflexivity).
    apply Forall_singleton. split; by apply (bool_decide_unpack _).
  - split; vm_compute; reflexivity.
  - vm_compute. reflexivity.
  - apply Forall_singleton. split_and!.
    1-2: by apply (bool_decide_unpack _).
    apply localhost_canonical. by repeat constructor.
  - apply (bool_decide_unpack _). vm_compute. exact I.
  - vm_compute. reflexivity.
  - replace (EmbedConfig.TickMs sample_config) with 100 by (vm_compute; reflexivity).
    replace (EmbedConfig.ElectionMs sample_config) with 1000 by (vm_compute; reflexivity). lia.
  - replace (EmbedConfig.InitialClusterToken sample_config) with (bs "etcd-cluster") by (vm_compute; reflexivity).
    apply (co_valid sample_cfg sample_cfg_ok).
  - replace (EmbedConfig.InitialClusterToken sample_config) with (bs "etcd-cluster") by (vm_compute; reflexivity).
    intros x. apply (co_json sample_cfg sample_cfg_ok).
  - rewrite sample_entries. apply (co_len sample_cfg sample_cfg_ok).
  - split; vm_compute; reflexivity.
Qed.


(** Two peer URLs, of which the second is in use. *)
Definition busy_env : Embed.env :=
  sample_embed_env <| Embed.env_listen := λ _ a,
    if decide (a = bs "localhost:2380") then Ret 7 else Err (Errorf "address already in use") |>.
Definition busy_config : EmbedConfig.t :=
  sample_config <| EmbedConfig.LPUrls := [localhost "2380"; localhost "2480"] |>.

Lemma listeners_after_failure_witness :
  Embed.configurePeerListeners busy_env busy_config = ([7], Err (Errorf "address already in use")) ∧
  ∃ pre u post, EmbedConfig.LPUrls busy_config = pre ++ u :: post ∧ length pre = 1%nat.
Proof.
  assert (E : Embed.configurePeerListeners busy_env busy_config =
    ([7], Err (Errorf "address already in use"))) by (vm_compute; reflexivity).
  split; [exact E|].
  destruct (proj1 (listeners_after_failure busy_env busy_config) _ _ E eq_refl)
    as (pre & u & post & H & _ & HF).
  exists pre, u, post. split; [exact H|exact (Forall2_length _ _ _ HF)].
Defined.
