(* ===== verification/EtcdMain.v ===== *)
(** * etcdmain: the command line and the start of the process

    The flags of the program with the settings they are bound to, how the
    command line and the environment set them, and what the process does with
    them.  [os.Exit] and [Fatal] end the process: the panic of their name. *)

From S2P Require Import Prelude GoStd Fileutil Wal Urls Flags Quorum Tracker Storage RaftLog Raft Node Membership Requests.
From S2P Require Import Server Embed.

Definition Exit {A} (code : string) : outcome A := Panic (PanicString code).

(** ** strconv with base 0, and the values of the flag package *)

Definition lower (c : Z) : Z := Z.lor c 32.
Definition digitValue (c : Z) : option Z :=
  if isDigit c then Some (c - 48)
  else if isLower (lower c) then Some (lower c - 97 + 10) else None.

(** The digits after the base prefix: [None] is a syntax error, [Some None] out of range. *)
Fixpoint digitsLoop (base : Z) (s : list Z) (n : Z) : option (option Z) :=
  match s with
  | [] => Some (Some n)
  | c :: s =>
      if c =? 95 then digitsLoop base s n
      else match digitValue c with
           | None => None
           | Some d =>
               if base <=? d then None
               else if 2 ^ 64 <=? n * base + d then Some None
               else digitsLoop base s (n * base + d)
           end
  end.

(** [underscoreOK]: underscores only between digits or after a base prefix;
    [saw] is the class of the last byte: digit (0), underscore (1), other (2). *)
Fixpoint underscoreLoop (hex : bool) (s : list Z) (saw : Z) : bool :=
  match s with
  | [] => negb (saw =? 1)
  | c :: s =>
      if isDigit c || (hex && (97 <=? lower c) && (lower c <=? 102)) then underscoreLoop hex s 0
      else if c =? 95 then if saw =? 0 then underscoreLoop hex s 1 else false
      else if saw =? 1 then false
      else underscoreLoop hex s 2
  end.
Definition basePrefix (s : list Z) : option Z :=
  match s with
  | a :: b :: _ => if a =? 48 then (if lower b =? 98 then Some 2 else if lower b =? 111 then Some 8
                                    else if lower b =? 120 then Some 16 else None) else None
  | _ => None
  end.
Definition underscoreOK (s : list Z) : bool :=
  let s := match s with c :: s' => if bool_decide (c ∈ bs "+-") then s' else s | [] => s end in
  match basePrefix s with
  | Some b => underscoreLoop (b =? 16) (drop 2 s) 0
  | None => underscoreLoop false s 2
  end.

(** [strconv.ParseUint(s, 0, 64)] *)
Definition ParseUint0 (s : list Z) : Z * option error :=
  let '(base, rest) :=
    match s with
    | a :: r => if a =? 48 then match basePrefix s with
                                | Some b => if (3 <=? len s) then (b, drop 2 s) else (8, r)
                                | None => (8, r)
                                end
                else (10, s)
    | [] => (10, [])
    end in
  match s, digitsLoop base rest 0 with
  | [], _ | _, None => (0, Some (Errorf "parse error"))
  | _, Some None => (2 ^ 64 - 1, Some (Errorf "value out of range"))
  | _, Some (Some n) => if containsByte 95 rest && negb (underscoreOK s) then (0, Some (Errorf "parse error"))
                        else (n, None)
  end.

(** [strconv.ParseInt(s, 0, 64)] *)
Definition ParseInt0 (s : list Z) : Z * option error :=
  let '(neg, r) := match s with
                   | c :: r => if c =? 43 then (false, r) else if c =? 45 then (true, r) else (false, s)
                   | [] => (false, []) end in
  match ParseUint0 r with
  | (_, Some (Errorf "parse error")) => (0, Some (Errorf "parse error"))
  | (un, _) =>
      if negb neg && (2 ^ 63 <=? un) then (2 ^ 63 - 1, Some (Errorf "value out of range"))
      else if neg && (2 ^ 63 <? un) then (- 2 ^ 63, Some (Errorf "value out of range"))
      else (if neg then - un else un, None)
  end.

(** [strconv.ParseBool] *)
Definition ParseBool (s : list Z) : bool * option error :=
  if decide (s ∈ [bs "1"; bs "t"; bs "T"; bs "true"; bs "TRUE"; bs "True"]) then (true, None)
  else if decide (s ∈ [bs "0"; bs "f"; bs "F"; bs "false"; bs "FALSE"; bs "False"]) then (false, None)
  else (false, Some (Errorf "parse error")).

(** The kinds of values the program's flags have. *)
Inductive flagVal :=
  | VBool (b : bool) | VString (s : list Z) | VUint (n : Z) | VInt (n : Z) | VDuration (n : Z)
  | VSelective (v : SelectiveStringValue.t) | VStrings (v : StringsValue.t)
  | VUniqueStrings (v : UniqueStringsValue.t) | VUniqueURLs (v : UniqueURLs.t).

(** [time.ParseDuration], which computes with floating point, is an argument. *)
Class Durations := { ParseDuration : list Z → Z * option error }.

Definition setVal `{!Durations} (s : list Z) (v : flagVal) : flagVal * option error :=
  match v with
  | VBool _ => let '(b, e) := ParseBool s in (VBool b, e)
  | VString _ => (VString s, None)
  | VUint _ => let '(n, e) := ParseUint0 s in (VUint n, e)
  | VInt _ => let '(n, e) := ParseInt0 s in (VInt n, e)
  | VDuration _ => let '(n, e) := ParseDuration s in (VDuration n, e)
  | VSelective v => let '(v, e) := Set_ s v in (VSelective v, e)
  | VStrings v => let '(v, e) := Set_ s v in (VStrings v, e)
  | VUniqueStrings v => let '(v, e) := UniqueStringsValue.Set' s v in (VUniqueStrings v, e)
  | VUniqueURLs v => let '(v, e) := Set_ s v in (VUniqueURLs v, e)
  end.
#[global] Instance flagVal_value `{!Durations} : FlagValue flagVal :=
  {| Set_ := setVal; IsBoolFlag := λ v, match v with VBool _ => true | _ => false end |}.

(** ** config.go *)
Module EtcdConfig.

Definition proxyFlagOff : list Z := bs "off".
Definition proxyFlagReadonly : list Z := bs "readonly".
Definition proxyFlagOn : list Z := bs "on".
Definition fallbackFlagExit : list Z := bs "exit".
Definition fallbackFlagProxy : list Z := bs "proxy".

(** The embedded configuration, less the settings that flags are bound to,
    which are read from the flag set; and the flag set. *)
Record t := mk { base : EmbedConfig.t; flagSet : FlagSet.t flagVal }.

Definition urls (s : list Z) (exceptions : list (list Z)) : outcome flagVal :=
  v ← UniqueURLs.NewUniqueURLsWithExceptions s exceptions; Ret (VUniqueURLs v).
Definition selective (valids : list (list Z)) : outcome flagVal :=
  v ← SelectiveStringValue.NewSelectiveStringValue valids; Ret (VSelective v).

(** The flags, with their default values. *)
Definition newConfig : outcome t :=
  ec ← EmbedConfig.NewConfig;
  clusterState ← selective [EmbedConfig.ClusterStateFlagNew; EmbedConfig.ClusterStateFlagExisting];
  fallback ← selective [fallbackFlagProxy; fallbackFlagExit];
  proxy ← selective [proxyFlagOff; proxyFlagReadonly; proxyFlagOn];
  lp ← urls EmbedConfig.DefaultListenPeerURLs [[]];
  lc ← urls EmbedConfig.DefaultListenClientURLs [[]];
  metrics ← urls [] [[]];
  ap ← urls EmbedConfig.DefaultInitialAdvertisePeerURLs [[]];
  ac ← urls EmbedConfig.DefaultAdvertiseClientURLs [[]];
  cors ← urls (bs "*") [bs "*"];
  Ret (mk ec (FlagSet.mk (list_to_map [
    (bs "version", VBool false);
    (bs "name", VString (EmbedConfig.Name ec));
    (bs "config-file", VString []);
    (bs "data-dir", VString (EmbedConfig.Dir ec));
    (bs "wal-dir", VString (EmbedConfig.WalDir ec));
    (bs "listen-peer-urls", lp);
    (bs "listen-client-urls", lc);
    (bs "listen-metrics-urls", metrics);
    (bs "max-snapshots", VUint (EmbedConfig.MaxSnapFiles ec));
    (bs "max-wals", VUint (EmbedConfig.MaxWalFiles ec));
    (bs "snapshot-count", VUint (EmbedConfig.SnapshotCount ec));
    (bs "heartbeat-interval", VUint (EmbedConfig.TickMs ec));
    (bs "election-timeout", VUint (EmbedConfig.ElectionMs ec));
    (bs "initial-election-tick-advance", VBool (EmbedConfig.InitialElectionTickAdvance ec));
    (bs "quota-backend-bytes", VInt (EmbedConfig.QuotaBackendBytes ec));
    (bs "backend-batch-interval", VDuration (EmbedConfig.BackendBatchInterval ec));
    (bs "backend-batch-limit", VInt (EmbedConfig.BackendBatchLimit ec));
    (bs "max-txn-ops", VUint (EmbedConfig.MaxTxnOps ec));
    (bs "max-request-bytes", VUint (EmbedConfig.MaxRequestBytes ec));
    (bs "grpc-keepalive-min-time", VDuration (EmbedConfig.GRPCKeepAliveMinTime ec));
    (bs "grpc-keepalive-interval", VDuration (EmbedConfig.GRPCKeepAliveInterval ec));
    (bs "grpc-keepalive-timeout", VDuration (EmbedConfig.GRPCKeepAliveTimeout ec));
    (bs "initial-advertise-peer-urls", ap);
    (bs "advertise-client-urls", ac);
    (bs "discovery", VString (EmbedConfig.Durl ec));
    (bs "discovery-fallback", fallback);
    (bs "discovery-proxy", VString (EmbedConfig.Dproxy ec));
    (bs "discovery-srv", VString (EmbedConfig.DNSCluster ec));
    (bs "discovery-srv-name", VString (EmbedConfig.DNSClusterServiceName ec));
    (bs "initial-cluster", VString (EmbedConfig.InitialCluster ec));
    (bs "initial-cluster-token", VString (EmbedConfig.InitialClusterToken ec));
    (bs "initial-cluster-state", clusterState);
    (bs "strict-reconfig-check", VBool (EmbedConfig.StrictReconfigCheck ec));
    (bs "enable-v2", VBool (EmbedConfig.EnableV2 ec));
    (bs "pre-vote", VBool (EmbedConfig.PreVote ec));
    (bs "proxy", proxy);
    (bs "proxy-failure-wait", VUint 5000);
    (bs "proxy-refresh-interval", VUint 30000);
    (bs "proxy-dial-timeout", VUint 1000);
    (bs "proxy-write-timeout", VUint 5000);
    (bs "proxy-read-timeout", VUint 0);
    (bs "cipher-suites", VStrings (StringsValue.NewStringsValue []));
    (bs "cors", cors);
    (bs "host-whitelist", VUniqueStrings (UniqueStringsValue.NewUniqueStringsValue (bs "*")));
    (bs "logger", VString (bs "zap"));
    (bs "log-output", VUniqueStrings (UniqueStringsValue.NewUniqueStringsValue EmbedConfig.DefaultLogOutput));
    (bs "log-outputs", VUniqueStrings (UniqueStringsValue.NewUniqueStringsValue EmbedConfig.DefaultLogOutput));
    (bs "debug", VBool false);
    (bs "log-package-levels", VString []);
    (bs "auto-compaction-retention", VString (bs "0"));
    (bs "auto-compaction-mode", VString (bs "periodic"));
    (bs "enable-pprof", VBool false);
    (bs "metrics", VString (EmbedConfig.Metrics ec));
    (bs "auth-token", VString (EmbedConfig.AuthToken ec));
    (bs "bcrypt-cost", VUint (EmbedConfig.BcryptCost ec));
    (bs "enable-grpc-gateway", VBool true);
    (bs "experimental-initial-corrupt-check", VBool (EmbedConfig.ExperimentalInitialCorruptCheck ec));
    (bs "experimental-corrupt-check-time", VDuration (EmbedConfig.ExperimentalCorruptCheckTime ec));
    (bs "experimental-enable-v2v3", VString (EmbedConfig.ExperimentalEnableV2V3 ec));
    (bs "experimental-backend-bbolt-freelist-type", VString (EmbedConfig.ExperimentalBackendFreelistType ec));
    (bs "experimental-enable-lease-checkpoint", VBool false);
    (bs "force-new-cluster", VBool false)
  ]) ∅)).

(** What a flag holds. *)
Definition getBool (fs : FlagSet.t flagVal) (n : string) : bool :=
  match FlagSet.formal fs !! bs n with Some (VBool b) => b | _ => false end.
Definition getString (fs : FlagSet.t flagVal) (n : string) : list Z :=
  match FlagSet.formal fs !! bs n with Some (VString s) => s | _ => [] end.
Definition getNum (fs : FlagSet.t flagVal) (n : string) : Z :=
  match FlagSet.formal fs !! bs n with Some (VUint z | VInt z | VDuration z) => z | _ => 0 end.
Definition getURLs (fs : FlagSet.t flagVal) (n : string) : UniqueURLs.t :=
  match FlagSet.formal fs !! bs n with Some (VUniqueURLs v) => v | _ => UniqueURLs.mk ∅ [] ∅ end.
Definition getStrings (fs : FlagSet.t flagVal) (n : string) : gset (list Z) :=
  match FlagSet.formal fs !! bs n with Some (VUniqueStrings v) => v | _ => ∅ end.
Definition getList (fs : FlagSet.t flagVal) (n : string) : list (list Z) :=
  match FlagSet.formal fs !! bs n with Some (VStrings v) => v | _ => [] end.
Definition getSelective (fs : FlagSet.t flagVal) (n : string) : list Z :=
  match FlagSet.formal fs !! bs n with Some (VSelective v) => SelectiveStringValue.v v | _ => [] end.

(** The configuration that the flags are bound to, as it is at any moment. *)
Definition ec (cfg : t) : EmbedConfig.t :=
  let fs := flagSet cfg in
  let b := base cfg in
  {| EmbedConfig.Name := getString fs "name";
     EmbedConfig.Dir := getString fs "data-dir";
     EmbedConfig.WalDir := getString fs "wal-dir";
     EmbedConfig.SnapshotCount := getNum fs "snapshot-count";
     EmbedConfig.SnapshotCatchUpEntries := EmbedConfig.SnapshotCatchUpEntries b;
     EmbedConfig.MaxSnapFiles := getNum fs "max-snapshots";
     EmbedConfig.MaxWalFiles := getNum fs "max-wals";
     EmbedConfig.TickMs := getNum fs "heartbeat-interval";
     EmbedConfig.ElectionMs := getNum fs "election-timeout";
     EmbedConfig.InitialElectionTickAdvance := getBool fs "initial-election-tick-advance";
     EmbedConfig.BackendBatchInterval := getNum fs "backend-batch-interval";
     EmbedConfig.BackendBatchLimit := getNum fs "backend-batch-limit";
     EmbedConfig.Test := EmbedConfig.Test b;
     EmbedConfig.QuotaBackendBytes := getNum fs "quota-backend-bytes";
     EmbedConfig.MaxTxnOps := getNum fs "max-txn-ops";
     EmbedConfig.MaxRequestBytes := getNum fs "max-request-bytes";
     EmbedConfig.LPUrls := EmbedConfig.LPUrls b;
     EmbedConfig.LCUrls := EmbedConfig.LCUrls b;
     EmbedConfig.APUrls := EmbedConfig.APUrls b;
     EmbedConfig.ACUrls := EmbedConfig.ACUrls b;
     EmbedConfig.ClientTLSInfo := EmbedConfig.ClientTLSInfo b;
     EmbedConfig.ClientAutoTLS := EmbedConfig.ClientAutoTLS b;
     EmbedConfig.PeerTLSInfo := EmbedConfig.PeerTLSInfo b;
     EmbedConfig.CipherSuites := EmbedConfig.CipherSuites b;
     EmbedConfig.ClusterState := EmbedConfig.ClusterState b;
     EmbedConfig.DNSCluster := getString fs "discovery-srv";
     EmbedConfig.DNSClusterServiceName := getString fs "discovery-srv-name";
     EmbedConfig.Dproxy := getString fs "discovery-proxy";
     EmbedConfig.Durl := getString fs "discovery";
     EmbedConfig.InitialCluster := getString fs "initial-cluster";
     EmbedConfig.InitialClusterToken := getString fs "initial-cluster-token";
     EmbedConfig.StrictReconfigCheck := getBool fs "strict-reconfig-check";
     EmbedConfig.EnableV2 := getBool fs "enable-v2";
     EmbedConfig.AutoCompactionMode := getString fs "auto-compaction-mode";
     EmbedConfig.AutoCompactionRetention := getString fs "auto-compaction-retention";
     EmbedConfig.GRPCKeepAliveMinTime := getNum fs "grpc-keepalive-min-time";
     EmbedConfig.GRPCKeepAliveInterval := getNum fs "grpc-keepalive-interval";
     EmbedConfig.GRPCKeepAliveTimeout := getNum fs "grpc-keepalive-timeout";
     EmbedConfig.PreVote := getBool fs "pre-vote";
     EmbedConfig.CORS := EmbedConfig.CORS b;
     EmbedConfig.HostWhitelist := EmbedConfig.HostWhitelist b;
     EmbedConfig.UserHandlers := EmbedConfig.UserHandlers b;
     EmbedConfig.ServiceRegister := EmbedConfig.ServiceRegister b;
     EmbedConfig.AuthToken := getString fs "auth-token";
     EmbedConfig.BcryptCost := getNum fs "bcrypt-cost";
     EmbedConfig.ExperimentalInitialCorruptCheck := getBool fs "experimental-initial-corrupt-check";
     EmbedConfig.ExperimentalCorruptCheckTime := getNum fs "experimental-corrupt-check-time";
     EmbedConfig.ExperimentalEnableV2V3 := getString fs "experimental-enable-v2v3";
     EmbedConfig.ExperimentalBackendFreelistType := getString fs "experimental-backend-bbolt-freelist-type";
     EmbedConfig.ExperimentalEnableLeaseCheckpoint := getBool fs "experimental-enable-lease-checkpoint";
     EmbedConfig.ForceNewCluster := getBool fs "force-new-cluster";
     EmbedConfig.EnablePprof := getBool fs "enable-pprof";
     EmbedConfig.Metrics := getString fs "metrics";
     EmbedConfig.ListenMetricsUrls := EmbedConfig.ListenMetricsUrls b;
     EmbedConfig.ListenMetricsUrlsJSON := EmbedConfig.ListenMetricsUrlsJSON b;
     EmbedConfig.Logger := getString fs "logger";
     EmbedConfig.DeprecatedLogOutput := EmbedConfig.DeprecatedLogOutput b;
     EmbedConfig.LogOutputs := EmbedConfig.LogOutputs b;
     EmbedConfig.Debug_ := getBool fs "debug";
     EmbedConfig.ZapLoggerBuilder := EmbedConfig.ZapLoggerBuilder b;
     EmbedConfig.logger := EmbedConfig.logger b;
     EmbedConfig.loggerConfig := EmbedConfig.loggerConfig b;
     EmbedConfig.loggerCore := EmbedConfig.loggerCore b;
     EmbedConfig.loggerWriteSyncer := EmbedConfig.loggerWriteSyncer b;
     EmbedConfig.EnableGRPCGateway := getBool fs "enable-grpc-gateway";
     EmbedConfig.LogPkgLevels := getString fs "log-package-levels" |}.

(** The fields that [configFromCmdLine] copies from flags. *)
Definition withURLs (fs : FlagSet.t flagVal) (b : EmbedConfig.t) : EmbedConfig.t :=
  {| EmbedConfig.Name := EmbedConfig.Name b;
     EmbedConfig.Dir := EmbedConfig.Dir b;
     EmbedConfig.WalDir := EmbedConfig.WalDir b;
     EmbedConfig.SnapshotCount := EmbedConfig.SnapshotCount b;
     EmbedConfig.SnapshotCatchUpEntries := EmbedConfig.SnapshotCatchUpEntries b;
     EmbedConfig.MaxSnapFiles := EmbedConfig.MaxSnapFiles b;
     EmbedConfig.MaxWalFiles := EmbedConfig.MaxWalFiles b;
     EmbedConfig.TickMs := EmbedConfig.TickMs b;
     EmbedConfig.ElectionMs := EmbedConfig.ElectionMs b;
     EmbedConfig.InitialElectionTickAdvance := EmbedConfig.InitialElectionTickAdvance b;
     EmbedConfig.BackendBatchInterval := EmbedConfig.BackendBatchInterval b;
     EmbedConfig.BackendBatchLimit := EmbedConfig.BackendBatchLimit b;
     EmbedConfig.Test := EmbedConfig.Test b;
     EmbedConfig.QuotaBackendBytes := EmbedConfig.QuotaBackendBytes b;
     EmbedConfig.MaxTxnOps := EmbedConfig.MaxTxnOps b;
     EmbedConfig.MaxRequestBytes := EmbedConfig.MaxRequestBytes b;
     EmbedConfig.LPUrls := UniqueURLs.uss (getURLs fs "listen-peer-urls");
     EmbedConfig.LCUrls := UniqueURLs.uss (getURLs fs "listen-client-urls");
     EmbedConfig.APUrls := UniqueURLs.uss (getURLs fs "initial-advertise-peer-urls");
     EmbedConfig.ACUrls := UniqueURLs.uss (getURLs fs "advertise-client-urls");
     EmbedConfig.ClientTLSInfo := EmbedConfig.ClientTLSInfo b;
     EmbedConfig.ClientAutoTLS := EmbedConfig.ClientAutoTLS b;
     EmbedConfig.PeerTLSInfo := EmbedConfig.PeerTLSInfo b;
     EmbedConfig.CipherSuites := getList fs "cipher-suites";
     EmbedConfig.ClusterState := EmbedConfig.ClusterState b;
     EmbedConfig.DNSCluster := EmbedConfig.DNSCluster b;
     EmbedConfig.DNSClusterServiceName := EmbedConfig.DNSClusterServiceName b;
     EmbedConfig.Dproxy := EmbedConfig.Dproxy b;
     EmbedConfig.Durl := EmbedConfig.Durl b;
     EmbedConfig.InitialCluster := EmbedConfig.InitialCluster b;
     EmbedConfig.InitialClusterToken := EmbedConfig.InitialClusterToken b;
     EmbedConfig.StrictReconfigCheck := EmbedConfig.StrictReconfigCheck b;
     EmbedConfig.EnableV2 := EmbedConfig.EnableV2 b;
     EmbedConfig.AutoCompactionMode := EmbedConfig.AutoCompactionMode b;
     EmbedConfig.AutoCompactionRetention := EmbedConfig.AutoCompactionRetention b;
     EmbedConfig.GRPCKeepAliveMinTime := EmbedConfig.GRPCKeepAliveMinTime b;
     EmbedConfig.GRPCKeepAliveInterval := EmbedConfig.GRPCKeepAliveInterval b;
     EmbedConfig.GRPCKeepAliveTimeout := EmbedConfig.GRPCKeepAliveTimeout b;
     EmbedConfig.PreVote := EmbedConfig.PreVote b;
     EmbedConfig.CORS := UniqueURLs.Values (getURLs fs "cors");
     EmbedConfig.HostWhitelist := getStrings fs "host-whitelist";
     EmbedConfig.UserHandlers := EmbedConfig.UserHandlers b;
     EmbedConfig.ServiceRegister := EmbedConfig.ServiceRegister b;
     EmbedConfig.AuthToken := EmbedConfig.AuthToken b;
     EmbedConfig.BcryptCost := EmbedConfig.BcryptCost b;
     EmbedConfig.ExperimentalInitialCorruptCheck := EmbedConfig.ExperimentalInitialCorruptCheck b;
     EmbedConfig.ExperimentalCorruptCheckTime := EmbedConfig.ExperimentalCorruptCheckTime b;
     EmbedConfig.ExperimentalEnableV2V3 := EmbedConfig.ExperimentalEnableV2V3 b;
     EmbedConfig.ExperimentalBackendFreelistType := EmbedConfig.ExperimentalBackendFreelistType b;
     EmbedConfig.ExperimentalEnableLeaseCheckpoint := EmbedConfig.ExperimentalEnableLeaseCheckpoint b;
     EmbedConfig.ForceNewCluster := EmbedConfig.ForceNewCluster b;
     EmbedConfig.EnablePprof := EmbedConfig.EnablePprof b;
     EmbedConfig.Metrics := EmbedConfig.Metrics b;
     EmbedConfig.ListenMetricsUrls := UniqueURLs.uss (getURLs fs "listen-metrics-urls");
     EmbedConfig.ListenMetricsUrlsJSON := EmbedConfig.ListenMetricsUrlsJSON b;
     EmbedConfig.Logger := EmbedConfig.Logger b;
     EmbedConfig.DeprecatedLogOutput := EmbedConfig.DeprecatedLogOutput b;
     EmbedConfig.LogOutputs := EmbedConfig.LogOutputs b;
     EmbedConfig.Debug_ := EmbedConfig.Debug_ b;
     EmbedConfig.ZapLoggerBuilder := EmbedConfig.ZapLoggerBuilder b;
     EmbedConfig.logger := EmbedConfig.logger b;
     EmbedConfig.loggerConfig := EmbedConfig.loggerConfig b;
     EmbedConfig.loggerCore := EmbedConfig.loggerCore b;
     EmbedConfig.loggerWriteSyncer := EmbedConfig.loggerWriteSyncer b;
     EmbedConfig.EnableGRPCGateway := EmbedConfig.EnableGRPCGateway b;
     EmbedConfig.LogPkgLevels := EmbedConfig.LogPkgLevels b |}.

Definition isProxy (cfg : t) : bool := negb (bool_decide (getSelective (flagSet cfg) "proxy" = proxyFlagOff)).
Definition isReadonlyProxy (cfg : t) : bool :=
  bool_decide (getSelective (flagSet cfg) "proxy" = proxyFlagReadonly).
Definition shouldFallbackToProxy (cfg : t) : bool :=
  bool_decide (getSelective (flagSet cfg) "discovery-fallback" = fallbackFlagProxy).

Section Parse.
Context `{!Durations} (environ : list (list Z)) (build : list (list Z) → list (list Z) → outcome unit).

(** The fields that are copied from flags, then [validate]: the
    configuration it leaves, and the error. *)
Definition configFromCmdLine (cfg : t) : outcome (t * EmbedConfig.t * option error) :=
  '(fs, err) ← SetFlagsFromEnv environ (bs "ETCD") (flagSet cfg);
  let cfg := mk (base cfg) fs in
  match err with
  | Some e => Ret (cfg, ec cfg, Some e)
  | None =>
      let c := withURLs fs (ec cfg) in
      match EmbedConfig.Validate build c with
      | (c, Ret _) => Ret (cfg, c, None)
      | (c, Err e) => Ret (cfg, c, Some e)
      | (_, Panic p) => Panic p
      | (_, OutOfFuel) => OutOfFuel
      end
  end.

(** [parse(arguments)]; a configuration file is not read. *)
Definition parse (arguments : list (list Z)) (cfg : t) : outcome (t * EmbedConfig.t * option error) :=
  let '(fs, args, perr) := FlagSet.Parse arguments (flagSet cfg) in
  let cfg := mk (base cfg) fs in
  match perr with
  | Err e => if decide (e = Errorf "ErrHelp") then Exit "os.Exit(0)" else Exit "os.Exit(2)"
  | Panic p => Panic p
  | OutOfFuel => OutOfFuel
  | Ret _ =>
      match args with
      | _ :: _ => Ret (cfg, ec cfg, Some (Errorf "is not a valid flag"))
      | [] =>
          if getBool fs "version" then Exit "os.Exit(0)"
          else
            let configFile := match getString fs "config-file" with
                              | [] => Getenv environ (FlagToEnv (bs "ETCD") (bs "config-file"))
                              | f => f end in
            match configFile with
            | [] => configFromCmdLine cfg
            | _ => Ret (cfg, ec cfg, None)
            end
      end
  end.
End Parse.
End EtcdConfig.

(** ** etcd.go *)

Inductive dirType := dirMember | dirProxy | dirEmpty.
#[global] Instance dirType_eq_dec : EqDecision dirType.
Proof. solve_decision. Defined.

(** [isNotExist] is [os.IsNotExist] on the error of the directory. *)
Definition identifyDataDirOrDie (readdir : list Z → outcome (list (list Z))) (isNotExist : error → bool)
    (dir : list Z) : outcome dirType :=
  match ReadDir readdir dir [] with
  | Err e => if isNotExist e then Ret dirEmpty else Fatal
  | Panic p => Panic p
  | OutOfFuel => OutOfFuel
  | Ret names =>
      let m := bool_decide (bs "member" ∈ names) in
      let p := bool_decide (bs "proxy" ∈ names) in
      if m && p then Fatal
      else Ret (if m then dirMember else if p then dirProxy else dirEmpty)
  end.

(** Whether the process goes on; [env] is the variable
    [ETCD_UNSUPPORTED_ARCH], if it is set. *)
Definition checkSupportArch (GOARCH : list Z) (env : option (list Z)) : outcome unit :=
  if bool_decide (GOARCH = bs "amd64" ∨ GOARCH = bs "ppc64le") then Ret tt
  else if decide (env = Some GOARCH) then Ret tt
  else Exit "os.Exit(1)".

Section Main.
Context `{!Durations, !NameOrder, !MapOrder}.

(** What the world answers to the process. *)
Record world := World {
  w_args : list (list Z); w_environ : list (list Z);
  w_defaultHost : list Z * option error;       (** [netutil.GetDefaultHost] *)
  w_isNotExist : error → bool;
  w_embed : Embed.env;
  w_publishFirst : bool; w_fuel : nat; w_unmarshal : list Z → membership.Attributes * bool
}.

(** [startEtcd]: it waits until the server is ready or stopped; [None]: it
    waits for ever. *)
Definition startEtcd (w : world) (c : EmbedConfig.t) : outcome (option Embed.Etcd) :=
  e ← (Embed.StartEtcd (w_publishFirst w) (w_fuel w) (w_unmarshal w) (w_embed w) c).2;
  match Embed.Server e with
  | None => Panic NilDereference
  | Some s =>
      if bool_decide (EtcdServer.readych s = sig_closed ∨ EtcdServer.done s = sig_closed)
      then Ret (Some e) else Ret None
  end.

(** The state of the process at the final [select]: the member it runs, the
    error of starting it, and whether it listens to its channels of errors and
    of the end ([errc], [stopped]), which are nil otherwise. *)
Record process := Process { p_etcd : option Embed.Etcd; p_err : option error; p_listens : bool }.

(** [startEtcdOrProxyV2]: [None] when it waits before the final [select]. *)
Definition startEtcdOrProxyV2 (w : world) : outcome (option process) :=
  cfg ← EtcdConfig.newConfig;
  let defaultInitialCluster := EmbedConfig.InitialCluster (EtcdConfig.ec cfg) in
  '(cfg, c, err) ← EtcdConfig.parse (w_environ w) (Embed.env_build (w_embed w)) (w_args w) cfg;
  match err with
  | Some _ => Exit "os.Exit(1)"
  | None =>
      '(c, _, _) ← EmbedConfig.UpdateDefaultClusterFromName (w_defaultHost w).1 (w_defaultHost w).2
                     defaultInitialCluster c;
      let c := match EmbedConfig.Dir c with
               | [] => c <| EmbedConfig.Dir := EmbedConfig.Name c ++ bs ".etcd" |>
               | _ => c end in
      which ← identifyDataDirOrDie (Embed.env_readdir (w_embed w)) (w_isNotExist w) (EmbedConfig.Dir c);
      match which with
      | dirMember =>
          match startEtcd w c with
          | Ret (Some e) => Ret (Some (Process (Some e) None true))
          | Ret None => Ret None
          | Err e => Ret (Some (Process None (Some e) false))
          | Panic p => Panic p
          | OutOfFuel => OutOfFuel
          end
      | dirProxy => Ret (Some (Process None None false))
      | dirEmpty =>
          if EtcdConfig.isProxy cfg then Ret (Some (Process None None false))
          else                                  (* the channels of startEtcd are dropped *)
            match startEtcd w c with
            | Ret (Some e) => Ret (Some (Process (Some e) None false))
            | Ret None => Ret None
            | Err e => Ret (Some (Process None (Some e) false))
            | Panic p => Panic p
            | OutOfFuel => OutOfFuel
            end
      end
  end.

(** [Main]: the first argument is printed.  [notifySystemd], at the end of
    [startEtcdOrProxyV2], has no effect on the process. *)
Definition Main (GOARCH : list Z) (env : option (list Z)) (w : world) : outcome (option process) :=
  _ ← checkSupportArch GOARCH env; startEtcdOrProxyV2 w.
End Main.

(** ** The command line [etcd --name=n] *)

(** The configuration before the command line is read. *)
Definition cfg0 : EtcdConfig.t :=
  match EtcdConfig.newConfig with
  | Ret c => c
  | _ => EtcdConfig.mk sample_config (FlagSet.mk ∅ ∅)
  end.
Lemma newConfig_cfg0 : EtcdConfig.newConfig = Ret cfg0.
Proof.
  assert (H : match EtcdConfig.newConfig with Ret _ => true | _ => false end = true)
    by (vm_compute; reflexivity).
  unfold cfg0. by destruct EtcdConfig.newConfig.
Qed.

Section Named.
Context `{!Durations} (n : list Z).

(** Reading [--name=n] with a flag [name] that holds a string. *)
Lemma Parse_nameFlag (fs : FlagSet.t flagVal) v :
  FlagSet.formal fs !! bs "name" = Some (VString v) →
  FlagSet.Parse [bs "--name=" ++ n] fs =
    (FlagSet.mk (<[bs "name" := VString n]> (FlagSet.formal fs)) ({[bs "name"]} ∪ FlagSet.actual fs), [], Ret tt).
Proof.
  intros Hv. unfold FlagSet.Parse. cbn [length FlagSet.parseLoop].
  assert (E : FlagSet.parseOne [bs "--name=" ++ n] fs =
    (FlagSet.mk (<[bs "name" := VString n]> (FlagSet.formal fs)) ({[bs "name"]} ∪ FlagSet.actual fs), [], Ret true));
    [|by rewrite E].
  unfold FlagSet.parseOne.
  change (hasPrefix (bs "-") (bs "--name=" ++ n)) with true.
  change (hasPrefix (bs "--") (bs "--name=" ++ n)) with true.
  change (drop 2 (bs "--name=" ++ n)) with (bs "name=" ++ n).
  rewrite (bool_decide_eq_false_2 (_ = bs "-")), decide_False, (bool_decide_eq_false_2 (_ = [])) by done.
  cbn [negb orb]. cbv zeta iota.
  change (hasPrefix (bs "-") (bs "name=" ++ n) || hasPrefix (bs "=") (bs "name=" ++ n)) with false.
  change (cutByte equals (bs "name=" ++ n)) with (Some (bs "name", n)). cbv beta iota.
  by rewrite Hv.
Qed.

(** The flags after the command line is read. *)
Definition fs1 : FlagSet.t flagVal :=
  FlagSet.mk (<[bs "name" := VString n]> (FlagSet.formal (EtcdConfig.flagSet cfg0)))
    ({[bs "name"]} ∪ FlagSet.actual (EtcdConfig.flagSet cfg0)).
Definition cfg1 : EtcdConfig.t := EtcdConfig.mk (EtcdConfig.base cfg0) fs1.
Definition c1 : EmbedConfig.t := EtcdConfig.withURLs fs1 (EtcdConfig.ec cfg1).

Lemma Parse_name :
  FlagSet.Parse [bs "--name=" ++ n] (EtcdConfig.flagSet cfg0) = (fs1, [], Ret tt).
Proof. eapply Parse_nameFlag. vm_compute. reflexivity. Qed.

Lemma cmdLineKeys_name : cmdLineKeys (bs "ETCD") fs1 = {[bs "ETCD_NAME"]}.
Proof. vm_compute. reflexivity. Qed.

Lemma c1_settings :
  EmbedConfig.Name c1 = n ∧ EmbedConfig.Dir c1 = [] ∧ EmbedConfig.WalDir c1 = [] ∧
  EmbedConfig.TickMs c1 = 100 ∧ EmbedConfig.ElectionMs c1 = 1000 ∧
  EmbedConfig.APUrls c1 = [localhost "2380"] ∧ EmbedConfig.LCUrls c1 = [localhost "2379"] ∧
  EmbedConfig.LPUrls c1 = [localhost "2380"] ∧
  EmbedConfig.ClientAutoTLS c1 = false ∧ EmbedConfig.CipherSuites c1 = [] ∧
  EmbedConfig.ClusterState c1 = EmbedConfig.ClusterStateFlagNew ∧ EmbedConfig.DNSCluster c1 = [] ∧
  EmbedConfig.Durl c1 = [] ∧
  EmbedConfig.InitialCluster c1 = clusterString [(EmbedConfig.DefaultName, localhost "2380")] ∧
  EmbedConfig.InitialClusterToken c1 = bs "etcd-cluster" ∧ EmbedConfig.Logger c1 = bs "zap" ∧
  EmbedConfig.ZapLoggerBuilder c1 = None.
Proof. split_and!; vm_compute; reflexivity. Qed.

Lemma parse_name environ build :
  (∀ k, Getenv environ (FlagToEnv (bs "ETCD") k) = []) →
  Forall (λ env, envKey env ≠ bs "ETCD_NAME") environ →
  EtcdConfig.parse environ build [bs "--name=" ++ n] cfg0 =
    match EmbedConfig.Validate build c1 with
    | (c, Ret _) => Ret (cfg1, c, None)
    | (c, Err e) => Ret (cfg1, c, Some e)
    | (_, Panic p) => Panic p
    | (_, OutOfFuel) => OutOfFuel
    end.
Proof.
  intros Hg Hk. unfold EtcdConfig.parse. rewrite Parse_name. fold cfg1. cbv beta iota zeta.
  replace (EtcdConfig.getBool fs1 "version") with false by (vm_compute; reflexivity).
  replace (EtcdConfig.getString fs1 "config-file") with (@nil Z) by (vm_compute; reflexivity).
  rewrite Hg. unfold EtcdConfig.configFromCmdLine. cbn [EtcdConfig.flagSet cfg1].
  rewrite SetFlagsFromEnv_none, bind_Ret; [done|done|].
  eapply Forall_impl; [exact Hk|]. intros env He. rewrite cmdLineKeys_name. by rewrite elem_of_singleton.
Qed.
End Named.

(** ** A first start *)

Section FirstStart.
Context `{!Durations, !NameOrder, !MapOrder}.
Implicit Types (n : list Z) (w : world).

(** The member that [etcd --name=n] starts. *)
Definition namedMember n : list (list Z * url.URL) := [(n, localhost "2380")].
Definition namedEntry n : list Z * list (list Z) := (n, [bs "http://localhost:2380"]).

Lemma clusterEntries_named n : clusterEntries (namedMember n) = [namedEntry n].
Proof.
  unfold clusterEntries, Embed.urlsEntries. rewrite dom_clusterMap.
  assert (Ho : name_order (list_to_set (namedMember n).*1) = [n]).
  { apply Permutation_singleton_r. rewrite name_order_perm. cbn [namedMember fmap list_fmap fst list_to_set].
    by rewrite union_empty_r_L, elements_singleton. }
  rewrite Ho. cbn [fmap list_fmap]. rewrite clusterMap_lookup, decide_True by (by left).
  unfold namedEntry, namedMember, urlsNamed. rewrite filter_cons_True, filter_nil by done.
  reflexivity.
Qed.

(** A machine where nothing was started before. *)
Record fresh_world w n : Prop := {
  fw_args : w_args w = [bs "--name=" ++ n];
  fw_environ k : Getenv (w_environ w) (FlagToEnv (bs "ETCD") k) = [];
  fw_noname : Forall (λ env, envKey env ≠ bs "ETCD_NAME") (w_environ w);
  fw_host : (w_defaultHost w).1 = [];
  fw_network : network_ok (w_embed w);
  fw_server : env_ok (Embed.env_srv (w_embed w));
  fw_noWAL : EtcdServer.env_haveWAL (Embed.env_srv (w_embed w)) = false;
  fw_nodir d : ∃ e, Embed.env_readdir (w_embed w) d = Err e ∧ w_isNotExist w e = true;
  fw_fuel : (0 < w_fuel w)%nat
}.

(** A name for which the member has an id and its description fits a slice. *)
Record name_ok n : Prop := {
  nm_name : n ≠ [] ∧ (comma ∉ n) ∧ (equals ∉ n);
  nm_id : Member.ID (entryMember (bs "etcd-cluster") (namedEntry n)) ≠ 0;
  nm_json : len (memberJSON (Some (entryMember (bs "etcd-cluster") (namedEntry n)))) < 2 ^ 62
}.

(** The settings of the command line start a member of the cluster [n]. *)
Lemma named_launch w n c :
  fresh_world w n → name_ok n → same_settings (c1 n) c →
  EmbedConfig.ZapLoggerBuilder c = Some (Ret true) →
  ∀ dir c', c' = c <| EmbedConfig.InitialCluster := clusterString (namedMember n) |>
                   <| EmbedConfig.Dir := dir |> →
  launch_ok (w_embed w) c' (namedMember n).
Proof.
  intros Hw Hn Hs Hb dir c' ->.
  destruct (c1_settings n) as (C1&C2&C3&C4&C5&C6&C7&C8&C9&C10&C11&C12&C13&C14&C15&C16&C17).
  generalize dependent (c1 n). intros d Hs *. intros.
  destruct Hs, Hn as [(Hne & Hcm & Heq) Hid Hjs].
  split; rewrite ?clusterEntries_named; simpl; try congruence.
  - split; [congruence|by right].
  - split; congruence.
  - rewrite ss_LCUrls, C7. apply Forall_singleton. split; by apply (bool_decide_unpack _).
  - split; congruence.
  - apply Forall_singleton. split_and!; [done|done|]. apply localhost_canonical. by repeat constructor.
  - rewrite ss_Name, C1. by left.
  - rewrite ss_TickMs, ss_ElectionMs, C4, C5. lia.
  - rewrite ss_Token, C15. split; [apply NoDup_singleton|].
    unfold entryIDs. cbn [fmap list_fmap]. by rewrite list_elem_of_singleton.
  - intros x ->%list_elem_of_singleton. by rewrite ss_Token, C15.
  - done.
  - split; [|apply (fw_noWAL _ _ Hw)]. unfold Embed.isMemberInitialized, wal_Exist, ReadDir.
    match goal with |- context [Embed.env_readdir _ ?dir] =>
      destruct (fw_nodir _ _ Hw dir) as (err & -> & _) end. done.
Qed.

(** What [UpdateDefaultClusterFromName] and the default of [data-dir] make of
    the settings. *)
Lemma named_update w n c :
  n ≠ [] → (w_defaultHost w).1 = [] → same_settings (c1 n) c →
  ∃ c', EmbedConfig.UpdateDefaultClusterFromName (w_defaultHost w).1 (w_defaultHost w).2
      (EmbedConfig.InitialCluster (EtcdConfig.ec cfg0)) c = Ret (c', [], (w_defaultHost w).2) ∧
    EmbedConfig.Dir c' = [] ∧ EmbedConfig.Name c' = n ∧
    ∀ dir, c' <| EmbedConfig.Dir := dir |> =
      c <| EmbedConfig.InitialCluster := clusterString (namedMember n) |> <| EmbedConfig.Dir := dir |>.
Proof.
  intros Hne Hh Hs. unfold EmbedConfig.UpdateDefaultClusterFromName, EmbedConfig.clusterFromName.
  rewrite Hh, (bool_decide_eq_true_2 ([] = [])) by done. cbn [orb].
  replace (EmbedConfig.InitialCluster (EtcdConfig.ec cfg0))
    with (clusterString [(EmbedConfig.DefaultName, localhost "2380")]) by (vm_compute; reflexivity).
  destruct (c1_settings n) as (C1&C2&_&_&_&C6&_&_&_&_&_&_&_&C14&_).
  generalize dependent (c1 n). intros d Hs *. intros.
  destruct Hs. rewrite ss_Name, C1, ss_Initial, C14, (bool_decide_eq_true_2 (clusterString _ = _)) by done.
  destruct (bool_decide_reflect (n = EmbedConfig.DefaultName)) as [->|Hd]; cbn [negb andb].
  - exists c. split_and!; [done|congruence|congruence|]. intros dir.
    rewrite C14 in ss_Initial. clear - ss_Initial. destruct c. simpl in *. by rewrite ss_Initial.
  - rewrite InitialClusterFromName_spec, ss_APUrls, C6, !bind_Ret by done.
    eexists. split_and!; [reflexivity|simpl; congruence|simpl; congruence|done].
Qed.

(** C11 (functional): a first start.  On a fresh machine where nothing fails,
    the command [etcd --name=n] starts a cluster of one member named [n]: the
    member's URL is the default one, the server runs with the id of that
    member and is ready, and its raft node is a follower in term 1 that may
    campaign, with itself as the only voter.  The process then waits on
    channels that are nil: [startEtcdOrProxyV2] drops those of the member it
    has started, so that neither an error nor the end of the server ends the
    process. *)
Theorem etcd_first_start w n :
  fresh_world w n → name_ok n →
  ∃ c et s us nd,
    startEtcdOrProxyV2 w = Ret (Some (Process (Some et) None false)) ∧
    EmbedConfig.Name c = n ∧ EmbedConfig.Dir c = n ++ bs ".etcd" ∧
    launched (w_embed w) c (namedMember n) et s us nd.
Proof.
  intros Hw Hn. unfold startEtcdOrProxyV2. rewrite newConfig_cfg0, bind_Ret. cbv zeta.
  rewrite (fw_args _ _ Hw), parse_name by apply Hw.
  destruct (Validate_ok (w_embed w) (c1 n) (fw_network _ _ Hw)) as (HV & _ & Hb).
  { apply c1_settings. } { left. apply c1_settings. }
  pose proof (validated_same (w_embed w) (c1 n)) as Hs. rewrite HV, bind_Ret.
  set (c2 := validated (w_embed w) (c1 n)) in *. clearbody c2.
  destruct (named_update w n c2 (proj1 (nm_name _ Hn)) (fw_host _ _ Hw) Hs) as (c3 & -> & HD & HN & Hc3).
  rewrite bind_Ret. cbv beta iota. rewrite HD, HN.
  set (c4 := c3 <| EmbedConfig.Dir := n ++ bs ".etcd" |>).
  assert (Hc4 : EmbedConfig.Dir c4 = n ++ bs ".etcd" ∧ EmbedConfig.Name c4 = n)
    by (split; [reflexivity|exact HN]).
  assert (Hl : launch_ok (w_embed w) c4 (namedMember n)) by (by apply (named_launch w n c2 Hw Hn Hs Hb (n ++ bs ".etcd")), Hc3).
  clearbody c4. destruct Hc4 as [HD4 HN4]. rewrite HD4.
  unfold identifyDataDirOrDie, ReadDir. destruct (fw_nodir _ _ Hw (n ++ bs ".etcd")) as (err & -> & Hne).
  change (Err err ≫= _) with (@Err (list (list Z)) err). cbv iota beta. rewrite Hne, bind_Ret.
  replace (EtcdConfig.isProxy (cfg1 n)) with false by (vm_compute; reflexivity).
  destruct (startEtcd_launch (w_publishFirst w) (w_fuel w) (w_unmarshal w) (w_embed w) c4 (namedMember n))
    as (et & clients & s & us & nd & E & HL); [apply Hw|apply Hw|exact Hl|apply Hw|].
  exists c4, et, s, us, nd. split; [|exact (conj HN4 (conj HD4 HL))]. unfold startEtcd. rewrite E. cbn [snd]. rewrite bind_Ret.
  destruct (ld_ready _ _ _ _ _ _ _ HL) as [Hr _]. rewrite (ld_server _ _ _ _ _ _ _ HL).
  rewrite bool_decide_eq_true_2 by (left; exact Hr). reflexivity.
Qed.
End FirstStart.

(** ** Flags without effect *)

Section Ignored.
Context {DU : Durations} (environ : list (list Z)) (build : list (list Z) → list (list Z) → outcome unit).

Lemma Validate_frame c :
  EmbedConfig.ClusterState (EmbedConfig.Validate build c).1 = EmbedConfig.ClusterState c ∧
  EmbedConfig.LogOutputs (EmbedConfig.Validate build c).1 = EmbedConfig.LogOutputs c.
Proof.
  unfold EmbedConfig.Validate, EmbedConfig.setupLogging. case_decide; [|done].
  destruct (EmbedConfig.ZapLoggerBuilder c) as [[[]| | |]|]; [done..|]. cbv zeta.
  by destruct (build _ _).
Qed.
Lemma configFromCmdLine_frame cfg cfg' c err :
  EtcdConfig.configFromCmdLine environ build cfg = Ret (cfg', c, err) →
  EmbedConfig.ClusterState c = EmbedConfig.ClusterState (EtcdConfig.base cfg) ∧
  EmbedConfig.LogOutputs c = EmbedConfig.LogOutputs (EtcdConfig.base cfg).
Proof.
  unfold EtcdConfig.configFromCmdLine.
  intros ([fs e] & _ & H)%outcome_bind_Ret. destruct e as [e|]; [by injection H as <- <- <-|].
  cbv zeta in H. set (c0 := EtcdConfig.withURLs _ _) in H.
  assert (Hc : EmbedConfig.ClusterState c0 = EmbedConfig.ClusterState (EtcdConfig.base cfg) ∧
    EmbedConfig.LogOutputs c0 = EmbedConfig.LogOutputs (EtcdConfig.base cfg)) by done.
  clearbody c0. pose proof (Validate_frame c0) as [H1 H2].
  destruct (EmbedConfig.Validate build c0) as [c' [| | |]]; simplify_eq/=; by rewrite H1, H2.
Qed.

(** Two flags that the command line accepts change nothing.
    Whatever the arguments and the environment, the configuration that
    [parse] leaves has the cluster state [new], so that the server is
    always told to bootstrap a new cluster, also with
    [--initial-cluster-state=existing]; and it logs to the default output,
    whatever [--log-outputs] says. *)
Theorem cluster_state_flag_ignored arguments cfg c err :
  EtcdConfig.parse environ build arguments cfg0 = Ret (cfg, c, err) →
  EmbedConfig.IsNewCluster c = true ∧ EmbedConfig.LogOutputs c = [EmbedConfig.DefaultLogOutput].
Proof.
  unfold EmbedConfig.IsNewCluster. intros H.
  assert (Hb : EmbedConfig.ClusterState (EtcdConfig.base cfg0) = EmbedConfig.ClusterStateFlagNew ∧
    EmbedConfig.LogOutputs (EtcdConfig.base cfg0) = [EmbedConfig.DefaultLogOutput])
    by (split; vm_compute; reflexivity).
  revert H Hb. generalize cfg0. intros d H [H1 H2].
  assert (Hc : EmbedConfig.ClusterState c = EmbedConfig.ClusterState (EtcdConfig.base d) ∧
    EmbedConfig.LogOutputs c = EmbedConfig.LogOutputs (EtcdConfig.base d)).
  { unfold EtcdConfig.parse in H.
    destruct (FlagSet.Parse arguments (EtcdConfig.flagSet d)) as [[fs args] [| | |]]; try done.
    - destruct args; [|by simplify_eq].
      destruct (EtcdConfig.getBool fs "version"); [done|]. cbv zeta in H.
      case_match; [|by simplify_eq]. by apply configFromCmdLine_frame in H.
    - by case_decide. }
  destruct Hc as [-> ->]. rewrite H1, H2. split; [by apply bool_decide_eq_true_2|done].
Qed.
End Ignored.

(** ** Instances at concrete inputs *)

#[local] Instance sample_durations : Durations := {| ParseDuration := λ _, (0, Some (Errorf "time: invalid duration")) |}.
#[local] Instance sample_names : NameOrder := elements_name_order.
#[local] Instance sample_ids : MapOrder := elements_order.

Definition sample_world : world :=
  {| w_args := [bs "--name=infra0"]; w_environ := [bs "HOME=/root"; bs "PATH=/bin"];
     w_defaultHost := ([], None); w_isNotExist := λ _, true; w_embed := sample_embed_env;
     w_publishFirst := true; w_fuel := 1; w_unmarshal := λ _, (membership.Attr [] None, true) |}.

Lemma sample_fresh : fresh_world sample_world (bs "infra0").
Proof.
  split.
  - reflexivity.
  - reflexivity.
  - repeat (apply Forall_cons_2; [by apply (bool_decide_unpack _)|]). constructor.
  - reflexivity.
  - apply sample_network_ok.
  - apply sample_env_ok.
  - reflexivity.
  - intros d. by exists (Errorf "no such file or directory").
  - simpl. lia.
Qed.
Lemma infra0_ok : name_ok (bs "infra0").
Proof.
  split; [split_and!; by apply (bool_decide_unpack _)|..].
  - apply Z.eqb_neq. vm_compute. reflexivity.
  - vm_compute. reflexivity.
Qed.

Lemma etcd_first_start_witness :
  ∃ p et, startEtcdOrProxyV2 sample_world = Ret (Some p) ∧ p_etcd p = Some et ∧ p_listens p = false.
Proof.
  destruct (etcd_first_start sample_world (bs "infra0") sample_fresh infra0_ok) as (c & et & s & us & nd & E & _).
  exists (Process (Some et) None false), et. split; [exact E|]. split; reflexivity.
Defined.

Lemma cluster_state_flag_ignored_witness :
  ∃ cfg c, EtcdConfig.parse [] (λ _ _, Ret tt)
      [bs "--initial-cluster-state=existing"; bs "--log-outputs"; bs "stdout"] cfg0 = Ret (cfg, c, None) ∧
    EmbedConfig.IsNewCluster c = true.
Proof.
  assert (H : match EtcdConfig.parse [] (λ _ _, Ret tt)
      [bs "--initial-cluster-state=existing"; bs "--log-outputs"; bs "stdout"] cfg0
    with Ret (_, _, None) => true | _ => false end = true) by (vm_compute; reflexivity).
  destruct (EtcdConfig.parse [] (λ _ _, Ret tt)
      [bs "--initial-cluster-state=existing"; bs "--log-outputs"; bs "stdout"] cfg0)
    as [[[cfg c] [e|]]|e|p|] eqn:E; try discriminate H.
  exists cfg, c. split; [reflexivity|exact (proj1 (cluster_state_flag_ignored _ _ _ _ _ _ E))].
Defined.
