(* ===== verification/Help.v ===== *)
(** * The help of the command line

    etcdmain/help.go: the text that [--help] prints, section by section, and what it
    documents: the flags with their defaults.  The text is compared with the flags
    that etcdmain/config.go defines. *)

From stdpp Require Import pretty.
From S2P Require Import Prelude GoStd Urls Flags Server Embed EtcdMain.

(** [strconv.Itoa] and [fmt.Sprintf("%d", n)]; [strconv.FormatBool] *)
Definition Itoa (n : Z) : list Z := bs (pretty n).
Definition FormatBool (b : bool) : list Z := if b then bs "true" else bs "false".

(** ** help.go

    [usageline] is printed on the standard error for a wrong command line;
    [flagsline] for [--help].  The costs are the constants of bcrypt. *)
Module help.
Definition usageline : list Z := bs "Usage:

  etcd [flags]
    Start an etcd server.

  etcd --version
    Show the version of etcd.

  etcd -h | --help
    Show the help information about etcd.

  etcd --config-file
    Path to the server configuration file. Note that if a configuration file is provided, other command line flags and environment variables will be ignored.

  etcd gateway
    Run the stateless pass-through etcd TCP connection forwarding proxy.

  etcd grpc-proxy
    Run the stateless etcd v3 gRPC L7 reverse proxy.
".

Definition memberFlags : list Z :=
  bs "
Member:
  --name 'default'
    Human-readable name for this member.
  --data-dir '${name}.etcd'
    Path to the data directory.
  --wal-dir ''
    Path to the dedicated wal directory.
  --snapshot-count '100000'
    Number of committed transactions to trigger a snapshot to disk.
  --heartbeat-interval '100'
    Time (in milliseconds) of a heartbeat interval.
  --election-timeout '1000'
    Time (in milliseconds) for an election to timeout. See tuning documentation for details.
  --initial-election-tick-advance 'true'
    Whether to fast-forward initial election ticks on boot for faster election.
  --listen-peer-urls 'http://localhost:2380'
    List of URLs to listen on for peer traffic.
  --listen-client-urls 'http://localhost:2379'
    List of URLs to listen on for client traffic.
  --max-snapshots '" ++
  Itoa EmbedConfig.DefaultMaxSnapshots ++
  bs "'
    Maximum number of snapshot files to retain (0 is unlimited).
  --max-wals '" ++
  Itoa EmbedConfig.DefaultMaxWALs ++
  bs "'
    Maximum number of wal files to retain (0 is unlimited).
  --quota-backend-bytes '0'
    Raise alarms when backend size exceeds the given quota (0 defaults to low space quota).
  --backend-batch-interval ''
    BackendBatchInterval is the maximum time before commit the backend transaction.
  --backend-batch-limit '0'
    BackendBatchLimit is the maximum operations before commit the backend transaction.
  --max-txn-ops '128'
    Maximum number of operations permitted in a transaction.
  --max-request-bytes '1572864'
    Maximum client request size in bytes the server will accept.
  --grpc-keepalive-min-time '5s'
    Minimum duration interval that a client should wait before pinging server.
  --grpc-keepalive-interval '2h'
    Frequency duration of server-to-client ping to check if a connection is alive (0 to disable).
  --grpc-keepalive-timeout '20s'
    Additional duration of wait before closing a non-responsive connection (0 to disable).
".

Definition clusteringFlags : list Z :=
  bs "
Clustering:
  --initial-advertise-peer-urls 'http://localhost:2380'
    List of this member's peer URLs to advertise to the rest of the cluster.
  --initial-cluster 'default=http://localhost:2380'
    Initial cluster configuration for bootstrapping.
  --initial-cluster-state 'new'
    Initial cluster state ('new' or 'existing').
  --initial-cluster-token 'etcd-cluster'
    Initial cluster token for the etcd cluster during bootstrap.
    Specifying this can protect you from unintended cross-cluster interaction when running multiple clusters.
  --advertise-client-urls 'http://localhost:2379'
    List of this member's client URLs to advertise to the public.
    The client URLs advertised should be accessible to machines that talk to etcd cluster. etcd client libraries parse these URLs to connect to the cluster.
  --discovery ''
    Discovery URL used to bootstrap the cluster.
  --discovery-fallback 'proxy'
    Expected behavior ('exit' or 'proxy') when discovery services fails.
    " ++ [34] ++ bs "proxy" ++ [34] ++ bs " supports v2 API only.
  --discovery-proxy ''
    HTTP proxy to use for traffic to discovery service.
  --discovery-srv ''
    DNS srv domain used to bootstrap the cluster.
  --discovery-srv-name ''
    Suffix to the dns srv name queried when bootstrapping.
  --strict-reconfig-check '" ++
  FormatBool EmbedConfig.DefaultStrictReconfigCheck ++
  bs "'
    Reject reconfiguration requests that would cause quorum loss.
  --pre-vote 'false'
    Enable to run an additional Raft election phase.
  --auto-compaction-retention '0'
    Auto compaction retention length. 0 means disable auto compaction.
  --auto-compaction-mode 'periodic'
    Interpret 'auto-compaction-retention' one of: periodic|revision. 'periodic' for duration based retention, defaulting to hours if no time unit is provided (e.g. '5m'). 'revision' for revision number based retention.
  --enable-v2 '" ++
  FormatBool EmbedConfig.DefaultEnableV2 ++
  bs "'
    Accept etcd V2 client requests.
".

Definition securityFlags : list Z :=
  bs "
Security:
  --cert-file ''
    Path to the client server TLS cert file.
  --key-file ''
    Path to the client server TLS key file.
  --client-cert-auth 'false'
    Enable client cert authentication.
  --client-crl-file ''
    Path to the client certificate revocation list file.
  --trusted-ca-file ''
    Path to the client server TLS trusted CA cert file.
  --auto-tls 'false'
    Client TLS using generated certificates.
  --peer-cert-file ''
    Path to the peer server TLS cert file.
  --peer-key-file ''
    Path to the peer server TLS key file.
  --peer-client-cert-auth 'false'
    Enable peer client cert authentication.
  --peer-trusted-ca-file ''
    Path to the peer server TLS trusted CA file.
  --peer-cert-allowed-cn ''
    Required CN for client certs connecting to the peer endpoint.
  --peer-auto-tls 'false'
    Peer TLS using self-generated certificates if --peer-key-file and --peer-cert-file are not provided.
  --peer-crl-file ''
    Path to the peer certificate revocation list file.
  --cipher-suites ''
    Comma-separated list of supported TLS cipher suites between client/server and peers (empty will be auto-populated by Go).
  --cors '*'
    Comma-separated whitelist of origins for CORS, or cross-origin resource sharing, (empty or * means allow all).
  --host-whitelist '*'
    Acceptable hostnames from HTTP client requests, if server is not secure (empty or * means allow all).
".

Definition authFlags (DefaultCost MinCost MaxCost : Z) : list Z :=
  bs "
Auth:
  --auth-token 'simple'
    Specify a v3 authentication token type and its options ('simple' or 'jwt').
  --bcrypt-cost " ++
  Itoa DefaultCost ++
  bs "
    Specify the cost / strength of the bcrypt algorithm for hashing auth passwords. Valid values are between " ++
  Itoa MinCost ++
  bs " and " ++
  Itoa MaxCost ++
  bs ".
".

Definition profilingFlags : list Z :=
  bs "
Profiling and Monitoring:
  --enable-pprof 'false'
    Enable runtime profiling data via HTTP server. Address is at client URL + " ++ [34] ++ bs "/debug/pprof/" ++ [34] ++ bs "
  --metrics 'basic'
    Set level of detail for exported metrics, specify 'extensive' to include histogram metrics.
  --listen-metrics-urls ''
    List of URLs to listen on for the metrics and health endpoints.
".

Definition loggingFlags : list Z :=
  bs "
Logging:
  --logger 'capnslog'
    Specify 'zap' for structured logging or 'capnslog'.
  --log-outputs 'default'
    Specify 'stdout' or 'stderr' to skip journald logging even when running under systemd, or list of comma separated output targets.
  --debug 'false'
    Enable debug-level logging for etcd.
".

Definition loggingDeprecatedFlags : list Z :=
  bs "
Logging (to be deprecated in v3.5):
  --log-package-levels ''
    Specify a particular log level for each etcd package (eg: 'etcdmain=CRITICAL,etcdserver=DEBUG').
".

Definition proxyFlags : list Z :=
  bs "
v2 Proxy (to be deprecated in v4):
  --proxy 'off'
    Proxy mode setting ('off', 'readonly' or 'on').
  --proxy-failure-wait 5000
    Time (in milliseconds) an endpoint will be held in a failed state.
  --proxy-refresh-interval 30000
    Time (in milliseconds) of the endpoints refresh interval.
  --proxy-dial-timeout 1000
    Time (in milliseconds) for a dial to timeout.
  --proxy-write-timeout 5000
    Time (in milliseconds) for a write to timeout.
  --proxy-read-timeout 0
    Time (in milliseconds) for a read to timeout.
".

Definition experimentalFlags : list Z :=
  bs "
Experimental feature:
  --experimental-initial-corrupt-check 'false'
    Enable to check data corruption before serving any client/peer traffic.
  --experimental-corrupt-check-time '0s'
    Duration of time between cluster corruption check passes.
  --experimental-enable-v2v3 ''
    Serve v2 requests through the v3 backend under a given prefix.
  --experimental-backend-bbolt-freelist-type
    ExperimentalBackendFreelistType specifies the type of freelist that boltdb backend uses(array and map are supported types).
  --experimental-enable-lease-checkpoint
    ExperimentalEnableLeaseCheckpoint enables primary lessor to persist lease remainingTTL to prevent indefinite auto-renewal of long lived leases.
".

Definition unsafeFlags : list Z :=
  bs "
Unsafe feature:
  --force-new-cluster 'false'
    Force to create a new one-member cluster.

CAUTIOUS with unsafe flag! It may break the guarantees given by the consensus protocol!
".

Definition flagsline (DefaultCost MinCost MaxCost : Z) : list Z :=
  memberFlags ++ clusteringFlags ++ securityFlags ++ authFlags DefaultCost MinCost MaxCost ++ profilingFlags ++
  loggingFlags ++ loggingDeprecatedFlags ++ proxyFlags ++ experimentalFlags ++ unsafeFlags.
End help.

(** ** What the text documents

    A line of two spaces, two dashes, a name and possibly a default, in quotes or
    not. *)
Fixpoint splitLines (s : list Z) : list (list Z) :=
  match s with
  | [] => [[]]
  | c :: s => if c =? 10 then [] :: splitLines s
              else match splitLines s with l :: ls => (c :: l) :: ls | [] => [[c]] end
  end.
Definition unquote (s : list Z) : list Z :=
  match s with
  | c :: s' => if c =? 39 then removelast s' else s
  | [] => []
  end.
Definition documentedFlag (line : list Z) : option (list Z * option (list Z)) :=
  if hasPrefix (bs "  --") line then
    Some (match cutByte 32 (drop 4 line) with
          | Some (name, d) => (name, Some (unquote d))
          | None => (drop 4 line, None)
          end)
  else None.
Definition documented (text : list Z) : list (list Z * option (list Z)) := omap documentedFlag (splitLines text).

(** ** The documented flags and the defined ones *)

#[global] Instance Selective_eq_dec : EqDecision SelectiveStringValue.t.
Proof. solve_decision. Defined.
#[global] Instance UniqueURLs_eq_dec : EqDecision UniqueURLs.t.
Proof. solve_decision. Defined.
#[global] Instance flagVal_eq_dec : EqDecision flagVal.
Proof. solve_decision. Defined.

(** What is used of [time.ParseDuration]: a small decimal number and a unit. *)
Definition durationUnits : list (list Z * Z) := [(bs "s", Second); (bs "h", 3600 * Second)].
Class IntegerDurations `{!Durations} :=
  ParseDuration_unit n u k : 0 ≤ n < 100 → (u, k) ∈ durationUnits → ParseDuration (Itoa n ++ u) = (n * k, None).

(** Setting the flag to [d] leaves it as it is. *)
Definition isDefault `{!Durations} (d : list Z) (v : flagVal) : bool := bool_decide (setVal d v = (v, None)).

(** The flags that are documented and not defined, and the reverse. *)
Definition undefinedFlags : list string :=
  ["cert-file"; "key-file"; "client-cert-auth"; "client-crl-file"; "trusted-ca-file"; "auto-tls"; "peer-cert-file";
   "peer-key-file"; "peer-client-cert-auth"; "peer-trusted-ca-file"; "peer-cert-allowed-cn"; "peer-auto-tls";
   "peer-crl-file"]%string.
Definition undocumentedFlags : list string := ["config-file"; "enable-grpc-gateway"; "log-output"; "version"]%string.
(** The flags whose documented default is not the value that they start with. *)
Definition otherDefaults : list string :=
  ["data-dir"; "backend-batch-interval"; "cipher-suites"; "listen-metrics-urls"; "logger"]%string.

Section Checks.
Context (fs : gmap (list Z) flagVal) (docs : list (list Z * option (list Z))).
#[local] Instance noDurations : Durations := {| ParseDuration _ := (0, Some (Errorf "no duration")) |}.

Definition durationOf (v : flagVal) : option Z := match v with VDuration n => Some n | _ => None end.
Definition documentedDurations : list (list Z * list Z * Z) :=
  omap (λ x, d ← x.2; v ← fs !! x.1; n ← durationOf v; Some (x.1, d, n)) docs.
Definition defaultsOK : bool :=
  forallb (λ x : list Z * option (list Z), match x.2, fs !! x.1 with
    | Some d, Some v => bool_decide (is_Some (durationOf v)) || bool_decide (x.1 ∈ bs <$> otherDefaults) || isDefault d v
    | _, _ => true
    end) docs.
Lemma defaultsOK_spec {D : Durations} name d v :
  defaultsOK = true → (name, Some d) ∈ docs → fs !! name = Some v → durationOf v = None →
  name ∉ bs <$> otherDefaults → setVal (H := D) d v = (v, None).
Proof.
  unfold defaultsOK. rewrite forallb_forall. intros Hf Hin Hv Hd Hn. apply list_elem_of_In in Hin.
  specialize (Hf _ Hin). cbn [fst snd] in Hf. rewrite Hv, Hd in Hf.
  rewrite bool_decide_eq_false_2, bool_decide_eq_false_2 in Hf; [|done|by intros [? [=]]].
  apply bool_decide_eq_true in Hf. rewrite <- Hf. by destruct v.
Qed.
Lemma documentedDurations_spec name d n :
  (name, Some d) ∈ docs → fs !! name = Some (VDuration n) → (name, d, n) ∈ documentedDurations.
Proof. intros Hin Hv. apply list_elem_of_omap. exists (name, Some d). split; [done|]. simpl. by rewrite Hv. Qed.
End Checks.

Section Documentation.
Context `{!Durations} `{!IntegerDurations}.
Let docs := documented (help.flagsline 10 4 31).
Let fs := FlagSet.formal (EtcdConfig.flagSet cfg0).

Definition knownDurations : list (string * Z * list Z * Z) :=
  [("grpc-keepalive-min-time", 5, bs "s", Second); ("grpc-keepalive-interval", 2, bs "h", 3600 * Second);
   ("grpc-keepalive-timeout", 20, bs "s", Second); ("experimental-corrupt-check-time", 0, bs "s", Second)]%string.
Lemma documentedDurations_eq :
  documentedDurations fs docs =
    (bs "backend-batch-interval", [], 0) ::
    ((λ x, (bs x.1.1.1, Itoa x.1.1.2 ++ x.1.2, x.1.1.2 * x.2)) <$> knownDurations).
Proof. vm_compute. reflexivity. Qed.
Lemma knownDurations_parse name n u k :
  (name, n, u, k) ∈ knownDurations → ParseDuration (Itoa n ++ u) = (n * k, None).
Proof.
  intros Hin. assert (Hb : Forall (λ x, 0 ≤ x.1.1.2 < 100 ∧ (x.1.2, x.2) ∈ durationUnits) knownDurations) by (apply (bool_decide_unpack _); vm_compute; exact I).
  rewrite Forall_forall in Hb. destruct (Hb _ Hin) as (H1 & H2). by apply ParseDuration_unit.
Qed.

End Documentation.

(** An instance: a table of durations. *)
Definition sampleDurations : list (list Z * Z) :=
  n ← seqZ 0 100; (λ u, (Itoa n ++ u.1, n * u.2)) <$> durationUnits.
#[local] Instance sample_durations : Durations :=
  {| ParseDuration s := match List.find (λ x, bool_decide (x.1 = s)) sampleDurations with
                        | Some x => (x.2, None)
                        | None => (0, Some (Errorf "time: invalid duration"))
                        end |}.
#[local] Instance sample_integer_durations : IntegerDurations.
Proof.
  assert (Hall : Forall (λ n, Forall (λ u, ParseDuration (Itoa n ++ u.1) = (n * u.2, None)) durationUnits) (seqZ 0 100))
    by (apply (bool_decide_unpack _); vm_compute; exact I).
  intros n u k Hn Hu. rewrite Forall_forall in Hall. specialize (Hall n ltac:(apply elem_of_seqZ; lia)).
  rewrite Forall_forall in Hall. exact (Hall (u, k) Hu).
Qed.

