(* ===== verification/Stores.v ===== *)
(** * The parts around the server that have no operations yet

    The stores, the snapshotter, the detector of contention, the limits of files and
    the settings of the logger: v2store, snap, contention, etcdserver/storage.go, mvcc,
    pkg/runtime and logutil/zap.go, as far as the source has them, and how [NewServer]
    puts them together. *)

From S2P Require Import Prelude GoStd Fileutil Wal Membership Server Embed.

(** ** api/v2store *)
Module v2store.
Definition Get : list Z := bs "get".
Definition Create_ : list Z := bs "create".
Definition Set_ : list Z := bs "set".
Definition Update : list Z := bs "update".
Definition Delete : list Z := bs "delete".
Definition CompareAndSwap : list Z := bs "compareAndSwap".
Definition CompareAndDelete : list Z := bs "compareAndDelete".
Definition Expire : list Z := bs "expire".
Definition defaultVersion : Z := 2.

(** Pointers are addresses; times are nanoseconds. *)
Record NodeExtern := MkNodeExtern {
  Key : list Z; Value : option (list Z); Dir : bool; Expiration : option Z; TTL : Z; Nodes : list (option Z);
  ModifiedIndex : Z; CreatedIndex : Z
}.
Record Event := MkEvent {
  Action : list Z; Node : option NodeExtern; PrevNode : option NodeExtern; EtcdIndex : Z; Refresh : bool
}.
Record TTLOptionSet := MkTTL { ExpireTime : Z; ttlRefresh : bool }.
Record node := MkNode {
  n_Path : list Z; n_CreatedIndex : Z; n_ModifiedIndex : Z; n_Parent : option Z; n_ExpireTime : Z; n_Value : list Z;
  n_Children : gmap (list Z) Z
}.
Record store := MkStore { Root : option node; WatcherHub : option Z; CurrentVersion : Z }.

(** [new(store)] and the version; the name spaces are printed and dropped. *)
Definition newStore (namespaces : list (list Z)) : store := MkStore None None defaultVersion.
Definition New (namespaces : list (list Z)) : store := newStore namespaces.
Definition Version (s : store) : Z := CurrentVersion s.
Definition Create (s : store) (nodePath : list Z) (dir : bool) (value : list Z) (unique : bool) (opts : TTLOptionSet)
    : option Event * option error := (None, None).
End v2store.

(** ** api/snap, etcdserver/storage.go, pkg/contention *)
Module snap.
Definition snapSuffix : list Z := bs ".snap".
Record Snapshotter := MkSnapshotter { lg : bool; dir : list Z }.
Definition New (lg : bool) (dir : list Z) : Snapshotter := MkSnapshotter lg dir.
End snap.

(** [storage] embeds both pointers; the interface has no methods. *)
Record storage := MkStorage { st_WAL : Z; st_Snapshotter : snap.Snapshotter }.
Definition NewStorage (w : Z) (s : snap.Snapshotter) : storage := MkStorage w s.

Module contention.
Record TimeoutDetector := MkDetector { maxDuration : Z; records : gmap Z Z }.
Definition NewTimeoutDetector (maxDuration : Z) : TimeoutDetector := MkDetector maxDuration ∅.
End contention.

(** ** mvcc

    [newWatchableStore] returns a nil pointer, which [New] turns into an interface
    that is not nil: [None] is the nil interface, [Some None] an interface with a nil
    pointer. *)
Module mvcc.
Definition markTombstone : Z := 116.
Definition restoreChunkKeys : Z := 10000.
Definition defaultCompactBatchLimit : Z := 1000.
Definition chanBufLen : Z := 1024.
Definition maxWatchersPerSync : Z := 512.
Record StoreConfig := MkStoreConfig { CompactionBatchLimit : Z }.
Record store := MkStore { consistentIndex : Z; cfg : StoreConfig }.
Record watchableStore := MkWatchable { ws_store : option store; victimc : option Z; stopc : option Z }.
Definition newWatchableStore (b le : Z) (cfg : StoreConfig) : option watchableStore := None.
Definition New (b le : Z) (cfg : StoreConfig) : option (option watchableStore) := Some (newWatchableStore b le cfg).
End mvcc.

(** ** pkg/runtime/fds_linux.go *)
Module fds.
(** [getrlimit] is the soft limit that the kernel gives, [readDir] the entries of a
    directory. *)
Definition FDLimit (getrlimit : outcome Z) : Z * option error :=
  match getrlimit with Ret cur => (cur, None) | Err e => (0, Some e) | _ => (0, None) end.
Definition FDUsage (readDir : list Z → outcome (list (list Z))) : Z * option error :=
  match readDir (bs "/proc/self/fd") with Ret l => (u64 (len l), None) | Err e => (0, Some e) | _ => (0, None) end.
End fds.

(** ** logutil/zap.go *)
Module logutil.
Inductive Level := DebugLevel | InfoLevel.
Record EncoderConfig := MkEncoder {
  TimeKey : list Z; LevelKey : list Z; NameKey : list Z; CallerKey : list Z; MessageKey : list Z; StacktraceKey : list Z;
  LineEnding : list Z
}.
(** The encoders of levels, times, durations and callers are functions of zap. *)
Record Config := MkConfig {
  c_Level : Level; Development : bool; SamplingInitial : Z; SamplingThereafter : Z; Encoding : list Z;
  c_Encoder : EncoderConfig; OutputPaths : list (list Z); ErrorOutputPaths : list (list Z)
}.
Definition DefaultZapLoggerConfig : Config :=
  MkConfig InfoLevel false 100 100 (bs "console")
    (MkEncoder (bs "ts") (bs "level") (bs "logger") (bs "caller") (bs "msg") (bs "stacktrace") [10])
    [bs "stderr"] [bs "stderr"].
(** [MergeOutputPaths] on the whole configuration. *)
Definition mergeConfig (c : Config) : Config :=
  MkConfig (c_Level c) (Development c) (SamplingInitial c) (SamplingThereafter c) (Encoding c) (c_Encoder c)
    (EmbedConfig.MergeOutputPaths (OutputPaths c)) (EmbedConfig.MergeOutputPaths (ErrorOutputPaths c)).
(** The configuration that [setupLogging] builds its logger from. *)
Definition zapConfig (c : EmbedConfig.t) : Config :=
  let d := DefaultZapLoggerConfig in
  let paths := EmbedConfig.outputPath <$> EmbedConfig.LogOutputs c in
  let m := mergeConfig (MkConfig (c_Level d) (Development d) (SamplingInitial d) (SamplingThereafter d) (Encoding d)
                          (c_Encoder d) paths paths) in
  if EmbedConfig.Debug_ c
  then MkConfig DebugLevel (Development m) (SamplingInitial m) (SamplingThereafter m) (Encoding m) (c_Encoder m)
         (OutputPaths m) (ErrorOutputPaths m)
  else m.
End logutil.

(** ** Theorems *)

(** The paths that a logger writes to: sorted, without duplicates, those of the
    settings; [/dev/null] is alone; merging again changes nothing. *)
Lemma MergeOutputPaths_null paths : bs "/dev/null" ∈ paths → EmbedConfig.MergeOutputPaths paths = [bs "/dev/null"].
Proof. intros H. unfold EmbedConfig.MergeOutputPaths. rewrite decide_True by set_solver. reflexivity. Qed.
Lemma MergeOutputPaths_perm paths : bs "/dev/null" ∉ paths →
  EmbedConfig.MergeOutputPaths paths ≡ₚ elements (list_to_set paths : gset (list Z)).
Proof. intros H. unfold EmbedConfig.MergeOutputPaths. rewrite decide_False by set_solver. apply sort_Strings_perm. Qed.
Lemma MergeOutputPaths_elem paths p : bs "/dev/null" ∉ paths → p ∈ EmbedConfig.MergeOutputPaths paths ↔ p ∈ paths.
Proof. intros H. rewrite (MergeOutputPaths_perm _ H). set_solver. Qed.
Lemma MergeOutputPaths_spec paths :
  let r := EmbedConfig.MergeOutputPaths paths in
  NoDup r ∧ Sorted bytes_le r ∧ EmbedConfig.MergeOutputPaths r = r.
Proof.
  intros r. destruct (decide (bs "/dev/null" ∈ paths)) as [H|H].
  - unfold r. rewrite (MergeOutputPaths_null _ H). split_and!.
    + apply NoDup_singleton.
    + repeat constructor.
    + apply MergeOutputPaths_null. left.
  - split_and!.
    + unfold r. rewrite (MergeOutputPaths_perm _ H). apply NoDup_elements.
    + apply Sorted_merge_sort, _.
    + assert (Hr : bs "/dev/null" ∉ r) by (unfold r; by rewrite MergeOutputPaths_elem).
      unfold EmbedConfig.MergeOutputPaths at 1. rewrite decide_False by set_solver.
      unfold r at 2, EmbedConfig.MergeOutputPaths. rewrite decide_False by set_solver.
      apply sort_Strings_unique. f_equiv. intros p. rewrite !elem_of_list_to_set. apply MergeOutputPaths_elem, H.
Qed.

(** The logger that [setupLogging] leaves is that of [zapConfig]: the default
    settings, at the level of debugging for [--debug], with the merged outputs. *)
Lemma setupLogging_zapConfig build c :
  EmbedConfig.Logger c = bs "zap" → EmbedConfig.ZapLoggerBuilder c = None →
  let z := logutil.zapConfig c in
  build (logutil.OutputPaths z) (logutil.ErrorOutputPaths z) = Ret tt →
  EmbedConfig.loggerConfig (EmbedConfig.setupLogging build c).1 = Some (logutil.OutputPaths z, logutil.ErrorOutputPaths z) ∧
  (logutil.c_Level z = logutil.DebugLevel ↔ EmbedConfig.Debug_ c = true).
Proof.
  intros Hl Hb z. unfold z, logutil.zapConfig. cbv zeta. unfold EmbedConfig.setupLogging. rewrite decide_True, Hb by done.
  cbv zeta. destruct (EmbedConfig.Debug_ c); cbn [logutil.OutputPaths logutil.ErrorOutputPaths logutil.mergeConfig logutil.c_Level];
    intros ->; (split; [reflexivity|]); done.
Qed.
