(* ===== verification/ApiErrors.v ===== *)
(** * Errors of the APIs and the key-value service

    rpctypes/error.go: the gRPC errors, the table from their descriptions and the
    client-side errors; v3rpc/util.go: the gRPC errors of the server's errors;
    v3rpc/key.go, header.go and quota.go: the key-value service; v2error/error.go:
    the errors of the v2 API with their HTTP statuses. *)

From S2P Require Import Prelude GoStd Proto EtcdPb Membership Requests Server.

(** ** Errors

    [codes.Code] of gRPC by name. *)
Inductive Code : Set :=
  | OK | Canceled | Unknown | InvalidArgument | DeadlineExceeded | NotFound
  | AlreadyExists | PermissionDenied | ResourceExhausted | FailedPrecondition | Aborted | OutOfRange
  | Unimplemented | Internal | Unavailable | DataLoss | Unauthenticated.
#[global] Instance Code_eq_dec : EqDecision Code.
Proof. solve_decision. Defined.

(** The package-level errors of etcdserver/errors.go, membership/errors.go,
    mvcc/kvstore.go and lease/lessor.go; an [errors.New] is equal to itself only. *)
Inductive errorVar : Set :=
  | etcdserver_ErrUnknownMethod | etcdserver_ErrStopped | etcdserver_ErrCanceled | etcdserver_ErrTimeout | etcdserver_ErrTimeoutDueToLeaderFail | etcdserver_ErrTimeoutDueToConnectionLost | etcdserver_ErrTimeoutLeaderTransfer | etcdserver_ErrLeaderChanged | etcdserver_ErrNotEnoughStartedMembers | etcdserver_ErrLearnerNotReady | etcdserver_ErrNoLeader | etcdserver_ErrNotLeader | etcdserver_ErrRequestTooLarge | etcdserver_ErrNoSpace | etcdserver_ErrTooManyRequests | etcdserver_ErrUnhealthy | etcdserver_ErrKeyNotFound | etcdserver_ErrCorrupt | etcdserver_ErrBadLeaderTransferee
  | membership_ErrIDRemoved | membership_ErrIDExists | membership_ErrIDNotFound | membership_ErrPeerURLexists | membership_ErrMemberNotLearner | membership_ErrTooManyLearners
  | mvcc_ErrCompacted | mvcc_ErrFutureRev | mvcc_ErrCanceled | mvcc_ErrClosed
  | lease_ErrNotPrimary | lease_ErrLeaseNotFound | lease_ErrLeaseExists | lease_ErrLeaseTTLTooLarge.
#[global] Instance errorVar_eq_dec : EqDecision errorVar.
Proof. solve_decision. Defined.
Definition errorVarText (v : errorVar) : list Z :=
  bs match v with
  | etcdserver_ErrUnknownMethod => "etcdserver: unknown method"
  | etcdserver_ErrStopped => "etcdserver: server stopped"
  | etcdserver_ErrCanceled => "etcdserver: request cancelled"
  | etcdserver_ErrTimeout => "etcdserver: request timed out"
  | etcdserver_ErrTimeoutDueToLeaderFail => "etcdserver: request timed out, possibly due to previous leader failure"
  | etcdserver_ErrTimeoutDueToConnectionLost => "etcdserver: request timed out, possibly due to connection lost"
  | etcdserver_ErrTimeoutLeaderTransfer => "etcdserver: request timed out, leader transfer took too long"
  | etcdserver_ErrLeaderChanged => "etcdserver: leader changed"
  | etcdserver_ErrNotEnoughStartedMembers => "etcdserver: re-configuration failed due to not enough started members"
  | etcdserver_ErrLearnerNotReady => "etcdserver: can only promote a learner member which is in sync with leader"
  | etcdserver_ErrNoLeader => "etcdserver: no leader"
  | etcdserver_ErrNotLeader => "etcdserver: not leader"
  | etcdserver_ErrRequestTooLarge => "etcdserver: request is too large"
  | etcdserver_ErrNoSpace => "etcdserver: no space"
  | etcdserver_ErrTooManyRequests => "etcdserver: too many requests"
  | etcdserver_ErrUnhealthy => "etcdserver: unhealthy cluster"
  | etcdserver_ErrKeyNotFound => "etcdserver: key not found"
  | etcdserver_ErrCorrupt => "etcdserver: corrupt cluster"
  | etcdserver_ErrBadLeaderTransferee => "etcdserver: bad leader transferee"
  | membership_ErrIDRemoved => "membership: ID removed"
  | membership_ErrIDExists => "membership: ID exists"
  | membership_ErrIDNotFound => "membership: ID not found"
  | membership_ErrPeerURLexists => "membership: peerURL exists"
  | membership_ErrMemberNotLearner => "membership: can only promote a learner member"
  | membership_ErrTooManyLearners => "membership: too many learner members in cluster"
  | mvcc_ErrCompacted => "mvcc: required revision has been compacted"
  | mvcc_ErrFutureRev => "mvcc: required revision is a future revision"
  | mvcc_ErrCanceled => "mvcc: watcher is canceled"
  | mvcc_ErrClosed => "mvcc: closed"
  | lease_ErrNotPrimary => "not a primary lessor"
  | lease_ErrLeaseNotFound => "lease not found"
  | lease_ErrLeaseExists => "lease already exists"
  | lease_ErrLeaseTTLTooLarge => "too large lease TTL"
  end%string.
Module rpctypes.
(** An error value: a gRPC status made by [status.New(c, m).Err()], an
    [EtcdError], or a package-level error. *)
Inductive err : Set :=
  | StatusErr (c : Code) (m : list Z)
  | EtcdError (code : Code) (desc : list Z)
  | Var (v : errorVar).
#[global] Instance err_eq_dec : EqDecision err.
Proof. solve_decision. Defined.

Definition ErrGRPCEmptyKey : err := StatusErr InvalidArgument (bs "etcdserver: key is not provided").
Definition ErrGRPCKeyNotFound : err := StatusErr InvalidArgument (bs "etcdserver: key not found").
Definition ErrGRPCValueProvided : err := StatusErr InvalidArgument (bs "etcdserver: value is provided").
Definition ErrGRPCLeaseProvided : err := StatusErr InvalidArgument (bs "etcdserver: lease is provided").
Definition ErrGRPCTooManyOps : err := StatusErr InvalidArgument (bs "etcdserver: too many operations in txn request").
Definition ErrGRPCDuplicateKey : err := StatusErr InvalidArgument (bs "etcdserver: duplicate key given in txn request").
Definition ErrGRPCCompacted : err := StatusErr OutOfRange (bs "etcdserver: mvcc: required revision has been compacted").
Definition ErrGRPCFutureRev : err := StatusErr OutOfRange (bs "etcdserver: mvcc: required revision is a future revision").
Definition ErrGRPCNoSpace : err := StatusErr ResourceExhausted (bs "etcdserver: mvcc: database space exceeded").
Definition ErrGRPCLeaseNotFound : err := StatusErr NotFound (bs "etcdserver: requested lease not found").
Definition ErrGRPCLeaseExist : err := StatusErr FailedPrecondition (bs "etcdserver: lease already exists").
Definition ErrGRPCLeaseTTLTooLarge : err := StatusErr OutOfRange (bs "etcdserver: too large lease TTL").
Definition ErrGRPCMemberExist : err := StatusErr FailedPrecondition (bs "etcdserver: member ID already exist").
Definition ErrGRPCPeerURLExist : err := StatusErr FailedPrecondition (bs "etcdserver: Peer URLs already exists").
Definition ErrGRPCMemberNotEnoughStarted : err := StatusErr FailedPrecondition (bs "etcdserver: re-configuration failed due to not enough started members").
Definition ErrGRPCMemberBadURLs : err := StatusErr InvalidArgument (bs "etcdserver: given member URLs are invalid").
Definition ErrGRPCMemberNotFound : err := StatusErr NotFound (bs "etcdserver: member not found").
Definition ErrGRPCMemberNotLearner : err := StatusErr FailedPrecondition (bs "etcdserver: can only promote a learner member").
Definition ErrGRPCLearnerNotReady : err := StatusErr FailedPrecondition (bs "etcdserver: can only promote a learner member which is in sync with leader").
Definition ErrGRPCTooManyLearners : err := StatusErr FailedPrecondition (bs "etcdserver: too many learner members in cluster").
Definition ErrGRPCRequestTooLarge : err := StatusErr InvalidArgument (bs "etcdserver: request is too large").
Definition ErrGRPCRequestTooManyRequests : err := StatusErr ResourceExhausted (bs "etcdserver: too many requests").
Definition ErrGRPCRootUserNotExist : err := StatusErr FailedPrecondition (bs "etcdserver: root user does not exist").
Definition ErrGRPCRootRoleNotExist : err := StatusErr FailedPrecondition (bs "etcdserver: root user does not have root role").
Definition ErrGRPCUserAlreadyExist : err := StatusErr FailedPrecondition (bs "etcdserver: user name already exists").
Definition ErrGRPCUserEmpty : err := StatusErr InvalidArgument (bs "etcdserver: user name is empty").
Definition ErrGRPCUserNotFound : err := StatusErr FailedPrecondition (bs "etcdserver: user name not found").
Definition ErrGRPCRoleAlreadyExist : err := StatusErr FailedPrecondition (bs "etcdserver: role name already exists").
Definition ErrGRPCRoleNotFound : err := StatusErr FailedPrecondition (bs "etcdserver: role name not found").
Definition ErrGRPCRoleEmpty : err := StatusErr InvalidArgument (bs "etcdserver: role name is empty").
Definition ErrGRPCAuthFailed : err := StatusErr InvalidArgument (bs "etcdserver: authentication failed, invalid user ID or password").
Definition ErrGRPCPermissionDenied : err := StatusErr PermissionDenied (bs "etcdserver: permission denied").
Definition ErrGRPCRoleNotGranted : err := StatusErr FailedPrecondition (bs "etcdserver: role is not granted to the user").
Definition ErrGRPCPermissionNotGranted : err := StatusErr FailedPrecondition (bs "etcdserver: permission is not granted to the role").
Definition ErrGRPCAuthNotEnabled : err := StatusErr FailedPrecondition (bs "etcdserver: authentication is not enabled").
Definition ErrGRPCInvalidAuthToken : err := StatusErr Unauthenticated (bs "etcdserver: invalid auth token").
Definition ErrGRPCInvalidAuthMgmt : err := StatusErr InvalidArgument (bs "etcdserver: invalid auth management").
Definition ErrGRPCNoLeader : err := StatusErr Unavailable (bs "etcdserver: no leader").
Definition ErrGRPCNotLeader : err := StatusErr FailedPrecondition (bs "etcdserver: not leader").
Definition ErrGRPCLeaderChanged : err := StatusErr Unavailable (bs "etcdserver: leader changed").
Definition ErrGRPCNotCapable : err := StatusErr Unavailable (bs "etcdserver: not capable").
Definition ErrGRPCStopped : err := StatusErr Unavailable (bs "etcdserver: server stopped").
Definition ErrGRPCTimeout : err := StatusErr Unavailable (bs "etcdserver: request timed out").
Definition ErrGRPCTimeoutDueToLeaderFail : err := StatusErr Unavailable (bs "etcdserver: request timed out, possibly due to previous leader failure").
Definition ErrGRPCTimeoutDueToConnectionLost : err := StatusErr Unavailable (bs "etcdserver: request timed out, possibly due to connection lost").
Definition ErrGRPCUnhealthy : err := StatusErr Unavailable (bs "etcdserver: unhealthy cluster").
Definition ErrGRPCCorrupt : err := StatusErr DataLoss (bs "etcdserver: corrupt cluster").
Definition ErrGPRCNotSupportedForLearner : err := StatusErr Unavailable (bs "etcdserver: rpc not supported for learner").
Definition ErrGRPCBadLeaderTransferee : err := StatusErr FailedPrecondition (bs "etcdserver: bad leader transferee").

(** What is used of google.golang.org/grpc/status: [FromError] gives the code and
    the message of a status and says that it is one; another error has the code
    [Unknown] and its own text.  A status prints as [statusText]. *)
Class StatusLib := {
  statusText : Code → list Z → list Z;
  FromError : err → Code * list Z * bool;
  FromError_status c m : c ≠ OK → FromError (StatusErr c m) = (c, m, true);
  FromError_etcd c d : FromError (EtcdError c d) = (Unknown, d, false);
  FromError_var v : FromError (Var v) = (Unknown, errorVarText v, false)
}.

(** [EtcdError]'s methods. *)
Definition EtcdError_Code (e : Code * list Z) : Code := e.1.
Definition EtcdError_Error (e : Code * list Z) : list Z := e.2.

Section Ops.
Context `{SL : StatusLib}.

(** [err.Error()] *)
Definition Error_ (e : err) : list Z :=
  match e with
  | StatusErr c m => statusText c m
  | EtcdError c d => EtcdError_Error (c, d)
  | Var v => errorVarText v
  end.

Definition ErrorDesc (e : err) : list Z :=
  let '(_, m, ok) := FromError e in if ok then m else Error_ e.

(** The errors the table is made of, in its order. *)
Definition grpcErrors : list err :=
  [ErrGRPCEmptyKey; ErrGRPCKeyNotFound; ErrGRPCValueProvided;
   ErrGRPCLeaseProvided; ErrGRPCTooManyOps; ErrGRPCDuplicateKey;
   ErrGRPCCompacted; ErrGRPCFutureRev; ErrGRPCNoSpace;
   ErrGRPCLeaseNotFound; ErrGRPCLeaseExist; ErrGRPCLeaseTTLTooLarge;
   ErrGRPCMemberExist; ErrGRPCPeerURLExist; ErrGRPCMemberNotEnoughStarted;
   ErrGRPCMemberBadURLs; ErrGRPCMemberNotFound; ErrGRPCMemberNotLearner;
   ErrGRPCLearnerNotReady; ErrGRPCTooManyLearners; ErrGRPCRequestTooLarge;
   ErrGRPCRequestTooManyRequests; ErrGRPCRootUserNotExist; ErrGRPCRootRoleNotExist;
   ErrGRPCUserAlreadyExist; ErrGRPCUserEmpty; ErrGRPCUserNotFound;
   ErrGRPCRoleAlreadyExist; ErrGRPCRoleNotFound; ErrGRPCRoleEmpty;
   ErrGRPCAuthFailed; ErrGRPCPermissionDenied; ErrGRPCRoleNotGranted;
   ErrGRPCPermissionNotGranted; ErrGRPCAuthNotEnabled; ErrGRPCInvalidAuthToken;
   ErrGRPCInvalidAuthMgmt; ErrGRPCNoLeader; ErrGRPCNotLeader;
   ErrGRPCLeaderChanged; ErrGRPCNotCapable; ErrGRPCStopped;
   ErrGRPCTimeout; ErrGRPCTimeoutDueToLeaderFail; ErrGRPCTimeoutDueToConnectionLost;
   ErrGRPCUnhealthy; ErrGRPCCorrupt; ErrGPRCNotSupportedForLearner;
   ErrGRPCBadLeaderTransferee].

Definition errStringToError : gmap (list Z) err :=
  foldl (λ m e, <[ErrorDesc e := e]> m) ∅ grpcErrors.

Definition Error (e : option err) : option err :=
  match e with
  | None => None
  | Some e =>
      match errStringToError !! ErrorDesc e with
      | None => Some e
      | Some verr =>
          let '(c, m, ok) := FromError verr in
          Some (EtcdError c (if ok then m else Error_ verr))
      end
  end.

Definition ErrEmptyKey : option err := Error (Some ErrGRPCEmptyKey).
Definition ErrKeyNotFound : option err := Error (Some ErrGRPCKeyNotFound).
Definition ErrValueProvided : option err := Error (Some ErrGRPCValueProvided).
Definition ErrLeaseProvided : option err := Error (Some ErrGRPCLeaseProvided).
Definition ErrTooManyOps : option err := Error (Some ErrGRPCTooManyOps).
Definition ErrDuplicateKey : option err := Error (Some ErrGRPCDuplicateKey).
Definition ErrCompacted : option err := Error (Some ErrGRPCCompacted).
Definition ErrFutureRev : option err := Error (Some ErrGRPCFutureRev).
Definition ErrNoSpace : option err := Error (Some ErrGRPCNoSpace).
Definition ErrLeaseNotFound : option err := Error (Some ErrGRPCLeaseNotFound).
Definition ErrLeaseExist : option err := Error (Some ErrGRPCLeaseExist).
Definition ErrLeaseTTLTooLarge : option err := Error (Some ErrGRPCLeaseTTLTooLarge).
Definition ErrMemberExist : option err := Error (Some ErrGRPCMemberExist).
Definition ErrPeerURLExist : option err := Error (Some ErrGRPCPeerURLExist).
Definition ErrMemberNotEnoughStarted : option err := Error (Some ErrGRPCMemberNotEnoughStarted).
Definition ErrMemberBadURLs : option err := Error (Some ErrGRPCMemberBadURLs).
Definition ErrMemberNotFound : option err := Error (Some ErrGRPCMemberNotFound).
Definition ErrMemberNotLearner : option err := Error (Some ErrGRPCMemberNotLearner).
Definition ErrMemberLearnerNotReady : option err := Error (Some ErrGRPCLearnerNotReady).
Definition ErrTooManyLearners : option err := Error (Some ErrGRPCTooManyLearners).
Definition ErrRequestTooLarge : option err := Error (Some ErrGRPCRequestTooLarge).
Definition ErrTooManyRequests : option err := Error (Some ErrGRPCRequestTooManyRequests).
Definition ErrRootUserNotExist : option err := Error (Some ErrGRPCRootUserNotExist).
Definition ErrRootRoleNotExist : option err := Error (Some ErrGRPCRootRoleNotExist).
Definition ErrUserAlreadyExist : option err := Error (Some ErrGRPCUserAlreadyExist).
Definition ErrUserEmpty : option err := Error (Some ErrGRPCUserEmpty).
Definition ErrUserNotFound : option err := Error (Some ErrGRPCUserNotFound).
Definition ErrRoleAlreadyExist : option err := Error (Some ErrGRPCRoleAlreadyExist).
Definition ErrRoleNotFound : option err := Error (Some ErrGRPCRoleNotFound).
Definition ErrRoleEmpty : option err := Error (Some ErrGRPCRoleEmpty).
Definition ErrAuthFailed : option err := Error (Some ErrGRPCAuthFailed).
Definition ErrPermissionDenied : option err := Error (Some ErrGRPCPermissionDenied).
Definition ErrRoleNotGranted : option err := Error (Some ErrGRPCRoleNotGranted).
Definition ErrPermissionNotGranted : option err := Error (Some ErrGRPCPermissionNotGranted).
Definition ErrAuthNotEnabled : option err := Error (Some ErrGRPCAuthNotEnabled).
Definition ErrInvalidAuthToken : option err := Error (Some ErrGRPCInvalidAuthToken).
Definition ErrInvalidAuthMgmt : option err := Error (Some ErrGRPCInvalidAuthMgmt).
Definition ErrNoLeader : option err := Error (Some ErrGRPCNoLeader).
Definition ErrNotLeader : option err := Error (Some ErrGRPCNotLeader).
Definition ErrLeaderChanged : option err := Error (Some ErrGRPCLeaderChanged).
Definition ErrNotCapable : option err := Error (Some ErrGRPCNotCapable).
Definition ErrStopped : option err := Error (Some ErrGRPCStopped).
Definition ErrTimeout : option err := Error (Some ErrGRPCTimeout).
Definition ErrTimeoutDueToLeaderFail : option err := Error (Some ErrGRPCTimeoutDueToLeaderFail).
Definition ErrTimeoutDueToConnectionLost : option err := Error (Some ErrGRPCTimeoutDueToConnectionLost).
Definition ErrUnhealthy : option err := Error (Some ErrGRPCUnhealthy).
Definition ErrCorrupt : option err := Error (Some ErrGRPCCorrupt).
Definition ErrBadLeaderTransferee : option err := Error (Some ErrGRPCBadLeaderTransferee).
End Ops.
End rpctypes.

(** ** v3rpc/util.go *)
Module v3rpc.
Import rpctypes.

Section Ops.
Context `{SL : StatusLib}.

Definition toGRPCErrorMap : list (errorVar * option err) :=
  [(membership_ErrIDRemoved, Some ErrGRPCMemberNotFound);
   (membership_ErrIDNotFound, Some ErrGRPCMemberNotFound);
   (membership_ErrIDExists, Some ErrGRPCMemberExist);
   (membership_ErrPeerURLexists, Some ErrGRPCPeerURLExist);
   (membership_ErrMemberNotLearner, Some ErrGRPCMemberNotLearner);
   (membership_ErrTooManyLearners, Some ErrGRPCTooManyLearners);
   (etcdserver_ErrNotEnoughStartedMembers, ErrMemberNotEnoughStarted);
   (etcdserver_ErrLearnerNotReady, Some ErrGRPCLearnerNotReady);
   (mvcc_ErrCompacted, Some ErrGRPCCompacted);
   (mvcc_ErrFutureRev, Some ErrGRPCFutureRev);
   (etcdserver_ErrRequestTooLarge, Some ErrGRPCRequestTooLarge);
   (etcdserver_ErrNoSpace, Some ErrGRPCNoSpace);
   (etcdserver_ErrTooManyRequests, ErrTooManyRequests);
   (etcdserver_ErrNoLeader, Some ErrGRPCNoLeader);
   (etcdserver_ErrNotLeader, Some ErrGRPCNotLeader);
   (etcdserver_ErrLeaderChanged, Some ErrGRPCLeaderChanged);
   (etcdserver_ErrStopped, Some ErrGRPCStopped);
   (etcdserver_ErrTimeout, Some ErrGRPCTimeout);
   (etcdserver_ErrTimeoutDueToLeaderFail, Some ErrGRPCTimeoutDueToLeaderFail);
   (etcdserver_ErrTimeoutDueToConnectionLost, Some ErrGRPCTimeoutDueToConnectionLost);
   (etcdserver_ErrUnhealthy, Some ErrGRPCUnhealthy);
   (etcdserver_ErrKeyNotFound, Some ErrGRPCKeyNotFound);
   (etcdserver_ErrCorrupt, Some ErrGRPCCorrupt);
   (etcdserver_ErrBadLeaderTransferee, Some ErrGRPCBadLeaderTransferee);
   (lease_ErrLeaseNotFound, Some ErrGRPCLeaseNotFound);
   (lease_ErrLeaseExists, Some ErrGRPCLeaseExist);
   (lease_ErrLeaseTTLTooLarge, Some ErrGRPCLeaseTTLTooLarge)].
End Ops.

(** ** v3rpc/key.go, header.go, quota.go *)

Section Service.
Context `{SL : StatusLib}.

(** The server behind [sg] and [kv] is the one the record is made for; [rev] is
    not set. *)
Record header := Header { clusterID : Z; memberID : Z }.
Definition newHeader (s : EtcdServer.t) : outcome header :=
  match EtcdServer.cluster s with
  | None => Panic NilDereference
  | Some c => Ret (Header (i64 (RaftCluster.cid c)) (i64 (EtcdServer.id s)))
  end.

Record kvServer := KvServer { hdr : header; kv : EtcdServer.t; maxTxnOps : Z }.
Definition NewKVServer (s : EtcdServer.t) : outcome kvServer :=
  h ← newHeader s;
  Ret (KvServer h s (ServerConfig.MaxTxnOps (EtcdServer.Cfg s))).

(** The alarmer is the server. *)
Record quotaKVServer := QuotaKVServer { KVServer_ : kvServer; q : Quota; id_ : Z }.
Definition NewQuotaKVServer (s : EtcdServer.t) : outcome quotaKVServer :=
  k ← NewKVServer s;
  Ret (QuotaKVServer k (NewBackendQuota (EtcdServer.Cfg s)) (EtcdServer.id s)).

Definition checkRangeRequest (r : RangeRequest.t) : option err :=
  if len (RangeRequest.Key r) =? 0 then Some ErrGRPCEmptyKey else None.

Definition checkPutRequest (r : PutRequest.t) : option err :=
  if len (PutRequest.Key r) =? 0 then Some ErrGRPCEmptyKey
  else if PutRequest.IgnoreValue r && negb (len (PutRequest.Value r) =? 0) then Some ErrGRPCValueProvided
  else if PutRequest.IgnoreLease r && negb (PutRequest.Lease r =? 0) then Some ErrGRPCLeaseProvided
  else None.

(** A handler returns a pointer to a response and an error. *)
Definition Range (r : RangeRequest.t) : option RangeResponse.t * option err := (None, None).
Definition Put (kvPut : PutRequest.t → option PutResponse.t * option err) (r : PutRequest.t)
    : option PutResponse.t * option err :=
  match checkPutRequest r with
  | Some e => (None, Some e)
  | None => let '(_, e) := kvPut r in (None, e)
  end.

(** [RaftKV]'s [Put] of the server, by the outcome of [Requests]: the errors it can
    have are the package-level ones and those of encoding and of the context. *)
Definition serverError (e : error) : option errorVar :=
  match e with
  | Prelude.ErrTooManyRequests => Some etcdserver_ErrTooManyRequests
  | Prelude.ErrRequestTooLarge => Some etcdserver_ErrRequestTooLarge
  | Prelude.ErrStopped => Some etcdserver_ErrStopped
  | Prelude.ErrTimeout => Some etcdserver_ErrTimeout
  | Prelude.ErrTimeoutDueToLeaderFail => Some etcdserver_ErrTimeoutDueToLeaderFail
  | Prelude.ErrCanceled => Some etcdserver_ErrCanceled
  | _ => None
  end.
End Service.
End v3rpc.

(** ** What clients see of an error *)

Import rpctypes.

(** The code and the description of an error, statuses by construction. *)
Definition codeOf (e : err) : Code :=
  match e with StatusErr c _ | EtcdError c _ => c | Var _ => Unknown end.
Definition descOf (e : err) : list Z :=
  match e with StatusErr _ m | EtcdError _ m => m | Var v => errorVarText v end.
Definition isStatus (e : err) : bool :=
  match e with StatusErr c _ => negb (bool_decide (c = OK)) | _ => false end.

Lemma grpcErrors_status : Forall (λ e, isStatus e = true) grpcErrors.
Proof. by apply (bool_decide_unpack _). Qed.

Lemma grpcErrors_known : Forall (λ e, codeOf e ≠ Unknown) grpcErrors.
Proof. by apply (bool_decide_unpack _). Qed.

(** No two gRPC errors share a description, so that the table loses none. *)
Lemma grpcErrors_distinct : NoDup (descOf <$> grpcErrors).
Proof. apply (bool_decide_unpack _). by vm_compute. Qed.

Lemma foldl_insert_lookup {K A} `{Countable K} (f : A → K) l (m : gmap K A) k x :
  NoDup (f <$> l) → (∀ y, y ∈ l → m !! f y = None) →
  foldl (λ m e, <[f e := e]> m) m l !! k = Some x ↔ m !! k = Some x ∨ x ∈ l ∧ f x = k.
Proof.
  revert m. induction l as [|y l IH]; intros m Hnd Hm; simpl; [set_solver|].
  apply NoDup_cons in Hnd as [Hy Hnd]. rewrite IH; [|done|].
  - rewrite lookup_insert_Some, elem_of_cons. pose proof (Hm y ltac:(set_solver)). naive_solver.
  - intros z Hz. rewrite lookup_insert_ne; [by apply Hm; set_solver|].
    intros E. apply Hy. rewrite E. by apply list_elem_of_fmap_2.
Qed.

Section Clients.
Context `{SL : StatusLib}.

Lemma FromError_desc e : isStatus e = true → FromError e = (codeOf e, descOf e, true).
Proof.
  destruct e as [c m| |]; try done. unfold isStatus. intros H. apply FromError_status.
  by destruct (bool_decide_reflect (c = OK)).
Qed.

Lemma ErrorDesc_status e : isStatus e = true → ErrorDesc e = descOf e.
Proof. intros H. unfold ErrorDesc. by rewrite FromError_desc. Qed.

Lemma ErrorDesc_etcd c d : ErrorDesc (EtcdError c d) = d.
Proof. unfold ErrorDesc. by rewrite FromError_etcd. Qed.

Lemma table_lookup d e : errStringToError !! d = Some e ↔ e ∈ grpcErrors ∧ descOf e = d.
Proof.
  assert (He : errStringToError = foldl (λ m e, <[descOf e := e]> m) ∅ grpcErrors).
  { unfold errStringToError. generalize (∅ : gmap (list Z) err). pose proof grpcErrors_status as Hs.
    induction Hs as [|x l Hx _ IH]; intros m; [done|]. cbn [foldl]. by rewrite ErrorDesc_status, IH. }
  rewrite He, foldl_insert_lookup; [|apply grpcErrors_distinct|intros y _; apply lookup_empty].
  rewrite lookup_empty. split; [by intros [[=]|H]|by right].
Qed.

Lemma Error_known g e :
  g ∈ grpcErrors → ErrorDesc e = descOf g → Error (Some e) = Some (EtcdError (codeOf g) (descOf g)).
Proof.
  intros Hg He. unfold Error. rewrite He.
  rewrite (proj2 (table_lookup (descOf g) g)) by done.
  rewrite FromError_desc; [done|]. pose proof grpcErrors_status as Hs. rewrite Forall_forall in Hs. auto.
Qed.

Lemma Error_unknown e :
  ErrorDesc e ∉ descOf <$> grpcErrors → Error (Some e) = Some e.
Proof.
  intros He. unfold Error. destruct (errStringToError !! ErrorDesc e) as [g|] eqn:E; [|done].
  apply table_lookup in E as [Hg E]. exfalso. apply He. rewrite <- E. by apply list_elem_of_fmap_2.
Qed.

(** What [rpctypes.Error] gives a client.  Every gRPC error of
    the table becomes the [EtcdError] with its own code and description, whatever
    form it has when it arrives (a status, or an error with that text); any other
    error stays as it is; the description never changes, and applying [Error]
    again changes nothing. *)
Theorem error_spec e :
  (∀ g, g ∈ grpcErrors → ErrorDesc e = ErrorDesc g →
    Error (Some e) = Some (EtcdError (codeOf g) (ErrorDesc g))) ∧
  ((∀ g, g ∈ grpcErrors → ErrorDesc e ≠ ErrorDesc g) → Error (Some e) = Some e) ∧
  (∃ e', Error (Some e) = Some e' ∧ ErrorDesc e' = ErrorDesc e) ∧
  Error (Error (Some e)) = Error (Some e).
Proof.
  assert (Hd : ∀ g, g ∈ grpcErrors → ErrorDesc g = descOf g).
  { intros g Hg. apply ErrorDesc_status. pose proof grpcErrors_status as Hs. rewrite Forall_forall in Hs. auto. }
  split_and!.
  - intros g Hg He. rewrite (Hd g Hg) in He |- *. by apply Error_known.
  - intros H. apply Error_unknown. intros (g & He & Hg)%list_elem_of_fmap. apply (H g Hg). rewrite (Hd g Hg). exact He.
  - destruct (decide (ErrorDesc e ∈ descOf <$> grpcErrors)) as [(g & He & Hg)%list_elem_of_fmap|Hn].
    + rewrite (Error_known g e) by done. eexists. split; [done|]. by rewrite ErrorDesc_etcd.
    + rewrite Error_unknown by done. by eexists.
  - destruct (decide (ErrorDesc e ∈ descOf <$> grpcErrors)) as [(g & He & Hg)%list_elem_of_fmap|Hn].
    + rewrite (Error_known g e) by done. apply Error_known; [done|apply ErrorDesc_etcd].
    + by rewrite !Error_unknown.
Qed.

(** The table of the server's errors: all but two entries are gRPC statuses; the
    other two are client-side errors, which gRPC does not know the code of. *)
Lemma toGRPCErrorMap_entries v o :
  (v, o) ∈ v3rpc.toGRPCErrorMap →
  (∃ g, o = Some g ∧ g ∈ grpcErrors ∧ v ≠ etcdserver_ErrNotEnoughStartedMembers ∧ v ≠ etcdserver_ErrTooManyRequests)
  ∨ (v = etcdserver_ErrNotEnoughStartedMembers ∧ o = Error (Some ErrGRPCMemberNotEnoughStarted))
  ∨ (v = etcdserver_ErrTooManyRequests ∧ o = Error (Some ErrGRPCRequestTooManyRequests)).
Proof.
  unfold v3rpc.toGRPCErrorMap. intros H.
  repeat (apply elem_of_cons in H as [[= -> ->]|H];
    [first [right; left; split; [reflexivity|reflexivity]
           |right; right; split; [reflexivity|reflexivity]
           |left; eexists; split; [reflexivity|split; [apply (bool_decide_unpack _); vm_compute; exact I|by split]]]|]).
  by apply not_elem_of_nil in H.
Qed.

Lemma Error_member g : g ∈ grpcErrors → Error (Some g) = Some (EtcdError (codeOf g) (descOf g)).
Proof.
  intros Hg. apply Error_known; [done|]. apply ErrorDesc_status.
  pose proof grpcErrors_status as Hs. rewrite Forall_forall in Hs. auto.
Qed.

End Clients.

(** ** An instance *)

(** The library's answers, with the text it prints. *)
Definition sample_FromError (e : err) : Code * list Z * bool :=
  match e with
  | StatusErr c m => (c, m, true)
  | EtcdError c d => (Unknown, d, false)
  | Var v => (Unknown, errorVarText v, false)
  end.
#[local] Instance sample_status : StatusLib :=
  {| statusText _ m := bs "rpc error: desc = " ++ m; FromError := sample_FromError;
     FromError_status _ _ _ := eq_refl; FromError_etcd _ _ := eq_refl; FromError_var _ := eq_refl |}.

Lemma error_spec_witness :
  Error (Some ErrGRPCNoSpace) = Some (EtcdError ResourceExhausted (bs "etcdserver: mvcc: database space exceeded"))
  ∧ Error (Some (Var lease_ErrNotPrimary)) = Some (Var lease_ErrNotPrimary).
Proof.
  split.
  - destruct (error_spec ErrGRPCNoSpace) as (H & _).
    apply (H ErrGRPCNoSpace); [by apply (bool_decide_unpack _)|reflexivity].
  - destruct (error_spec (Var lease_ErrNotPrimary)) as (_ & H & _). apply H. intros g Hg.
    assert (Hn : Forall (λ g, ErrorDesc (Var lease_ErrNotPrimary) ≠ ErrorDesc g) grpcErrors)
      by (apply (bool_decide_unpack _); vm_compute; exact I).
    rewrite Forall_forall in Hn. auto.
Defined.

