(* ===== verification/Listeners.v ===== *)
(** * pkg/transport: listeners, connections and TLS settings

    listener.go, limit_listen.go, keepalive_listener.go, timeout_listener.go,
    timeout_conn.go, timeout_dialer.go, timeout_transport.go, transport.go,
    unix_listener.go, pkg/tlsutil and the constructors of rafthttp/util.go.

    A listener is the stack of wrappers around what [net.Listen] gave; accepting a
    connection goes through the stack.  What the network, the disk and the crypto
    libraries answer is an argument. *)

From S2P Require Import Prelude GoStd Urls Storage Raft Node Membership Requests Server Embed.

(** ** TLS settings *)

Definition VersionTLS12 : Z := 771.

(** How a client's certificate is checked. *)
Inductive verifyCertificate := VerifyCN (cn : list Z) | VerifyHostname (h : list Z).

Record tlsConfig := TlsConfig {
  MinVersion : Z; cfgServerName : list Z; cfgCipherSuites : list Z;
  VerifyPeerCertificate : option verifyCertificate; cfgInsecureSkipVerify : bool
}.

(** A certificate: its common name and the host names it is valid for. *)
Record certificate := Certificate { CommonName : list Z; validFor : list Z → bool }.

Definition verifies (v : verifyCertificate) (cert : certificate) : bool :=
  match v with
  | VerifyCN cn => bool_decide (cn = CommonName cert)
  | VerifyHostname h => validFor cert h
  end.

(** The function that [baseConfig] sets: the first certificate of some chain. *)
Definition verifyPeerCertificate (v : verifyCertificate) (verifiedChains : list (list certificate))
    : outcome unit :=
  if existsb (λ chain, match chain with [] => false | c :: _ => verifies v c end) verifiedChains
  then Ret tt else Err (Errorf "client certificate authentication failed").

Section TLS.
(** Reading a file, and parsing a pair of PEM blocks. *)
Context (readFile : list Z → outcome (list Z)) (parse : list Z → list Z → outcome Z).

(** tlsutil.NewCert *)
Definition NewCert (certfile keyfile : list Z) : outcome Z :=
  cert ← readFile certfile;
  key ← readFile keyfile;
  parse cert key.

Definition baseConfig (info : TLSInfo.t) : outcome tlsConfig :=
  if bool_decide (TLSInfo.KeyFile info = []) || bool_decide (TLSInfo.CertFile info = [])
  then Err (Errorf "KeyFile and CertFile must both be present")
  else
    _ ← NewCert (TLSInfo.CertFile info) (TLSInfo.KeyFile info);
    if negb (bool_decide (TLSInfo.AllowedCN info = [])) && negb (bool_decide (TLSInfo.AllowedHostname info = []))
    then Err (Errorf "AllowedCN and AllowedHostname are mutually exclusive")
    else
      let verify :=
        if negb (bool_decide (TLSInfo.AllowedHostname info = []))
        then Some (VerifyHostname (TLSInfo.AllowedHostname info))
        else if negb (bool_decide (TLSInfo.AllowedCN info = []))
        then Some (VerifyCN (TLSInfo.AllowedCN info)) else None in
      Ret (TlsConfig VersionTLS12 (TLSInfo.ServerName info) (TLSInfo.CipherSuites info) verify false).

(** The CA files are not read. *)
Definition ClientConfig (info : TLSInfo.t) : outcome tlsConfig :=
  cfg ← if negb (TLSInfo.Empty info) then baseConfig info
        else Ret (TlsConfig 0 (TLSInfo.ServerName info) [] None false);
  Ret (TlsConfig (MinVersion cfg) (cfgServerName cfg) (cfgCipherSuites cfg) (VerifyPeerCertificate cfg)
         (TLSInfo.InsecureSkipVerify info || TLSInfo.selfCert info)).

(** ** transport.go, timeout_transport.go, timeout_dialer.go

    A round tripper: how it dials, and the protocols registered with it. *)
Record dialer := Dialer { Timeout : Z; KeepAlive : Z; rdtimeoutd : Z; wtimeoutd : Z }.
Record httpTransport := HttpTransport {
  Dial : dialer; TLSHandshakeTimeout : Z; TLSClientConfig : tlsConfig;
  MaxIdleConnsPerHost : Z; protocols : list (list Z)
}.

Definition NewTransport (info : TLSInfo.t) (dialtimeoutd : Z) : outcome httpTransport :=
  cfg ← ClientConfig info;
  Ret (HttpTransport (Dialer dialtimeoutd (30 * Second) 0 0) (10 * Second) cfg 0 [bs "unix"; bs "unixs"]).

Definition NewTimeoutTransport (info : TLSInfo.t) (dialtimeoutd rd wt : Z) : outcome httpTransport :=
  tr ← NewTransport info dialtimeoutd;
  let idle := if negb (rd =? 0) || negb (wt =? 0) then -1 else 1024 in
  Ret (HttpTransport (Dialer dialtimeoutd (30 * Second) rd wt) (TLSHandshakeTimeout tr)
         (TLSClientConfig tr) idle (protocols tr)).

(** rafthttp/util.go *)
Definition ConnReadTimeout : Z := 5 * Second.
Definition ConnWriteTimeout : Z := 5 * Second.
Definition NewRoundTripper (info : TLSInfo.t) (dialTimeout : Z) : outcome httpTransport :=
  NewTimeoutTransport info dialTimeout 0 0.
Definition newStreamRoundTripper (info : TLSInfo.t) (dialTimeout : Z) : outcome httpTransport :=
  NewTimeoutTransport info dialTimeout ConnReadTimeout ConnWriteTimeout.
End TLS.

(** [strings.Replace(s, old, new, 1)] for a non-empty [old]. *)
Fixpoint replaceFirst (s old new : list Z) : list Z :=
  if hasPrefix old s then new ++ drop (length old) s
  else match s with [] => [] | c :: s => c :: replaceFirst s old new end.

(** [unixTransport.RoundTrip]: the scheme the request is sent with. *)
Definition unixScheme (scheme : list Z) : list Z := replaceFirst scheme (bs "unix") (bs "http").

(** ** Listeners and connections *)

(** A connection: what the network gave (a TCP connection with the period of its
    keep-alive probes, or a Unix one), TLS on it, or one of the wrappers. *)
Inductive conn :=
  | CTcp (keepAlive : option Z)
  | CUnix
  | CTls (c : conn) (cfg : tlsConfig)
  | CTimeout (rd wt : Z) (c : conn)
  | CLimit (c : conn).

Inductive listener :=
  | LNet (network addr : list Z)
  | LUnix (l : listener)                            (** [unixListener] *)
  | LKeepAlive (l : listener)
  | LTlsKeepAlive (l : listener) (cfg : tlsConfig)
  | LTimeout (rd wt : Z) (l : listener)
  | LLimit (n : Z) (l : listener).

(** [SetKeepAlive(true)] and [SetKeepAlivePeriod(d)], [None] when the connection has
    no such methods.  A limited connection has them, and gives an error when
    there is no TCP connection right below, which is ignored. *)
Definition setKeepAlive (d : Z) (c : conn) : option conn :=
  match c with
  | CTcp _ => Some (CTcp (Some d))
  | CLimit (CTcp _) => Some (CLimit (CTcp (Some d)))
  | CLimit c => Some (CLimit c)
  | _ => None
  end.

(** [keepaliveListener.Accept], with what the inner listener accepts: it asserts that
    the connection has the methods. *)
Definition acceptKeepAlive (accepted : outcome conn) : outcome conn :=
  c ← accepted;
  match setKeepAlive (30 * Second) c with
  | Some c => Ret c
  | None => Panic (PanicString "interface conversion: missing method SetKeepAlive")
  end.
Definition newTLSKeepaliveListener (inner : listener) (config : tlsConfig) : listener := LTlsKeepAlive inner config.

(** [Accept] when the network gives a connection. *)
Fixpoint Accept (l : listener) : outcome conn :=
  match l with
  | LNet network _ => Ret (if decide (network = bs "tcp") then CTcp None else CUnix)
  | LUnix l => Accept l
  | LKeepAlive l => acceptKeepAlive (Accept l)
  | LTlsKeepAlive l _ => Accept l
  | LTimeout rd wt l => c ← Accept l; Ret (CTimeout rd wt c)
  | LLimit _ l => c ← Accept l; Ret (CLimit c)
  end.

Definition NewKeepAliveListener (l : listener) (scheme : list Z) (tlscfg : option tlsConfig) : outcome listener :=
  if decide (scheme = bs "https") then
    match tlscfg with
    | None => Err (Errorf "cannot listen on TLS for given listener: KeyFile and CertFile are not presented")
    | Some cfg => Ret (newTLSKeepaliveListener l cfg)
    end
  else Ret (LKeepAlive l).

Section Listen.
(** [net.Listen], and [os.Remove] of a socket, nil if there is none. *)
Context (listen : list Z → list Z → outcome unit) (remove : list Z → option error).

Definition netListen (network addr : list Z) : outcome listener := _ ← listen network addr; Ret (LNet network addr).

Definition NewUnixListener (addr : list Z) : outcome listener :=
  match remove addr with
  | Some err => Err err
  | None => l ← netListen (bs "unix") addr; Ret (LUnix l)
  end.

(** [unixListener.Close], with what closing the listener below gives. *)
Definition unixClose (addr : list Z) (close : outcome unit) : outcome unit :=
  match remove addr with Some err => Err err | None => close end.

Definition newListener (addr scheme : list Z) : outcome listener :=
  if decide (scheme = bs "unix" ∨ scheme = bs "unixs") then NewUnixListener addr
  else netListen (bs "tcp") addr.

(** Both branches return the listener as it is. *)
Definition wrapTLS (scheme : list Z) (tlsinfo : option TLSInfo.t) (l : listener) : outcome listener :=
  if negb (bool_decide (scheme = bs "https")) && negb (bool_decide (scheme = bs "unixs")) then Ret l else Ret l.

Definition NewListener (addr scheme : list Z) (tlsinfo : option TLSInfo.t) : outcome listener :=
  l ← newListener addr scheme; wrapTLS scheme tlsinfo l.

Definition NewTimeoutListener (addr scheme : list Z) (tlsinfo : option TLSInfo.t) (rd wt : Z) : outcome listener :=
  ln ← newListener addr scheme;
  wrapTLS scheme tlsinfo (LTimeout rd wt ln).

(** rafthttp.NewListener *)
Definition raftListener (u : url.URL) (tlsinfo : option TLSInfo.t) : outcome listener :=
  NewTimeoutListener (url.Host u) (url.Scheme u) tlsinfo ConnReadTimeout ConnWriteTimeout.

(** What [configureClientListeners] builds for an address: a limited listener,
    when the limit of descriptors is known, with keep-alive on TCP. *)
Definition clientListener (fdLimit : option Z) (network addr : list Z) : outcome listener :=
  l ← netListen network addr;
  let l := match fdLimit with
           | Some n => LLimit (i64 (n ⊖ Embed.reservedInternalFDNum)) l
           | None => l
           end in
  if decide (network = bs "tcp") then NewKeepAliveListener l network None else Ret l.
End Listen.

(** ** timeout_conn.go

    Each call sets its deadline before it reads or writes; [setErr] is the error of
    setting it.  The result is the deadline, if one was set, and the outcome. *)
Definition withDeadline (timeout now : Z) (setErr : option error) (call : outcome Z) : option Z * outcome Z :=
  if timeout >? 0 then
    match setErr with
    | Some err => (None, Err err)
    | None => (Some (now + timeout), call)
    end
  else (None, call).
Definition timeoutWrite (wt now : Z) (setErr : option error) (write : outcome Z) : option Z * outcome Z :=
  withDeadline wt now setErr write.
Definition timeoutRead (rd now : Z) (setErr : option error) (read : outcome Z) : option Z * outcome Z :=
  withDeadline rd now setErr read.

(** [rwTimeoutDialer.Dial] wraps the connection, also when dialling failed. *)
Definition timeoutDial (d : dialer) (dialled : option conn * option error) : option (Z * Z * option conn) * option error :=
  (Some (rdtimeoutd d, wtimeoutd d, dialled.1), dialled.2).

(** ** limit_listen.go

    The state of a limited listener: the capacity and the length of the channel
    [sem], the number of [Accept] calls that have acquired and wait for a connection,
    and for every connection that was given out whether its [releaseOnce] is
    done. *)
Module limitListener.
Record t := mk { cap : nat; sem : nat; accepting : nat; conns : gmap nat bool; next : nat }.

(** [make(chan struct{}, n)] *)
Definition LimitListener (n : Z) : outcome t :=
  if n <? 0 then Panic (PanicString "makechan: size out of range") else Ret (mk (Z.to_nat n) 0 0 ∅ 0).

(** [None]: the goroutine waits. *)
Definition acquire (l : t) : option t :=
  if (sem l <? cap l)%nat then Some (mk (cap l) (S (sem l)) (accepting l) (conns l) (next l)) else None.
Definition release (l : t) : option t :=
  match sem l with
  | O => None
  | S n => Some (mk (cap l) n (accepting l) (conns l) (next l))
  end.

(** The actions of goroutines: the start of [Accept], the result of the inner
    [Accept], and [Close] of a connection, which may be called again. *)
Inductive action := accept | gotConn | gotError | close (c : nat).

Definition step (a : action) (l : t) : option t :=
  match a with
  | accept => option_map (λ l, mk (cap l) (sem l) (S (accepting l)) (conns l) (next l)) (acquire l)
  | gotConn =>
      match accepting l with
      | O => None
      | S k => Some (mk (cap l) (sem l) k (<[next l := false]> (conns l)) (S (next l)))
      end
  | gotError =>
      match accepting l with
      | O => None
      | S k => release (mk (cap l) (sem l) k (conns l) (next l))
      end
  | close c =>
      match conns l !! c with
      | None => None
      | Some true => Some l
      | Some false => release (mk (cap l) (sem l) (accepting l) (<[c := true]> (conns l)) (next l))
      end
  end.

(** The states that goroutines can bring a new listener to. *)
Inductive reachable (n : Z) : t → Prop :=
  | reach_new l : LimitListener n = Ret l → reachable n l
  | reach_step l a l' : reachable n l → step a l = Some l' → reachable n l'.

(** The connections that are given out and not closed. *)
Definition open (l : t) : nat := size (filter (λ cb, cb.2 = false) (conns l)).
End limitListener.

(** ** The limit is kept *)

Section Limit.
Import limitListener.

(** Every slot of the channel belongs to a call of [Accept] or to an open
    connection, and connections are numbered below the next one. *)
Record limit_inv (n : Z) (l : t) : Prop := LimitInv {
  li_cap : Z.of_nat (cap l) = n;
  li_sem : sem l = (accepting l + open l)%nat;
  li_le : (sem l ≤ cap l)%nat;
  li_next c : is_Some (conns l !! c) → (c < next l)%nat
}.

Lemma open_insert l c a s k n' :
  conns l !! c = None → open (mk a s k (<[c := false]> (conns l)) n') = S (open l).
Proof.
  intros Hc. unfold open. cbn [conns]. rewrite map_filter_insert_True by done.
  apply map_size_insert_None. apply map_lookup_filter_None. by left.
Qed.

Lemma open_close l c a s k n' :
  conns l !! c = Some false → S (open (mk a s k (<[c := true]> (conns l)) n')) = open l.
Proof.
  intros Hc. unfold open. cbn [conns].
  rewrite (map_filter_insert_False (λ cb, cb.2 = false)) by done.
  assert (Hin : filter (λ cb, cb.2 = false) (conns l) !! c = Some false) by (by apply map_lookup_filter_Some).
  rewrite <- (insert_id (filter _ (conns l)) c false Hin) at 1.
  rewrite map_filter_delete. rewrite <- (insert_id _ _ _ Hin) at 2. rewrite <- insert_delete_eq.
  rewrite map_size_insert_None by apply lookup_delete_eq.
  by rewrite insert_id.
Qed.

Lemma limit_inv_step n l a l' : limit_inv n l → step a l = Some l' → limit_inv n l'.
Proof.
  intros [Hc Hs Hle Hn] H. destruct a as [| | |c]; simpl in H.
  - unfold acquire in H. destruct (Nat.ltb_spec (sem l) (cap l)); simplify_eq/=.
    split; cbn [cap sem accepting conns next]; [done|change (open (mk _ _ _ _ _)) with (open l); lia|lia|done].
  - destruct (accepting l) as [|k] eqn:Ea; simplify_eq/=.
    assert (Hf : conns l !! next l = None).
    { destruct (conns l !! next l) eqn:E; [|done]. specialize (Hn (next l) ltac:(by rewrite E)). lia. }
    split; cbn [cap sem accepting conns next]; [done|rewrite open_insert by done; lia|done|].
    intros c. destruct (decide (c = next l)) as [->|Hne]; [lia|].
    rewrite lookup_insert_ne by done. intros Hx%Hn. lia.
  - destruct (accepting l) as [|k] eqn:Ea; [done|]. unfold release in H. cbn [sem] in H.
    destruct (sem l) as [|m] eqn:Es; simplify_eq/=.
    split; cbn [cap sem accepting conns next]; [done|change (open (mk _ _ _ _ _)) with (open l); lia|lia|done].
  - destruct (conns l !! c) as [[]|] eqn:Ec; [by simplify_eq| |done].
    unfold release in H. cbn [sem] in H. destruct (sem l) as [|m] eqn:Es; simplify_eq/=.
    split; cbn [cap sem accepting conns next]; [done| |lia|].
    + pose proof (open_close l c (cap l) m (accepting l) (next l) Ec). lia.
    + intros c'. destruct (decide (c' = c)) as [->|Hne]; [intros _; apply Hn; by rewrite Ec|].
      rewrite lookup_insert_ne by done. apply Hn.
Qed.

Lemma limit_inv_reachable n l : reachable n l → limit_inv n l.
Proof.
  induction 1 as [l H|l a l' _ IH H]; [|by eapply limit_inv_step].
  unfold LimitListener in H. destruct (n <? 0) eqn:E; [done|]. zify_bool. injection H as <-.
  split; cbn [cap sem accepting conns next]; [lia|done|lia|]. intros c [? Hx]. by rewrite lookup_empty in Hx.
Qed.

(** C15 (invariant): a limited listener never has more than [n] connections open,
    counting the calls of [Accept] that wait for one, whatever goroutines accept
    and close, and in which order.  The channel has exactly their number of
    elements, so that giving a slot back never waits; a connection that is closed
    again gives back nothing, and one that is closed the first time makes room for
    the next [Accept]; without an open connection or a waiting call the listener
    is as new. *)
Theorem limitListener_bound n l :
  reachable n l →
  (Z.of_nat (accepting l + open l) ≤ n) ∧ sem l = (accepting l + open l)%nat ∧
  (accepting l ≠ 0%nat → is_Some (step gotError l) ∧ is_Some (step gotConn l)) ∧
  (∀ c, conns l !! c = Some true → step (close c) l = Some l) ∧
  (∀ c, conns l !! c = Some false →
     ∃ l', step (close c) l = Some l' ∧ conns l' !! c = Some true ∧ S (open l') = open l ∧
       is_Some (step accept l')) ∧
  (is_Some (step accept l) ↔ Z.of_nat (accepting l + open l) < n).
Proof.
  intros H. destruct (limit_inv_reachable n l H) as [Hc Hs Hle Hn]. split_and!.
  - lia.
  - done.
  - intros Ha. simpl. destruct (accepting l) as [|k]; [done|]. unfold release. cbn [sem].
    destruct (sem l); [lia|]. by split.
  - intros c Hcl. simpl. by rewrite Hcl.
  - intros c Ho. simpl. rewrite Ho. pose proof (open_close l c (cap l) (sem l) (accepting l) (next l) Ho) as Hop.
    unfold release. cbn [sem]. destruct (sem l) as [|m] eqn:Es; [lia|].
    eexists. split; [done|]. cbn [conns cap sem accepting next]. split; [apply lookup_insert_eq|].
    split; [done|]. unfold step, acquire. cbn [sem cap].
    destruct (Nat.ltb_spec m (cap l)); [by eexists|lia].
  - simpl. unfold acquire. destruct (Nat.ltb_spec (sem l) (cap l)); simpl.
    + split; [lia|by eexists].
    + split; [by intros []|lia].
Qed.

Lemma limitListener_bound_witness :
  ∃ l, reachable 2 l ∧ open l = 2%nat ∧ step accept l = None ∧
    ∃ l', step (close 0) l = Some l' ∧ is_Some (step accept l').
Proof.
  set (l := mk 2 2 0 (<[1%nat := false]> (<[0%nat := false]> ∅)) 2).
  assert (Hr : reachable 2 l).
  { apply (reach_step 2 (mk 2 2 1 (<[0%nat := false]> ∅) 1) gotConn); [|reflexivity].
    apply (reach_step 2 (mk 2 2 2 ∅ 0) gotConn); [|reflexivity].
    apply (reach_step 2 (mk 2 1 1 ∅ 0) accept); [|reflexivity].
    apply (reach_step 2 (mk 2 0 0 ∅ 0) accept); [|reflexivity]. by apply reach_new. }
  exists l. split; [exact Hr|]. split; [reflexivity|]. split; [reflexivity|].
  destruct (limitListener_bound 2 l Hr) as (_ & _ & _ & _ & H & _).
  destruct (H 0%nat eq_refl) as (l' & H1 & _ & _ & H2). exists l'. split; [exact H1|exact H2].
Defined.
End Limit.

(** ** What the listeners of a member accept *)

Fixpoint encrypted (c : conn) : bool :=
  match c with
  | CTcp _ | CUnix => false
  | CTls _ _ => true
  | CTimeout _ _ c => encrypted c
  | CLimit c => encrypted c
  end.

Fixpoint keepAlivePeriod (c : conn) : option Z :=
  match c with
  | CTcp k => k
  | CUnix => None
  | CTls c _ => keepAlivePeriod c
  | CTimeout _ _ c => keepAlivePeriod c
  | CLimit c => keepAlivePeriod c
  end.

Lemma newListener_accepts listen remove addr scheme l :
  newListener listen remove addr scheme = Ret l → ∃ c, Accept l = Ret c ∧ encrypted c = false.
Proof.
  unfold newListener, NewUnixListener, netListen. case_decide.
  - destruct (remove addr); [done|]. destruct (listen _ _); [|done..]. intros [= <-].
    by eexists.
  - destruct (listen _ _); [|done..]. intros [= <-]. by eexists.
Qed.


(** Keep-alive on a connection that has no such methods is a failed assertion:
    an [https] listener with a keep-alive one around its deadlines would panic. *)
Lemma keepAlive_needs_methods rd wt l c :
  Accept l = Ret c → Accept (LKeepAlive (LTimeout rd wt l))
    = Panic (PanicString "interface conversion: missing method SetKeepAlive").
Proof. intros H. simpl. by rewrite H. Qed.

Lemma unixScheme_schemes : unixScheme (bs "unix") = bs "http" ∧ unixScheme (bs "unixs") = bs "https".
Proof. done. Qed.


(** ** Client settings *)

(** The TLS settings of a client are refused exactly when a certificate
    is configured and only one of its files is named, or a file cannot be read
    or parsed, or both a common name and a host name are required; a self-signed
    certificate turns the verification of the server off. *)
Theorem clientConfig_spec readFile parse info :
  (∀ cfg, ClientConfig readFile parse info = Ret cfg →
     cfgInsecureSkipVerify cfg = TLSInfo.InsecureSkipVerify info || TLSInfo.selfCert info ∧
     cfgServerName cfg = TLSInfo.ServerName info ∧
     (TLSInfo.Empty info = false → MinVersion cfg = VersionTLS12)) ∧
  ((∃ cfg, ClientConfig readFile parse info = Ret cfg) ↔
     TLSInfo.Empty info = true ∨
     TLSInfo.CertFile info ≠ [] ∧ TLSInfo.KeyFile info ≠ [] ∧
     (∃ cert, NewCert readFile parse (TLSInfo.CertFile info) (TLSInfo.KeyFile info) = Ret cert) ∧
     (TLSInfo.AllowedCN info = [] ∨ TLSInfo.AllowedHostname info = [])).
Proof.
  unfold ClientConfig, baseConfig. destruct (TLSInfo.Empty info) eqn:E; simpl.
  { split; [by intros cfg [= <-]|]. split; [by left|by eexists]. }
  destruct (TLSInfo.KeyFile info) as [|k ks] eqn:Ek; simpl.
  { split; [done|]. split; [by intros [? ?]|]. by intros [?|(? & ? & _)]. }
  destruct (TLSInfo.CertFile info) as [|f fs] eqn:Ef; simpl.
  { split; [done|]. split; [by intros [? ?]|]. by intros [?|(? & ? & _)]. }
  destruct (NewCert _ _ _ _) as [cert|e|p|] eqn:En; simpl.
  2-4: split; [done|]; split; [by intros [? ?]|]; by intros [?|(_ & _ & [? ?] & _)].
  destruct (TLSInfo.AllowedCN info) as [|a cn] eqn:Ea, (TLSInfo.AllowedHostname info) as [|h hn] eqn:Eh; simpl.
  4: { split; [done|]. split; [by intros [? ?]|]. by intros [?|(_ & _ & _ & [?|?])]. }
  all: split; [by intros cfg [= <-]|]; split; [|by eexists]; intros _; right; split_and!; try done;
    [by eexists|auto].
Qed.
