(* ===== verification/Serving.v ===== *)
(** * Serving HTTP and gRPC

    What the program uses of net/http (requests, responses, [ServeMux]); the
    handlers of etcdhttp (base.go, peer.go), the errors of the v2 API
    (v2error/error.go), version.go, httputil.go; and how embed/serve.go and
    embed/etcd.go put them together: the multiplexers, the access controller, the
    serving goroutines, their errors and their end. *)

From S2P Require Import Prelude GoStd Urls Proto Storage Raft Node Membership Requests Server Embed Listeners.

(** ** net/http *)
Module http.
Record Request := MkRequest {
  Method : list Z; Host : list Z; Path : list Z; ProtoMajor : Z; reqHeader : gmap (list Z) (list (list Z));
  TLS : bool
}.

(** What a handler has written: the header, the status once it is sent, the body. *)
Record Response := MkResponse {
  Header : gmap (list Z) (list (list Z)); status : option Z; body : list Z
}.
Definition fresh : Response := MkResponse ∅ None [].

(** Names of headers are given in their canonical form. *)
Definition Set_ (k v : list Z) (w : Response) : Response :=
  MkResponse (<[k := [v]]> (Header w)) (status w) (body w).
Definition Add (k v : list Z) (w : Response) : Response :=
  MkResponse (<[k := default [] (Header w !! k) ++ [v]]> (Header w)) (status w) (body w).
Definition Get (r : Request) (k : list Z) : list Z :=
  match reqHeader r !! k with Some (v :: _) => v | _ => [] end.

(** Only the first status counts; writing sends 200. *)
Definition WriteHeader (code : Z) (w : Response) : Response :=
  MkResponse (Header w) (match status w with Some c => Some c | None => Some code end) (body w).
Definition Write (b : list Z) (w : Response) : Response :=
  let w := WriteHeader 200 w in MkResponse (Header w) (status w) (body w ++ b).

Definition Error (msg : list Z) (code : Z) (w : Response) : Response :=
  Write (msg ++ [10])
    (WriteHeader code
       (Set_ (bs "X-Content-Type-Options") (bs "nosniff")
          (Set_ (bs "Content-Type") (bs "text/plain; charset=utf-8") w))).
Definition NotFound (w : Response) : Response := Error (bs "404 page not found") 404 w.

(** *** ServeMux

    [H] are the handlers; [es] has the patterns that end in a slash, the longest
    first. *)
Section Mux.
Context {H : Type}.
Record ServeMux := MkMux { m : gmap (list Z) H; es : list (list Z * H); hosts : bool }.
Definition NewServeMux : ServeMux := MkMux ∅ [] false.

Definition endsInSlash (p : list Z) : bool := match rev p with c :: _ => c =? slash | [] => false end.

(** [appendSorted]: before the first pattern that is shorter. *)
Fixpoint appendSorted (es : list (list Z * H)) (e : list Z * H) : list (list Z * H) :=
  match es with
  | [] => [e]
  | x :: es => if (length x.1 <? length e.1)%nat then e :: x :: es else x :: appendSorted es e
  end.

Definition Handle (pattern : list Z) (h : option H) (mux : ServeMux) : outcome ServeMux :=
  match pattern, h with
  | [], _ => Panic (PanicString "http: invalid pattern")
  | _, None => Panic (PanicString "http: nil handler")
  | c :: _, Some h =>
      match m mux !! pattern with
      | Some _ => Panic (PanicString "http: multiple registrations")
      | None =>
          Ret (MkMux (<[pattern := h]> (m mux))
                 (if endsInSlash pattern then appendSorted (es mux) (pattern, h) else es mux)
                 (hosts mux || negb (c =? slash)))
      end
  end.

(** [match]: the pattern itself, or the longest one that is a prefix. *)
Definition match_ (mux : ServeMux) (path : list Z) : option H :=
  match m mux !! path with
  | Some h => Some h
  | None => option_map snd (List.find (λ e, hasPrefix e.1 path) (es mux))
  end.

Definition handler (mux : ServeMux) (host path : list Z) : option H :=
  match (if hosts mux then match_ mux (host ++ path) else None) with
  | Some h => Some h
  | None => match_ mux path
  end.

Definition cleanPath (p : list Z) : list Z :=
  match p with
  | [] => bs "/"
  | c :: _ =>
      let p := if c =? slash then p else slash :: p in
      let np := Clean p in
      if endsInSlash p && negb (bool_decide (np = bs "/")) then np ++ [slash] else np
  end.

Definition shouldRedirect (mux : ServeMux) (host path : list Z) : bool :=
  match m mux !! path, m mux !! (host ++ path) with
  | None, None =>
      match path with
      | [] => false
      | _ => (bool_decide (is_Some (m mux !! (path ++ [slash])))
              || bool_decide (is_Some (m mux !! (host ++ path ++ [slash])))) && negb (endsInSlash path)
      end
  | _, _ => false
  end.

Definition stripHostPort (h : list Z) : list Z :=
  if negb (containsByte colon h) then h
  else match SplitHostPort h with Ret (host, _) => host | _ => h end.

(** Where a request goes: to a handler, to another path, or nowhere. *)
Inductive route := Found (h : H) | Redirect (path : list Z) | Missing.

Definition found (o : option H) : route := match o with Some h => Found h | None => Missing end.

Definition Handler (mux : ServeMux) (r : Request) : route :=
  if bool_decide (Method r = bs "CONNECT") then
    if shouldRedirect mux (Host r) (Path r) then Redirect (Path r ++ [slash])
    else found (handler mux (Host r) (Path r))
  else
    let host := stripHostPort (Host r) in
    let path := cleanPath (Path r) in
    if shouldRedirect mux host path then Redirect (path ++ [slash])
    else if negb (bool_decide (path = Path r)) then Redirect path
    else found (handler mux host (Path r)).
End Mux.
Arguments ServeMux H : clear implicits.
Arguments route H : clear implicits.

(** [mux.ServeHTTP]; [redirect] is the response of [http.Redirect] with 301. *)
Definition serveMux {H} (redirect : list Z → Response → Response) (serve : H → Request → Response → Response)
    (mux : ServeMux H) (r : Request) (w : Response) : Response :=
  match Handler mux r with
  | Found h => serve h r w
  | Redirect path => redirect path w
  | Missing => NotFound w
  end.
End http.

(** ** v2error/error.go *)
Module v2error.
Definition EcodeKeyNotFound : Z := 100.
Definition EcodeTestFailed : Z := 101.
Definition EcodeNotFile : Z := 102.
Definition EcodeNodeExist : Z := 105.
Definition EcodeDirNotEmpty : Z := 108.
Definition EcodeUnauthorized : Z := 110.
Definition EcodeRaftInternal : Z := 300.
Definition EcodeLeaderElect : Z := 301.

Definition errors : list (Z * string) :=
  [(100, "Key not found"); (101, "Compare failed"); (102, "Not a file");
   (103, "Reached the max number of peers in the cluster"); (104, "Not a directory");
   (105, "Key already exists"); (106, "The prefix of given key is a keyword in etcd");
   (107, "Root is read only"); (108, "Directory not empty"); (109, "Peer address has existed");
   (110, "The request requires user authentication"); (200, "Value is Required in POST form");
   (201, "PrevValue is Required in POST form"); (202, "The given TTL in POST form is not a number");
   (203, "The given index in POST form is not a number"); (204, "Value or TTL is required in POST form");
   (205, "The given timeout in POST form is not a number"); (206, "Name is required in POST form");
   (207, "Index or value is required"); (208, "Index and value cannot both be specified");
   (209, "Invalid field"); (210, "Invalid POST form"); (211, "Value provided on refresh");
   (212, "A TTL must be provided on refresh"); (300, "Raft Internal Error"); (301, "During Leader Election");
   (400, "watcher is cleared due to etcd recovery");
   (401, "The event in requested index is outdated and cleared"); (402, "Standby Internal Error");
   (403, "Invalid active size"); (404, "Standby remove delay"); (500, "Client Internal Error")]%string.

Definition errorStatus : list (Z * Z) :=
  [(EcodeKeyNotFound, 404); (EcodeNotFile, 403); (EcodeDirNotEmpty, 403); (EcodeUnauthorized, 401);
   (EcodeTestFailed, 412); (EcodeNodeExist, 412); (EcodeRaftInternal, 500); (EcodeLeaderElect, 500)].

Definition lookup_ {A} (c : Z) (l : list (Z * A)) : option A :=
  option_map snd (List.find (λ x, x.1 =? c) l).

Record Error := MkError { ErrorCode : Z; Message : list Z; Cause : list Z; Index : Z }.

Definition NewError (errorCode : Z) (cause : list Z) (index : Z) : Error :=
  MkError errorCode (bs (default "" (lookup_ errorCode errors))%string) cause index.
Definition NewRequestError (errorCode : Z) (cause : list Z) : Error := NewError errorCode cause 0.
Definition Error_ (e : Error) : list Z := Message e ++ bs " (" ++ Cause e ++ bs ")".
Definition toJsonString (e : Error) : list Z :=
  Json.object ([(bs "errorCode", Json.number (ErrorCode e)); (bs "message", Json.str (Message e))]
               ++ (if bool_decide (Cause e = []) then [] else [(bs "cause", Json.str (Cause e))])
               ++ [(bs "index", Json.number (Index e))]).
Definition StatusCode (e : Error) : Z := default 400 (lookup_ (ErrorCode e) errorStatus).

(** [writeErr] is the error of writing the body. *)
Definition WriteTo (writeErr : option error) (e : Error) (w : http.Response) : http.Response * option error :=
  let w := http.Add (bs "X-Etcd-Index") (Json.number (Index e)) w in
  let w := http.Set_ (bs "Content-Type") (bs "application/json") w in
  let w := http.WriteHeader (StatusCode e) w in
  match writeErr with
  | Some err => (w, Some err)
  | None => (http.Write (toJsonString e ++ [10]) w, None)
  end.
End v2error.

(** membership/errors.go: an error of the v2 store, if it is one. *)
Definition isKeyNotFound (err : option v2error.Error) : bool :=
  match err with Some e => v2error.ErrorCode e =? v2error.EcodeKeyNotFound | None => false end.

(** ** version.go, httputil.go *)
Definition Version : list Z := bs "3.3.0+git".
(** [Cluster] keeps the first two parts of a version; [strings.Split] at a byte. *)
Fixpoint splitAt (c : Z) (s : list Z) : list (list Z) :=
  match s with
  | [] => [[]]
  | x :: s =>
      if x =? c then [] :: splitAt c s
      else match splitAt c s with p :: ps => (x :: p) :: ps | [] => [[x]] end
  end.
Definition dot : Z := 46.
Definition Cluster (v : list Z) : list Z :=
  match splitAt dot v with
  | major :: minor :: _ :: _ => major ++ [dot] ++ minor
  | _ => v
  end.
Record Versions := MkVersions { vServer : list Z; vCluster : list Z }.
Definition versionsJSON (v : Versions) : list Z :=
  Json.object [(bs "etcdserver", Json.str (vServer v)); (bs "etcdcluster", Json.str (vCluster v))].

Definition GetHostname (req : option http.Request) : list Z :=
  match req with
  | None => []
  | Some r => match SplitHostPort (http.Host r) with Ret (h, _) => h | _ => http.Host r end
  end.

(** ** etcdhttp/base.go, peer.go *)
Module etcdhttp.
Definition versionPath : list Z := bs "/version".

Definition allowMethod (method : list Z) (r : http.Request) (w : http.Response) : bool * http.Response :=
  if bool_decide (method = http.Method r) then (true, w)
  else (false, http.Error (bs "Method Not Allowed") 405 (http.Set_ (bs "Allow") method w)).

Definition serveVersion (clusterV : list Z) (r : http.Request) (w : http.Response) : http.Response :=
  let '(ok, w) := allowMethod (bs "GET") r w in
  if negb ok then w
  else http.Write (versionsJSON (MkVersions Version clusterV))
         (http.Set_ (bs "Content-Type") (bs "application/json") w).

(** The version of the cluster, [None] before one is decided. *)
Definition versionHandler (v : option (list Z)) (r : http.Request) (w : http.Response) : http.Response :=
  serveVersion (default (bs "not_decided") v) r w.

(** The one handler of the mux is that of the version. *)
Definition HandleBasic (mux : http.ServeMux unit) : outcome (http.ServeMux unit) :=
  http.Handle versionPath (Some tt) mux.

(** The peers' mux: the raft and lease handlers are not used. *)
Definition newPeerHandler : outcome (http.ServeMux unit) := http.Handle (bs "/") (Some tt) http.NewServeMux.
Definition servePeer (redirect : list Z → http.Response → http.Response) (mux : http.ServeMux unit)
    (r : http.Request) (w : http.Response) : http.Response :=
  http.serveMux redirect (λ _ _ w, http.NotFound w) mux r w.
End etcdhttp.

(** ** rafthttp/http.go and [Transport.Handler] of rafthttp/transport.go *)
Module rafthttp.
Definition RaftPrefix : list Z := bs "/raft".
Definition ProbingPrefix : list Z := Join [RaftPrefix; bs "probing"].
Definition RaftStreamPrefix : list Z := Join [RaftPrefix; bs "stream"].
Definition RaftSnapshotPrefix : list Z := Join [RaftPrefix; bs "snapshot"].
Definition connReadLimitByte : Z := 64 * 1024.

(** The transport and the raft node behind the handler are those it is made for. *)
Record pipelineHandler := MkPipelineHandler { ph_lg : bool; ph_localID : Z; ph_cid : Z }.
Definition newPipelineHandler (t : Transport.t) (cid : Z) : pipelineHandler :=
  MkPipelineHandler (Transport.Logger t) (Transport.ID t) cid.
(** The request is printed. *)
Definition servePipeline (h : pipelineHandler) (r : http.Request) (w : http.Response) : http.Response := w.

Definition Handler (t : Transport.t) : outcome (http.ServeMux pipelineHandler) :=
  http.Handle RaftPrefix (Some (newPipelineHandler t (Transport.ClusterID t))) http.NewServeMux.
End rafthttp.

(** ** pkg/osutil/interrupt_unix.go

    The handlers, the lock of the exit, and what became of the process.  The goroutine
    of [HandleInterrupts] takes the first signal, copies the handlers, takes the lock
    and calls them; it never gives the lock back. *)
Module osutil.
Inductive ending := ExitCode (code : Z) | Killed (sig : Z).
Record t := MkProcess {
  interruptHandlers : list Z; exitMu : bool;
  interrupted : option (Z * list Z);       (** the signal, and the handlers to call *)
  called : list Z; ended : option ending
}.
Definition init : t := MkProcess [] false None [] None.

(** The actions of goroutines; [None]: it waits, or there is none. *)
Inductive action :=
  | register (h : Z)
  | signal (sig : Z)      (** up to the lock *)
  | callNext
  | finish (pid : Z)
  | exit_ (code : Z).

Definition RegisterInterruptHandler (h : Z) (s : t) : t :=
  MkProcess (interruptHandlers s ++ [h]) (exitMu s) (interrupted s) (called s) (ended s).

Definition step (a : action) (s : t) : option t :=
  match ended s with
  | Some _ => None
  | None =>
      match a with
      | register h => Some (RegisterInterruptHandler h s)
      | signal sig =>
          match interrupted s with
          | Some _ => None
          | None => if exitMu s then None
                    else Some (MkProcess (interruptHandlers s) true (Some (sig, interruptHandlers s)) (called s) None)
          end
      | callNext =>
          match interrupted s with
          | Some (sig, h :: hs) =>
              Some (MkProcess (interruptHandlers s) (exitMu s) (Some (sig, hs)) (called s ++ [h]) None)
          | _ => None
          end
      | finish pid =>
          match interrupted s with
          | Some (sig, []) =>
              Some (MkProcess (interruptHandlers s) (exitMu s) (interrupted s) (called s)
                      (Some (if pid =? 1 then ExitCode 0 else Killed sig)))
          | _ => None
          end
      | exit_ code =>
          if exitMu s then None
          else Some (MkProcess (interruptHandlers s) true (interrupted s) (called s) (Some (ExitCode code)))
      end
  end.
End osutil.

(** ** embed/serve.go, embed/etcd.go *)

(** [strings.Contains] *)
Fixpoint contains (sub s : list Z) : bool :=
  hasPrefix sub s || match s with [] => false | _ :: s => contains sub s end.

Module serving.
(** What the mux for clients dispatches to: a user's handler, the gRPC gateway, or
    the basic mux. *)
Inductive clientHandler := User (h : Z) | Gateway | Basic.

(** The handlers a user registered, in the order [range] visits them; 0 is nil. *)
Fixpoint handleUsers (l : list (list Z * Z)) (mux : http.ServeMux clientHandler)
    : outcome (http.ServeMux clientHandler) :=
  match l with
  | [] => Ret mux
  | (path, h) :: l =>
      mux ← http.Handle path (if h =? 0 then None else Some (User h)) mux;
      handleUsers l mux
  end.

Definition createMux (users : list (list Z * Z)) (gwmux handler : bool)
    : outcome (http.ServeMux clientHandler) :=
  mux ← handleUsers users http.NewServeMux;
  mux ← if gwmux then http.Handle (bs "/v3/") (Some Gateway) mux else Ret mux;
  if handler then http.Handle (bs "/") (Some Basic) mux else Ret mux.

(** The request mutator of the gateway's proxy. *)
Definition mutateRequest (outgoing : http.Request) : http.Request :=
  http.MkRequest (bs "POST") (http.Host outgoing) (http.Path outgoing) (http.ProtoMajor outgoing)
    (http.reqHeader outgoing) (http.TLS outgoing).

Section Serve.
(** The response of a redirection, and what the users' handlers and the gateway, a
    proxy to the gRPC server, answer. *)
Context (redirect : list Z → http.Response → http.Response).
Context (user : Z → http.Request → http.Response → http.Response).
Context (gateway : http.Request → http.Response → http.Response).

(** [accessController.ServeHTTP]: the prefix of older clients, [OPTIONS], the
    mux. *)
Definition rewritePath (p : list Z) : list Z :=
  if hasPrefix (bs "/v3beta/") p then replaceFirst p (bs "/v3beta/") (bs "/v3/") else p.
Definition accessController (mux : http.Request → http.Response → http.Response) (r : http.Request)
    (w : http.Response) : http.Response :=
  let r := http.MkRequest (http.Method r) (http.Host r) (rewritePath (http.Path r)) (http.ProtoMajor r)
             (http.reqHeader r) (http.TLS r) in
  if bool_decide (http.Method r = bs "OPTIONS") then http.WriteHeader 200 w else mux r w.

(** The handlers of clients: the basic mux below the outer one. *)
Definition serveBasic (v : option (list Z)) (basic : http.ServeMux unit) : http.Request → http.Response → http.Response :=
  http.serveMux redirect (λ _, etcdhttp.versionHandler v) basic.
Definition serveClient (v : option (list Z)) (basic : http.ServeMux unit) (mux : http.ServeMux clientHandler)
    : http.Request → http.Response → http.Response :=
  accessController (http.serveMux redirect (λ h, match h with
    | User h => user h
    | Gateway => gateway
    | Basic => serveBasic v basic
    end) mux).

(** [grpcHandlerFunc]: [true] when the request goes to the gRPC server. *)
Definition grpcHandlerFunc (otherHandler : bool) (r : http.Request) : bool :=
  if negb otherHandler then true
  else (http.ProtoMajor r =? 2) && contains (bs "application/grpc") (http.Get r (bs "Content-Type")).
End Serve.

(** The address that [registerGateway] dials. *)
Definition gatewayAddr (s : Embed.serveCtx) : list Z :=
  if decide (Embed.sc_network s = bs "unix") then bs "unix" ++ bs "://" ++ Embed.sc_addr s else Embed.sc_addr s.

(** [registerGateway]: dialling, and registering the key-value handler. *)
Definition registerGateway (dial : list Z → outcome unit) (register : outcome unit) (s : Embed.serveCtx)
    : outcome unit :=
  _ ← dial (gatewayAddr s); register.

(** What [serve] has set up when it starts to accept: the protocols that cmux
    matches, in their order, and the mux for HTTP/1; and whether the gRPC server
    was stopped because of an error.  A context that is only secure has nothing. *)
Inductive protocol := HTTP2 | HTTP1 | AnyProtocol.
Record serverSetup := MkSetup { matches : list protocol; httpmux : option (http.ServeMux clientHandler) }.
Definition serve (dial : list Z → outcome unit) (register : outcome unit) (order : gmap (list Z) Z → list (list Z * Z))
    (cfg : ServerConfig.t) (s : Embed.serveCtx) : bool * outcome serverSetup :=
  if Embed.sc_insecure s then
    match (if ServerConfig.EnableGRPCGateway cfg then registerGateway dial register s else Ret tt) with
    | Ret _ =>
        (false, mux ← createMux (order (Embed.sc_userHandlers s)) (ServerConfig.EnableGRPCGateway cfg) true;
                Ret (MkSetup [HTTP2; HTTP1] (Some mux)))
    | Err e => (true, Err e)
    | Panic p => (false, Panic p)
    | OutOfFuel => (false, OutOfFuel)
    end
  else (false, Ret (MkSetup [] None)).

(** v3rpc.Server: the options of the gRPC server. *)
Definition grpcOverheadBytes : Z := 512 * 1024.
Definition maxStreams : Z := 2 ^ 32 - 1.
Definition maxSendBytes : Z := 2 ^ 31 - 1.
Inductive serverOption :=
  | CustomCodec | UnaryInterceptor | StreamInterceptor
  | MaxRecvMsgSize (n : Z) | MaxSendMsgSize (n : Z) | MaxConcurrentStreams (n : Z)
  | KeepaliveEnforcementPolicy (minTime : Z) | KeepaliveParams (time timeout : Z).
Definition grpcOptions (cfg : ServerConfig.t) (gopts : list serverOption) : list serverOption :=
  [CustomCodec; UnaryInterceptor; StreamInterceptor;
   MaxRecvMsgSize (i64 (ServerConfig.MaxRequestBytes cfg ⊕ grpcOverheadBytes));
   MaxSendMsgSize maxSendBytes; MaxConcurrentStreams maxStreams] ++ gopts.

(** The options of [serveClients]. *)
Definition clientOptions (c : EmbedConfig.t) : list serverOption :=
  (if EmbedConfig.GRPCKeepAliveMinTime c >? 0
   then [KeepaliveEnforcementPolicy (EmbedConfig.GRPCKeepAliveMinTime c)] else [])
  ++ (if (EmbedConfig.GRPCKeepAliveInterval c >? 0) && (EmbedConfig.GRPCKeepAliveTimeout c >? 0)
      then [KeepaliveParams (EmbedConfig.GRPCKeepAliveInterval c) (EmbedConfig.GRPCKeepAliveTimeout c)] else []).

(** The channel of errors and [errHandler], which waits ([None]) when the channel is
    full and [stopc] open.  Nothing closes [stopc]: [Close] is empty. *)
Record errChan := MkErrChan { ecap : nat; queue : list error; stopped : bool }.
Definition newErrChan (peers clients sctxs : nat) : errChan := MkErrChan (peers + clients + 2 * sctxs) [] false.
Definition errHandler (err : error) (c : errChan) : option errChan :=
  if stopped c then Some c
  else if (length (queue c) <? ecap c)%nat then Some (MkErrChan (ecap c) (queue c ++ [err]) false)
  else None.
(** [Err] gives the channel; a receive takes the oldest error. *)
Definition recvErr (c : errChan) : option (error * errChan) :=
  match queue c with [] => None | e :: q => Some (e, MkErrChan (ecap c) q (stopped c)) end.

(** [stopServers]: the calls on the two servers.  A secure pair is shut down at
    once; otherwise the gRPC server stops gracefully, and when the context ends
    first, both are shut down, which ends the graceful stop. *)
Inductive stopCall := Shutdown | Stop_ | GracefulStop | WaitGraceful.
Definition stopServers (secure ctxFirst : bool) : list stopCall :=
  if secure then [Shutdown; Stop_]
  else if ctxFirst then [GracefulStop; Shutdown; Stop_; WaitGraceful]
  else [GracefulStop; WaitGraceful].
(** cmux gives a connection to the first listener whose matcher accepts what the
    client sends first. *)
Inductive opening := Preface | RequestLine | OtherBytes.
Definition accepts (p : protocol) (o : opening) : bool :=
  match p, o with
  | HTTP2, Preface | HTTP1, RequestLine | AnyProtocol, _ => true
  | _, _ => false
  end.
Class Cmux := {
  cmuxMatch : list protocol → opening → option protocol;
  cmux_first pre p post o : Forall (λ q, accepts q o = false) pre → accepts p o = true →
    cmuxMatch (pre ++ p :: post) o = Some p
}.

Definition Config (e : Embed.Etcd) : EmbedConfig.t := Embed.cfg e.
Definition GetLogger (e : Embed.Etcd) : bool := EmbedConfig.logger (Embed.cfg e).

(** [EtcdServer.RaftHandler], [LeaseHandler] and etcdhttp.NewPeerHandler, which
    computes both handlers and uses neither. *)
Definition RaftHandler (s : EtcdServer.t) : outcome (http.ServeMux rafthttp.pipelineHandler) :=
  match raftNodeConfig.transport (raftNode.cfg (EtcdServer.r s)) with
  | Some tr => rafthttp.Handler tr
  | None => Panic NilDereference
  end.
Definition LeaseHandler (s : EtcdServer.t) : option Z := None.
Definition NewPeerHandler (s : EtcdServer.t) : outcome (http.ServeMux unit) :=
  _ ← RaftHandler s; etcdhttp.newPeerHandler.

(** What [servePeers] sets up for a listener: the protocols that cmux matches, the
    options of the gRPC server, and the time-out of the HTTP server.  The TLS
    settings stay nil. *)
Record peerServer := MkPeerServer {
  ps_listener : Z; ps_matches : list protocol; ps_grpc : list serverOption; ps_readTimeout : Z; ps_secure : bool }.
Definition servePeers (e : Embed.Etcd) : outcome (http.ServeMux unit * list peerServer) :=
  s ← match Embed.Server e with Some s => Ret s | None => Panic NilDereference end;
  ph ← NewPeerHandler s;
  Ret (ph, (λ l, MkPeerServer l [HTTP2; AnyProtocol] (grpcOptions (EtcdServer.Cfg s) []) (5 * 60 * Second) false)
             <$> Embed.Peers e).

(** [serveClients]: the basic mux, the options, and the contexts to serve. *)
Definition serveClients (e : Embed.Etcd)
    : outcome (http.ServeMux unit * list serverOption * gmap (list Z) Embed.serveCtx) :=
  mux ← etcdhttp.HandleBasic http.NewServeMux;
  Ret (mux, clientOptions (Embed.cfg e), Embed.sctxs e).

(** Who answers a request on a peer's listener: the gRPC server, the handler, or
    nobody. *)
Inductive answer := ByGRPC | Reply (w : http.Response) | Refused.
Definition answerPeer `{!Cmux} (redirect : list Z → http.Response → http.Response) (ph : http.ServeMux unit)
    (p : peerServer) (o : opening) (r : http.Request) : answer :=
  match cmuxMatch (ps_matches p) o with
  | Some HTTP2 => ByGRPC
  | Some _ => if grpcHandlerFunc true r then ByGRPC else Reply (etcdhttp.servePeer redirect ph r http.fresh)
  | None => Refused
  end.

(** The goroutines that serve, in the order of their start, and those whose result
    goes to [errHandler].  [ok] tells the contexts whose gateway was registered. *)
Inductive goroutine := PeerGRPC (l : Z) | PeerHTTP (l : Z) | PeerServe (l : Z)
  | ClientServe (addr : list Z) | ClientGRPC (addr : list Z) | ClientHTTP (addr : list Z).
Definition peerGoroutines (e : Embed.Etcd) : list goroutine :=
  (Embed.Peers e ≫= λ l, [PeerGRPC l; PeerHTTP l]) ++ (PeerServe <$> Embed.Peers e).
Definition clientGoroutines (ok : list Z → bool) (sctxs : list (list Z * Embed.serveCtx)) : list goroutine :=
  sctxs ≫= λ '(a, s), ClientServe a ::
    if Embed.sc_insecure s then ClientGRPC a :: (if ok a then [ClientHTTP a] else []) else [].
Definition reports (g : goroutine) : bool := match g with PeerGRPC _ | PeerHTTP _ => false | _ => true end.
End serving.

(** ** Which handler a path has *)

Lemma hasPrefix_spec p s : hasPrefix p s = true ↔ p `prefix_of` s.
Proof.
  revert s. induction p as [|a p IH]; intros s; simpl; [split; [intros _; apply prefix_nil|done]|].
  destruct s as [|b s]; [split; [done|intros H; by apply prefix_nil_inv in H]|].
  rewrite andb_true_iff, Z.eqb_eq, IH. split.
  - intros [-> H]. by apply prefix_cons.
  - intros H. split; [by apply prefix_cons_inv_1 in H|by apply prefix_cons_inv_2 in H].
Qed.

Section Muxes.
Context {H : Type}.
Implicit Types mux : http.ServeMux H.

(** The list has the patterns that end in a slash, the longest first. *)
Record mux_ok mux : Prop := MuxOk {
  mo_es p h : (p, h) ∈ http.es mux ↔ http.m mux !! p = Some h ∧ http.endsInSlash p = true;
  mo_sorted : StronglySorted (λ a b : list Z * H, (length b.1 ≤ length a.1)%nat) (http.es mux)
}.

Lemma elem_of_appendSorted es (e x : list Z * H) : x ∈ http.appendSorted es e ↔ x = e ∨ x ∈ es.
Proof.
  induction es as [|y es IH]; simpl; [set_solver|].
  destruct (_ <? _)%nat; rewrite !elem_of_cons; [done|]. rewrite IH. tauto.
Qed.

Lemma appendSorted_sorted es (e : list Z * H) :
  StronglySorted (λ a b : list Z * H, (length b.1 ≤ length a.1)%nat) es →
  StronglySorted (λ a b : list Z * H, (length b.1 ≤ length a.1)%nat) (http.appendSorted es e).
Proof.
  induction 1 as [|y es Hs IH Hf]; simpl; [repeat constructor|].
  destruct (Nat.ltb_spec (length y.1) (length e.1)).
  - constructor; [by constructor|]. constructor; [lia|]. eapply Forall_impl; [exact Hf|]. simpl. lia.
  - constructor; [done|]. rewrite Forall_forall in *. intros x [->|Hx]%elem_of_appendSorted; [lia|by apply Hf].
Qed.

Lemma mux_ok_new : mux_ok (@http.NewServeMux H).
Proof. split; [|constructor]. intros p h. cbn. rewrite lookup_empty. set_solver. Qed.

Lemma mux_ok_Handle p h mux mux' :
  mux_ok mux → http.Handle p h mux = Ret mux' → mux_ok mux'.
Proof.
  intros [He Hs] Hh. unfold http.Handle in Hh. destruct p as [|c p]; [done|]. destruct h as [h|]; [|done].
  destruct (http.m mux !! (c :: p)) eqn:E; [done|]. injection Hh as <-.
  split; cbn [http.m http.es].
  - intros q k. destruct (http.endsInSlash (c :: p)) eqn:Es.
    + rewrite elem_of_appendSorted, He. destruct (decide (q = c :: p)) as [->|Hq].
      * rewrite lookup_insert_eq. split; [intros [[= ->]|[Hx _]]; [done|congruence]|intros [[= ->] _]; by left].
      * rewrite lookup_insert_ne by done. split; [intros [[= ->]|?]; done|by right].
    + rewrite He. destruct (decide (q = c :: p)) as [->|Hq].
      * rewrite lookup_insert_eq. split; intros [? ?]; congruence.
      * by rewrite lookup_insert_ne.
  - destruct (http.endsInSlash _); [by apply appendSorted_sorted|done].
Qed.

(** [match]'s contract. *)
Definition longestMatch mux (path : list Z) (h : H) : Prop :=
  http.m mux !! path = Some h ∨
  http.m mux !! path = None ∧
  ∃ p, http.m mux !! p = Some h ∧ http.endsInSlash p = true ∧ p `prefix_of` path ∧
    ∀ p', is_Some (http.m mux !! p') → http.endsInSlash p' = true → p' `prefix_of` path →
      (length p' ≤ length p)%nat.

Lemma find_longest es path (e : list Z * H) :
  StronglySorted (λ a b : list Z * H, (length b.1 ≤ length a.1)%nat) es →
  List.find (λ e, hasPrefix e.1 path) es = Some e →
  e ∈ es ∧ e.1 `prefix_of` path ∧ ∀ x, x ∈ es → x.1 `prefix_of` path → (length x.1 ≤ length e.1)%nat.
Proof.
  induction 1 as [|y es Hs IH Hf]; simpl; [done|]. destruct (hasPrefix y.1 path) eqn:E.
  - intros [= <-]. apply hasPrefix_spec in E. split_and!; [set_solver|done|].
    rewrite Forall_forall in Hf. intros x [->|Hx]%elem_of_cons _; [lia|by apply Hf].
  - intros He. destruct (IH He) as (H1 & H2 & H3). split_and!; [set_solver|done|].
    intros x [->|Hx]%elem_of_cons Hp; [|by apply H3]. apply hasPrefix_spec in Hp. congruence.
Qed.

Lemma match_spec mux path h : mux_ok mux → http.match_ mux path = Some h ↔ longestMatch mux path h.
Proof.
  intros [He Hs]. unfold http.match_, longestMatch. destruct (http.m mux !! path) as [k|] eqn:E.
  { split; [by intros ->; left|intros [?|[? _]]; done]. }
  assert (Hdir : ∀ e, List.find (λ e, hasPrefix e.1 path) (http.es mux) = Some e →
    http.m mux !! e.1 = Some e.2 ∧ http.endsInSlash e.1 = true ∧ e.1 `prefix_of` path ∧
    ∀ p', is_Some (http.m mux !! p') → http.endsInSlash p' = true → p' `prefix_of` path → (length p' ≤ length e.1)%nat).
  { intros e Hf. destruct (find_longest _ _ _ Hs Hf) as (H1 & H2 & H3).
    rewrite (surjective_pairing e) in H1. apply He in H1 as [H1 H1']. split_and!; try done.
    intros p' [k Hk] Hp Hpre. by apply (H3 (p', k)); [apply He|]. }
  destruct (List.find (λ e, hasPrefix e.1 path) (http.es mux)) as [e|] eqn:Ef; simpl.
  - destruct (Hdir e eq_refl) as (H1 & H2 & H3 & H4). split.
    + intros [= <-]. right. split; [done|]. by exists e.1.
    + intros [?|[_ (p & P1 & P2 & P3 & P4)]]; [done|].
      assert (p = e.1) as ->; [|congruence].
      pose proof (H4 p ltac:(by rewrite P1) P2 P3). pose proof (P4 e.1 ltac:(by rewrite H1) H2 H3).
      destruct P3 as [x Ex], H3 as [y Ey]. rewrite Ex in Ey. apply app_inj_1 in Ey as [? _]; [done|lia].
  - split; [done|]. intros [?|[_ (p & P1 & P2 & P3 & _)]]; [done|]. exfalso.
    apply hasPrefix_spec in P3. pose proof (List.find_none _ _ Ef (p, h)) as Hn. simpl in Hn.
    rewrite P3 in Hn. discriminate Hn. apply list_elem_of_In. by apply He.
Qed.
End Muxes.

Section ClientMux.
Import serving.

(** What is registered: the users' handlers, the gateway and the basic mux. *)
Definition registered (users : list (list Z * Z)) (gw handler : bool) (p : list Z) (h : clientHandler) : Prop :=
  (∃ k, (p, k) ∈ users ∧ h = User k) ∨ (gw = true ∧ p = bs "/v3/" ∧ h = Gateway)
  ∨ (handler = true ∧ p = bs "/" ∧ h = Basic).

(** The users' handlers can be registered, also next to the others. *)
Definition registrable (users : list (list Z * Z)) (gw handler : bool) : Prop :=
  Forall (λ ph, ph.1 ≠ [] ∧ ph.2 ≠ 0) users ∧
  (gw = true → bs "/v3/" ∉ users.*1) ∧ (handler = true → bs "/" ∉ users.*1).

Lemma Handle_Ret {H} p (h : option H) mux mux' :
  http.Handle p h mux = Ret mux' ↔
  ∃ k, h = Some k ∧ p ≠ [] ∧ http.m mux !! p = None ∧
    mux' = http.MkMux (<[p := k]> (http.m mux))
             (if http.endsInSlash p then http.appendSorted (http.es mux) (p, k) else http.es mux)
             (http.hosts mux || negb (is_rooted p)).
Proof.
  unfold http.Handle. destruct p as [|c p]; [naive_solver|]. destruct h as [k|]; [|naive_solver].
  destruct (http.m mux !! (c :: p)); [naive_solver|]. simpl is_rooted. split.
  - intros [= <-]. by exists k.
  - intros (k' & [= <-] & _ & _ & ->). done.
Qed.

Lemma handleUsers_spec users mux :
  NoDup users.*1 → mux_ok mux → (∀ p, p ∈ users.*1 → http.m mux !! p = None) →
  (∀ mux', handleUsers users mux = Ret mux' → mux_ok mux' ∧
     ∀ p h, http.m mux' !! p = Some h ↔ http.m mux !! p = Some h ∨ ∃ k, (p, k) ∈ users ∧ h = User k) ∧
  ((∃ mux', handleUsers users mux = Ret mux') ↔ Forall (λ ph, ph.1 ≠ [] ∧ ph.2 ≠ 0) users).
Proof.
  revert mux. induction users as [|[q k] users IH]; intros mux Hnd Hok Hm; simpl.
  { split; [|split; [constructor|by eexists]]. intros mux' [= <-]. split; [done|]. set_solver. }
  apply NoDup_cons in Hnd as [Hq Hnd]. rewrite Forall_cons. cbn [fst snd].
  destruct (http.Handle q (if k =? 0 then None else Some (User k)) mux) as [mux1|e|e|] eqn:E.
  - apply Handle_Ret in E as Hr. destruct Hr as (h & Hh & Hqn & Hmq & ->).
    destruct (k =? 0) eqn:Ek; [done|]. injection Hh as <-. zify_bool.
    pose proof (mux_ok_Handle _ _ _ _ Hok E) as Hok1. rewrite bind_Ret.
    destruct (IH _ Hnd Hok1) as [IH1 IH2].
    { intros p Hp. cbn [http.m]. rewrite lookup_insert_ne; [apply Hm; set_solver|]. intros <-. done. }
    split; [|rewrite IH2; tauto].
    intros mux' Hmux'. destruct (IH1 _ Hmux') as [Hok' Hl]. split; [done|]. intros p h. rewrite Hl. cbn [http.m].
    destruct (decide (p = q)) as [->|Hpq].
    + rewrite lookup_insert_eq, Hmq. split.
      * intros [[= <-]|(k' & Hin & ->)]; [right; exists k; set_solver|]. right. exists k'. set_solver.
      * intros [[=]|(k' & [[= ->]|Hin]%elem_of_cons & ->)]; [by left|]. right. by exists k'.
    + rewrite lookup_insert_ne by done. split.
      * intros [?|(k' & Hin & ->)]; [by left|]. right. exists k'. set_solver.
      * intros [?|(k' & [[= -> ->]|Hin]%elem_of_cons & ->)]; [by left|done|]. right. by exists k'.
  - exfalso. unfold http.Handle in E. destruct q; [done|]. destruct (k =? 0); [done|]. by destruct (_ !! _).
  - split; [done|]. split; [by intros [? ?]|]. intros [[Hqn Hk] _]. exfalso.
    unfold http.Handle in E. destruct q as [|c q]; [done|]. destruct (k =? 0) eqn:Ek; zify_bool; [done|].
    by rewrite (Hm (c :: q) ltac:(set_solver)) in E.
  - exfalso. unfold http.Handle in E. destruct q; [done|]. destruct (k =? 0); [done|]. by destruct (_ !! _).
Qed.

(** One more registration, or none. *)
Lemma handle_if {H} (b : bool) p (h : H) mux :
  p ≠ [] → mux_ok mux →
  ((∃ mux', (if b then http.Handle p (Some h) mux else Ret mux) = Ret mux') ↔ (b = true → http.m mux !! p = None)) ∧
  ∀ mux', (if b then http.Handle p (Some h) mux else Ret mux) = Ret mux' → mux_ok mux' ∧
    ∀ q k, http.m mux' !! q = Some k ↔ http.m mux !! q = Some k ∨ b = true ∧ q = p ∧ k = h.
Proof.
  intros Hp Hok. destruct b.
  - split.
    + split.
      * intros [mux' (k & _ & _ & ? & _)%Handle_Ret]. done.
      * intros Hn. eexists. apply Handle_Ret. by exists h; auto.
    + intros mux' E. pose proof (mux_ok_Handle _ _ _ _ Hok E) as Hok'.
      apply Handle_Ret in E as (k & [= <-] & _ & Hn & ->). split; [done|]. intros q k. cbn [http.m].
      destruct (decide (q = p)) as [->|Hq].
      * rewrite lookup_insert_eq, Hn. split; [intros [= <-]; by right|]. intros [?|(_ & _ & ->)]; done.
      * rewrite lookup_insert_ne by done. naive_solver.
  - split; [split; [done|by eexists]|]. intros mux' [= <-]. split; [done|]. naive_solver.
Qed.

Lemma createMux_spec users gw handler :
  NoDup users.*1 →
  ((∃ mux, createMux users gw handler = Ret mux) ↔ registrable users gw handler) ∧
  ∀ mux, createMux users gw handler = Ret mux → mux_ok mux ∧
    ∀ p h, http.m mux !! p = Some h ↔ registered users gw handler p h.
Proof.
  intros Hnd. unfold createMux, registrable.
  destruct (handleUsers_spec users http.NewServeMux Hnd mux_ok_new) as [HU HUe].
  { intros p _. apply lookup_empty. }
  destruct (handleUsers users http.NewServeMux) as [mux1|e|e|] eqn:E1.
  2-4: split; [split; [by intros [? ?]|intros [Hx _]; by apply HUe in Hx as [? ?]]|done].
  destruct (HU mux1 eq_refl) as [Hok1 Hl1]. rewrite bind_Ret.
  assert (Hu : Forall (λ ph : list Z * Z, ph.1 ≠ [] ∧ ph.2 ≠ 0) users) by (apply HUe; by eexists).
  assert (HN : ∀ p, http.m mux1 !! p = None ↔ p ∉ users.*1).
  { intros p. rewrite eq_None_not_Some. split; intros Hx Hy; apply Hx.
    - apply list_elem_of_fmap in Hy as ([q k] & -> & Hin). exists (User k). apply Hl1. right. by exists k.
    - destruct Hy as [h Hh]. apply Hl1 in Hh as [Hh|(k & Hin & ->)]; [by cbn [http.m http.NewServeMux] in Hh; rewrite lookup_empty in Hh|].
      by apply (list_elem_of_fmap_2 fst) in Hin. }
  destruct (handle_if gw (bs "/v3/") Gateway mux1 ltac:(done) Hok1) as [HG HGl].
  destruct (if gw then _ else Ret mux1) as [mux2|e|e|] eqn:E2.
  2-4: split; [|done]; split; [by intros [? ?]|]; intros (_ & Hg & _);
    assert (Hg' : gw = true → http.m mux1 !! bs "/v3/" = None) by (intros ?; apply HN; auto);
    by apply HG in Hg' as [? ?].
  destruct (HGl mux2 eq_refl) as [Hok2 Hl2]. rewrite bind_Ret.
  destruct (handle_if handler (bs "/") Basic mux2 ltac:(done) Hok2) as [HB HBl].
  assert (HN2 : http.m mux2 !! bs "/" = None ↔ bs "/" ∉ users.*1).
  { rewrite <- HN, !eq_None_not_Some. split; intros Hx [h Hh]; apply Hx.
    - exists h. apply Hl2. by left.
    - apply Hl2 in Hh as [Hh|(_ & [=] & _)]. by exists h. }
  split.
  - rewrite HB, HN2. split; [|by intros (_ & _ & ?)]. intros Hx. split_and!; [done| |done].
    intros Hgw. apply HN. apply HG; [by eexists|done].
  - intros mux Hm. destruct (HBl mux Hm) as [Hok Hl]. split; [done|]. intros p h.
    rewrite Hl, Hl2, Hl1. cbn [http.m http.NewServeMux]. rewrite lookup_empty. unfold registered.
    split; [intros [[[?|?]|?]|?]; [done|auto..]|intros [?|[?|?]]; auto].
Qed.

(** The mux for clients.  [createMux] succeeds exactly when every
    user handler has a non-empty pattern and is not nil, none takes [/v3/] from
    the gateway and none takes [/] from the basic handlers; it panics otherwise.
    The mux it gives sends a path to the handler registered for it and else to
    that of the longest registered pattern that ends in a slash and is a prefix of
    the path, in whatever order the user handlers were registered. *)
Theorem createMux_routes users gw handler :
  NoDup users.*1 →
  ((∃ mux, createMux users gw handler = Ret mux) ↔ registrable users gw handler) ∧
  ∀ mux, createMux users gw handler = Ret mux → ∀ path h,
    http.match_ mux path = Some h ↔
    registered users gw handler path h ∨
    (∀ h', ¬ registered users gw handler path h') ∧
    ∃ p, registered users gw handler p h ∧ http.endsInSlash p = true ∧ p `prefix_of` path ∧
      ∀ p' h', registered users gw handler p' h' → http.endsInSlash p' = true → p' `prefix_of` path →
        (length p' ≤ length p)%nat.
Proof.
  intros Hnd. destruct (createMux_spec users gw handler Hnd) as [HE HS]. split; [done|].
  intros mux Hm path h. destruct (HS mux Hm) as [Hok Hl]. rewrite (match_spec mux path h Hok).
  unfold longestMatch. rewrite Hl. split.
  - intros [?|(Hn & p & P1 & P2 & P3 & P4)]; [by left|right]. split.
    + intros h' Hh'. apply Hl in Hh'. congruence.
    + exists p. split_and!; [by apply Hl|done|done|]. intros p' h' Hp' Hs Hpre. apply P4; [|done..].
      exists h'. by apply Hl.
  - intros [?|(Hn & p & P1 & P2 & P3 & P4)]; [by left|right]. split.
    + apply eq_None_not_Some. intros [h' Hh']. apply Hl in Hh'. by apply (Hn h').
    + exists p. split_and!; [by apply Hl|done|done|]. intros p' [h' Hp'] Hs Hpre. apply (P4 p' h'); [by apply Hl|done..].
Qed.

Lemma createMux_routes_witness :
  ∃ mux, createMux [(bs "/debug/pprof/", 1)] true true = Ret mux ∧
    http.match_ mux (bs "/debug/pprof/heap") = Some (User 1) ∧ http.match_ mux (bs "/v3/kv/put") = Some Gateway.
Proof.
  assert (Hnd : NoDup ([(bs "/debug/pprof/", 1)] : list (list Z * Z)).*1) by (apply NoDup_singleton).
  destruct (createMux_routes [(bs "/debug/pprof/", 1)] true true Hnd) as [HE _].
  destruct (proj2 HE) as [mux Hm].
  { split; [repeat constructor; done|]. split; intros _; by apply (bool_decide_unpack _). }
  exists mux. split; [exact Hm|].
  assert (Hb : match createMux [(bs "/debug/pprof/", 1)] true true with
               | Ret mux => http.match_ mux (bs "/debug/pprof/heap") = Some (User 1)
                            ∧ http.match_ mux (bs "/v3/kv/put") = Some Gateway
               | _ => False end) by (vm_compute; by split).
  rewrite Hm in Hb. exact Hb.
Defined.
End ClientMux.

(** ** The routes of a client *)

Section Routes.
Import serving.

(** The mux without user handlers, and the basic one. *)
Definition defaultMux : http.ServeMux clientHandler :=
  http.MkMux (<[bs "/" := Basic]> (<[bs "/v3/" := Gateway]> ∅)) [(bs "/v3/", Gateway); (bs "/", Basic)] false.
Definition basicMux : http.ServeMux unit := http.MkMux (<[bs "/version" := tt]> ∅) [] false.

Lemma defaultMux_created : createMux [] true true = Ret defaultMux.
Proof. reflexivity. Qed.
Lemma basicMux_created : etcdhttp.HandleBasic http.NewServeMux = Ret basicMux.
Proof. reflexivity. Qed.

Lemma endsInSlash_snoc p : http.endsInSlash (p ++ [slash]) = true.
Proof. unfold http.endsInSlash. rewrite rev_app_distr. done. Qed.

Lemma basic_no_redirect host path : http.shouldRedirect basicMux host path = false.
Proof.
  unfold http.shouldRedirect. cbn [http.m basicMux].
  destruct (_ !! path); [done|]. destruct (_ !! (host ++ path)); [done|]. destruct path as [|c p]; [done|].
  assert (Hn : ∀ q, (<[bs "/version" := tt]> ∅ : gmap (list Z) unit) !! (q ++ [slash]) = None).
  { intros q. rewrite lookup_insert_ne, lookup_empty; [done|]. intros E.
    pose proof (endsInSlash_snoc q) as Hs. rewrite <- E in Hs. done. }
  rewrite (app_assoc host), !Hn. rewrite !bool_decide_eq_false_2 by (by intros []). done.
Qed.

(** A name of a host has no slash. *)
Lemma default_no_redirect host path :
  slash ∉ host → is_rooted path = true → path ≠ bs "/v3" → http.shouldRedirect defaultMux host path = false.
Proof.
  intros Hh Hr Hp. unfold http.shouldRedirect. cbn [http.m defaultMux].
  destruct (_ !! path) eqn:E1; [done|]. destruct (_ !! (host ++ path)); [done|].
  destruct path as [|c p]; [done|]. simpl in Hr. apply Z.eqb_eq in Hr. subst c.
  destruct (http.endsInSlash (slash :: p)) eqn:Es; [by rewrite andb_false_r|]. rewrite andb_true_r.
  assert (Hn : ∀ h, slash ∉ h →
    (<[bs "/" := Basic]> (<[bs "/v3/" := Gateway]> ∅) : gmap (list Z) clientHandler) !! (h ++ (slash :: p) ++ [slash]) = None).
  { intros h Hs. rewrite !lookup_insert_ne, lookup_empty; [done| |].
    - intros E. destruct h as [|b h].
      + apply Hp. change (bs "/v3/") with (bs "/v3" ++ [slash]) in E.
        change ([] ++ (slash :: p) ++ [slash]) with ((slash :: p) ++ [slash]) in E.
        by apply app_inj_tail in E as [<- _].
      + injection E as E _. apply Hs. rewrite <- E. set_solver.
    - intros E. destruct h as [|b h]; [|injection E as E _; apply Hs; rewrite <- E; set_solver].
      simpl in E. injection E as E. by destruct p. }
  rewrite (Hn host Hh). pose proof (Hn [] ltac:(set_solver)) as H0. simpl in H0. simpl app. rewrite H0.
  rewrite !bool_decide_eq_false_2 by (by intros []). done.
Qed.

Lemma default_match path :
  is_rooted path = true →
  http.match_ defaultMux path = Some (if hasPrefix (bs "/v3/") path then Gateway else Basic).
Proof.
  intros Hr. unfold http.match_. cbn [http.m http.es defaultMux].
  destruct (decide (path = bs "/")) as [->|H1]; [done|]. rewrite lookup_insert_ne by done.
  destruct (decide (path = bs "/v3/")) as [->|H2]; [done|]. rewrite lookup_insert_ne, lookup_empty by done.
  cbn [List.find fst snd]. destruct (hasPrefix (bs "/v3/") path); [done|].
  destruct path as [|c p]; [done|]. change ((c =? slash) = true) in Hr. apply Z.eqb_eq in Hr as ->. done.
Qed.

Lemma not_elem_stripHostPort h : slash ∉ h → (∀ h' p, SplitHostPort h = Ret (h', p) → slash ∉ h') →
  slash ∉ http.stripHostPort h.
Proof.
  intros H1 H2. unfold http.stripHostPort. destruct (negb _); [done|].
  destruct (SplitHostPort h) as [[h' p]| | |] eqn:E; [by apply (H2 h' p)|done..].
Qed.

(** The response to a request for the version. *)
Lemma version_response v r :
  let w := etcdhttp.versionHandler v r http.fresh in
  (http.Method r = bs "GET" →
     http.status w = Some 200 ∧ http.Header w !! bs "Content-Type" = Some [bs "application/json"] ∧
     http.body w = versionsJSON (MkVersions Version (default (bs "not_decided") v))) ∧
  (http.Method r ≠ bs "GET" →
     http.status w = Some 405 ∧ http.Header w !! bs "Allow" = Some [bs "GET"]).
Proof.
  unfold etcdhttp.versionHandler, etcdhttp.serveVersion, etcdhttp.allowMethod. split; intros H.
  - rewrite H, bool_decide_eq_true_2 by done. cbn [negb]. generalize (versionsJSON (MkVersions Version (default (bs "not_decided") v))).
    intros b. split; [reflexivity|]. split; [apply lookup_insert_eq|reflexivity].
  - rewrite bool_decide_eq_false_2 by congruence. cbn [negb]. split; [reflexivity|].
    unfold http.Error, http.Write, http.WriteHeader, http.Set_. cbn [http.Header].
    rewrite !lookup_insert_ne by done. apply lookup_insert_eq.
Qed.

Context (redirect : list Z → http.Response → http.Response).
Context (user : Z → http.Request → http.Response → http.Response).
Context (gateway : http.Request → http.Response → http.Response).

(** What a client of a member without user handlers gets for a
    path in normal form (others are redirected to it): 200 for [OPTIONS]; below
    [/v3/], and below [/v3beta/] with the prefix replaced, the answer of the
    gateway; for [/version] the versions in JSON, or 405 with [Allow: GET] for
    another method than [GET]; and 404 for everything else. *)
Theorem client_routes v r :
  let r' := http.MkRequest (http.Method r) (http.Host r) (rewritePath (http.Path r)) (http.ProtoMajor r)
              (http.reqHeader r) (http.TLS r) in
  let p := http.Path r' in
  http.cleanPath p = p → p ≠ bs "/v3" → slash ∉ http.stripHostPort (http.Host r) →
  http.Method r ≠ bs "CONNECT" →
  let w := serveClient redirect user gateway v basicMux defaultMux r http.fresh in
  w = (if decide (http.Method r = bs "OPTIONS") then http.WriteHeader 200 http.fresh
       else if hasPrefix (bs "/v3/") p then gateway r' http.fresh
       else if decide (p = bs "/version") then etcdhttp.versionHandler v r' http.fresh
       else http.NotFound http.fresh) ∧
  (hasPrefix (bs "/v3beta/") (http.Path r) = true → hasPrefix (bs "/v3/") p = true) ∧
  (http.Method r = bs "GET" → p = bs "/version" →
     http.status w = Some 200 ∧
     http.body w = versionsJSON (MkVersions Version (default (bs "not_decided") v))).
Proof.
  intros r' p Hcl Hv3 Hhost Hcon w.
  assert (Hroot : is_rooted p = true).
  { rewrite <- Hcl. unfold http.cleanPath. destruct p as [|c q]; [done|].
    set (p' := if c =? slash then c :: q else slash :: c :: q).
    assert (Hp' : is_rooted p' = true) by (unfold p'; destruct (c =? slash) eqn:E; [exact E|done]).
    assert (Hc : is_rooted (Clean p') = true) by (unfold Clean; by rewrite Hp').
    destruct (_ && _); [|done]. by destruct (Clean p'). }
  assert (Hw : w = (if decide (http.Method r = bs "OPTIONS") then http.WriteHeader 200 http.fresh
       else if hasPrefix (bs "/v3/") p then gateway r' http.fresh
       else if decide (p = bs "/version") then etcdhttp.versionHandler v r' http.fresh
       else http.NotFound http.fresh)).
  { unfold w, serveClient, accessController. fold r'. change (http.Method r') with (http.Method r).
    destruct (decide (http.Method r = bs "OPTIONS")) as [Ho|Ho];
      [rewrite bool_decide_eq_true_2 by exact Ho; reflexivity|rewrite bool_decide_eq_false_2 by exact Ho].
    unfold http.serveMux at 1, http.Handler. change (http.Method r') with (http.Method r).
    change (http.Host r') with (http.Host r). rewrite bool_decide_eq_false_2 by done.
    fold p. rewrite Hcl, default_no_redirect, bool_decide_eq_true_2 by done. cbn [negb].
    unfold http.handler. cbn [http.hosts defaultMux]. fold defaultMux. rewrite default_match by done. cbn [http.found].
    destruct (hasPrefix (bs "/v3/") p); [done|].
    unfold serveBasic, http.serveMux, http.Handler. change (http.Method r') with (http.Method r).
    rewrite bool_decide_eq_false_2 by done. fold p. rewrite Hcl, basic_no_redirect, bool_decide_eq_true_2 by done.
    cbn [negb]. unfold http.handler, http.match_. cbn [http.hosts http.m http.es basicMux List.find option_map].
    destruct (decide (p = bs "/version")) as [->|Hne]; [done|]. by rewrite lookup_insert_ne, lookup_empty. }
  split; [done|]. split.
  - intros Hb. unfold p, r'. cbn [http.Path]. unfold rewritePath. rewrite Hb.
    destruct (http.Path r) as [|c q]; [done|]. cbn [replaceFirst]. by rewrite Hb.
  - intros Hg Hp. rewrite Hw, Hg, Hp. cbn [hasPrefix].
    destruct (proj1 (version_response v r') Hg) as (? & _ & ?). done.
Qed.
End Routes.

Lemma client_routes_witness :
  let r := http.MkRequest (bs "GET") (bs "localhost:2379") (bs "/version") 1 ∅ false in
  let w := serving.serveClient (λ _ w, w) (λ _ _ w, w) (λ _ w, w) None basicMux defaultMux r http.fresh in
  http.status w = Some 200.
Proof.
  intros r w.
  destruct (client_routes (λ _ w, w) (λ _ _ w, w) (λ _ w, w) None r eq_refl) as (_ & _ & H).
  - discriminate.
  - by apply (bool_decide_unpack _).
  - discriminate.
  - apply (H eq_refl eq_refl).
Defined.

(** ** Versions *)

Lemma splitAt_part c p s : c ∉ p → splitAt c (p ++ c :: s) = p :: splitAt c s.
Proof.
  induction p as [|x p IH]; intros Hp; cbn [splitAt app]; [by rewrite Z.eqb_refl|].
  apply not_elem_of_cons in Hp as [? ?]. destruct (Z.eqb_spec x c); [done|]. by rewrite IH.
Qed.
Lemma splitAt_last c p : c ∉ p → splitAt c p = [p].
Proof.
  induction p as [|x p IH]; intros Hp; cbn [splitAt]; [done|].
  apply not_elem_of_cons in Hp as [? ?]. destruct (Z.eqb_spec x c); [done|]. by rewrite IH.
Qed.

(** Major and minor version are kept, what follows a second dot is dropped, and
    nothing else changes: [Cluster] of a cluster version is itself. *)
Lemma Cluster_spec major minor rest :
  dot ∉ major → dot ∉ minor →
  Cluster (major ++ dot :: minor ++ dot :: rest) = major ++ dot :: minor ∧
  Cluster (major ++ dot :: minor) = major ++ dot :: minor ∧ Cluster major = major.
Proof.
  intros H1 H2. unfold Cluster. rewrite !splitAt_part by done.
  rewrite (splitAt_last _ minor), (splitAt_last _ major) by done. split; [|done].
  destruct (splitAt dot rest) eqn:E; [|done]. destruct rest as [|x r]; [done|]. cbn in E.
  destruct (x =? dot); [done|]. by destruct (splitAt dot r).
Qed.

(** ** Peers *)

(** The mux for peers has one handler, which answers 404: the raft handler of the
    transport is built but not mounted, and no message of a peer is ever
    received. *)
Lemma peers_not_served mux redirect r w :
  etcdhttp.newPeerHandler = Ret mux → http.cleanPath (http.Path r) = http.Path r →
  http.Method r ≠ bs "CONNECT" → http.shouldRedirect mux (http.stripHostPort (http.Host r)) (http.Path r) = false →
  etcdhttp.servePeer redirect mux r w = http.NotFound w.
Proof.
  intros Hm Hcl Hc Hs. unfold etcdhttp.servePeer, http.serveMux, http.Handler.
  rewrite bool_decide_eq_false_2, Hcl, Hs, bool_decide_eq_true_2 by done. cbn [negb].
  by destruct (http.handler _ _ _).
Qed.

(** [servePeers] gives every listener its servers.  A connection that opens with
    HTTP/2 is served by the gRPC server; a request of HTTP/1, which is how the
    raft transport of a peer talks, is answered 404. *)
Lemma servePeers_spec `{!serving.Cmux} (e : Embed.Etcd) s tr redirect :
  Embed.Server e = Some s → raftNodeConfig.transport (raftNode.cfg (EtcdServer.r s)) = Some tr →
  ∃ ph ps, serving.servePeers e = Ret (ph, ps) ∧ serving.ps_listener <$> ps = Embed.Peers e ∧
    ∀ p, p ∈ ps →
      (∀ r, serving.answerPeer redirect ph p serving.Preface r = serving.ByGRPC) ∧
      ∀ r, http.ProtoMajor r = 1 → http.cleanPath (http.Path r) = http.Path r →
        http.Method r ≠ bs "CONNECT" →
        http.shouldRedirect ph (http.stripHostPort (http.Host r)) (http.Path r) = false →
        serving.answerPeer redirect ph p serving.RequestLine r = serving.Reply (http.NotFound http.fresh).
Proof.
  intros Hs Ht.
  assert (∃ ph, etcdhttp.newPeerHandler = Ret ph) as [ph Hph] by (eexists; vm_compute; reflexivity).
  assert (∃ rh, rafthttp.Handler tr = Ret rh) as [rh Hrh] by (eexists; vm_compute; reflexivity).
  exists ph. eexists. unfold serving.servePeers, serving.NewPeerHandler, serving.RaftHandler.
  rewrite Hs, bind_Ret, Ht, Hrh, bind_Ret, Hph, bind_Ret. split; [reflexivity|].
  split; [rewrite <-list_fmap_compose; apply list_fmap_id|].
  intros p (l & -> & _)%list_elem_of_fmap. unfold serving.answerPeer, serving.grpcHandlerFunc. cbn [serving.ps_matches].
  split; [intros r; by rewrite (serving.cmux_first [] serving.HTTP2 [serving.AnyProtocol] serving.Preface)|].
  intros r Hr Hc Hm Hd.
  rewrite (serving.cmux_first [serving.HTTP2] serving.AnyProtocol [] serving.RequestLine) by (done || by apply Forall_singleton).
  cbn [negb]. rewrite Hr.
  cbn [Z.eqb andb]. by rewrite (peers_not_served _ _ _ _ Hph).
Qed.

(** ** The channel of errors *)

(** The errors of [n] goroutines, without a receiver. *)
Fixpoint sendErrs (errs : list error) (c : serving.errChan) : option serving.errChan :=
  match errs with
  | [] => Some c
  | e :: errs => serving.errHandler e c ≫= sendErrs errs
  end.

Lemma sendErrs_full errs cap q :
  is_Some (sendErrs errs (serving.MkErrChan cap q false)) ↔ errs = [] ∨ (length q + length errs ≤ cap)%nat.
Proof.
  revert q. induction errs as [|e errs IH]; intros q; simpl; [split; [by left|by eexists]|].
  unfold serving.errHandler. cbn [serving.stopped serving.queue serving.ecap].
  destruct (Nat.ltb_spec (length q) cap); simpl.
  - rewrite IH, length_app. simpl. split; [intros [->|?]; right; simpl; lia|intros [?|?]; [done|right; lia]].
  - split; [by intros []|]. intros [?|?]; [done|lia].
Qed.

Lemma reports_peers e : length (filter (λ g, serving.reports g = true) (serving.peerGoroutines e)) = length (Embed.Peers e).
Proof.
  unfold serving.peerGoroutines. rewrite filter_app, length_app.
  induction (Embed.Peers e) as [|l ls IH]; [done|]. rewrite bind_cons, filter_app, fmap_cons, length_app.
  change (filter _ (serving.PeerServe l :: _)) with (serving.PeerServe l ::
    filter (λ g, serving.reports g = true) (serving.PeerServe <$> ls)).
  cbn [length app] in *. change (length (filter _ [serving.PeerGRPC l; serving.PeerHTTP l])) with 0%nat. lia.
Qed.
Lemma reports_clients sctxs :
  Forall (λ '(_, s), Embed.sc_insecure s = true) sctxs →
  length (filter (λ g, serving.reports g = true) (serving.clientGoroutines (λ _, true) sctxs)) = (3 * length sctxs)%nat.
Proof.
  induction 1 as [|[a s] l Hs H IH]; [done|]. unfold serving.clientGoroutines in *. rewrite bind_cons.
  rewrite Hs, filter_app, length_app, IH. cbn [length].
  change (length (filter _ [serving.ClientServe a; serving.ClientGRPC a; serving.ClientHTTP a])) with 3%nat. lia.
Qed.

(** The channel that [StartEtcd] makes has room for the errors of the peers'
    goroutines and for two of every client listener, but three goroutines of an
    insecure one send theirs: when all of them end, the last waits, since nothing
    closes [stopc]. *)
Lemma errors_exceed_channel (e : Embed.Etcd) sctxs errs :
  sctxs = map_to_list (Embed.sctxs e) → sctxs ≠ [] →
  Forall (λ '(_, s), Embed.sc_insecure s = true) sctxs →
  length errs = length (filter (λ g, serving.reports g = true)
    (serving.peerGoroutines e ++ serving.clientGoroutines (λ _, true) sctxs)) →
  sendErrs errs (serving.newErrChan (length (Embed.Peers e)) 0 (size (Embed.sctxs e))) = None.
Proof.
  intros Hs Hne Hi. rewrite filter_app, length_app, reports_peers, reports_clients by done. intros Hl.
  assert (length sctxs = size (Embed.sctxs e)) as Hsz by (subst; by rewrite length_map_to_list).
  assert (0 < length sctxs)%nat by (destruct sctxs; [done|simpl; lia]).
  apply eq_None_not_Some. intros H'%sendErrs_full. destruct H' as [->|H']; simpl in *; lia.
Qed.

(** ** The errors of the v2 API *)

(** The status of an error and the message it carries, by its code. *)
Lemma NewError_spec code cause index :
  let e := v2error.NewError code cause index in
  v2error.ErrorCode e = code ∧ v2error.Cause e = cause ∧ v2error.Index e = index ∧
  (v2error.StatusCode e = 400 ↔ code ∉ v2error.errorStatus.*1) ∧
  (v2error.Message e ≠ [] ↔ code ∈ v2error.errors.*1).
Proof.
  assert (Hl : ∀ A (l : list (Z * A)) c, v2error.lookup_ c l = None ↔ c ∉ l.*1).
  { intros A l c. unfold v2error.lookup_. induction l as [|[k x] l IH]; simpl; [set_solver|].
    destruct (k =? c) eqn:E; zify_bool; simpl; [subst; set_solver|]. rewrite IH. set_solver. }
  assert (Hs : Forall (λ x : Z * Z, x.2 ≠ 400) v2error.errorStatus) by (by apply (bool_decide_unpack _)).
  assert (Hm : Forall (λ x : Z * string, bs x.2 ≠ []) v2error.errors) by (by apply (bool_decide_unpack _)).
  assert (Hf : ∀ A (l : list (Z * A)) c x, v2error.lookup_ c l = Some x → (c, x) ∈ l).
  { intros A l c x. unfold v2error.lookup_. induction l as [|[k y] l IH]; simpl; [done|].
    destruct (k =? c) eqn:E; zify_bool; simpl; [intros [= <-]; subst; set_solver|]. intros H%IH. set_solver. }
  split_and!; [done..| |].
  - unfold v2error.StatusCode. cbn [v2error.ErrorCode v2error.NewError]. rewrite <- Hl.
    destruct (v2error.lookup_ code v2error.errorStatus) as [x|] eqn:E; [|done].
    split; [|done]. intros H. apply Hf in E. rewrite Forall_forall in Hs. by destruct (Hs _ E).
  - cbn [v2error.Message v2error.NewError].
    destruct (v2error.lookup_ code v2error.errors) as [x|] eqn:E.
    + apply Hf in E as E'. rewrite Forall_forall in Hm. split; [|intros _; exact (Hm _ E')].
      intros _. by apply (list_elem_of_fmap_2 fst) in E'.
    + apply Hl in E. split; [done|]. intros H. done.
Qed.

(** ** The end of the process *)

Section Interrupts.
Import osutil.

Fixpoint runActions (l : list action) (s : t) : option t :=
  match l with [] => Some s | a :: l => step a s ≫= runActions l end.

(** Before a signal no handler is called and the lock is free while the process
    runs; afterwards the calls made and those to come are the handlers of the
    time of the signal. *)
Definition interrupt_inv (s : t) : Prop :=
  match interrupted s with
  | None => called s = [] ∧ (ended s = None → exitMu s = false)
  | Some (_, hs) => exitMu s = true ∧ (called s ++ hs) `prefix_of` interruptHandlers s ∧ (ended s ≠ None → hs = [])
  end.

Lemma interrupt_inv_step a s s' : interrupt_inv s → step a s = Some s' → interrupt_inv s'.
Proof.
  unfold interrupt_inv, step. intros H. destruct (ended s) eqn:Ee; [done|].
  destruct a as [h|sig| |pid|code].
  - intros [= <-]. cbn. destruct (interrupted s) as [[sig hs]|]; [|by rewrite Ee].
    destruct H as (H1 & H2 & H3). split_and!; [done|by apply prefix_app_r|]. by rewrite Ee.
  - destruct (interrupted s); [done|]. destruct (exitMu s) eqn:Em; [done|]. intros [= <-]. cbn.
    destruct H as [-> _]. done.
  - destruct (interrupted s) as [[sig [|h hs]]|]; try done. intros [= <-]. cbn.
    destruct H as (H1 & H2 & _). split_and!; [done|by rewrite <- app_assoc|done].
  - destruct (interrupted s) as [[sig [|h hs]]|] eqn:Ei; try done. intros [= <-]. cbn.
    destruct H as (H1 & H2 & _). done.
  - destruct (exitMu s) eqn:Em; [done|]. intros [= <-]. cbn.
    destruct (interrupted s) as [[sig hs]|]; [by destruct H|]. destruct H as [H _]. done.
Qed.

(** An interrupted process ends only after its handlers were called, each once and
    in the order of their registration, whatever else happens; a call of [Exit]
    that comes later waits for ever. *)
Lemma interrupts_complete l s :
  runActions l init = Some s →
  (interrupted s ≠ None → ∀ code, step (exit_ code) s = None) ∧
  (∀ sig hs, interrupted s = Some (sig, hs) → (called s ++ hs) `prefix_of` interruptHandlers s) ∧
  (∀ sig hs e, interrupted s = Some (sig, hs) → ended s = Some e →
     hs = [] ∧ (e = ExitCode 0 ∨ e = Killed sig)).
Proof.
  intros Hl.
  assert (Hi : interrupt_inv s ∧ ∀ sig hs e, interrupted s = Some (sig, hs) → ended s = Some e → e = ExitCode 0 ∨ e = Killed sig).
  { assert (H0 : interrupt_inv init ∧ ∀ sig hs e, interrupted init = Some (sig, hs) → ended init = Some e →
        e = ExitCode 0 ∨ e = Killed sig) by done.
    revert Hl H0. generalize init. induction l as [|a l IH]; intros s0 Hl [H0 He]; simpl in Hl; [by simplify_eq|].
    destruct (step a s0) as [s1|] eqn:E; [|done]. apply (IH s1 Hl). split; [by eapply interrupt_inv_step|].
    unfold step in E. destruct (ended s0) eqn:Ee0; [done|]. intros sig hs e Hin Hen.
    destruct a as [h|sg| |pid|code].
    - injection E as <-. cbn in *. congruence.
    - destruct (interrupted s0); [done|]. destruct (exitMu s0); [done|]. injection E as <-. done.
    - destruct (interrupted s0) as [[? [|? ?]]|]; try done. injection E as <-. done.
    - destruct (interrupted s0) as [[sg' [|? ?]]|] eqn:Ei; try done. injection E as <-. cbn in *.
      injection Hin as -> _. injection Hen as <-. destruct (pid =? 1); auto.
    - destruct (exitMu s0) eqn:Em; [done|]. injection E as <-. cbn in *. injection Hen as <-.
      unfold interrupt_inv in H0. rewrite Hin in H0. destruct H0; congruence. }
  destruct Hi as [Hi He]. unfold interrupt_inv in Hi. split_and!.
  - intros Hn code. destruct (interrupted s) as [[sig hs]|]; [|done]. unfold step. destruct (ended s); [done|].
    destruct Hi as [-> _]. done.
  - intros sig hs Hs. rewrite Hs in Hi. by destruct Hi as (_ & ? & _).
  - intros sig hs e Hs Hen. split; [|by eapply He]. rewrite Hs in Hi. destruct Hi as (_ & _ & Hi). apply Hi. by rewrite Hen.
Qed.
End Interrupts.
