(* ===== verification/Rpc.v ===== *)
(** * The key-value service over gRPC

    The client, the handlers and the descriptor of the service (the service part of
    rpc.pb.go), the codec of the server (v3rpc/codec.go) with the generated methods it
    ends in, and the server that v3rpc/grpc.go registers.  gRPC itself, gogo/protobuf
    and the interceptor of go-grpc-prometheus are classes with the laws that the
    program relies on. *)

From S2P Require Import Prelude GoStd Proto RaftPb RaftPbCodec ProtoChecked EtcdPb EtcdPbCodec Membership Requests Server ApiErrors Embed Serving.
Import rpctypes.

(** ** Messages behind an interface

    A [proto.Message] that the service handles: a pointer of one of four types, which
    may be nil although the interface is not. *)
Inductive message :=
  | MRangeRequest (p : option RangeRequest.t)
  | MRangeResponse (p : option RangeResponse.t)
  | MPutRequest (p : option PutRequest.t)
  | MPutResponse (p : option PutResponse.t).

(** The generated methods of a message; their text is the same for each. *)
Section Generated.
Context {M : Type} (zero : M) (Size : M → Z) (MarshalTo : M → Z → outcome bytes)
  (Unmarshal : M → bytes → outcome M).

(** [Size] tests for nil. *)
Definition XXX_Size (m : option M) : Z := match m with Some m => Size m | None => 0 end.

(** [MarshalTo] does not; [info] is what the table-driven encoder of the library gives. *)
Definition XXX_Marshal (info : outcome bytes) (m : option M) (cap : Z) (deterministic : bool) : outcome bytes :=
  if deterministic then info
  else match m with Some m => MarshalTo m cap | None => Panic NilDereference end.

Definition XXX_Unmarshal (m : M) (b : bytes) : outcome M := Unmarshal m b.
End Generated.

Definition messageSize (v : message) : Z :=
  match v with
  | MRangeRequest p => XXX_Size RangeRequest.Size p
  | MRangeResponse p => XXX_Size RangeResponse.Size p
  | MPutRequest p => XXX_Size PutRequest.Size p
  | MPutResponse p => XXX_Size PutResponse.Size p
  end.
Definition messageMarshal (info : outcome bytes) (v : message) (cap : Z) (deterministic : bool) : outcome bytes :=
  match v with
  | MRangeRequest p => XXX_Marshal RangeRequest.MarshalTo info p cap deterministic
  | MRangeResponse p => XXX_Marshal RangeResponse.MarshalTo info p cap deterministic
  | MPutRequest p => XXX_Marshal PutRequest.MarshalTo info p cap deterministic
  | MPutResponse p => XXX_Marshal PutResponse.MarshalTo info p cap deterministic
  end.

(** [Reset] and then [XXX_Unmarshal], for a pointer that is not nil. *)
Definition resetUnmarshal (v : message) (b : bytes) : outcome message :=
  match v with
  | MRangeRequest (Some _) => m ← XXX_Unmarshal RangeRequest.Unmarshal RangeRequest.zero b; Ret (MRangeRequest (Some m))
  | MRangeResponse (Some _) => m ← XXX_Unmarshal RangeResponse.Unmarshal RangeResponse.zero b; Ret (MRangeResponse (Some m))
  | MPutRequest (Some _) => m ← XXX_Unmarshal PutRequest.Unmarshal PutRequest.zero b; Ret (MPutRequest (Some m))
  | MPutResponse (Some _) => m ← XXX_Unmarshal PutResponse.Unmarshal PutResponse.zero b; Ret (MPutResponse (Some m))
  | _ => Panic NilDereference
  end.

(** What is used of github.com/gogo/protobuf/proto: [Marshal] asks a message with
    generated methods for its size and calls its [XXX_Marshal] on a buffer of that
    capacity; [Unmarshal] resets the message and calls its [XXX_Unmarshal]. *)
Class Gogo := {
  protoMarshal : message → outcome bytes;
  protoUnmarshal : bytes → message → outcome message;
  tableMarshal : message → outcome bytes;
  protoMarshal_generated v : protoMarshal v = messageMarshal (tableMarshal v) v (messageSize v) false;
  protoUnmarshal_generated b v : protoUnmarshal b v = resetUnmarshal v b
}.

(** ** v3rpc/codec.go *)
Module codec.
(** What the codec tells the counters of v3rpc/metrics.go. *)
Inductive count := AddSent (n : Z) | AddReceived (n : Z).

Section Codec.
Context `{!Gogo}.

(** The bytes, the error and the count; without bytes it adds 0. *)
Definition Marshal (v : message) : outcome (bytes * option error * count) :=
  match protoMarshal v with
  | Ret b => Ret (b, None, AddSent (len b))
  | Err e => Ret ([], Some e, AddSent 0)
  | Panic p => Panic p
  | OutOfFuel => OutOfFuel
  end.

(** The message as it was left, the error and the count. *)
Definition Unmarshal (data : bytes) (v : message) : outcome (message * option error * count) :=
  let c := AddReceived (len data) in
  match protoUnmarshal data v with
  | Ret v => Ret (v, None, c)
  | Err e => Ret (v, Some e, c)
  | Panic p => Panic p
  | OutOfFuel => OutOfFuel
  end.

Definition String_ : list Z := bs "proto".
End Codec.
End codec.

(** ** The service (rpc.pb.go) *)
Module service.
(** What a Go function of type [(T, error)] returns. *)
Abbreviation reply T := (outcome (T * option err)).

(** [KVServer] and [KVClient] *)
Record KVServer := MkKVServer {
  server_Range : option RangeRequest.t → reply (option RangeResponse.t);
  server_Put : option PutRequest.t → reply (option PutResponse.t)
}.
Record KVClient := MkKVClient {
  client_Range : RangeRequest.t → reply (option RangeResponse.t);
  client_Put : PutRequest.t → reply (option PutResponse.t)
}.

(** An interceptor has the request, the full name of the method and the handler; a
    handler has the server, what decodes the request into its argument, and the
    interceptor.  The reply is an interface, nil when [None]. *)
Abbreviation interceptor := (message → list Z → (message → reply (option message)) → reply (option message)).
Abbreviation methodHandler := (KVServer → (message → reply message) → option interceptor → reply (option message)).

Definition rangeMethod : list Z := bs "/etcdserverpb.KV/Range".
Definition putMethod : list Z := bs "/etcdserverpb.KV/Put".

(** [srv.(KVServer).Range(ctx, req.(\*RangeRequest))]: the pointer becomes an interface. *)
Definition callRange (srv : KVServer) (req : message) : reply (option message) :=
  match req with
  | MRangeRequest p => '(m, e) ← server_Range srv p; Ret (Some (MRangeResponse m), e)
  | _ => Panic (PanicString "interface conversion")
  end.
Definition callPut (srv : KVServer) (req : message) : reply (option message) :=
  match req with
  | MPutRequest p => '(m, e) ← server_Put srv p; Ret (Some (MPutResponse m), e)
  | _ => Panic (PanicString "interface conversion")
  end.

Definition _KV_Range_Handler : methodHandler := λ srv dec interceptor,
  '(v, e) ← dec (MRangeRequest (Some RangeRequest.zero));
  match e, interceptor with
  | Some e, _ => Ret (None, Some e)
  | None, None => callRange srv v
  | None, Some i => i v rangeMethod (callRange srv)
  end.
Definition _KV_Put_Handler : methodHandler := λ srv dec interceptor,
  '(v, e) ← dec (MPutRequest (Some PutRequest.zero));
  match e, interceptor with
  | Some e, _ => Ret (None, Some e)
  | None, None => callPut srv v
  | None, Some i => i v putMethod (callPut srv)
  end.

Record ServiceDesc := MkServiceDesc {
  ServiceName : list Z; Methods : list (list Z * methodHandler); Streams : list (list Z); Metadata_ : list Z
}.
Definition _KV_serviceDesc : ServiceDesc :=
  MkServiceDesc (bs "etcdserverpb.KV") [(bs "Range", _KV_Range_Handler); (bs "Put", _KV_Put_Handler)]
    [] (bs "rpc.proto").

(** A gRPC server: its options, its interceptor, and the service registered with its
    implementation. *)
Record Server := MkServer {
  options : list serving.serverOption; unaryInt : option interceptor; registered : option (ServiceDesc * KVServer)
}.
Definition RegisterKVServer (s : Server) (srv : KVServer) : Server :=
  MkServer (options s) (unaryInt s) (Some (_KV_serviceDesc, srv)).

(** [grpc_prometheus.UnaryServerInterceptor] calls the handler and returns what it
    returns. *)
Class GrpcPrometheus := {
  UnaryServerInterceptor : interceptor;
  UnaryServerInterceptor_calls v name h : UnaryServerInterceptor v name h = h v
}.

(** The server of v3rpc as a [KVServer]: [Range] does not look at its request, [Put]
    does; [quotaKVServer] embeds the interface and adds nothing to it. *)
Definition kvService (kvPut : PutRequest.t → option PutResponse.t * option err) : KVServer :=
  MkKVServer
    (λ p, Ret (v3rpc.Range (default RangeRequest.zero p)))
    (λ p, match p with Some r => Ret (v3rpc.Put kvPut r) | None => Panic NilDereference end).

(** v3rpc.Server *)
Definition NewGRPCServer `{!GrpcPrometheus} (cfg : ServerConfig.t) (gopts : list serving.serverOption)
    (kvPut : PutRequest.t → option PutResponse.t * option err) : Server :=
  RegisterKVServer (MkServer (serving.grpcOptions cfg gopts) (Some UnaryServerInterceptor) None) (kvService kvPut).

(** The last [MaxRecvMsgSize] counts. *)
Definition recvLimit (opts : list serving.serverOption) : Z :=
  foldl (λ n o, match o with serving.MaxRecvMsgSize m => m | _ => n end) (4 * 1024 * 1024) opts.

Section Grpc.
Context `{!StatusLib} `{!Gogo}.

(** What the server does around a handler, with the texts of the library's own
    errors: the request is decoded with its codec; an error of the handler becomes a
    status; a reply is encoded with the codec. *)
Definition decodeRequest (text : error → list Z) (b : bytes) (v : message) : reply message :=
  '(v, e, _) ← codec.Unmarshal b v;
  Ret (v, option_map (λ e, StatusErr Internal (text e)) e).
Definition sendReply (text : error → list Z) (r : option message * option err) : outcome (bytes + err) :=
  match r with
  | (_, Some e) => let '(c, m, _) := FromError e in Ret (inr (StatusErr c m))
  | (None, None) => Ret (inl [])
  | (Some v, None) =>
      '(b, e, _) ← codec.Marshal v;
      Ret (match e with Some e => inr (StatusErr Internal (text e)) | None => inl b end)
  end.

(** What is used of google.golang.org/grpc.  [handleUnary] is the server on the bytes
    of a request: a method of the registered service is found by its full name, a
    request over the limit is refused, a method that is not there is unimplemented,
    and a panic of the handler or of the codec is not recovered.  [Invoke] is a call
    over a connection from the same process, as the gateway's, without a deadline:
    the request is encoded, and the answer is decoded or is a status. *)
Class Grpc := {
  handleUnary : Server → list Z → bytes → outcome (bytes + err);
  Invoke : Server → list Z → message → message → reply message;
  unmarshalText : error → list Z;
  marshalText : error → list Z;
  handleUnary_method s desc srv name h b :
    registered s = Some (desc, srv) → NoDup (Methods desc).*1 → (name, h) ∈ Methods desc →
    len b ≤ recvLimit (options s) →
    handleUnary s ([slash] ++ ServiceName desc ++ [slash] ++ name) b =
      h srv (decodeRequest unmarshalText b) (unaryInt s) ≫= sendReply marshalText;
  handleUnary_large s desc srv name b :
    registered s = Some (desc, srv) → name ∈ (Methods desc).*1 → recvLimit (options s) < len b →
    ∃ m, handleUnary s ([slash] ++ ServiceName desc ++ [slash] ++ name) b = Ret (inr (StatusErr ResourceExhausted m));
  handleUnary_unknown s desc srv method b :
    registered s = Some (desc, srv) →
    (∀ name, name ∈ (Methods desc).*1 → method ≠ [slash] ++ ServiceName desc ++ [slash] ++ name) →
    ∃ m, handleUnary s method b = Ret (inr (StatusErr Unimplemented m));
  Invoke_answer s method in_ out b :
    messageMarshal OutOfFuel in_ (messageSize in_) false = Ret b →
    Invoke s method in_ out =
      r ← handleUnary s method b;
      match r with
      | inr e => Ret (out, Some e)
      | inl b' => match resetUnmarshal out b' with
                  | Ret v => Ret (v, None)
                  | Err e => Ret (out, Some (StatusErr Internal (unmarshalText e)))
                  | Panic p => Panic p
                  | OutOfFuel => OutOfFuel
                  end
      end
}.

(** [kVClient]: the response is filled by the call. *)
Definition client_RangeCall `{!Grpc} (cc : Server) (r : RangeRequest.t) : reply (option RangeResponse.t) :=
  '(v, e) ← Invoke cc rangeMethod (MRangeRequest (Some r)) (MRangeResponse (Some RangeResponse.zero));
  Ret (match e, v with
       | None, MRangeResponse out => (out, None)
       | None, _ => (None, None)
       | Some e, _ => (None, Some e)
       end).
Definition client_PutCall `{!Grpc} (cc : Server) (r : PutRequest.t) : reply (option PutResponse.t) :=
  '(v, e) ← Invoke cc putMethod (MPutRequest (Some r)) (MPutResponse (Some PutResponse.zero));
  Ret (match e, v with
       | None, MPutResponse out => (out, None)
       | None, _ => (None, None)
       | Some e, _ => (None, Some e)
       end).
Definition NewKVClient `{!Grpc} (cc : Server) : KVClient := MkKVClient (client_RangeCall cc) (client_PutCall cc).
End Grpc.
End service.

(** ** The service, end to end *)

Section EndToEnd.
Import service.
Context `{!StatusLib} `{!Gogo} `{!Grpc} `{!GrpcPrometheus}.

(** The codec: what is encoded is counted and decodes to itself. *)
Lemma codec_put r (b := encode PutRequest.Unmarshal r) :
  codec_wf PutRequest.Unmarshal r → len b < 2 ^ 63 →
  codec.Marshal (MPutRequest (Some r)) = Ret (b, None, codec.AddSent (len b)) ∧
  codec.Unmarshal b (MPutRequest (Some PutRequest.zero)) = Ret (MPutRequest (Some r), None, codec.AddReceived (len b)).
Proof.
  intros Hwf Hl. unfold codec.Marshal, codec.Unmarshal. rewrite protoMarshal_generated, protoUnmarshal_generated. simpl.
  rewrite codec_Size by done. rewrite codec_MarshalTo by done. split; [done|].
  unfold XXX_Unmarshal, b. by rewrite codec_Unmarshal.
Qed.
Lemma codec_range q (b := encode RangeRequest.Unmarshal q) :
  codec_wf RangeRequest.Unmarshal q → len b < 2 ^ 63 →
  codec.Marshal (MRangeRequest (Some q)) = Ret (b, None, codec.AddSent (len b)) ∧
  codec.Unmarshal b (MRangeRequest (Some RangeRequest.zero)) = Ret (MRangeRequest (Some q), None, codec.AddReceived (len b)).
Proof.
  intros Hwf Hl. unfold codec.Marshal, codec.Unmarshal. rewrite protoMarshal_generated, protoUnmarshal_generated. simpl.
  rewrite codec_Size by done. rewrite codec_MarshalTo by done. split; [done|].
  unfold XXX_Unmarshal, b. by rewrite codec_Unmarshal.
Qed.
(** A nil response has a size and no encoding. *)
Lemma codec_nil v : v = MRangeResponse None ∨ v = MPutResponse None →
  messageSize v = 0 ∧ codec.Marshal v = Panic NilDereference.
Proof. intros [-> | ->]; (split; [done|]); unfold codec.Marshal; by rewrite protoMarshal_generated. Qed.

Lemma checkPut_status r e : v3rpc.checkPutRequest r = Some e → ∃ m, e = StatusErr InvalidArgument m.
Proof. unfold v3rpc.checkPutRequest. repeat case_match; naive_solver. Qed.

Context (cfg : ServerConfig.t) (gopts : list serving.serverOption).
Context (kvPut : PutRequest.t → option PutResponse.t * option err).
Let s := NewGRPCServer cfg gopts kvPut.

(** A call of a method of the service whose request is encoded as [b]. *)
Lemma Invoke_kv name h in_ out b :
  (name, h) ∈ Methods _KV_serviceDesc → messageMarshal OutOfFuel in_ (messageSize in_) false = Ret b →
  len b ≤ recvLimit (options s) →
  Invoke s (bs "/etcdserverpb.KV/" ++ name) in_ out =
    r ← h (kvService kvPut) (decodeRequest unmarshalText b) (Some UnaryServerInterceptor) ≫= sendReply marshalText;
    match r with
    | inr e => Ret (out, Some e)
    | inl b' => match resetUnmarshal out b' with
                | Ret v => Ret (v, None)
                | Err e => Ret (out, Some (StatusErr Internal (unmarshalText e)))
                | Panic p => Panic p
                | OutOfFuel => OutOfFuel
                end
    end.
Proof.
  intros Hin Hb Hl. rewrite (Invoke_answer _ _ _ _ b) by done.
  change (bs "/etcdserverpb.KV/" ++ name) with ([slash] ++ ServiceName _KV_serviceDesc ++ [slash] ++ name).
  rewrite (handleUnary_method s _KV_serviceDesc (kvService kvPut) name h b); [done|done| |done|done].
  by apply (bool_decide_unpack _).
Qed.

(** The answer to a [Put], to one that is too large, and to a [Range]. *)
Lemma client_PutCall_spec r :
  codec_wf PutRequest.Unmarshal r → len (encode PutRequest.Unmarshal r) < 2 ^ 63 →
  len (encode PutRequest.Unmarshal r) ≤ recvLimit (options s) →
  client_PutCall s r =
    match v3rpc.checkPutRequest r, (kvPut r).2 with
    | Some e, _ => Ret (None, Some e)
    | None, Some e => Ret (None, Some (StatusErr (FromError e).1.1 (FromError e).1.2))
    | None, None => Panic NilDereference
    end.
Proof.
  intros Hr Lr Hl. unfold client_PutCall. change putMethod with (bs "/etcdserverpb.KV/" ++ bs "Put").
  erewrite (Invoke_kv (bs "Put") _KV_Put_Handler); [|set_solver| |done].
  2:{ simpl. by rewrite codec_Size, codec_MarshalTo. }
  unfold _KV_Put_Handler, decodeRequest. rewrite (proj2 (codec_put r Hr Lr)), !bind_Ret. cbn [option_map].
  rewrite UnaryServerInterceptor_calls. cbn [callPut kvService server_Put]. rewrite bind_Ret. unfold v3rpc.Put.
  destruct (v3rpc.checkPutRequest r) as [e|] eqn:Hc.
  { apply checkPut_status in Hc as [m ->]. rewrite bind_Ret. cbn [sendReply]. by rewrite FromError_status. }
  destruct (kvPut r) as [p [e|]]; cbn [snd]; rewrite bind_Ret; cbn [sendReply].
  - by destruct (FromError e) as [[c m] b].
  - by rewrite (proj2 (codec_nil (MPutResponse None) (or_intror eq_refl))).
Qed.
Lemma client_PutCall_large r :
  codec_wf PutRequest.Unmarshal r → len (encode PutRequest.Unmarshal r) < 2 ^ 63 →
  recvLimit (options s) < len (encode PutRequest.Unmarshal r) →
  ∃ m, client_PutCall s r = Ret (None, Some (StatusErr ResourceExhausted m)).
Proof.
  intros Hr Lr Hl.
  destruct (handleUnary_large s _KV_serviceDesc (kvService kvPut) (bs "Put") (encode PutRequest.Unmarshal r))
    as [m Hm]; [done|set_solver|done|].
  exists m. unfold client_PutCall. rewrite (Invoke_answer _ _ _ _ (encode PutRequest.Unmarshal r)).
  2:{ simpl. by rewrite codec_Size, codec_MarshalTo. }
  change putMethod with ([slash] ++ ServiceName _KV_serviceDesc ++ [slash] ++ bs "Put"). by rewrite Hm.
Qed.
Lemma client_RangeCall_spec q :
  codec_wf RangeRequest.Unmarshal q → len (encode RangeRequest.Unmarshal q) < 2 ^ 63 →
  len (encode RangeRequest.Unmarshal q) ≤ recvLimit (options s) → client_RangeCall s q = Panic NilDereference.
Proof.
  intros Hq Lq Hl. unfold client_RangeCall. change rangeMethod with (bs "/etcdserverpb.KV/" ++ bs "Range").
  erewrite (Invoke_kv (bs "Range") _KV_Range_Handler); [|set_solver| |done].
  2:{ simpl. by rewrite codec_Size, codec_MarshalTo. }
  unfold _KV_Range_Handler, decodeRequest. rewrite (proj2 (codec_range q Hq Lq)), !bind_Ret. cbn [option_map].
  rewrite UnaryServerInterceptor_calls. cbn [callRange kvService server_Range].
  unfold v3rpc.Range. rewrite !bind_Ret. cbn [sendReply].
  by rewrite (proj2 (codec_nil (MRangeResponse None) (or_introl eq_refl))).
Qed.

(** C35 (error): the key-value service as a client of gRPC sees it.  A [Put] that the
    handler refuses, and one that the server fails, answer a status; the error's own
    code is lost unless it is a status.  A [Put] that succeeds, and every [Range],
    end the server: their handlers return a nil response, which has no encoding.  A
    request over the limit of the server is refused before it is decoded. *)
Theorem kv_over_grpc r q :
  codec_wf PutRequest.Unmarshal r → codec_wf RangeRequest.Unmarshal q →
  len (encode PutRequest.Unmarshal r) < 2 ^ 63 → len (encode RangeRequest.Unmarshal q) < 2 ^ 63 →
  (len (encode PutRequest.Unmarshal r) ≤ recvLimit (options s) →
     client_PutCall s r =
       match v3rpc.checkPutRequest r, (kvPut r).2 with
       | Some e, _ => Ret (None, Some e)
       | None, Some e => Ret (None, Some (StatusErr (FromError e).1.1 (FromError e).1.2))
       | None, None => Panic NilDereference
       end) ∧
  (recvLimit (options s) < len (encode PutRequest.Unmarshal r) →
     ∃ m, client_PutCall s r = Ret (None, Some (StatusErr ResourceExhausted m))) ∧
  (len (encode RangeRequest.Unmarshal q) ≤ recvLimit (options s) → client_RangeCall s q = Panic NilDereference).
Proof.
  intros Hr Hq Lr Lq. split_and!; intros Hl.
  - by apply client_PutCall_spec.
  - by apply client_PutCall_large.
  - by apply client_RangeCall_spec.
Qed.
End EndToEnd.

(** ** An instance: the laws of the libraries can hold *)

Section Instances.
Import service.

#[local] Instance sample_gogo : Gogo :=
  {| protoMarshal v := messageMarshal OutOfFuel v (messageSize v) false;
     protoUnmarshal b v := resetUnmarshal v b; tableMarshal _ := OutOfFuel;
     protoMarshal_generated _ := eq_refl; protoUnmarshal_generated _ _ := eq_refl |}.
#[local] Instance sample_prometheus : GrpcPrometheus :=
  {| UnaryServerInterceptor v _ h := h v; UnaryServerInterceptor_calls _ _ _ := eq_refl |}.

Definition fullName (desc : ServiceDesc) (name : list Z) : list Z := [slash] ++ ServiceName desc ++ [slash] ++ name.
Definition findMethod (desc : ServiceDesc) (method : list Z) : option (list Z * methodHandler) :=
  List.find (λ nh, bool_decide (method = fullName desc nh.1)) (Methods desc).
Lemma findMethod_in desc name h :
  NoDup (Methods desc).*1 → (name, h) ∈ Methods desc → findMethod desc (fullName desc name) = Some (name, h).
Proof.
  unfold findMethod. intros Hn Hin. induction (Methods desc) as [|[n h'] l IH]; [by apply elem_of_nil in Hin|].
  simpl. apply NoDup_cons in Hn as [Hn1 Hn2]. destruct (decide (n = name)) as [->|Hne].
  - rewrite bool_decide_eq_true_2 by done. apply elem_of_cons in Hin as [[= ->]|Hin]; [done|].
    exfalso. apply Hn1. apply list_elem_of_fmap. by exists (name, h).
  - rewrite bool_decide_eq_false_2.
    2:{ unfold fullName. intros E. apply Hne. by repeat apply app_inv_head in E. }
    apply IH; [done|]. apply elem_of_cons in Hin as [[= -> _]|Hin]; done.
Qed.
Lemma findMethod_elem desc name : name ∈ (Methods desc).*1 → is_Some (findMethod desc (fullName desc name)).
Proof.
  unfold findMethod. intros Hin. induction (Methods desc) as [|[n h'] l IH]; [by apply elem_of_nil in Hin|].
  simpl. case_bool_decide as E; [by eexists|]. apply IH. apply elem_of_cons in Hin as [->|Hin]; [|done].
  by destruct E.
Qed.
Lemma findMethod_none desc method :
  (∀ name, name ∈ (Methods desc).*1 → method ≠ fullName desc name) → findMethod desc method = None.
Proof.
  unfold findMethod. intros H. induction (Methods desc) as [|[n h'] l IH]; [done|].
  simpl. rewrite bool_decide_eq_false_2 by (apply H; set_solver). apply IH. intros name Hn. apply H. set_solver.
Qed.

Context `{!StatusLib}.
Definition sample_handle (s : Server) (method : list Z) (b : bytes) : outcome (bytes + err) :=
  match registered s with
  | None => Ret (inr (StatusErr Unimplemented []))
  | Some (desc, srv) =>
      match findMethod desc method with
      | None => Ret (inr (StatusErr Unimplemented []))
      | Some (_, h) =>
          if recvLimit (options s) <? len b then Ret (inr (StatusErr ResourceExhausted []))
          else h srv (decodeRequest (λ _, []) b) (unaryInt s) ≫= sendReply (λ _, [])
      end
  end.
#[local] Instance sample_grpc : Grpc.
Proof.
  refine {| handleUnary := sample_handle;
            Invoke s method in_ out :=
              b ← messageMarshal OutOfFuel in_ (messageSize in_) false;
              r ← sample_handle s method b;
              match r with
              | inr e => Ret (out, Some e)
              | inl b' => match resetUnmarshal out b' with
                          | Ret v => Ret (v, None)
                          | Err e => Ret (out, Some (StatusErr Internal []))
                          | Panic p => Panic p
                          | OutOfFuel => OutOfFuel
                          end
              end;
            unmarshalText _ := []; marshalText _ := [] |}.
  - intros s desc srv name h b Hs Hn Hin Hl. unfold sample_handle. rewrite Hs.
    fold (fullName desc name). rewrite (findMethod_in _ _ h) by done.
    destruct (recvLimit _ <? len b) eqn:E; [apply Z.ltb_lt in E; lia|done].
  - intros s desc srv name b Hs Hin Hl. unfold sample_handle. rewrite Hs. fold (fullName desc name).
    destruct (findMethod_elem _ _ Hin) as [[n h] ->]. apply Z.ltb_lt in Hl. rewrite Hl. by eexists.
  - intros s desc srv method b Hs Hn. unfold sample_handle. rewrite Hs, findMethod_none by done. by eexists.
  - intros s method in_ out b Hb. rewrite Hb. done.
Defined.
End Instances.

#[local] Existing Instances sample_status sample_gogo sample_prometheus sample_grpc.

(** A value to ignore is refused, a timeout of the server loses its code, and a
    [Range] ends the server. *)
Lemma kv_over_grpc_witness :
  let cfg := sample_cfg in
  let r := PutRequest.mk (bs "k") (bs "v") 0 false true false None in
  let r' := PutRequest.mk (bs "k") (bs "v") 0 false false false None in
  let s := service.NewGRPCServer cfg [] (λ _, (None, Some (Var etcdserver_ErrTimeout))) in
  service.client_PutCall s r = Ret (None, Some ErrGRPCValueProvided) ∧
  service.client_PutCall s r' = Ret (None, Some (StatusErr Unknown (bs "etcdserver: request timed out"))) ∧
  service.client_RangeCall s RangeRequest.zero = Panic NilDereference.
Proof.
  intros cfg r r' s.
  destruct (kv_over_grpc cfg [] (λ _, (None, Some (Var etcdserver_ErrTimeout))) r RangeRequest.zero) as (H1 & _ & H2);
    [by apply (bool_decide_unpack _)..|].
  destruct (kv_over_grpc cfg [] (λ _, (None, Some (Var etcdserver_ErrTimeout))) r' RangeRequest.zero) as (H3 & _ & _);
    [by apply (bool_decide_unpack _)..|].
  split_and!; [apply H1|apply H3|apply H2]; vm_compute; discriminate.
Defined.
