(* ===== verification/Gateway.v ===== *)
(** * The gateway from HTTP to gRPC

    etcdserverpb/rpc.pb.gw.go: the patterns, the translation of requests, the handlers
    and their registration; and the gateway behind the mux for clients of
    embed/serve.go.  The runtime of grpc-gateway and the WebSocket proxy are classes
    with the laws that the program relies on. *)

From S2P Require Import Prelude GoStd Urls Proto RaftPb RaftPbCodec ProtoChecked EtcdPb EtcdPbCodec Membership Requests Server ApiErrors Embed Serving Rpc.
Import rpctypes service.

(** ** The runtime *)
Module runtime.
Abbreviation MD := (gmap (list Z) (list (list Z))).
Record ServerMetadata := MkServerMetadata { HeaderMD : MD; TrailerMD : MD }.
Definition noMetadata : ServerMetadata := MkServerMetadata ∅ ∅.

(** A handler of the mux; a panic in the gRPC server, which runs in the process, ends
    the process. *)
Abbreviation HandlerFunc := (http.Request → http.Response → outcome http.Response).

(** An error of decoding: the end of the input, or another one by its text. *)
Inductive decodeError := EOF | DecodeError (text : list Z).

Definition OpLitPush : Z := 2.
Definition components (path : list Z) : list (list Z) := split_slash (tail path).

(** What is used of grpc-gateway, for the mux that [NewServeMux] makes.  Handlers are
    given the metadata of the context when it has them, and choose the encoding by the
    request. *)
Class Runtime `{!StatusLib} := {
  Pattern : Type;
  (** [NewPattern(version, ops, pool, verb, AssumeColonVerbOpt(true))] *)
  NewPattern : Z → list Z → list (list Z) → list Z → outcome Pattern;
  Match : Pattern → list (list Z) → bool;
  (** Literals match themselves. *)
  NewPattern_literals pool idxs lits :
    mapM (λ i, pool !! Z.to_nat i) idxs = Some lits → Forall (λ i, 0 ≤ i) idxs →
    ∃ p, NewPattern 1 (concat ((λ i, [OpLitPush; i]) <$> idxs)) pool [] = Ret p ∧
         ∀ cs, Match p cs = bool_decide (cs = lits);
  (** [utilities.IOReaderFactory]: the whole body, or the text of the error. *)
  IOReaderFactory : http.Request → bytes + list Z;
  (** [marshaler.NewDecoder(r).Decode(&m)]: the message as it is left, and the error.
      An empty input is the end; at the end nothing was stored.  A message that was
      decoded has the widths of its fields. *)
  DecodeRange : http.Request → bytes → RangeRequest.t * option decodeError;
  DecodePut : http.Request → bytes → PutRequest.t * option decodeError;
  DecodePut_empty r : DecodePut r [] = (PutRequest.zero, Some EOF);
  DecodePut_eof r b m : DecodePut r b = (m, Some EOF) → m = PutRequest.zero;
  DecodePut_wf r b : codec_wf PutRequest.Unmarshal (DecodePut r b).1;
  (** [AnnotateContext] and [AnnotateIncomingContext] fail on bad headers. *)
  AnnotateContext : http.Request → option err;
  AnnotateIncomingContext : http.Request → option err;
  (** The responses; an error's status is that of its code. *)
  HTTPStatusFromCode : Code → Z;
  HTTPStatus_InvalidArgument : HTTPStatusFromCode InvalidArgument = 400;
  HTTPStatus_Unknown : HTTPStatusFromCode Unknown = 500;
  HTTPError : option ServerMetadata → http.Request → err → http.Response → http.Response;
  HTTPError_status md r e w : http.status w = None →
    http.status (HTTPError md r e w) = Some (HTTPStatusFromCode (FromError e).1.1);
  ForwardResponseMessage : option ServerMetadata → http.Request → message → http.Response → http.Response;
  (** [ServeMux.ServeHTTP] on what was registered, for a path without a verb and a
      request that does not override its method. *)
  serveGateway : list (list Z * Pattern * HandlerFunc) → HandlerFunc;
  serve_match mux p h r w :
    58 ∉ http.Path r → is_rooted (http.Path r) = true → http.Get r (bs "X-Http-Method-Override") = [] →
    (http.Method r, p, h) ∈ mux → Match p (components (http.Path r)) = true →
    (∀ p' h', (http.Method r, p', h') ∈ mux → Match p' (components (http.Path r)) = true → h' = h) →
    serveGateway mux r w = h r w;
  serve_method mux m p h r :
    58 ∉ http.Path r → is_rooted (http.Path r) = true → http.Method r ≠ bs "POST" →
    (m, p, h) ∈ mux → Match p (components (http.Path r)) = true →
    (∀ p' h', (http.Method r, p', h') ∈ mux → Match p' (components (http.Path r)) = false) →
    ∃ w, serveGateway mux r http.fresh = Ret w ∧ http.status w = Some 405;
  serve_none mux r :
    58 ∉ http.Path r → is_rooted (http.Path r) = true →
    (∀ m p h, (m, p, h) ∈ mux → Match p (components (http.Path r)) = false) →
    ∃ w, serveGateway mux r http.fresh = Ret w ∧ http.status w = Some 404
}.

(** [WebsocketProxy] of grpc-websocket-proxy leaves a request alone that does not ask
    for an upgrade. *)
Class Wsproxy := {
  WebsocketProxy : HandlerFunc → HandlerFunc;
  WebsocketProxy_plain h r w : http.Get r (bs "Upgrade") = [] → WebsocketProxy h r w = h r w
}.

(** [MustPattern] panics. *)
Definition MustPattern {P} (o : outcome P) : outcome P :=
  match o with Err _ => Panic (PanicString "Invalid pattern") | _ => o end.
End runtime.

(** ** rpc.pb.gw.go *)
Module gw.
Import runtime.
Section Gw.
Context `{!StatusLib} `{!Runtime}.

Definition pattern_KV_Range_0 : outcome Pattern :=
  MustPattern (NewPattern 1 [2; 0; 2; 1; 2; 2] [bs "v3"; bs "kv"; bs "range"] []).
Definition pattern_KV_Put_0 : outcome Pattern :=
  MustPattern (NewPattern 1 [2; 0; 2; 1; 2; 2] [bs "v3"; bs "kv"; bs "put"] []).

(** A message, the metadata of the call, and an error.  [md] is what the call options
    [grpc.Header] and [grpc.Trailer] receive. *)
Abbreviation answer := (outcome (option message * ServerMetadata * option err)).
Definition invalid (text : list Z) : answer := Ret (None, noMetadata, Some (StatusErr InvalidArgument text)).

Definition request_KV_Range_0 (md : ServerMetadata) (client : KVClient) (req : http.Request) : answer :=
  match IOReaderFactory req with
  | inr berr => invalid berr
  | inl body =>
      match DecodeRange req body with
      | (_, Some (DecodeError err)) => invalid err
      | (protoReq, _) => '(msg, err) ← client_Range client protoReq; Ret (Some (MRangeResponse msg), md, err)
      end
  end.
Definition local_request_KV_Range_0 (server : KVServer) (req : http.Request) : answer :=
  match IOReaderFactory req with
  | inr berr => invalid berr
  | inl body =>
      match DecodeRange req body with
      | (_, Some (DecodeError err)) => invalid err
      | (protoReq, _) => '(msg, err) ← server_Range server (Some protoReq); Ret (Some (MRangeResponse msg), noMetadata, err)
      end
  end.
Definition request_KV_Put_0 (md : ServerMetadata) (client : KVClient) (req : http.Request) : answer :=
  match IOReaderFactory req with
  | inr berr => invalid berr
  | inl body =>
      match DecodePut req body with
      | (_, Some (DecodeError err)) => invalid err
      | (protoReq, _) => '(msg, err) ← client_Put client protoReq; Ret (Some (MPutResponse msg), md, err)
      end
  end.
Definition local_request_KV_Put_0 (server : KVServer) (req : http.Request) : answer :=
  match IOReaderFactory req with
  | inr berr => invalid berr
  | inl body =>
      match DecodePut req body with
      | (_, Some (DecodeError err)) => invalid err
      | (protoReq, _) => '(msg, err) ← server_Put server (Some protoReq); Ret (Some (MPutResponse msg), noMetadata, err)
      end
  end.

Definition forward_KV_Range_0 := ForwardResponseMessage.
Definition forward_KV_Put_0 := ForwardResponseMessage.

(** The body of the handlers, which differ in the annotation, the translation and the
    forwarding. *)
Definition handle (annotate : http.Request → option err) (request : http.Request → answer)
    (forward : option ServerMetadata → http.Request → message → http.Response → http.Response) : HandlerFunc :=
  λ req w,
  match annotate req with
  | Some err => Ret (HTTPError None req err w)
  | None =>
      '(resp, md, err) ← request req;
      Ret (match err, resp with
           | Some err, _ => HTTPError (Some md) req err w
           | None, Some resp => forward (Some md) req resp w
           | None, None => w
           end)
  end.

Abbreviation gwMux := (list (list Z * Pattern * HandlerFunc)).

(** The mux afterwards, and the error, always nil. *)
Definition RegisterKVHandlerServer (mux : gwMux) (server : KVServer) : outcome (gwMux * option error) :=
  range ← pattern_KV_Range_0;
  put ← pattern_KV_Put_0;
  Ret (mux ++ [(bs "POST", range, handle AnnotateIncomingContext (local_request_KV_Range_0 server) forward_KV_Range_0);
               (bs "POST", put, handle AnnotateIncomingContext (local_request_KV_Put_0 server) forward_KV_Put_0)], None).
Definition RegisterKVHandlerClient (md : ServerMetadata) (mux : gwMux) (client : KVClient) : outcome (gwMux * option error) :=
  range ← pattern_KV_Range_0;
  put ← pattern_KV_Put_0;
  Ret (mux ++ [(bs "POST", range, handle AnnotateContext (request_KV_Range_0 md client) forward_KV_Range_0);
               (bs "POST", put, handle AnnotateContext (request_KV_Put_0 md client) forward_KV_Put_0)], None).

Context `{!Gogo} `{!Grpc}.
Definition RegisterKVHandler (md : ServerMetadata) (mux : gwMux) (conn : Server) : outcome (gwMux * option error) :=
  RegisterKVHandlerClient md mux (NewKVClient conn).

(** What happens to the connection: closed at once, with its error logged, or by a
    goroutine when the context is done. *)
Inductive connFate := NotDialled | ClosedNow | ClosedWhenDone.
Definition RegisterKVHandlerFromEndpoint (md : ServerMetadata) (dial : list Z → outcome Server) (mux : gwMux)
    (endpoint : list Z) : outcome (gwMux * option error * connFate) :=
  match dial endpoint with
  | Err e => Ret (mux, Some e, NotDialled)
  | Panic p => Panic p
  | OutOfFuel => OutOfFuel
  | Ret conn =>
      '(mux, err) ← RegisterKVHandler md mux conn;
      Ret (mux, err, match err with Some _ => ClosedNow | None => ClosedWhenDone end)
  end.
End Gw.
End gw.

(** ** Theorems *)
Import runtime.

Section Routing.
Context `{!StatusLib} `{!Runtime} `{!Gogo} `{!Grpc}.

Lemma pattern_literal lit :
  ∃ p, NewPattern 1 [2; 0; 2; 1; 2; 2] [bs "v3"; bs "kv"; lit] [] = Ret p ∧
       ∀ cs, Match p cs = bool_decide (cs = [bs "v3"; bs "kv"; lit]).
Proof. apply (NewPattern_literals [bs "v3"; bs "kv"; lit] [0; 1; 2]); [done|]. repeat constructor; lia. Qed.

(** What the gateway has registered. *)
Lemma RegisterKVHandler_spec md conn :
  ∃ range put,
    gw.RegisterKVHandler md [] conn = Ret (
      [(bs "POST", range, gw.handle AnnotateContext (gw.request_KV_Range_0 md (NewKVClient conn)) gw.forward_KV_Range_0);
       (bs "POST", put, gw.handle AnnotateContext (gw.request_KV_Put_0 md (NewKVClient conn)) gw.forward_KV_Put_0)], None) ∧
    (∀ cs, Match range cs = bool_decide (cs = [bs "v3"; bs "kv"; bs "range"])) ∧
    (∀ cs, Match put cs = bool_decide (cs = [bs "v3"; bs "kv"; bs "put"])).
Proof.
  destruct (pattern_literal (bs "range")) as (range & Hr & Mr).
  destruct (pattern_literal (bs "put")) as (put & Hp & Mp).
  exists range, put. split; [|done]. unfold gw.RegisterKVHandler, gw.RegisterKVHandlerClient, gw.pattern_KV_Range_0, gw.pattern_KV_Put_0.
  by rewrite Hr, Hp.
Qed.

(** A connection is kept for as long as the context, and never left open. *)
Lemma RegisterKVHandlerFromEndpoint_closes md dial endpoint :
  match dial endpoint with
  | Ret conn => ∃ mux, gw.RegisterKVHandler md [] conn = Ret (mux, None) ∧
      gw.RegisterKVHandlerFromEndpoint md dial [] endpoint = Ret (mux, None, gw.ClosedWhenDone)
  | Err e => gw.RegisterKVHandlerFromEndpoint md dial [] endpoint = Ret ([], Some e, gw.NotDialled)
  | _ => True
  end.
Proof.
  unfold gw.RegisterKVHandlerFromEndpoint. destruct (dial endpoint) as [conn| | |]; [|done..].
  destruct (RegisterKVHandler_spec md conn) as (range & put & Hreg & _). eexists. by rewrite Hreg.
Qed.

(** What [registerGateway] of embed/serve.go gets of its only handler, and what a
    context that serves without TLS then starts with: the gateway below [/v3/] beside
    the basic handlers. *)
Definition registerResult (md : ServerMetadata) (conn : Server) : outcome unit :=
  '(_, err) ← gw.RegisterKVHandler md [] conn; match err with Some e => Err e | None => Ret tt end.
Lemma serve_with_gateway md conn dial order cfg s :
  Embed.sc_insecure s = true → ServerConfig.EnableGRPCGateway cfg = true →
  dial (serving.gatewayAddr s) = Ret tt → order (Embed.sc_userHandlers s) = [] →
  serving.serve dial (registerResult md conn) order cfg s =
    (false, Ret (serving.MkSetup [serving.HTTP2; serving.HTTP1] (Some defaultMux))).
Proof.
  intros Hi Hg Hd Ho. unfold serving.serve, serving.registerGateway, registerResult. rewrite Hi, Hg, Hd.
  destruct (RegisterKVHandler_spec md conn) as (range & put & -> & _). rewrite !bind_Ret, Ho, defaultMux_created. done.
Qed.

(** The handlers that call the server directly translate as those that go through a
    client. *)
Lemma local_requests_agree client server req :
  (∀ q, client_Range client q = server_Range server (Some q)) →
  (∀ q, client_Put client q = server_Put server (Some q)) →
  gw.request_KV_Range_0 noMetadata client req = gw.local_request_KV_Range_0 server req ∧
  gw.request_KV_Put_0 noMetadata client req = gw.local_request_KV_Put_0 server req.
Proof.
  intros Hr Hp. unfold gw.request_KV_Range_0, gw.local_request_KV_Range_0, gw.request_KV_Put_0, gw.local_request_KV_Put_0.
  destruct (IOReaderFactory req) as [body|]; [|done].
  destruct (DecodeRange req body) as [q e], (DecodePut req body) as [q' e']. by rewrite Hr, Hp.
Qed.
End Routing.

(** ** A put over HTTP *)

Section Put.
Context `{!StatusLib} `{!Runtime} `{!Wsproxy} `{!Gogo} `{!Grpc} `{!GrpcPrometheus}.
Context (md : ServerMetadata) (cfg : ServerConfig.t) (gopts : list serving.serverOption).
Context (kvPut : PutRequest.t → option PutResponse.t * option err).
Let conn := NewGRPCServer cfg gopts kvPut.

Definition putPath : list Z := bs "/v3/kv/put".
Definition withPath (p : list Z) (r : http.Request) : http.Request :=
  http.MkRequest (http.Method r) (http.Host r) p (http.ProtoMajor r) (http.reqHeader r) (http.TLS r).

(** What the gateway answers to a request for the path of [Put]. *)
Lemma gateway_put_handler mux r w :
  gw.RegisterKVHandler md [] conn = Ret (mux, None) →
  http.Path r = putPath → http.Method r = bs "POST" → http.Get r (bs "X-Http-Method-Override") = [] →
  http.Get r (bs "Upgrade") = [] →
  WebsocketProxy (serveGateway mux) r w =
    gw.handle AnnotateContext (gw.request_KV_Put_0 md (NewKVClient conn)) gw.forward_KV_Put_0 r w.
Proof.
  intros Hm Hp Hpost Ho Hu. rewrite WebsocketProxy_plain by done.
  destruct (RegisterKVHandler_spec md conn) as (range & put & Hreg & Mr & Mp).
  rewrite Hreg in Hm. injection Hm as <-.
  eapply serve_match.
  - rewrite Hp. by apply (bool_decide_unpack _).
  - by rewrite Hp.
  - done.
  - rewrite Hpost. right. left.
  - by rewrite Mp, Hp.
  - intros p' h' Hin Hmatch. rewrite Hpost in Hin. apply elem_of_cons in Hin as [[= -> ->]|Hin].
    + by rewrite Mr, Hp in Hmatch.
    + apply list_elem_of_singleton in Hin as [= -> ->]. done.
Qed.
Lemma gateway_put_method mux r :
  gw.RegisterKVHandler md [] conn = Ret (mux, None) →
  http.Path r = putPath → http.Method r ≠ bs "POST" → http.Get r (bs "Upgrade") = [] →
  ∃ w, WebsocketProxy (serveGateway mux) r http.fresh = Ret w ∧ http.status w = Some 405.
Proof.
  intros Hm Hp Hpost Hu. rewrite WebsocketProxy_plain by done.
  destruct (RegisterKVHandler_spec md conn) as (range & put & Hreg & Mr & Mp).
  rewrite Hreg in Hm. injection Hm as <-.
  eapply (serve_method _ (bs "POST") put).
  - rewrite Hp. by apply (bool_decide_unpack _).
  - by rewrite Hp.
  - done.
  - right. left.
  - by rewrite Mp, Hp.
  - intros p' h' Hin. apply elem_of_cons in Hin as [[= E _ _]|Hin]; [done|].
    by apply list_elem_of_singleton in Hin as [= E _ _].
Qed.

(** The status of the response to a [Put] over HTTP whose body reads as [body];
    [None] when the server ends. *)
Definition putStatus (r : http.Request) (body : bytes + list Z) : option Z :=
  match body with
  | inr _ => Some 400
  | inl b =>
      match DecodePut r b with
      | (_, Some (DecodeError _)) => Some 400
      | (q, _) =>
          match v3rpc.checkPutRequest q, (kvPut q).2 with
          | Some _, _ => Some 400
          | None, Some e => Some (HTTPStatusFromCode (FromError e).1.1)
          | None, None => None
          end
      end
  end.

(** The request that a body is decoded to can be sent. *)
Definition sendable (r : http.Request) (body : bytes + list Z) : Prop :=
  match body with
  | inr _ => True
  | inl b => len (encode PutRequest.Unmarshal (DecodePut r b).1) < 2 ^ 63 ∧
             len (encode PutRequest.Unmarshal (DecodePut r b).1) ≤ recvLimit (options conn)
  end.

Lemma HTTPError_known md' r c m : c ≠ OK →
  http.status (HTTPError md' r (StatusErr c m) http.fresh) = Some (HTTPStatusFromCode c).
Proof. intros Hc. rewrite HTTPError_status, FromError_status by done. done. Qed.

Definition putHandler : HandlerFunc :=
  gw.handle AnnotateContext (gw.request_KV_Put_0 md (NewKVClient conn)) gw.forward_KV_Put_0.

Lemma handle_put_invalid r text :
  AnnotateContext r = None → gw.request_KV_Put_0 md (NewKVClient conn) r = gw.invalid text →
  ∃ w, putHandler r http.fresh = Ret w ∧ http.status w = Some 400.
Proof.
  unfold putHandler, gw.handle, gw.invalid. intros -> ->. eexists. split; [reflexivity|].
  rewrite HTTPError_known by done. by rewrite HTTPStatus_InvalidArgument.
Qed.
Lemma handle_put_called r b q e :
  AnnotateContext r = None → IOReaderFactory r = inl b → DecodePut r b = (q, e) → e = None ∨ e = Some EOF →
  len (encode PutRequest.Unmarshal q) < 2 ^ 63 → len (encode PutRequest.Unmarshal q) ≤ recvLimit (options conn) →
  match v3rpc.checkPutRequest q, (kvPut q).2 with
  | Some _, _ => ∃ w, putHandler r http.fresh = Ret w ∧ http.status w = Some 400
  | None, Some e => (FromError e).1.1 ≠ OK →
      ∃ w, putHandler r http.fresh = Ret w ∧ http.status w = Some (HTTPStatusFromCode (FromError e).1.1)
  | None, None => putHandler r http.fresh = Panic NilDereference
  end.
Proof.
  intros Ha Hb Hd He L1 L2.
  assert (Hwf : codec_wf PutRequest.Unmarshal q) by (pose proof (DecodePut_wf r b) as Hw; by rewrite Hd in Hw).
  assert (Hreq : gw.request_KV_Put_0 md (NewKVClient conn) r =
    '(msg, err) ← client_PutCall conn q; Ret (Some (MPutResponse msg), md, err)).
  { unfold gw.request_KV_Put_0. rewrite Hb, Hd. by destruct He as [-> | ->]. }
  pose proof (client_PutCall_spec cfg gopts kvPut q Hwf L1 L2) as Hcall. fold conn in Hcall.
  unfold putHandler, gw.handle. rewrite Ha, Hreq, Hcall.
  destruct (v3rpc.checkPutRequest q) as [e'|] eqn:Hc.
  - apply checkPut_status in Hc as [m ->]. eexists. split; [reflexivity|].
    rewrite HTTPError_known by done. by rewrite HTTPStatus_InvalidArgument.
  - destruct (kvPut q).2 as [e'|]; [|done]. intros Hok. eexists. split; [reflexivity|].
    by apply HTTPError_known.
Qed.

End Put.

(** ** An instance: the laws of the runtime can hold *)

Section SampleRuntime.
Context `{!StatusLib}.
Fixpoint sample_literals (ops : list Z) (pool : list (list Z)) : option (list (list Z)) :=
  match ops with
  | [] => Some []
  | [_] => None
  | op :: i :: ops =>
      if op =? OpLitPush then l ← pool !! Z.to_nat i; ls ← sample_literals ops pool; Some (l :: ls) else None
  end.
Lemma sample_literals_spec pool idxs lits :
  mapM (λ i, pool !! Z.to_nat i) idxs = Some lits →
  sample_literals (concat ((λ i, [OpLitPush; i]) <$> idxs)) pool = Some lits.
Proof.
  revert lits. induction idxs as [|i idxs IH]; intros lits Hm; [exact Hm|].
  apply bind_Some in Hm as (l & Hl & Hm). apply bind_Some in Hm as (ls & Hls & [= <-]).
  rewrite fmap_cons. cbn [concat app sample_literals]. rewrite Z.eqb_refl, Hl. cbn [mbind option_bind].
  by rewrite (IH ls).
Qed.

Abbreviation sampleMux := (list (list Z * list (list Z) * HandlerFunc)).
Definition sample_matches (cs : list (list Z)) (e : list Z * list (list Z) * HandlerFunc) : bool := bool_decide (cs = e.1.2).
Definition sample_serve (mux : sampleMux) : HandlerFunc := λ r w,
  let cs := components (http.Path r) in
  match List.find (λ e, bool_decide (http.Method r = e.1.1) && sample_matches cs e) mux with
  | Some (_, _, h) => h r w
  | None => Ret (http.WriteHeader (if List.existsb (sample_matches cs) mux then 405 else 404) w)
  end.

#[local] Instance sample_runtime : Runtime.
Proof.
  refine {| Pattern := list (list Z);
            NewPattern _ ops pool _ := match sample_literals ops pool with Some l => Ret l | None => Err (Errorf "pattern") end;
            Match p cs := bool_decide (cs = p);
            IOReaderFactory _ := inl [];
            DecodeRange _ _ := (RangeRequest.zero, None);
            DecodePut _ b := (PutRequest.mk b [] 0 false false false None, match b with [] => Some EOF | _ => None end);
            AnnotateContext _ := None; AnnotateIncomingContext _ := None;
            HTTPStatusFromCode c := match c with InvalidArgument => 400 | _ => 500 end;
            HTTPError _ _ e w := http.WriteHeader (match (FromError e).1.1 with InvalidArgument => 400 | _ => 500 end) w;
            ForwardResponseMessage _ _ _ w := w;
            serveGateway := sample_serve |}.
  - intros pool idxs lits Hm _. rewrite (sample_literals_spec _ _ _ Hm). by eexists.
  - done.
  - intros r [|c b] m Hm; by injection Hm.
  - intros r b. split; [|done]. by apply (bool_decide_unpack _).
  - done.
  - done.
  - intros md r e [h [s|] b] Hs; done.
  - intros mux p h r w _ _ _ Hin Hm Hu. unfold sample_serve.
    destruct (List.find _ mux) as [[[m' p'] h']|] eqn:E.
    + apply List.find_some in E as [Hin' E]. apply andb_true_iff in E as [E1 E2].
      apply bool_decide_eq_true in E1. cbn [fst snd] in E1. subst m'.
      rewrite (Hu p' h'); [done|by apply list_elem_of_In|exact E2].
    + apply list_elem_of_In in Hin. pose proof (List.find_none _ _ E _ Hin) as Hf. cbn [fst snd] in Hf.
      rewrite bool_decide_eq_true_2 in Hf by done. unfold sample_matches in Hf. cbn [fst snd] in Hf. by rewrite Hm in Hf.
  - intros mux m p h r _ _ _ Hin Hm Hu. unfold sample_serve.
    destruct (List.find _ mux) as [[[m' p'] h']|] eqn:E.
    + apply List.find_some in E as [Hin' E]. apply andb_true_iff in E as [E1 E2].
      apply bool_decide_eq_true in E1. cbn [fst snd] in E1. subst m'. apply list_elem_of_In in Hin'.
      unfold sample_matches in E2. cbn [fst snd] in E2. by rewrite (Hu p' h' Hin') in E2.
    + replace (List.existsb _ mux) with true; [by eexists|].
      symmetry. apply List.existsb_exists. exists (m, p, h). by rewrite <- list_elem_of_In.
  - intros mux r _ _ Hu. unfold sample_serve.
    destruct (List.find _ mux) as [[[m' p'] h']|] eqn:E.
    + apply List.find_some in E as [Hin' E]. apply andb_true_iff in E as [_ E2]. apply list_elem_of_In in Hin'.
      unfold sample_matches in E2. cbn [fst snd] in E2. by rewrite (Hu m' p' h' Hin') in E2.
    + replace (List.existsb _ mux) with false; [by eexists|].
      symmetry. apply not_true_is_false. intros Hex. apply List.existsb_exists in Hex as ([[m' p'] h'] & Hin' & Hm').
      apply list_elem_of_In in Hin'. unfold sample_matches in Hm'. cbn [fst snd] in Hm'. by rewrite (Hu m' p' h' Hin') in Hm'.
Defined.
End SampleRuntime.
#[local] Instance sample_wsproxy : Wsproxy :=
  {| WebsocketProxy h := h; WebsocketProxy_plain _ _ _ _ := eq_refl |}.

#[local] Existing Instances sample_status sample_gogo sample_prometheus sample_grpc sample_runtime.

