(* ===== verification/Metrics.v ===== *)
(** * Metrics

    The descriptors of etcdserver/metrics.go and v3rpc/metrics.go, what the program
    writes to them, and the conditions under which Prometheus accepts them. *)

From S2P Require Import Prelude GoStd Urls Proto RaftPb RaftPbCodec ProtoChecked EtcdPb EtcdPbCodec Membership Requests Server ApiErrors Embed Serving Rpc.

(** ** Descriptors

    [GaugeOpts] and [CounterOpts], the labels of a vector, and the kind. *)
Inductive metricKind := Gauge | Counter | GaugeVec | CounterVec.
#[global] Instance metricKind_eq_dec : EqDecision metricKind.
Proof. solve_decision. Defined.
Record metric := MkMetric {
  m_kind : metricKind; Namespace : list Z; Subsystem : list Z; m_Name : list Z; m_Help : list Z; m_labels : list (list Z)
}.
#[global] Instance metric_eq_dec : EqDecision metric.
Proof. solve_decision. Defined.
Definition NewGauge (ns sub name help : string) : metric := MkMetric Gauge (bs ns) (bs sub) (bs name) (bs help) [].
Definition NewCounter (ns sub name help : string) : metric := MkMetric Counter (bs ns) (bs sub) (bs name) (bs help) [].
Definition NewGaugeVec (ns sub name help : string) (labels : list string) : metric :=
  MkMetric GaugeVec (bs ns) (bs sub) (bs name) (bs help) (bs <$> labels).
Definition NewCounterVec (ns sub name help : string) (labels : list string) : metric :=
  MkMetric CounterVec (bs ns) (bs sub) (bs name) (bs help) (bs <$> labels).

(** ** etcdserver/metrics.go *)
Module metrics.
#[local] Open Scope string_scope.
Definition hasLeader : metric :=
  NewGauge "etcd" "server" "has_leader"
    "Whether or not a leader exists. 1 is existence, 0 is not.".
Definition isLeader : metric :=
  NewGauge "etcd" "server" "is_leader"
    "Whether or not this member is a leader. 1 if is, 0 otherwise.".
Definition leaderChanges : metric :=
  NewCounter "etcd" "server" "leader_changes_seen_total"
    "The number of leader changes seen.".
Definition isLearner : metric :=
  NewGauge "etcd" "server" "is_learner"
    "Whether or not this member is a learner. 1 if is, 0 otherwise.".
Definition learnerPromoteFailed : metric :=
  NewCounterVec "etcd" "server" "learner_promote_failures"
    "The total number of failed learner promotions (likely learner not ready) while this member is leader." ["Reason"].
Definition learnerPromoteSucceed : metric :=
  NewCounter "etcd" "server" "learner_promote_successes"
    "The total number of successful learner promotions while this member is leader.".
Definition heartbeatSendFailures : metric :=
  NewCounter "etcd" "server" "heartbeat_send_failures_total"
    "The total number of leader heartbeat send failures (likely overloaded from slow disk).".
Definition slowApplies : metric :=
  NewCounter "etcd" "server" "slow_apply_total"
    "The total number of slow apply requests (likely overloaded from slow disk).".
Definition applySnapshotInProgress : metric :=
  NewGauge "etcd" "server" "snapshot_apply_in_progress_total"
    "1 if the server is applying the incoming snapshot. 0 if none.".
Definition proposalsCommitted : metric :=
  NewGauge "etcd" "server" "proposals_committed_total"
    "The total number of consensus proposals committed.".
Definition proposalsApplied : metric :=
  NewGauge "etcd" "server" "proposals_applied_total"
    "The total number of consensus proposals applied.".
Definition proposalsPending : metric :=
  NewGauge "etcd" "server" "proposals_pending"
    "The current number of pending proposals to commit.".
Definition proposalsFailed : metric :=
  NewCounter "etcd" "server" "proposals_failed_total"
    "The total number of failed proposals seen.".
Definition slowReadIndex : metric :=
  NewCounter "etcd" "server" "slow_read_indexes_total"
    "The total number of pending read indexes not in sync with leader's or timed out read index requests.".
Definition readIndexFailed : metric :=
  NewCounter "etcd" "server" "read_indexes_failed_total"
    "The total number of failed read indexes seen.".
Definition leaseExpired : metric :=
  NewCounter "etcd_debugging" "server" "lease_expired_total"
    "The total number of expired leases.".
Definition quotaBackendBytes : metric :=
  NewGauge "etcd" "server" "quota_backend_bytes"
    "Current backend storage quota size in bytes.".
Definition currentVersion : metric :=
  NewGaugeVec "etcd" "server" "version"
    "Which version is running. 1 for 'server_version' label with current version." ["server_version"].
Definition currentGoVersion : metric :=
  NewGaugeVec "etcd" "server" "go_version"
    "Which Go version server is running with. 1 for 'server_go_version' label with current version." ["server_go_version"].
Definition serverID : metric :=
  NewGaugeVec "etcd" "server" "id"
    "Server or member ID in hexadecimal format. 1 for 'server_id' label with current ID." ["server_id"].

Definition all : list metric :=
  [hasLeader; isLeader; leaderChanges; isLearner; learnerPromoteFailed; learnerPromoteSucceed; heartbeatSendFailures; slowApplies; applySnapshotInProgress; proposalsCommitted; proposalsApplied; proposalsPending; proposalsFailed; slowReadIndex; readIndexFailed; leaseExpired; quotaBackendBytes; currentVersion; currentGoVersion; serverID].
End metrics.

(** ** v3rpc/metrics.go *)
Module rpcMetrics.
#[local] Open Scope string_scope.
Definition sentBytes : metric :=
  NewCounter "etcd" "network" "client_grpc_sent_bytes_total"
    "The total number of bytes sent to grpc clients.".
Definition receivedBytes : metric :=
  NewCounter "etcd" "network" "client_grpc_received_bytes_total"
    "The total number of bytes received from grpc clients.".

Definition all : list metric := [sentBytes; receivedBytes].
End rpcMetrics.

(** ** What Prometheus asks of a metric

    The full name is the three parts with underscores between them; names match
    [[a-zA-Z_:][a-zA-Z0-9_:]*] and labels [[a-zA-Z_][a-zA-Z0-9_]*] without two
    underscores in front; a registry refuses a name that it has. *)
Definition fqName (m : metric) : list Z := Namespace m ++ bs "_" ++ Subsystem m ++ bs "_" ++ m_Name m.
Definition nameChar (colon first : bool) (c : Z) : bool :=
  ((97 <=? c) && (c <=? 122)) || ((65 <=? c) && (c <=? 90)) || (c =? 95) || (colon && (c =? 58))
  || (negb first && (48 <=? c) && (c <=? 57)).
Definition validName (colon : bool) (s : list Z) : bool :=
  match s with [] => false | c :: s => nameChar colon true c && forallb (nameChar colon false) s end.
Definition validLabel (s : list Z) : bool := validName false s && negb (hasPrefix (bs "__") s).

(** All 22 metrics can be registered together. *)
Lemma metrics_registrable :
  NoDup (fqName <$> metrics.all ++ rpcMetrics.all) ∧
  Forall (λ m, validName true (fqName m) = true ∧ Forall (λ l, validLabel l = true) (m_labels m) ∧ NoDup (m_labels m) ∧
               (m_labels m = [] ↔ m_kind m = Gauge ∨ m_kind m = Counter)) (metrics.all ++ rpcMetrics.all).
Proof.
  split; [apply (bool_decide_unpack _); vm_compute; exact I|].
  rewrite Forall_forall. intros m Hm.
  assert (Hb : forallb (λ m, validName true (fqName m) && forallb validLabel (m_labels m) && bool_decide (NoDup (m_labels m))
    && Bool.eqb (bool_decide (m_labels m = [])) (bool_decide (m_kind m = Gauge ∨ m_kind m = Counter)))
    (metrics.all ++ rpcMetrics.all) = true) by (vm_compute; reflexivity).
  rewrite forallb_forall in Hb. apply list_elem_of_In in Hm. specialize (Hb _ Hm).
  rewrite !andb_true_iff, forallb_forall, eqb_true_iff in Hb. destruct Hb as [[[H1 H2] H3] H4].
  split_and!; [done| |by apply bool_decide_eq_true in H3|].
  - rewrite Forall_forall. intros l Hl. by apply H2, list_elem_of_In.
  - rewrite <- (bool_decide_eq_true (m_labels m = [])), H4. apply bool_decide_eq_true.
Qed.

(** ** What the program writes

    The codec adds to its two counters, [NewBackendQuota] sets a gauge, and a request
    moves [proposalsPending] and [proposalsFailed]; nothing else is written.  A
    counter adds whole numbers exactly (below 2^53). *)
Record readings := Readings { r_sent : Z; r_received : Z; r_quota : Z; r_pending : Z; r_failed : Z }.
Definition noReadings : readings := Readings 0 0 0 0 0.
Definition countOp (c : codec.count) (r : readings) : readings :=
  match c with
  | codec.AddSent n => r <| r_sent ::= Z.add n |>
  | codec.AddReceived n => r <| r_received ::= Z.add n |>
  end.
Definition setQuota (cfg : ServerConfig.t) (r : readings) : readings :=
  r <| r_quota := ServerConfig.QuotaBackendBytes cfg |>.
Definition incPending (r : readings) : readings := r <| r_pending ::= Z.succ |>.
Definition decPending (r : readings) : readings := r <| r_pending ::= Z.pred |>.
Definition incFailed (r : readings) : readings := r <| r_failed ::= Z.succ |>.

Section Traffic.
Context `{!Gogo}.
Inductive traffic := Out (v : message) | In_ (data : bytes) (v : message).
Definition codecStep (r : readings) (t : traffic) : outcome readings :=
  match t with
  | Out v => '(_, _, c) ← codec.Marshal v; Ret (countOp c r)
  | In_ d v => '(_, _, c) ← codec.Unmarshal d v; Ret (countOp c r)
  end.
Fixpoint codecRun (r : readings) (l : list traffic) : outcome readings :=
  match l with [] => Ret r | t :: l => r ← codecStep r t; codecRun r l end.

(** What the counters should show: the bytes that were received, decoded or not, and
    the bytes that were made. *)
Definition sentLen (t : traffic) : Z :=
  match t with Out v => match protoMarshal v with Ret b => len b | _ => 0 end | In_ _ _ => 0 end.
Definition receivedLen (t : traffic) : Z := match t with In_ d _ => len d | Out _ => 0 end.

Lemma codecStep_counts r t r' : codecStep r t = Ret r' →
  r' = r <| r_sent ::= Z.add (sentLen t) |> <| r_received ::= Z.add (receivedLen t) |>.
Proof.
  destruct t as [v|d v]; unfold codecStep, codec.Marshal, codec.Unmarshal, sentLen, receivedLen, countOp.
  - destruct (protoMarshal v); intros [= <-]; by destruct r.
  - destruct (protoUnmarshal d v); intros [= <-]; by destruct r.
Qed.
Lemma codecRun_counts l : ∀ r r', codecRun r l = Ret r' →
  r_sent r' = r_sent r + foldr Z.add 0 (sentLen <$> l) ∧ r_received r' = r_received r + foldr Z.add 0 (receivedLen <$> l).
Proof.
  induction l as [|t l IH]; intros r r'; [intros [= <-]; cbn; lia|].
  cbn [codecRun]. intros Hr. apply outcome_bind_Ret in Hr as (r1 & Hs & Hl). apply codecStep_counts in Hs as ->.
  apply IH in Hl as [-> ->]. rewrite !fmap_cons. cbn [foldr]. destruct r; cbn. lia.
Qed.
(** The counters never go back. *)
Lemma codecRun_monotone l r r' : codecRun r l = Ret r' → r_sent r ≤ r_sent r' ∧ r_received r ≤ r_received r'.
Proof.
  intros Hr. apply codecRun_counts in Hr as [-> ->].
  assert (Hnn : ∀ f : traffic → Z, (∀ t, 0 ≤ f t) → 0 ≤ foldr Z.add 0 (f <$> l)).
  { intros f Hf. induction l as [|t l' IH]; [done|]. rewrite fmap_cons. cbn [foldr]. pose proof (Hf t). lia. }
  pose proof (Hnn sentLen) as Hs. pose proof (Hnn receivedLen) as Hl.
  assert (∀ t, 0 ≤ sentLen t) by (intros [v|]; simpl; [destruct (protoMarshal v); unfold len; lia|lia]).
  assert (∀ t, 0 ≤ receivedLen t) by (intros []; simpl; unfold len; lia).
  specialize (Hs ltac:(done)). specialize (Hl ltac:(done)). lia.
Qed.
End Traffic.

(** ** The proposals

    [processInternalRaftRequestOnce] with its metrics: a request that was proposed is
    pending until it returns, and one whose context is done has failed. *)
Module measured.
Import requests.
Definition observe (a : action) (s : system) (r : readings) : readings :=
  match a with
  | Start q =>
      match (EtcdServerV3.processBegin (EtcdServerV3.putRequest q) (server s)).2 with
      | Ret _ => incPending r
      | _ => r
      end
  | Apply _ _ => r
  | Receive _ | Stopped _ => decPending r
  | CtxDone _ _ _ => decPending (incFailed r)
  end.
Definition step (a : action) (x : system * readings) : outcome (option (system * readings)) :=
  s ← requests.step a x.1; Ret (option_map (λ s, (s, observe a x.1 x.2)) s).
Fixpoint run (l : list action) (x : system * readings) : outcome (option (system * readings)) :=
  match l with
  | [] => Ret (Some x)
  | a :: l => x' ← step a x; match x' with Some x' => run l x' | None => Ret None end
  end.

Definition isCtxDone (a : action) : bool := match a with CtxDone _ _ _ => true | _ => false end.
Definition isStart (a : action) : bool := match a with Start _ => true | _ => false end.
Definition count (f : action → bool) (l : list action) : nat := length (List.filter f l).

(** The requests are those that wait and those that have returned; a number that
    waits was given out. *)
Record balanced (s : system) (r : readings) : Prop := {
  b_pending : r_pending r = Z.of_nat (size (waiting s));
  b_total : (size (waiting s) + length (returned s) = started s)%nat;
  b_fresh k : is_Some (waiting s !! k) → (k < started s)%nat
}.
End measured.

Section Proposals.
Import requests measured.

Lemma balanced_ret s s1 k x id o r r' :
  balanced s r → waiting s !! k = Some x → waiting s1 = waiting s → returned s1 = returned s → started s1 = started s →
  r_pending r' = r_pending r - 1 → balanced (ret k id o s1) r'.
Proof.
  intros [Hp Ht Hf] Hk Hw Hr Hs Hd. unfold ret.
  pose proof (map_size_delete_Some k (waiting s) ltac:(by eexists)) as Hsz.
  assert (size (waiting s) ≠ 0%nat) by (intros E%map_size_empty_inv; by rewrite E, lookup_empty in Hk).
  split; cbn.
  - rewrite Hw, Hsz, Hd, Hp. lia.
  - rewrite Hw, Hr, Hs, Hsz, length_app. cbn. lia.
  - intros k' Hk'. rewrite Hw, Hs in *. apply Hf. destruct Hk' as [y Hy]. apply lookup_delete_Some in Hy as [_ Hy]. by eexists.
Qed.

Lemma balanced_step a s s' r :
  balanced s r → requests.step a s = Ret (Some s') →
  balanced s' (observe a s r) ∧
  r_failed (observe a s r) = r_failed r + (if isCtxDone a then 1 else 0) ∧
  started s' = (started s + if isStart a then 1 else 0)%nat.
Proof.
  intros Hb. destruct a as [q|id ar|k|k e start|k]; cbn [requests.step observe isCtxDone isStart].
  - destruct (EtcdServerV3.processBegin _ _) as [srv [[[id ch] data]|e|p|]]; cbn [snd]; intros [= <-].
    + destruct Hb as [Hp Ht Hf].
      assert (Hn : waiting s !! started s = None).
      { destruct (waiting s !! started s) eqn:E; [|done]. pose proof (Hf _ ltac:(by eexists)). lia. }
      split_and!; [|cbn; lia|cbn; lia]. split; cbn.
      * rewrite map_size_insert_None by done. lia.
      * rewrite map_size_insert_None by done. lia.
      * intros k [x Hx]. apply lookup_insert_Some in Hx as [[<- _]|[_ Hx]]; [lia|].
        pose proof (Hf k ltac:(by eexists)). lia.
    + destruct Hb as [Hp Ht Hf]. split_and!; [|cbn; lia|cbn; lia]. split; cbn.
      * done.
      * rewrite length_app. cbn. lia.
      * intros k Hk. pose proof (Hf k Hk). lia.
  - intros H. apply outcome_bind_Ret in H as (w & _ & [= H]). destruct w as [w|]; [|done]. injection H as <-.
    split_and!; [|cbn; lia|cbn; lia]. by destruct Hb.
  - destruct (waiting s !! k) as [[id ch]|] eqn:Hk; [|done]. destruct (wait.recv _ _) as [[x h]|]; [|done].
    intros H. apply outcome_bind_Ret in H as (ar & _ & [= <-]).
    split_and!; [|cbn; lia|cbn; lia]. by eapply balanced_ret.
  - destruct (waiting s !! k) as [[id ch]|] eqn:Hk; [|done].
    intros H. apply outcome_bind_Ret in H as (w & _ & [= H]). destruct w as [w|]; [|done]. injection H as <-.
    split_and!; [|cbn; lia|cbn; lia]. by eapply balanced_ret.
  - destruct (waiting s !! k) as [[id ch]|] eqn:Hk; [|done]. intros [= <-].
    split_and!; [|cbn; lia|cbn; lia]. by eapply balanced_ret.
Qed.

Lemma balanced_run l : ∀ s s' r,
  balanced s r → requests.run l s = Ret (Some s') →
  ∃ r', measured.run l (s, r) = Ret (Some (s', r')) ∧ balanced s' r' ∧
    r_failed r' = r_failed r + Z.of_nat (count isCtxDone l) ∧ started s' = (started s + count isStart l)%nat.
Proof.
  induction l as [|a l IH]; intros s s' r Hb; cbn [requests.run measured.run].
  { intros [= <-]. exists r. unfold count. cbn. split_and!; [done|done|lia|lia]. }
  intros H. apply outcome_bind_Ret in H as ([s1|] & H1 & H2); [|done].
  destruct (balanced_step a s s1 r Hb H1) as (Hb1 & Hf1 & Hs1).
  destruct (IH s1 s' (observe a s r) Hb1 H2) as (r' & Hr & Hb' & Hf & Hs).
  exists r'. unfold measured.step. cbn [fst snd]. rewrite H1, bind_Ret. cbn [option_map]. rewrite bind_Ret.
  split_and!; [done|done| |]; unfold count in *; cbn [List.filter].
  - destruct (isCtxDone a); cbn [length]; lia.
  - destruct (isStart a); cbn [length]; lia.
Qed.

End Proposals.

